(* ===== verification/_CoqProject ===== *)
-Q . S2P
Prelude.v
GoStrings.v
NetIP.v
NetIPFacts.v
Firewall.v
IndexedFirewall.v
GoURL.v
Registry.v
Memory.v
MemoryConc.v
Store.v
Postgres.v
StoreBacked.v
StoreBackedFacts.v
GoJSON.v
Utf8.v
GoBase64.v
GoTime.v
GoScan.v
GoAny.v
GoFlag.v
Transport.v
Client.v
Proxy.v
ProxyTCP.v
SimHTTP.v
SimProxy.v
Sha256.v
Ring.v
RingFacts.v
DHTNet.v
DHTNetFacts.v
Cluster.v
DHTLife.v
DHTReg.v
KnnDemo.v
SQL.v
Migrate.v
CardDB.v
Journeys.v
JourneysFacts.v
JourneysLive.v
Taps.v
Debts.v
BackOffice.v
Station.v
Gate.v
GateCmd.v
Payment.v
Seeding.v
PCTRKeys.v
SimConfig.v
UDPServer.v
Tickets.v
TicketsFacts.v
ServerConfig.v
ServerCmd.v
ServerLog.v
ProxyCmd.v
P2PUI.v
