(* ===== verification/Prelude.v ===== *)
(** * Task Discovery Service: verification library

    The repository is a service registry.  A server keeps, per task name, the
    addresses that offer it and answers queries by weighted round robin; it can
    be asked over UDP, TCP or TLS, filters answers through a firewall, and can
    keep its services in PostgreSQL behind a cache.  A client library and a
    client proxy talk to it.  A second, peer-to-peer mode keeps the same
    registrations in a distributed hash table.  A ticketing simulation uses
    the service and keeps its cards, taps and debts in databases of its own.

    The development models the Go code as functions on explicit states and
    proves what makes each part correct.  Go values are modelled as follows: an
    [int], [int64] or [time.Duration] is a [Z] whose wrap-around is written out
    where it can occur ([wrap64]); a string is its bytes; a map is a finite
    map, and where the code ranges over one the order is a parameter; an error
    is a value of [result]; a time is a number of nanoseconds and the clock an
    argument; a goroutine is a sequence of steps of a relation.

    ** Files and what they model

    - [Prelude]: results, machine integers, shared list lemmas.
    - [GoStrings], [NetIP], [GoURL], [GoJSON], [GoTime], [GoScan], [GoAny],
      [GoFlag], [GoBase64], [Sha256]: what the code uses of Go's strings, net,
      net/url, encoding/json, time, strconv and fmt, untyped JSON and CSV, flag
      and bufio, encoding/base64, and crypto/sha256.  [NetIPFacts] proves that printing and parsing
      of networks agree, [Utf8] that decoded and trimmed strings are valid.
    - [Firewall] (pkg/firewall/firewall.go and the providers): rule files, the
      linear firewall, file and database providers.  [IndexedFirewall]
      (indexed_firewall.go): the index, its decisions and counters.
    - [Registry] (pkg/registry/registry.go): entries, errors, the class of
      registries, weighted selection.  [Memory] (memory.go): the in-memory
      registry, an abstract directory and the refinement between them.
      [MemoryConc]: concurrent queries as interleaved atomic steps.
    - [Store] (pkg/store/store.go): the class of stores and the laws its client
      relies on.  [Postgres] (postgres/postgres.go): its statements on a table
      of rows under an arbitrary fault schedule, and a proof of the laws.
      [Migrate]: opening the store and the migration of its schema.
    - [StoreBacked], [StoreBackedFacts] (store_backed.go): the cache in front
      of any store, its warm-up, pending registrations and admission.
    - [Transport] (pkg/transport): messages, the request handlers, the TCP
      server as a step relation.  [UDPServer]: the UDP server as a step
      relation over a shared registry, the TLS start-up and broadcasts.
      [Client] (pkg/client/client.go) and [Proxy] (clientProxy.go): the calls
      over an abstract network.  [ProxyTCP]: the TCP front end of the proxy as
      a step relation.
    - [ServerConfig], [ServerCmd], [ServerLog] (cmd/server/main.go): flags and
      prompts, in a monad over the variables and the unread input; start-up,
      the loops and the steps of a running server; the event log, its
      coordinator and the dashboard.
    - [ProxyCmd], [P2PUI] (cmd/client_proxy/main.go and p2p_ui.go): options,
      the goroutines of the process and their shutdown; the log feed and the
      tables of the peer-to-peer dashboard.
    - [Ring], [RingFacts] (pkg/dht/distributed_hash_table.go): identifiers,
      the ring, storage and its sweeps.  [DHTNet], [DHTNetFacts] (network.go):
      messages, joining, discovery, store and find.  [Cluster]: nodes that
      deliver messages to each other.  [DHTLife]: starting and stopping a node
      with its goroutines.  [DHTReg] (registry.go): the registry on top of a
      node.  [KnnDemo] (test_scripts/p2p/knn_demo): the nearest nodes as an
      observer computes them.
    - [SQL]: database/sql over PostgreSQL with transactions and faults.
      [CardDB] (Simulation/carddb/postgres.go and pa.go) and [Journeys] (cs.go
      and pctr.go): every statement of the card store.  [JourneysFacts],
      [JourneysLive], [Taps]: facts about journeys and batches of taps.
      [Debts] (Simulation/pa and Simulation/pctrbo): tokens, reporting and
      restitution between the two databases.
    - [SimHTTP]: the messages the simulated programs post to each other.
      [SimProxy] (Simulation/simproxy): how they register and find each other.
      [BackOffice] (Simulation/cs and Simulation/pctrbo): the endpoints for
      validation and batches.  [Station] (Simulation/station_computer): the
      batcher, and histories of a station and its two back offices.  [Gate]
      (Simulation/gate): the decision to open; [GateCmd]: its loop over the
      standard input.  [Payment] (Simulation/pa): the endpoints of the payment
      authority and the report of debts to it.  [Seeding] (Simulation/pa,
      Simulation/cs and Simulation/pctrbo): the rows put into the tables at
      start-up.  [PCTRKeys] (Simulation/pctrcrypto): loading the keys of
      contactless cards, over a class for the cryptographic libraries.
      [SimConfig] (every main under Simulation/): options, stores and
      registration when a program starts.  [Tickets], [TicketsFacts]
      (Simulation/cs, Simulation/ticketdistributor and the polling of
      Simulation/station_computer): tickets, manifests and their files.

    ** What the theorems show

    - Registry: any history of calls keeps exactly the abstract directory; a
      full turn of the cursor serves each permitted service as often as its
      capacity says; every branch of a query; sweeps remove what is old and
      nothing else; with capacities near 2^63 the total overflows.  Concurrent
      queries are wait-free and keep the round robin and every counter exact.
    - Firewall: which files load and what they mean; the index decides like
      the linear scan in every reachable state.
    - Persistence: a warm-up never loses an unacknowledged registration
      whatever the store answers, unless two services share a pending key;
      registered services stay resolvable; no
      path hands out an address the firewall refuses.  The migration happens
      as a whole or not at all, keeps every row and can be repeated.
    - Wire: messages survive printing and parsing; one answer per request line;
      a client call has exactly the registry's effect and result, over each
      transport and through the proxy (which refuses negative capacities and
      hides that an answer was forbidden); the server never runs more handlers
      than its limit; the UDP server accounts for every datagram, and its
      registry and answers are those of its handler in the order in which the
      requests reached the registry.
    - Commands: the server starts from well-typed options, with TLS when it is
      asked for, and never serves past the configured firewall once it is enabled,
      whatever is typed; a dead service is forgotten in bounded time; the log
      file has one line per event that could be written and the screen is
      bounded, in whatever order the calls interleave.  The options of the proxy are
      usable and its questions end; a foreground proxy exits cleanly; its feed
      depends on the bytes written only, and every logged message reaches it.
    - DHT: the k closest nodes are computed exactly and agreed on in a
      converged cluster; the store loop ends; a reachable node never panics;
      what one node stores every node finds.  A node that is told to stop does
      stop, and an observer who knows the peers computes the same nearest nodes.
    - Simulation: money is conserved by journey construction under any fault;
      without faults every known card is settled; batches take effect once;
      tokens stand for cards one to one; no debt is lost on its way; the
      restitution pays what the cards owe.  A look-up through the proxy is a look-up
      in the registry; a gate opens only after its
      authority approved the card and then its station took the tap, and a
      validated tap is buffered at
      its station with the exact time; no acknowledged tap is lost between a
      station and the back offices; a ticket reaches its station through
      database, endpoint, poll and file.  The loop of a gate answers every line
      in order.  A card tapped with its token is the card charged, from the
      gate to the payment authority; the keys loaded at both ends fit; a report
      over HTTP loses no debt; a service that starts keeps the cards that exist
      and is announced last; a gate finds the station with its id.
    Theorems named in the findings exhibit behaviour the code does not intend.

    ** Fuel and bounds

    Recursion that is not structural takes fuel: the JSON parser the length of
    its input plus a constant (the round-trip theorems show it is enough), the
    store loop of the DHT a number its termination theorem bounds, the chunking
    of id lists the length of the list, durations the length of their text, and
    the question for bootstrap nodes the length of the input (it ends within
    it).  The search of the demo takes the 5000 attempts of the source, and
    the seeding loop as many turns as there are cards.  SHA-256 is computed, with its
    constants derived from the primes.

    ** Not modelled

    Sockets, TLS handshakes and certificate files; the widgets, layout and key
    bindings of the terminal screens; the redirection of standard error; in the
    simulation the columns of its tables, the HTTP servers and the inside of
    RSA; data races (a mutex-protected call is one step).  Where steps are
    coarser than the code: a call of the UDP server's handler on the registry
    is one step ([MemoryConc] has the steps inside), a tap of the running gate
    is one step, and the process of the client proxy starts with its node
    running, so that a signal during the creation of the node is left out.
    The three database programs of the simulation open their listener after
    what [startPA], [startCS] and [startPCTRBO] cover; [listening] adds it.
    The demos and test programs other than [KnnDemo] only exercise the
    service and print what they see. *)

From Stdlib Require Import ZArith Lia.
From stdpp Require Export base tactics list gmap strings fin_maps fin_map_dom numbers.

#[export] Set Default Goal Selector "!".

Declare Scope tds_scope.
Delimit Scope tds_scope with tds.

(** ** Results: a Go function returning [(T, error)] *)

Inductive result (E A : Type) : Type :=
| Ok (a : A)
| Err (e : E).
Arguments Ok {E A} a.
Arguments Err {E A} e.

Definition is_ok {E A} (r : result E A) : bool :=
  match r with Ok _ => true | Err _ => false end.

Notation "'let?' x := r 'in' k" :=
  (match r with Ok x => k | Err e => Err e end)
  (at level 10, x pattern, r at level 100, k at level 200) : tds_scope.

(** ** Machine integers

    Go's [int], [int64] and [time.Duration] are 64-bit two's complement. *)

Definition int64_min : Z := - 2 ^ 63.
Definition int64_max : Z := 2 ^ 63 - 1.

Definition wrap64 (z : Z) : Z := (z + 2 ^ 63) mod 2 ^ 64 - 2 ^ 63.

Definition in_int64 (z : Z) : Prop := (int64_min <= z <= int64_max)%Z.

(** [t.Sub(u)] on [time.Time] saturates at the ends of [time.Duration]. *)
Definition time_sub (t u : Z) : Z := Z.max int64_min (Z.min int64_max (t - u)).

Lemma wrap64_id z : in_int64 z -> wrap64 z = z.
Proof.
  unfold in_int64, wrap64, int64_min, int64_max. intros H.
  rewrite Z.mod_small by lia. lia.
Qed.

Lemma wrap64_range z : in_int64 (wrap64 z).
Proof.
  unfold in_int64, wrap64, int64_min, int64_max.
  pose proof (Z.mod_pos_bound (z + 2 ^ 63) (2 ^ 64) ltac:(lia)). lia.
Qed.

Lemma wrap64_shift z k : wrap64 (z + k * 2 ^ 64) = wrap64 z.
Proof.
  unfold wrap64.
  replace (z + k * 2 ^ 64 + 2 ^ 63)%Z with (z + 2 ^ 63 + k * 2 ^ 64)%Z by lia.
  rewrite Z.mod_add by lia. done.
Qed.

Lemma wrap64_eq z : exists k, wrap64 z = (z + k * 2 ^ 64)%Z.
Proof.
  unfold wrap64. exists (- ((z + 2 ^ 63) / 2 ^ 64))%Z.
  pose proof (Z.div_mod (z + 2 ^ 63) (2 ^ 64) ltac:(lia)). lia.
Qed.

(** Adding then subtracting under wrap-around loses nothing. *)
Lemma wrap64_add_sub c : in_int64 c -> wrap64 (wrap64 (c + 1) - 1) = c.
Proof.
  intros H. destruct (wrap64_eq (c + 1)) as [k ->].
  replace (c + 1 + k * 2 ^ 64 - 1)%Z with (c + k * 2 ^ 64)%Z by lia.
  rewrite wrap64_shift. by apply wrap64_id.
Qed.

Lemma wrap64_add_l a b : wrap64 (wrap64 a + b) = wrap64 (a + b).
Proof.
  destruct (wrap64_eq a) as [k ->]. replace (a + k * 2 ^ 64 + b)%Z with (a + b + k * 2 ^ 64)%Z by lia.
  apply wrap64_shift.
Qed.

Lemma wrap64_add_r a b : wrap64 (a + wrap64 b) = wrap64 (a + b).
Proof. rewrite Z.add_comm, wrap64_add_l. f_equal. lia. Qed.

Lemma wrap64_idemp a : wrap64 (wrap64 a) = wrap64 a.
Proof. apply wrap64_id, wrap64_range. Qed.

Lemma in_int64_0 : in_int64 0.
Proof. unfold in_int64, int64_min, int64_max. lia. Qed.

(** ** Lists *)

(** [List.filter] is the loop that appends what passes a test. *)
Lemma filter_sublist {A} (p : A -> bool) l : List.filter p l `sublist_of` l.
Proof. induction l as [|x l IH]; simpl; [constructor|]. destruct (p x); by constructor. Qed.

(** [s\[len(s)-n:\]] for [n <= len(s)], and [s] otherwise *)
Definition lastN {A} (n : nat) (l : list A) : list A := drop (length l - n) l.

Lemma lastN_length {A} n (l : list A) : length (lastN n l) <= n.
Proof. unfold lastN. rewrite length_drop. lia. Qed.

Lemma lastN_sublist {A} n (l : list A) : lastN n l `sublist_of` l.
Proof. apply sublist_drop. Qed.

Lemma lastN_app {A} n (l k : list A) : n <= length l -> lastN n (lastN n l ++ k) = lastN n (l ++ k).
Proof.
  intros Hn. unfold lastN. rewrite !length_app, length_drop. replace (length l - (length l - n) + length k - n) with (length k) by lia.
  rewrite <-drop_app_le by lia. rewrite drop_drop. f_equal. lia.
Qed.

Lemma lastN_all {A} n (l : list A) : length l <= n -> lastN n l = l.
Proof. intros Hl. unfold lastN. by replace (length l - n) with 0 by lia. Qed.
