(* ===== verification/GoStrings.v ===== *)
(** * The parts of Go's [strings] package the service uses

    Go strings are byte sequences: [String.string] has exactly those values.
    White space is Unicode white space in UTF-8, so a space is one of the
    byte sequences [space_encodings]; because no encoding's first byte is a
    continuation byte, decoding rune by rune and matching these sequences
    byte-wise agree, on invalid UTF-8 too. *)

From Stdlib Require Import Ascii String.
From S2P Require Import Prelude.
From stdpp Require Import list.
Local Open Scope string_scope.

#[local] Arguments String.append : simpl nomatch.

Definition str1 (n : nat) : string := String (ascii_of_nat n) EmptyString.

Fixpoint str_of (bs : list nat) : string :=
  match bs with
  | [] => EmptyString
  | b :: bs => String (ascii_of_nat b) (str_of bs)
  end.

(** [unicode.IsSpace]: TAB, LF, VT, FF, CR, SP, U+0085, U+00A0, U+1680,
    U+2000..U+200A, U+2028, U+2029, U+202F, U+205F, U+3000. *)
Definition space_encodings : list string :=
  str_of <$>
  ([ [9]; [10]; [11]; [12]; [13]; [32]; [194; 133]; [194; 160]; [225; 154; 128] ]
   ++ ((fun k => [226; 128; 128 + k]) <$> seq 0 11)
   ++ [ [226; 128; 168]; [226; 128; 169]; [226; 128; 175]; [226; 129; 159]; [227; 128; 128] ])%list.

(** ** Prefixes and suffixes *)

Fixpoint strip_prefix (p s : string) : option string :=
  match p, s with
  | EmptyString, _ => Some s
  | String a p, String b s => if Ascii.eqb a b then strip_prefix p s else None
  | String _ _, EmptyString => None
  end.

Definition HasPrefix (s p : string) : bool :=
  match strip_prefix p s with Some _ => true | None => false end.

Definition TrimPrefix (s p : string) : string :=
  match strip_prefix p s with Some r => r | None => s end.

Definition str_rev (s : string) : string := string_of_list_ascii (rev (list_ascii_of_string s)).

Definition HasSuffix (s p : string) : bool := HasPrefix (str_rev s) (str_rev p).

Definition TrimSuffix (s p : string) : string := str_rev (TrimPrefix (str_rev s) (str_rev p)).

Fixpoint strip_any (ps : list string) (s : string) : option string :=
  match ps with
  | [] => None
  | p :: ps => match strip_prefix p s with Some r => Some r | None => strip_any ps s end
  end.


(** ** TrimSpace *)

Fixpoint strip_all (ps : list string) (fuel : nat) (s : string) : string :=
  match fuel with
  | O => s
  | S fuel => match strip_any ps s with Some r => strip_all ps fuel r | None => s end
  end.

Definition trim_left (s : string) : string := strip_all space_encodings (String.length s) s.
Definition trim_right (s : string) : string :=
  str_rev (strip_all (str_rev <$> space_encodings) (String.length s) (str_rev s)).

Definition TrimSpace (s : string) : string := trim_right (trim_left s).

(** ** Searching *)

Fixpoint Contains (s sub : string) : bool :=
  HasPrefix s sub ||
  match s with EmptyString => false | String _ s => Contains s sub end.

Fixpoint IndexByte (s : string) (c : ascii) : option nat :=
  match s with
  | EmptyString => None
  | String a s => if Ascii.eqb a c then Some 0 else S <$> IndexByte s c
  end.

Fixpoint LastIndexByte (s : string) (c : ascii) : option nat :=
  match s with
  | EmptyString => None
  | String a s =>
      match LastIndexByte s c with
      | Some i => Some (S i)
      | None => if Ascii.eqb a c then Some 0 else None
      end
  end.

(** [s\[:n\]] and [s\[n:\]], for [n] within the string. *)
Fixpoint str_take (n : nat) (s : string) : string :=
  match n, s with
  | S n, String a s => String a (str_take n s)
  | _, _ => EmptyString
  end.
Fixpoint str_drop (n : nat) (s : string) : string :=
  match n, s with
  | S n, String _ s => str_drop n s
  | _, _ => s
  end.

Definition str_get (s : string) (i : nat) : option ascii := String.get i s.

(** ** Fields: maximal runs of non-space bytes *)

Fixpoint fields_loop (fuel : nat) (cur : string) (s : string) : list string :=
  let flush (l : list string) := if String.eqb cur "" then l else str_rev cur :: l in
  match fuel with
  | O => flush []
  | S fuel =>
      match strip_any space_encodings s with
      | Some r => flush (fields_loop fuel "" r)
      | None =>
          match s with
          | EmptyString => flush []
          | String a s => fields_loop fuel (String a cur) s
          end
      end
  end.

Definition Fields (s : string) : list string := fields_loop (S (String.length s)) "" s.

(** ** Case

    ASCII letters, and the non-ASCII runes whose case mapping is an ASCII
    letter (U+017F and U+0131 upwards; U+212A and U+0130 downwards).  All
    other runes keep their bytes here: their images are not ASCII, so a
    comparison with an ASCII literal gives the same answer. *)

Definition ascii_upper (a : ascii) : ascii :=
  let n := nat_of_ascii a in
  if ((97 <=? n) && (n <=? 122))%nat then ascii_of_nat (n - 32) else a.
Definition ascii_lower (a : ascii) : ascii :=
  let n := nat_of_ascii a in
  if ((65 <=? n) && (n <=? 90))%nat then ascii_of_nat (n + 32) else a.

Fixpoint replace_map (tbl : list (string * string)) (f : ascii -> ascii) (fuel : nat) (s : string) : string :=
  match fuel with
  | O => s
  | S fuel =>
      match list_find (fun pr : string * string => Is_true (HasPrefix s pr.1)) tbl with
      | Some (_, (p, q)) => q ++ replace_map tbl f fuel (TrimPrefix s p)
      | None =>
          match s with
          | EmptyString => EmptyString
          | String a s => String (f a) (replace_map tbl f fuel s)
          end
      end
  end.

Definition ToUpper (s : string) : string :=
  replace_map [ (str_of [197; 191], "S"); (str_of [196; 177], "I") ] ascii_upper (S (String.length s)) s.
Definition ToLower (s : string) : string :=
  replace_map [ (str_of [226; 132; 170], "k"); (str_of [196; 176], "i") ] ascii_lower (S (String.length s)) s.

(** [strings.Trim(s, cutset)] for a cutset of single bytes. *)
Definition TrimBytes (cut : list string) (s : string) : string :=
  str_rev (strip_all cut (String.length s) (str_rev (strip_all cut (String.length s) s))).

(** ** Facts *)

Lemma str_app_nil_r s : (s ++ "")%string = s.
Proof. induction s as [|a s IH]; simpl; congruence. Qed.

Lemma str_app_assoc (a b c : string) : ((a ++ b) ++ c = a ++ (b ++ c))%string.
Proof. induction a as [|x a IH]; simpl; congruence. Qed.

Lemma str_length_app (a b : string) : String.length (a ++ b)%string = String.length a + String.length b.
Proof. induction a; simpl; congruence. Qed.

Lemma str_rev_app a b : str_rev (a ++ b)%string = (str_rev b ++ str_rev a)%string.
Proof.
  unfold str_rev. assert (H : forall x y, list_ascii_of_string (x ++ y)%string = (list_ascii_of_string x ++ list_ascii_of_string y)%list).
  { intros x y; induction x; simpl; congruence. }
  assert (G : forall x y, string_of_list_ascii (x ++ y)%list = (string_of_list_ascii x ++ string_of_list_ascii y)%string).
  { intros x y; induction x; simpl; congruence. }
  rewrite H, rev_app_distr, G. done.
Qed.

Lemma str_rev_involutive s : str_rev (str_rev s) = s.
Proof.
  unfold str_rev. rewrite list_ascii_of_string_of_list_ascii, rev_involutive.
  apply string_of_list_ascii_of_string.
Qed.

Lemma str_rev_length s : String.length (str_rev s) = String.length s.
Proof.
  induction s as [|a s IH]; [done|].
  change (String a s) with (String a "" ++ s)%string.
  rewrite str_rev_app, !str_length_app, IH. simpl. lia.
Qed.

Lemma strip_prefix_Some p s r : strip_prefix p s = Some r <-> s = (p ++ r)%string.
Proof.
  revert s. induction p as [|a p IH]; intros s; simpl; [naive_solver|].
  destruct s as [|b s]; simpl; [clear IH; naive_solver|].
  destruct (Ascii.eqb_spec a b) as [->|Hne]; [rewrite IH; clear IH|clear IH]; naive_solver.
Qed.

Lemma HasPrefix_true s p : HasPrefix s p = true <-> exists r, s = (p ++ r)%string.
Proof.
  unfold HasPrefix. destruct (strip_prefix p s) as [r|] eqn:E.
  - apply strip_prefix_Some in E. naive_solver.
  - split; [done|]. intros [r Hr]. apply strip_prefix_Some in Hr. congruence.
Qed.

Lemma strip_any_Some ps s r : strip_any ps s = Some r -> exists p, p ∈ ps /\ s = (p ++ r)%string.
Proof.
  induction ps as [|p ps IH]; simpl; [done|].
  destruct (strip_prefix p s) eqn:E.
  - intros [= ->]. apply strip_prefix_Some in E. exists p. split; [left|done].
  - intros H. destruct (IH H) as (q & Hq & ->). exists q. split; [by right|done].
Qed.

Lemma strip_any_None ps s : strip_any ps s = None <-> (forall p r, p ∈ ps -> s <> (p ++ r)%string).
Proof.
  induction ps as [|p ps IH]; simpl.
  - split; [intros _ q r Hq; by apply not_elem_of_nil in Hq|done].
  - destruct (strip_prefix p s) eqn:E.
    + apply strip_prefix_Some in E. split; [done|]. intros H. exfalso. eapply (H p); [left|done].
    + rewrite IH. split; intros H q r Hq.
      * apply elem_of_cons in Hq as [->|Hq]; [|by apply H].
        intros Hs. apply strip_prefix_Some in Hs. congruence.
      * apply H. by right.
Qed.

Definition nonempty_all (ps : list string) : Prop := Forall (fun p => p <> "") ps.

Lemma strip_all_spec ps fuel s :
  nonempty_all ps -> String.length s <= fuel ->
  strip_any ps (strip_all ps fuel s) = None /\ exists pre, s = (pre ++ strip_all ps fuel s)%string.
Proof.
  intros Hne. revert s. induction fuel as [|fuel IH]; intros s Hlen; simpl.
  - destruct s; simpl in Hlen; [|lia]. split; [|by exists ""].
    apply strip_any_None. intros p r Hp Heq. unfold nonempty_all in Hne.
    rewrite Forall_forall in Hne. specialize (Hne p Hp).
    destruct p; simpl in Heq; congruence.
  - destruct (strip_any ps s) as [r|] eqn:E; [|split; [done|by exists ""]].
    apply strip_any_Some in E as (p & Hp & ->).
    unfold nonempty_all in Hne. rewrite Forall_forall in Hne. specialize (Hne p Hp) as Hpne.
    rewrite str_length_app in Hlen.
    assert (String.length p <> 0) by (destruct p; simpl; congruence).
    destruct (IH r) as [H1 [pre H2]]; [lia|]. split; [done|].
    exists (p ++ pre)%string. rewrite H2 at 1. by rewrite str_app_assoc.
Qed.

Lemma strip_all_None ps fuel s : strip_any ps s = None -> strip_all ps fuel s = s.
Proof. destruct fuel; simpl; [done|]. by intros ->. Qed.

Lemma space_encodings_nonempty : nonempty_all space_encodings.
Proof. unfold nonempty_all. vm_compute. repeat (constructor; [discriminate|]). constructor. Qed.

Lemma space_encodings_rev_nonempty : nonempty_all (str_rev <$> space_encodings).
Proof. unfold nonempty_all. vm_compute. repeat (constructor; [discriminate|]). constructor. Qed.

(** Trimming keeps a contiguous part of the string. *)
Lemma TrimSpace_infix s : exists pre suf, s = (pre ++ TrimSpace s ++ suf)%string.
Proof.
  unfold TrimSpace.
  destruct (strip_all_spec space_encodings (String.length s) s space_encodings_nonempty (le_n _)) as [_ [pre Hpre]].
  set (t := trim_left s) in *. change (strip_all _ _ s) with t in Hpre.
  destruct (strip_all_spec (str_rev <$> space_encodings) (String.length t) (str_rev t) space_encodings_rev_nonempty) as [_ [suf Hsuf]].
  { by rewrite str_rev_length. }
  exists pre, (str_rev suf). unfold trim_right.
  rewrite Hpre at 1. f_equal. apply (f_equal str_rev) in Hsuf.
  by rewrite str_rev_involutive, str_rev_app in Hsuf.
Qed.

Lemma trim_left_id s : strip_any space_encodings s = None -> trim_left s = s.
Proof. apply strip_all_None. Qed.

(** [strings.TrimSpace] is idempotent: callers that trim twice change nothing. *)
Lemma TrimSpace_idemp s : TrimSpace (TrimSpace s) = TrimSpace s.
Proof.
  unfold TrimSpace at 2 3. set (t := trim_left s).
  assert (Ht : strip_any space_encodings t = None).
  { apply (strip_all_spec space_encodings (String.length s) s space_encodings_nonempty (le_n _)). }
  destruct (strip_all_spec (str_rev <$> space_encodings) (String.length t) (str_rev t) space_encodings_rev_nonempty) as [Hr [suf Hsuf]].
  { by rewrite str_rev_length. }
  set (u := strip_all _ _ (str_rev t)) in *.
  assert (Hu : trim_right t = str_rev u) by done. rewrite Hu.
  apply (f_equal str_rev) in Hsuf. rewrite str_rev_involutive, str_rev_app in Hsuf.
  unfold TrimSpace. rewrite trim_left_id.
  - unfold trim_right. rewrite str_rev_involutive. by rewrite (strip_all_None _ _ _ Hr).
  - apply strip_any_None. intros p r Hp Heq. rewrite strip_any_None in Ht.
    apply (Ht p (r ++ str_rev suf)%string Hp). rewrite Hsuf, Heq. by rewrite str_app_assoc.
Qed.

Lemma TrimSpace_empty : TrimSpace "" = "".
Proof. reflexivity. Qed.

(** What is stripped to nothing from one end ends in a stripped piece. *)
Lemma strip_all_empty ps fuel s : s <> "" -> strip_all ps fuel s = "" -> exists p r, p ∈ ps /\ s = (r ++ p)%string.
Proof.
  revert s. induction fuel as [|fuel IH]; intros s Hs; cbn [strip_all]; [done|]. destruct (strip_any ps s) as [r|] eqn:E; [|done].
  apply strip_any_Some in E as (p & Hp & ->). intros Hr. destruct (decide (r = "")) as [->|Hne].
  - exists p, "". split; [done|]. by rewrite str_app_nil_r.
  - destruct (IH r Hne Hr) as (p' & r' & Hp' & ->). exists p', (p ++ r')%string. split; [done|]. by rewrite str_app_assoc.
Qed.

(** A string that does not start with a space is not blank. *)
Lemma TrimSpace_not_blank s : s <> "" -> strip_any space_encodings s = None -> TrimSpace s <> "".
Proof.
  intros Hs Hn. unfold TrimSpace. rewrite trim_left_id by done. unfold trim_right. intros E. apply (f_equal str_rev) in E. rewrite str_rev_involutive in E.
  apply strip_all_empty in E as (p & r & Hp & Hr); [|intros E'; apply Hs; by rewrite <-(str_rev_involutive s), E'].
  apply list_elem_of_fmap in Hp as (q & -> & Hq). apply (f_equal str_rev) in Hr. rewrite str_rev_app, !str_rev_involutive in Hr.
  by apply (proj1 (strip_any_None _ _) Hn q (str_rev r) Hq).
Qed.

Example trim_ex : TrimSpace (str_of [32; 194; 160; 97; 32; 98; 226; 128; 131; 9]) = "a b".
Proof. reflexivity. Qed.
Example fields_ex : Fields "  10.0.0.1  b/24 " = ["10.0.0.1"; "b/24"].
Proof. reflexivity. Qed.
Example upper_ex : ToUpper (str_of [114; 101; 103; 196; 177; 197; 191; 116]) = "REGIST".
Proof. vm_compute. reflexivity. Qed.
