(* ===== verification/NetIP.v ===== *)
(** * The parts of Go's [net] package the service uses

    An [IP] is a byte slice; [nil] is the empty slice (the [net] package
    never produces an empty non-nil [IP]).  [ParseIP] and [ParseCIDR] follow
    [netip.ParseAddr]; an address with a zone is rejected by both, so the
    zone is not represented. *)

From Stdlib Require Import Ascii String.
From S2P Require Import Prelude.
From stdpp Require Import list.
From S2P Require Import GoStrings.
Local Open Scope Z_scope.

#[local] Arguments String.append : simpl nomatch.

Definition byte_ok (b : Z) : Prop := 0 <= b < 256.

Abbreviation IP := (list Z).

Record IPNet := mkIPNet { netIP : IP; netMask : list Z }.

#[export] Instance IPNet_eq_dec : EqDecision IPNet.
Proof. solve_decision. Defined.

Definition v4InV6Prefix : list Z := replicate 10 0 ++ [255; 255].

Definition IPv4 (a b c d : Z) : IP := v4InV6Prefix ++ [a; b; c; d].

(** [IP.To4] *)
Definition To4 (ip : IP) : IP :=
  if decide (length ip = 4%nat) then ip
  else if decide (length ip = 16%nat /\ take 12 ip = v4InV6Prefix) then drop 12 ip
  else [].

(** [IP.Equal] *)
Definition IPEqual (ip x : IP) : bool :=
  if decide (length ip = length x) then bool_decide (ip = x)
  else if decide (length ip = 4%nat /\ length x = 16%nat)
  then bool_decide (take 12 x = v4InV6Prefix /\ ip = drop 12 x)
  else if decide (length ip = 16%nat /\ length x = 4%nat)
  then bool_decide (take 12 ip = v4InV6Prefix /\ drop 12 ip = x)
  else false.

(** ** Masks *)

Fixpoint mask_bytes (len : nat) (n : Z) : list Z :=
  match len with
  | O => []
  | S len =>
      if 8 <=? n then 255 :: mask_bytes len (n - 8)
      else (255 - Z.shiftr 255 n) :: mask_bytes len 0
  end.

(** [CIDRMask(ones, bits)] for [bits] 32 or 128 and [0 <= ones <= bits] *)
Definition CIDRMask (ones bits : Z) : list Z := mask_bytes (Z.to_nat (bits / 8)) ones.

Definition and_bytes (x m : list Z) : list Z := zip_with Z.land x m.

(** [IP.Mask]: the two width adjustments, then the byte-wise conjunction *)
Definition mask_for (ip mask : list Z) : list Z :=
  if decide (length mask = 16%nat /\ length ip = 4%nat /\ take 12 mask = replicate 12 255)
  then drop 12 mask else mask.
Definition ip_for (ip mask : list Z) : list Z :=
  if decide (length mask = 4%nat /\ length ip = 16%nat /\ take 12 ip = v4InV6Prefix)
  then drop 12 ip else ip.
Definition IPMaskOp (ip mask : list Z) : IP :=
  let mask := mask_for ip mask in
  let ip := ip_for ip mask in
  if decide (length ip = length mask) then and_bytes ip mask else [].

Definition networkNumberAndMask (n : IPNet) : option (IP * list Z) :=
  let ip := match To4 (netIP n) with [] => netIP n | ip4 => ip4 end in
  if decide (length ip = 4%nat \/ length ip = 16%nat) then
    let m := netMask n in
    if decide (length m = 4%nat) then
      if decide (length ip = 4%nat) then Some (ip, m) else None
    else if decide (length m = 16%nat) then
      Some (ip, if decide (length ip = 4%nat) then drop 12 m else m)
    else None
  else None.

(** [IPNet.Contains]; an ill-formed network has an empty number, which only
    an empty [ip] matches. *)
Definition NetContains (n : IPNet) (ip : IP) : bool :=
  let '(nn, m) := default ([], []) (networkNumberAndMask n) in
  let ip := match To4 ip with [] => ip | ip4 => ip4 end in
  bool_decide (length ip = length nn /\ and_bytes nn m = and_bytes ip m).

(** ** Parsing addresses *)

Definition dec_val (c : ascii) : option Z :=
  let n := Z.of_nat (nat_of_ascii c) in
  if (48 <=? n) && (n <=? 57) then Some (n - 48) else None.

Definition hex_val (c : ascii) : option Z :=
  let n := Z.of_nat (nat_of_ascii c) in
  if (48 <=? n) && (n <=? 57) then Some (n - 48)
  else if (97 <=? n) && (n <=? 102) then Some (n - 87)
  else if (65 <=? n) && (n <=? 70) then Some (n - 55)
  else None.

(** [parseIPv4Fields]: [first] is [i == 0], [prevdot] is [s\[i-1\] == '.']. *)
Fixpoint parse_v4_loop (s : string) (first prevdot : bool) (val : Z) (digLen : nat) (fields : list Z)
  : option (list Z) :=
  match s with
  | EmptyString => if (length fields <? 3)%nat then None else Some (fields ++ [val])
  | String c s' =>
      match dec_val c with
      | Some d =>
          if ((digLen =? 1)%nat && (val =? 0)) then None
          else let val := val * 10 + d in
               if 255 <? val then None
               else parse_v4_loop s' false false val (S digLen) fields
      | None =>
          if Ascii.eqb c "."%char then
            if first || String.eqb s' "" || prevdot then None
            else if (length fields =? 3)%nat then None
            else parse_v4_loop s' false true 0 0 (fields ++ [val])
          else None
      end
  end.

Definition parse_v4 (s : string) : option (list Z) := parse_v4_loop s true false 0 0 [].

Fixpoint scan_hex (s : string) (off : nat) (acc : Z) : option (nat * Z * string) :=
  match s with
  | EmptyString => Some (off, acc, EmptyString)
  | String c s' =>
      match hex_val c with
      | Some v =>
          if (3 <? off)%nat then None
          else let acc := acc * 16 + v in
               if 65535 <? acc then None else scan_hex s' (S off) acc
      | None => Some (off, acc, s)
      end
  end.

(** The group loop of [parseIPv6]; [ip] is what has been written, so the
    loop's [i] is its length, and the fuel is the number of groups left. *)
Fixpoint v6_loop (fuel : nat) (s : string) (ip : list Z) (ell : option nat)
  : option (string * list Z * option nat) :=
  match fuel with
  | O => Some (s, ip, ell)
  | S fuel =>
      match scan_hex s 0 0 with
      | None => None
      | Some (O, _, _) => None
      | Some (_, acc, rest) =>
          match rest with
          | EmptyString => Some (EmptyString, ip ++ [acc / 256; acc mod 256], ell)
          | String c r =>
              if Ascii.eqb c "."%char then
                if bool_decide (ell = None) && negb (length ip =? 12)%nat then None
                else if (16 <? length ip + 4)%nat then None
                else match parse_v4 s with
                     | Some b => Some (EmptyString, ip ++ b, ell)
                     | None => None
                     end
              else if Ascii.eqb c ":"%char then
                let ip := ip ++ [acc / 256; acc mod 256] in
                match r with
                | EmptyString => None
                | String c' r' =>
                    if Ascii.eqb c' ":"%char then
                      match ell with
                      | Some _ => None
                      | None =>
                          if String.eqb r' "" then Some (EmptyString, ip, Some (length ip))
                          else v6_loop fuel r' ip (Some (length ip))
                      end
                    else v6_loop fuel r ip ell
                end
              else None
          end
      end
  end.

Definition v6_finish (r : option (string * list Z * option nat)) : option (list Z) :=
  match r with
  | Some (EmptyString, ip, ell) =>
      if (length ip <? 16)%nat then
        match ell with
        | None => None
        | Some e => Some (take e ip ++ replicate (16 - length ip) 0 ++ drop e ip)
        end
      else match ell with Some _ => None | None => Some ip end
  | _ => None
  end.

Definition parse_v6 (s : string) : option (list Z) :=
  match strip_prefix "::" s with
  | Some EmptyString => Some (replicate 16 0)
  | Some s => v6_finish (v6_loop 8 s [] (Some 0%nat))
  | None => v6_finish (v6_loop 8 s [] None)
  end.

Inductive sep := SepDot | SepColon | SepPercent.

Fixpoint first_sep (s : string) : option sep :=
  match s with
  | EmptyString => None
  | String c s =>
      if Ascii.eqb c "."%char then Some SepDot
      else if Ascii.eqb c ":"%char then Some SepColon
      else if Ascii.eqb c "%"%char then Some SepPercent
      else first_sep s
  end.

(** [netip.ParseAddr] restricted to zone-less addresses: the 16-byte form and
    whether the text was IPv4 ([BitLen] 32) or IPv6 ([BitLen] 128). *)
Definition ParseAddr (s : string) : option (list Z * bool) :=
  match first_sep s with
  | Some SepDot => (fun b => (v4InV6Prefix ++ b, true)) <$> parse_v4 s
  | Some SepColon =>
      if IndexByte s "%"%char then None else (fun b => (b, false)) <$> parse_v6 s
  | _ => None
  end.

(** [net.ParseIP] *)
Definition ParseIP (s : string) : IP :=
  match ParseAddr s with Some (b, _) => b | None => [] end.

(** [dtoi] on a whole string *)
Fixpoint dtoi_loop (s : string) (n : Z) : option Z :=
  match s with
  | EmptyString => Some n
  | String c s =>
      match dec_val c with
      | Some d => let n := n * 10 + d in if 16777215 <=? n then None else dtoi_loop s n
      | None => None
      end
  end.
Definition dtoi (s : string) : option Z :=
  if String.eqb s "" then None else dtoi_loop s 0.

(** [net.ParseCIDR], the network only *)
Definition ParseCIDR (s : string) : option IPNet :=
  match IndexByte s "/"%char with
  | None => None
  | Some i =>
      match ParseAddr (str_take i s), dtoi (str_drop (S i) s) with
      | Some (addr16, is4), Some n =>
          let bits := if is4 : bool then 32 else 128 in
          if bits <? n then None
          else let m := CIDRMask n bits in
               Some {| netIP := IPMaskOp addr16 m; netMask := m |}
      | _, _ => None
      end
  end.

(** ** Printing *)

Definition dec_digit (d : Z) : ascii := ascii_of_nat (Z.to_nat (48 + d)).
Definition hex_digit (d : Z) : ascii :=
  ascii_of_nat (Z.to_nat (if d <? 10 then 48 + d else 87 + d)).

(** [itoa] below 1000: bytes and prefix lengths *)
Definition itoa3 (n : Z) : string :=
  if n <? 10 then String (dec_digit n) ""
  else if n <? 100 then String (dec_digit (n / 10)) (String (dec_digit (n mod 10)) "")
  else String (dec_digit (n / 100))
         (String (dec_digit (n / 10 mod 10)) (String (dec_digit (n mod 10)) "")).

(** hexadecimal without leading zeros, below 2^16 *)
Definition hex4 (g : Z) : string :=
  let d k := hex_digit (g / 16 ^ k mod 16) in
  if g <? 16 then String (d 0) ""
  else if g <? 256 then String (d 1) (String (d 0) "")
  else if g <? 4096 then String (d 2) (String (d 1) (String (d 0) ""))
  else String (d 3) (String (d 2) (String (d 1) (String (d 0) ""))).

Fixpoint join (sep : string) (l : list string) : string :=
  match l with
  | [] => EmptyString
  | [x] => x
  | x :: l => (x ++ sep ++ join sep l)%string
  end.

Definition v4_string (b : list Z) : string := join "." (itoa3 <$> b).

Fixpoint groups_of (b : list Z) : list Z :=
  match b with
  | h :: l :: b => (h * 256 + l) :: groups_of b
  | _ => []
  end.

Fixpoint zero_run (gs : list Z) : nat :=
  match gs with 0 :: gs => S (zero_run gs) | _ => 0 end.

(** First longest run of at least two zero groups: start and end. *)
Fixpoint longest_run (i : nat) (gs : list Z) (best : option (nat * nat)) : option (nat * nat) :=
  match gs with
  | [] => best
  | _ :: gs' =>
      let l := zero_run gs in
      let cur := match best with Some (a, b) => (b - a)%nat | None => 0%nat end in
      longest_run (S i) gs'
        (if (2 <=? l)%nat && (cur <? l)%nat then Some (i, (i + l)%nat) else best)
  end.

Definition v6_string (b : list Z) : string :=
  let gs := groups_of b in
  match longest_run 0 gs None with
  | None => join ":" (hex4 <$> gs)
  | Some (zs, ze) =>
      (join ":" (hex4 <$> take zs gs) ++ "::" ++ join ":" (hex4 <$> drop ze gs))%string
  end.

Definition hex_bytes (b : list Z) : string :=
  foldr (fun x s => String (hex_digit (x / 16)) (String (hex_digit (x mod 16)) s)) ""%string b.

(** [IP.String] *)
Definition IPString (ip : IP) : string :=
  if decide (ip = []) then "<nil>"%string
  else if decide (length ip <> 4%nat /\ length ip <> 16%nat) then ("?" ++ hex_bytes ip)%string
  else match To4 ip with
       | [] => v6_string ip
       | p4 => v4_string p4
       end.

(** [simpleMaskLength], [None] for -1: leading one bits, then only zeros. *)
Fixpoint byte_ones (k : nat) (v : Z) : Z :=
  match k with
  | O => 0
  | S k => if Z.testbit v 7 then 1 + byte_ones k (Z.land (v * 2) 255) else 0
  end.
Fixpoint simpleMaskLength (m : list Z) : option Z :=
  match m with
  | [] => Some 0
  | v :: m =>
      if v =? 255 then (fun n => 8 + n) <$> simpleMaskLength m
      else let n := byte_ones 8 v in
           if (Z.land (v * 2 ^ n) 255 =? 0) && forallb (Z.eqb 0) m then Some n else None
  end.

(** [IPNet.String] *)
Definition NetString (n : IPNet) : string :=
  match networkNumberAndMask n with
  | None => "<nil>"%string
  | Some (nn, m) =>
      match simpleMaskLength m with
      | None => (IPString nn ++ "/" ++ hex_bytes m)%string
      | Some l => (IPString nn ++ "/" ++ itoa3 l)%string
      end
  end.

(** ** Host and port *)

Definition has_byte (s : string) (c : ascii) : bool :=
  match IndexByte s c with Some _ => true | None => false end.

(** [net.SplitHostPort]: [None] for an error *)
Definition SplitHostPort (hostport : string) : option (string * string) :=
  match LastIndexByte hostport ":"%char with
  | None => None
  | Some i =>
      let port := str_drop (S i) hostport in
      if HasPrefix hostport "[" then
        match IndexByte hostport "]"%char with
        | None => None
        | Some e =>
            if decide (S e = i) then
              let host := str_take (e - 1) (str_drop 1 hostport) in
              if has_byte (str_drop 1 hostport) "["%char || has_byte (str_drop (S e) hostport) "]"%char
              then None else Some (host, port)
            else None
        end
      else
        let host := str_take i hostport in
        if has_byte host ":"%char || has_byte hostport "["%char || has_byte hostport "]"%char
        then None else Some (host, port)
  end.

(** [net.JoinHostPort] *)
Definition JoinHostPort (host port : string) : string :=
  if has_byte host ":"%char then ("[" ++ host ++ "]:" ++ port)%string
  else (host ++ ":" ++ port)%string.

Example parse_v4_ex : ParseIP "10.0.0.5" = IPv4 10 0 0 5. Proof. reflexivity. Qed.
Example parse_v4_bad : ParseIP "10.0.0.05" = []. Proof. reflexivity. Qed.
Example parse_v6_ex : ParseIP "fe80::1:2" = [254;128;0;0;0;0;0;0;0;0;0;0;0;1;0;2]. Proof. reflexivity. Qed.
Example parse_v6_map : ParseIP "::ffff:10.0.0.5" = IPv4 10 0 0 5. Proof. reflexivity. Qed.
Example cidr_ex : NetString <$> ParseCIDR "192.168.1.77/24" = Some "192.168.1.0/24"%string. Proof. reflexivity. Qed.
Example cidr6_ex : NetString <$> ParseCIDR "2001:db8::7/44" = Some "2001:db8::/44"%string. Proof. reflexivity. Qed.
Example shp_ex : SplitHostPort "[::1]:80" = Some ("::1", "80")%string. Proof. reflexivity. Qed.
Example shp_bad : SplitHostPort "::1:80" = None. Proof. reflexivity. Qed.
