(* ===== verification/NetIPFacts.v ===== *)
(** * Facts about the [net] model: printing a network and parsing it back

    The indexed firewall keys its index by [IPNet.String] and re-parses the
    key on every check, so it depends on this round trip, for IPv4 and IPv6. *)

From Stdlib Require Import Ascii String.
From S2P Require Import Prelude.
From stdpp Require Import list.
From S2P Require Import GoStrings NetIP.
Local Open Scope Z_scope.

#[local] Arguments String.append : simpl nomatch.

Ltac Zify.zify_post_hook ::= Z.to_euclidean_division_equations.

(** ** Digits *)

(** Split [0 <= d < n] for a literal [n] into its [n] cases. *)
Ltac small_cases d lim :=
  let l := eval vm_compute in (seqZ 0 lim) in
  assert (d ∈ l) by (change l with (seqZ 0 lim); apply elem_of_seqZ; lia);
  repeat match goal with
         | H : d ∈ _ :: _ |- _ => apply elem_of_cons in H as [->|H]
         | H : d ∈ [] |- _ => by apply not_elem_of_nil in H
         end.

Definition is_hex_char (c : ascii) : bool := match hex_val c with Some _ => true | None => false end.

Lemma dec_val_digit d : 0 <= d < 10 -> dec_val (dec_digit d) = Some d.
Proof. intros H. small_cases d 10; reflexivity. Qed.
Lemma dec_is_hex d : 0 <= d < 10 -> is_hex_char (dec_digit d) = true.
Proof. intros H. small_cases d 10; reflexivity. Qed.
Lemma hex_val_digit d : 0 <= d < 16 -> hex_val (hex_digit d) = Some d.
Proof. intros H. small_cases d 16; reflexivity. Qed.
Lemma hex_is_hex d : 0 <= d < 16 -> is_hex_char (hex_digit d) = true.
Proof. intros H. unfold is_hex_char. by rewrite hex_val_digit. Qed.

(** A hexadecimal digit is none of the punctuation of addresses. *)
Lemma hex_not_punct c : is_hex_char c = true ->
  Ascii.eqb c "."%char = false /\ Ascii.eqb c ":"%char = false /\
  Ascii.eqb c "%"%char = false /\ Ascii.eqb c "/"%char = false.
Proof.
  destruct (Ascii.eqb_spec c "."%char) as [->|]; [by vm_compute|].
  destruct (Ascii.eqb_spec c ":"%char) as [->|]; [by vm_compute|].
  destruct (Ascii.eqb_spec c "%"%char) as [->|]; [by vm_compute|].
  destruct (Ascii.eqb_spec c "/"%char) as [->|]; [by vm_compute|]. done.
Qed.

(** ** Strings of hexadecimal digits *)

Definition hex_chars (s : string) : Prop := Forall (fun c => is_hex_char c = true) (list_ascii_of_string s).

Lemma itoa3_hex n : 0 <= n < 1000 -> hex_chars (itoa3 n) /\ itoa3 n <> ""%string.
Proof.
  intros H. unfold itoa3, hex_chars.
  repeat case_match; split; try done; simpl; repeat constructor; apply dec_is_hex; lia.
Qed.

Lemma hex4_hex g : 0 <= g < 65536 -> hex_chars (hex4 g) /\ hex4 g <> ""%string.
Proof.
  intros H. unfold hex4, hex_chars.
  repeat case_match; split; try done; simpl; repeat constructor; apply hex_is_hex;
    apply Z.mod_pos_bound; lia.
Qed.

Lemma first_sep_hex s t : hex_chars s -> first_sep (s ++ t)%string = first_sep t.
Proof.
  unfold hex_chars. induction s as [|c s IH]; simpl; [done|].
  intros [Hc Hs]%Forall_cons. destruct (hex_not_punct c Hc) as (-> & -> & -> & _). auto.
Qed.

Lemma IndexByte_cons a s c : a <> c -> IndexByte (String a s) c = S <$> IndexByte s c.
Proof. intros H. cbn [IndexByte]. by destruct (Ascii.eqb_spec a c). Qed.

Lemma IndexByte_single a c : a <> c -> IndexByte (String a "") c = None.
Proof. intros H. by rewrite IndexByte_cons. Qed.

Lemma IndexByte_app s t c : IndexByte s c = None ->
  IndexByte (s ++ t)%string c = (fun i => String.length s + i)%nat <$> IndexByte t c.
Proof.
  induction s as [|a s IH]; simpl.
  - intros _. by destruct (IndexByte t c).
  - destruct (Ascii.eqb a c); [done|]. destruct (IndexByte s c) eqn:E; [done|].
    intros _. rewrite IH by done. by destruct (IndexByte t c).
Qed.

Lemma IndexByte_app_None s t c :
  IndexByte s c = None -> IndexByte t c = None -> IndexByte (s ++ t)%string c = None.
Proof. intros H1 H2. rewrite IndexByte_app, H2; done. Qed.

Lemma hex_no_byte s c : hex_chars s -> is_hex_char c = false -> IndexByte s c = None.
Proof.
  unfold hex_chars. induction s as [|a s IH]; simpl; [done|].
  intros [Ha Hs]%Forall_cons Hc.
  destruct (Ascii.eqb_spec a c) as [->|]; [congruence|]. by rewrite IH.
Qed.

Lemma join_no_byte sep l c :
  IndexByte sep c = None -> Forall (fun s => IndexByte s c = None) l -> IndexByte (join sep l) c = None.
Proof.
  intros Hsep. induction l as [|x l IH]; intros Hl; [done|].
  apply Forall_cons in Hl as [Hx Hl]. destruct l as [|y l]; [done|].
  change (join sep (x :: y :: l)) with (x ++ sep ++ join sep (y :: l))%string.
  apply IndexByte_app_None; [done|]. apply IndexByte_app_None; auto.
Qed.

Lemma str_take_app s t : str_take (String.length s) (s ++ t)%string = s.
Proof. induction s as [|a s IH]; simpl; [by destruct t|congruence]. Qed.
Lemma str_drop_app s c t : str_drop (S (String.length s)) (s ++ String c t)%string = t.
Proof. induction s as [|a s IH]; simpl in *; [by destruct t|congruence]. Qed.

Lemma dtoi_itoa3 n : 0 <= n < 1000 -> dtoi (itoa3 n) = Some n.
Proof.
  intros H. unfold dtoi. destruct (itoa3_hex n H) as [_ Hne].
  destruct (String.eqb_spec (itoa3 n) ""); [done|]. unfold itoa3.
  repeat case_match; cbn [dtoi_loop]; rewrite !dec_val_digit by lia;
    repeat (case_match; [lia|]); f_equal; lia.
Qed.

(** ** IPv4 text *)

Lemma v4_digit_step d s first pd val k fields :
  0 <= d < 10 -> (k = 0%nat \/ 0 < val) -> 0 <= val * 10 + d <= 255 ->
  parse_v4_loop (String (dec_digit d) s) first pd val k fields
  = parse_v4_loop s false false (val * 10 + d) (S k) fields.
Proof.
  intros Hd Hk Hv. cbn [parse_v4_loop]. rewrite dec_val_digit by done.
  replace ((k =? 1)%nat && (val =? 0)) with false by
    (destruct Hk as [->|]; [done|]; destruct (Z.eqb_spec val 0); [lia|]; by rewrite andb_false_r).
  destruct (Z.ltb_spec 255 (val * 10 + d)); [lia|done].
Qed.

Lemma v4_octet_step a s first pd fields :
  byte_ok a -> exists k,
  parse_v4_loop (itoa3 a ++ s) first pd 0 0 fields = parse_v4_loop s false false a k fields.
Proof.
  intros [H1 H2]. unfold itoa3.
  destruct (Z.ltb_spec a 10); [|destruct (Z.ltb_spec a 100)]; simpl String.append;
    repeat (rewrite v4_digit_step by lia); eexists; f_equal; lia.
Qed.

Lemma v4_dot_step s val k fields :
  s <> ""%string -> (length fields < 3)%nat ->
  parse_v4_loop ("." ++ s) false false val k fields = parse_v4_loop s false true 0 0 (fields ++ [val]).
Proof.
  intros Hs Hl. cbn -[Nat.eqb String.eqb]. destruct (String.eqb_spec s ""); [done|]. simpl orb.
  destruct (Nat.eqb_spec (length fields) 3); [lia|done].
Qed.

Lemma str_app_ne s t : s <> ""%string -> (s ++ t)%string <> ""%string.
Proof. by destruct s. Qed.

Lemma parse_v4_string a b c d :
  Forall byte_ok [a; b; c; d] -> parse_v4 (v4_string [a; b; c; d]) = Some [a; b; c; d].
Proof.
  rewrite !Forall_cons. intros (Ha & Hb & Hc & Hd & _).
  assert (Hne : forall x, byte_ok x -> itoa3 x <> ""%string).
  { intros x Hx. apply itoa3_hex. destruct Hx. lia. }
  unfold parse_v4, v4_string. cbn [fmap list_fmap join].
  destruct (v4_octet_step a ("." ++ itoa3 b ++ "." ++ itoa3 c ++ "." ++ itoa3 d) true false [] Ha) as [k1 ->].
  rewrite v4_dot_step by (simpl; try lia; by apply str_app_ne, Hne).
  destruct (v4_octet_step b ("." ++ itoa3 c ++ "." ++ itoa3 d) false true ([] ++ [a]) Hb) as [k2 ->].
  rewrite v4_dot_step by (simpl; try lia; by apply str_app_ne, Hne).
  destruct (v4_octet_step c ("." ++ itoa3 d) false true (([] ++ [a]) ++ [b]) Hc) as [k3 ->].
  rewrite v4_dot_step by (simpl; try lia; by apply Hne).
  destruct (v4_octet_step d "" false true ((([] ++ [a]) ++ [b]) ++ [c]) Hd) as [k4 E].
  rewrite str_app_nil_r in E. by rewrite E.
Qed.

(** ** IPv6 text *)

Definition group_ok (g : Z) : Prop := 0 <= g < 65536.

Fixpoint bytes_of (gs : list Z) : list Z :=
  match gs with
  | [] => []
  | g :: gs => g / 256 :: g mod 256 :: bytes_of gs
  end.

Lemma bytes_of_app x y : bytes_of (x ++ y) = bytes_of x ++ bytes_of y.
Proof. induction x; simpl; congruence. Qed.
Lemma bytes_of_length gs : length (bytes_of gs) = (2 * length gs)%nat.
Proof. induction gs; simpl; lia. Qed.
Lemma bytes_of_zeros n : bytes_of (replicate n 0) = replicate (2 * n) 0.
Proof. induction n; [done|]. replace (2 * S n)%nat with (S (S (2 * n))) by lia. simpl in *. by rewrite IHn. Qed.

Lemma groups_of_spec b n :
  length b = (2 * n)%nat -> Forall byte_ok b ->
  length (groups_of b) = n /\ Forall group_ok (groups_of b) /\ bytes_of (groups_of b) = b.
Proof.
  revert b. induction n as [|n IH]; intros b Hl Hb.
  - destruct b; simpl in *; [done|lia].
  - destruct b as [|h [|l b]]; simpl in Hl; try lia.
    rewrite !Forall_cons in Hb. destruct Hb as (Hh & Hl' & Hb).
    destruct (IH b) as (I1 & I2 & I3); [lia|done|]. simpl.
    unfold byte_ok, group_ok in *. rewrite I3.
    split; [lia|]. split; [constructor; [lia|done]|].
    f_equal; [lia|]. f_equal. lia.
Qed.

Definition not_hex_head (s : string) : Prop :=
  match s with EmptyString => True | String c _ => hex_val c = None end.

Lemma scan_hex_end s off acc : not_hex_head s -> scan_hex s off acc = Some (off, acc, s).
Proof. destruct s; simpl; [done|]. by intros ->. Qed.

Lemma scan_hex_step d s off acc :
  0 <= d < 16 -> (off <= 3)%nat -> 0 <= acc * 16 + d <= 65535 ->
  scan_hex (String (hex_digit d) s) off acc = scan_hex s (S off) (acc * 16 + d).
Proof.
  intros Hd Ho Ha. cbn [scan_hex]. rewrite hex_val_digit by done.
  destruct (Nat.ltb_spec 3 off); [lia|]. destruct (Z.ltb_spec 65535 (acc * 16 + d)); [lia|done].
Qed.

Lemma scan_hex4 g s : group_ok g -> not_hex_head s ->
  exists k, scan_hex (hex4 g ++ s) 0 0 = Some (S k, g, s).
Proof.
  intros Hg Hs. unfold group_ok in Hg. unfold hex4.
  change (16 ^ 0) with 1; change (16 ^ 1) with 16; change (16 ^ 2) with 256; change (16 ^ 3) with 4096.
  destruct (Z.ltb_spec g 16); [|destruct (Z.ltb_spec g 256); [|destruct (Z.ltb_spec g 4096)]];
    simpl String.append; repeat (rewrite scan_hex_step by lia); rewrite scan_hex_end by done;
    eexists; repeat f_equal; lia.
Qed.

Lemma hex4_head g : group_ok g -> exists c s, hex4 g = String c s /\ is_hex_char c = true.
Proof.
  intros Hg. destruct (hex4_hex g Hg) as [Hh Hne]. unfold hex_chars in Hh.
  destruct (hex4 g) as [|c s]; [done|]. simpl in Hh. apply Forall_cons in Hh as [Hc _]. eauto.
Qed.

Lemma hex4_join_head g gs t : group_ok g -> exists c s,
  (join ":" (hex4 <$> (g :: gs)) ++ t)%string = String c s /\ is_hex_char c = true.
Proof.
  intros Hg. destruct (hex4_head g Hg) as (c & s & E & Hc).
  destruct gs as [|g' gs]; cbn [fmap list_fmap join]; rewrite E; simpl; eauto.
Qed.

(** One group followed by a colon and another group. *)
Lemma v6_group_colon fuel g gs t ip ell :
  group_ok g -> gs <> [] -> Forall group_ok gs ->
  v6_loop (S fuel) (hex4 g ++ ":" ++ join ":" (hex4 <$> gs) ++ t) ip ell
  = v6_loop fuel (join ":" (hex4 <$> gs) ++ t) (ip ++ [g / 256; g mod 256]) ell.
Proof.
  intros Hg Hne Hgs. cbn [v6_loop].
  destruct (scan_hex4 g (":" ++ join ":" (hex4 <$> gs) ++ t) Hg) as [k ->]; [done|].
  destruct gs as [|g' gs]; [done|]. apply Forall_cons in Hgs as [Hg' _].
  destruct (hex4_join_head g' gs t Hg') as (c & s & -> & Hc).
  destruct (hex_not_punct c Hc) as (_ & Hcol & _ & _).
  cbn -[v6_loop]. by rewrite Hcol.
Qed.

(** Groups up to the end of the text. *)
Lemma v6_loop_groups gs fuel ip ell :
  gs <> [] -> (length gs <= fuel)%nat -> Forall group_ok gs ->
  v6_loop fuel (join ":" (hex4 <$> gs)) ip ell = Some (""%string, ip ++ bytes_of gs, ell).
Proof.
  revert fuel ip. induction gs as [|g gs IH]; intros fuel ip Hne Hf Hgs; [done|].
  destruct fuel as [|fuel]; simpl in Hf; [lia|]. apply Forall_cons in Hgs as [Hg Hgs].
  destruct gs as [|g' gs].
  - cbn [fmap list_fmap join v6_loop]. destruct (scan_hex4 g "" Hg) as [k E]; [done|].
    rewrite str_app_nil_r in E. by rewrite E.
  - pose proof (v6_group_colon fuel g (g' :: gs) "" ip ell Hg) as E.
    rewrite !str_app_nil_r in E.
    change (join ":" (hex4 <$> g :: g' :: gs)) with (hex4 g ++ ":" ++ join ":" (hex4 <$> g' :: gs))%string.
    rewrite E by done. rewrite IH by (done || simpl in *; lia).
    by rewrite <- (assoc_L (++)).
Qed.

(** Groups, an ellipsis, then the rest. *)
Lemma v6_loop_ellipsis gs fuel ip t :
  gs <> [] -> (length gs <= fuel)%nat -> Forall group_ok gs ->
  v6_loop fuel (join ":" (hex4 <$> gs) ++ "::" ++ t) ip None
  = let ip' := ip ++ bytes_of gs in
    if String.eqb t "" then Some (""%string, ip', Some (length ip'))
    else v6_loop (fuel - length gs) t ip' (Some (length ip')).
Proof.
  revert fuel ip. induction gs as [|g gs IH]; intros fuel ip Hne Hf Hgs; [done|].
  destruct fuel as [|fuel]; simpl in Hf; [lia|]. apply Forall_cons in Hgs as [Hg Hgs].
  destruct gs as [|g' gs].
  - cbn [fmap list_fmap join v6_loop]. destruct (scan_hex4 g ("::" ++ t) Hg) as [k E]; [done|].
    rewrite E. cbn -[v6_loop String.eqb]. by rewrite Nat.sub_0_r.
  - change (join ":" (hex4 <$> g :: g' :: gs)) with (hex4 g ++ ":" ++ join ":" (hex4 <$> g' :: gs))%string.
    rewrite !str_app_assoc, v6_group_colon by done.
    rewrite IH by (done || simpl in *; lia). simpl length. simpl Nat.sub.
    cbv zeta. by rewrite <- !(assoc_L (++)).
Qed.

Definition zero_span (gs : list Z) (r : nat * nat) : Prop :=
  (r.1 <= r.2)%nat /\ gs = take r.1 gs ++ replicate (r.2 - r.1) 0 ++ drop r.2 gs /\
  (r.1 + 2 <= r.2 <= length gs)%nat.

Lemma zero_run_spec gs : gs = replicate (zero_run gs) 0 ++ drop (zero_run gs) gs /\ (zero_run gs <= length gs)%nat.
Proof.
  induction gs as [|g gs [IH1 IH2]]; [done|].
  destruct g; simpl; [|split; [done|lia]..]. split; [by f_equal|lia].
Qed.

Lemma longest_run_spec gs pre suf best r :
  gs = pre ++ suf -> (forall x, best = Some x -> zero_span gs x) ->
  longest_run (length pre) suf best = Some r -> zero_span gs r.
Proof.
  revert pre best. induction suf as [|g suf IH]; intros pre best Hgs Hb Hr; [by apply Hb|].
  cbn [longest_run] in Hr. cbv zeta in Hr. set (l := zero_run (g :: suf)) in *.
  replace (S (length pre)) with (length (pre ++ [g])) in Hr by (rewrite length_app; simpl; lia).
  eapply (IH (pre ++ [g])); [by rewrite <- (assoc_L (++))| |exact Hr].
  intros x Hx. case_match eqn:Hc; [|by apply Hb].
  apply andb_true_iff in Hc as [Hc _]. apply Nat.leb_le in Hc. injection Hx as <-.
  destruct (zero_run_spec (g :: suf)) as [Hz1 Hz2]. fold l in Hz1, Hz2.
  unfold zero_span. simpl fst; simpl snd. rewrite Hgs, take_app_length, drop_app_add.
  replace (length pre + l - length pre)%nat with l by lia.
  split; [lia|]. rewrite <- Hz1. split; [done|]. rewrite length_app. lia.
Qed.

Lemma strip_ellipsis_None c s : is_hex_char c = true -> strip_prefix "::" (String c s) = None.
Proof.
  intros Hc. destruct (hex_not_punct c Hc) as (_ & Hcol & _ & _).
  cbn [strip_prefix]. by rewrite Ascii.eqb_sym, Hcol.
Qed.

Lemma join_hex_nonempty gs : gs <> [] -> Forall group_ok gs ->
  String.eqb (join ":" (hex4 <$> gs)) "" = false.
Proof.
  destruct gs as [|g gs]; [done|]. intros _ [Hg _]%Forall_cons.
  destruct (hex4_join_head g gs "" Hg) as (c & s & Ec & _). rewrite str_app_nil_r in Ec. by rewrite Ec.
Qed.

Lemma strip_ellipsis_join gs t : gs <> [] -> Forall group_ok gs ->
  strip_prefix "::" (join ":" (hex4 <$> gs) ++ t) = None.
Proof.
  destruct gs as [|g gs]; [done|]. intros _ [Hg _]%Forall_cons.
  destruct (hex4_join_head g gs t Hg) as (c & s & -> & Hc). by apply strip_ellipsis_None.
Qed.

Lemma parse_v6_plain gs :
  length gs = 8%nat -> Forall group_ok gs -> parse_v6 (join ":" (hex4 <$> gs)) = Some (bytes_of gs).
Proof.
  intros Hl Hgs. assert (gs <> []) by (destruct gs; [done|congruence]).
  unfold parse_v6. pose proof (strip_ellipsis_join gs "" ltac:(done) Hgs) as E.
  rewrite str_app_nil_r in E. rewrite E, v6_loop_groups by (done || lia).
  unfold v6_finish. simpl app. by rewrite bytes_of_length, Hl.
Qed.

(** The text with an ellipsis: [gs1] before it, [gs2] after it. *)
Lemma parse_v6_ellipsis gs1 gs2 :
  (length gs1 + length gs2 <= 6)%nat -> Forall group_ok gs1 -> Forall group_ok gs2 ->
  parse_v6 (join ":" (hex4 <$> gs1) ++ "::" ++ join ":" (hex4 <$> gs2))
  = Some (bytes_of gs1 ++ replicate (16 - 2 * (length gs1 + length gs2)) 0 ++ bytes_of gs2).
Proof.
  intros Hl H1 H2. unfold parse_v6. destruct (decide (gs1 = [])) as [->|Hn1].
  - cbn [fmap list_fmap join]. simpl (_ ++ "::" ++ _)%string.
    change (String ":" (String ":" ?x)) with ("::" ++ x)%string.
    rewrite (proj2 (strip_prefix_Some _ _ _) eq_refl).
    destruct (decide (gs2 = [])) as [->|Hn2]; [done|].
    pose proof (join_hex_nonempty gs2 Hn2 H2) as Hj.
    rewrite v6_loop_groups by (done || simpl in *; lia).
    destruct (join ":" (hex4 <$> gs2)); [done|]. unfold v6_finish.
    rewrite take_0, drop_0. simpl app. rewrite bytes_of_length. simpl length in Hl.
    destruct (Nat.ltb_spec (2 * length gs2) 16); [done|lia].
  - rewrite strip_ellipsis_join, v6_loop_ellipsis by (done || lia). cbv zeta. simpl app.
    pose proof (bytes_of_length gs1) as L1. pose proof (bytes_of_length gs2) as L2.
    destruct (decide (gs2 = [])) as [->|Hn2].
    + cbn [fmap list_fmap join String.eqb]. unfold v6_finish. rewrite L1.
      destruct (Nat.ltb_spec (2 * length gs1) 16); [|simpl in *; lia].
      rewrite <- L1, firstn_all, drop_all, L1. simpl length. by rewrite Nat.add_0_r.
    + rewrite join_hex_nonempty, v6_loop_groups by (done || lia). unfold v6_finish.
      rewrite length_app, take_app_length, drop_app_length, L1, L2.
      destruct (Nat.ltb_spec (2 * length gs1 + 2 * length gs2) 16); [|lia].
      do 3 f_equal. f_equal. lia.
Qed.

Lemma parse_v6_string b :
  length b = 16%nat -> Forall byte_ok b -> parse_v6 (v6_string b) = Some b.
Proof.
  intros Hl Hb. destruct (groups_of_spec b 8 Hl Hb) as (G1 & G2 & G3).
  unfold v6_string. set (gs := groups_of b) in *. clearbody gs.
  destruct (longest_run 0 gs None) as [[zs ze]|] eqn:E; [|by rewrite parse_v6_plain, G3].
  apply (longest_run_spec gs [] gs None) in E as (_ & Hz & Hr); [|done|done]. simpl in Hz, Hr.
  rewrite parse_v6_ellipsis; [|rewrite length_take, length_drop; lia|by apply Forall_take|by apply Forall_drop].
  assert (Hb2 : b = bytes_of (take zs gs) ++ replicate (2 * (ze - zs)) 0 ++ bytes_of (drop ze gs)).
  { by rewrite <- bytes_of_zeros, <- !bytes_of_app, <- Hz. }
  rewrite Hb2, length_take, length_drop. do 3 f_equal. f_equal. lia.
Qed.

(** ** Addresses *)

(** Canonical network numbers: IPv4 in four bytes, or a genuine IPv6 address. *)
Definition canonical (nn : list Z) : Prop :=
  Forall byte_ok nn /\ (length nn = 4%nat \/ (length nn = 16%nat /\ To4 nn = [])).

Definition as16 (nn : list Z) : list Z := if decide (length nn = 4%nat) then v4InV6Prefix ++ nn else nn.

Lemma itoa3_byte_hex b : byte_ok b -> hex_chars (itoa3 b).
Proof. intros [? ?]. apply itoa3_hex. lia. Qed.

Lemma v4_string_no_byte nn c :
  Forall byte_ok nn -> is_hex_char c = false -> c <> "."%char -> IndexByte (v4_string nn) c = None.
Proof.
  intros Hb Hc Hd. unfold v4_string. apply join_no_byte.
  - apply IndexByte_single. congruence.
  - rewrite Forall_fmap. eapply Forall_impl; [exact Hb|]. intros b Hb'. simpl.
    apply hex_no_byte; [by apply itoa3_byte_hex|done].
Qed.

Lemma v6_string_no_byte b n c :
  length b = (2 * n)%nat -> Forall byte_ok b -> is_hex_char c = false -> c <> ":"%char -> IndexByte (v6_string b) c = None.
Proof.
  intros Hl Hb Hc Hd. destruct (groups_of_spec b n Hl Hb) as (_ & G2 & _).
  assert (Hj : forall gs, Forall group_ok gs -> IndexByte (join ":" (hex4 <$> gs)) c = None).
  { intros gs Hgs. apply join_no_byte.
    - repeat (rewrite IndexByte_cons by congruence). done.
    - rewrite Forall_fmap. eapply Forall_impl; [exact Hgs|]. intros g Hg. simpl.
      apply hex_no_byte; [by apply hex4_hex|done]. }
  unfold v6_string. destruct (longest_run 0 (groups_of b) None) as [[zs ze]|]; [|by apply Hj].
  apply IndexByte_app_None; [by apply Hj, Forall_take|].
  apply IndexByte_app_None; [|by apply Hj, Forall_drop].
  repeat (rewrite IndexByte_cons by congruence). done.
Qed.

Lemma first_sep_join_hex gs t : (2 <= length gs)%nat -> Forall group_ok gs ->
  first_sep (join ":" (hex4 <$> gs) ++ t) = Some SepColon.
Proof.
  intros Hl Hgs. destruct gs as [|g [|g' gs]]; simpl in Hl; try lia.
  apply Forall_cons in Hgs as [Hg _].
  change (join ":" (hex4 <$> g :: g' :: gs)) with (hex4 g ++ ":" ++ join ":" (hex4 <$> g' :: gs))%string.
  rewrite str_app_assoc, first_sep_hex by by apply hex4_hex. done.
Qed.

Lemma first_sep_v6 b : length b = 16%nat -> Forall byte_ok b -> first_sep (v6_string b) = Some SepColon.
Proof.
  intros Hl Hb. destruct (groups_of_spec b 8 Hl Hb) as (G1 & G2 & _). unfold v6_string.
  destruct (longest_run 0 (groups_of b) None) as [[zs ze]|].
  - destruct (take zs (groups_of b)) as [|g [|g' gs]] eqn:Et; [done| |].
    + cbn [fmap list_fmap join]. rewrite first_sep_hex; [done|]. apply hex4_hex.
      assert (Forall group_ok [g]) as Hg by (rewrite <- Et; by apply Forall_take).
      by apply Forall_cons in Hg as [? _].
    + apply first_sep_join_hex; [simpl; lia|]. rewrite <- Et. by apply Forall_take.
  - pose proof (first_sep_join_hex (groups_of b) "" ltac:(lia) G2) as E.
    by rewrite str_app_nil_r in E.
Qed.

Lemma first_sep_v4 b nn : byte_ok b -> nn <> [] -> first_sep (v4_string (b :: nn)) = Some SepDot.
Proof.
  intros Hb Hn. destruct nn as [|b' nn]; [done|].
  change (v4_string (b :: b' :: nn)) with (itoa3 b ++ "." ++ v4_string (b' :: nn))%string.
  rewrite first_sep_hex by by apply itoa3_byte_hex. done.
Qed.

Lemma IPString_canonical nn : canonical nn ->
  IPString nn = if decide (length nn = 4%nat) then v4_string nn else v6_string nn.
Proof.
  intros [_ [Hl|[Hl Ht]]]; unfold IPString, To4 in *; rewrite Hl in *; simpl in *.
  - destruct nn; [done|]. done.
  - destruct nn; [done|]. simpl in *. by rewrite Ht.
Qed.

(** Parsing a printed canonical address gives it back. *)
Lemma ParseAddr_IPString nn : canonical nn ->
  ParseAddr (IPString nn) = Some (as16 nn, bool_decide (length nn = 4%nat)).
Proof.
  intros Hc. rewrite (IPString_canonical nn Hc). destruct Hc as [Hb [Hl|[Hl Ht]]]; unfold as16; rewrite Hl; simpl.
  - destruct nn as [|a [|b [|c [|d [|]]]]]; simpl in Hl; try lia.
    unfold ParseAddr. rewrite first_sep_v4 by (try done; by apply Forall_cons in Hb as [? _]).
    by rewrite parse_v4_string.
  - unfold ParseAddr. rewrite first_sep_v6 by done.
    rewrite (v6_string_no_byte nn 8) by done. by rewrite parse_v6_string.
Qed.

Lemma IPString_no_slash nn : canonical nn -> IndexByte (IPString nn) "/"%char = None.
Proof.
  intros Hc. rewrite (IPString_canonical nn Hc). destruct Hc as [Hb [Hl|[Hl Ht]]]; rewrite Hl; simpl.
  - by apply v4_string_no_byte.
  - by apply (v6_string_no_byte nn 8).
Qed.

(** ** Masks *)

Lemma mask_bytes_length len n : length (mask_bytes len n) = len.
Proof. revert n. induction len; intros n; simpl; [done|]. case_match; simpl; auto. Qed.

Lemma mask_bytes_ok len n : 0 <= n -> Forall byte_ok (mask_bytes len n).
Proof.
  revert n. induction len as [|len IH]; intros n Hn; [constructor|]. cbn [mask_bytes].
  destruct (Z.leb_spec 8 n); constructor; try (apply IH; lia); [unfold byte_ok; lia|].
  small_cases n 8; unfold byte_ok; vm_compute; done.
Qed.

Lemma CIDRMask_length k bits : 0 <= bits -> length (CIDRMask k (8 * bits)) = Z.to_nat bits.
Proof. intros H. unfold CIDRMask. rewrite mask_bytes_length. f_equal. lia. Qed.

(** Facts about the 33 and 129 masks the service can build, by evaluation. *)
Definition mask_check (bits : Z) (P : Z -> bool) : bool := forallb P (seqZ 0 (bits + 1)).

Lemma mask_check_spec bits P k : mask_check bits P = true -> 0 <= k <= bits -> P k = true.
Proof.
  unfold mask_check. rewrite forallb_forall. intros H Hk. apply H.
  apply list_elem_of_In, elem_of_seqZ. lia.
Qed.

Lemma simpleMaskLength_CIDRMask k bits : bits = 32 \/ bits = 128 -> 0 <= k <= bits ->
  simpleMaskLength (CIDRMask k bits) = Some k.
Proof.
  intros Hb Hk.
  pose proof (mask_check_spec bits (fun k => bool_decide (simpleMaskLength (CIDRMask k bits) = Some k)) k) as H.
  specialize (H ltac:(destruct Hb as [-> | ->]; vm_compute; reflexivity) Hk). cbv beta in H.
  by apply bool_decide_eq_true_1 in H.
Qed.

(** A 128-bit mask that keeps the IPv4-mapped prefix is a 32-bit mask below it. *)
Lemma CIDRMask_mapped k : 0 <= k <= 128 ->
  and_bytes v4InV6Prefix (take 12 (CIDRMask k 128)) = v4InV6Prefix \/ 96 <= k ->
  96 <= k /\ drop 12 (CIDRMask k 128) = CIDRMask (k - 96) 32 /\
  and_bytes v4InV6Prefix (take 12 (CIDRMask k 128)) = v4InV6Prefix.
Proof.
  intros Hk.
  pose proof (mask_check_spec 128 (fun k =>
    bool_decide ((and_bytes v4InV6Prefix (take 12 (CIDRMask k 128)) = v4InV6Prefix \/ 96 <= k) ->
      96 <= k /\ drop 12 (CIDRMask k 128) = CIDRMask (k - 96) 32 /\
      and_bytes v4InV6Prefix (take 12 (CIDRMask k 128)) = v4InV6Prefix)) k) as H.
  specialize (H ltac:(vm_compute; reflexivity) Hk). cbv beta in H.
  by apply bool_decide_eq_true_1 in H.
Qed.

Lemma and_bytes_length x m : length x = length m -> length (and_bytes x m) = length x.
Proof. intros H. unfold and_bytes. rewrite length_zip_with. lia. Qed.

Lemma and_bytes_idemp x m : and_bytes (and_bytes x m) m = and_bytes x m.
Proof.
  unfold and_bytes. revert m. induction x as [|a x IH]; intros [|b m]; simpl; [done..|].
  rewrite IH. f_equal. rewrite <- Z.land_assoc, Z.land_diag. done.
Qed.

Lemma byte_land a b : byte_ok a -> byte_ok b -> byte_ok (Z.land a b).
Proof.
  unfold byte_ok. intros [Ha Ha'] [Hb Hb']. split; [apply Z.land_nonneg; lia|].
  destruct (decide (Z.land a b = 0)) as [->|Hne]; [lia|].
  assert (0 < Z.land a b) by (pose proof (proj2 (Z.land_nonneg a b)); lia).
  change 256 with (2 ^ 8). apply Z.log2_lt_pow2; [done|].
  pose proof (Z.log2_land a b Ha Hb).
  destruct (decide (a = 0)) as [->|]; [rewrite Z.land_0_l in *; lia|].
  pose proof (Z.log2_lt_pow2 a 8 ltac:(lia)) as [H3 _]. specialize (H3 ltac:(lia)). lia.
Qed.

Lemma and_bytes_ok x m : Forall byte_ok x -> Forall byte_ok m -> Forall byte_ok (and_bytes x m).
Proof.
  unfold and_bytes. revert m. induction x as [|a x IH]; intros [|b m] Hx Hm; simpl; try constructor.
  - apply Forall_cons in Hx as [? _], Hm as [? _]. by apply byte_land.
  - apply Forall_cons in Hx as [_ ?], Hm as [_ ?]. auto.
Qed.

Lemma and_bytes_take n x m : take n (and_bytes x m) = and_bytes (take n x) (take n m).
Proof.
  unfold and_bytes. revert n m.
  induction x as [|a x IH]; intros [|n] [|b m]; simpl; try done. by rewrite IH.
Qed.
Lemma and_bytes_drop n x m : drop n (and_bytes x m) = and_bytes (drop n x) (drop n m).
Proof.
  unfold and_bytes. revert n m.
  induction x as [|a x IH]; intros [|n] [|b m]; simpl; try done.
  by destruct (drop n x).
Qed.

(** ** Networks *)

Lemma IPMaskOp_v4 nn m : length nn = 4%nat -> length m = 4%nat ->
  IPMaskOp (v4InV6Prefix ++ nn) m = and_bytes nn m.
Proof.
  intros Hn Hm. unfold IPMaskOp. cbv zeta.
  replace (mask_for (v4InV6Prefix ++ nn) m) with m by
    (unfold mask_for; rewrite decide_False; [done|lia]).
  replace (ip_for (v4InV6Prefix ++ nn) m) with nn by
    (unfold ip_for; rewrite decide_True; [done|simpl; by rewrite Hn]).
  by rewrite decide_True by congruence.
Qed.

Lemma IPMaskOp_v6 nn m : length nn = 16%nat -> length m = 16%nat -> IPMaskOp nn m = and_bytes nn m.
Proof.
  intros Hn Hm. unfold IPMaskOp. cbv zeta.
  replace (mask_for nn m) with m by (unfold mask_for; rewrite decide_False; [done|lia]).
  replace (ip_for nn m) with nn by (unfold ip_for; rewrite decide_False; [done|lia]).
  by rewrite decide_True by congruence.
Qed.

(** What every network of the service satisfies: a canonical number and a
    prefix mask of the same width. *)
Definition wf_net (n : IPNet) : Prop :=
  exists nn k, networkNumberAndMask n = Some (nn, CIDRMask k (8 * Z.of_nat (length nn))) /\
    0 <= k <= 8 * Z.of_nat (length nn) /\ canonical nn.

(** The network [ParseCIDR] builds for a canonical number and prefix length. *)
Lemma ParseCIDR_string nn k : canonical nn -> 0 <= k <= 8 * Z.of_nat (length nn) ->
  ParseCIDR (IPString nn ++ "/" ++ itoa3 k)
  = let m := CIDRMask k (8 * Z.of_nat (length nn)) in
    Some {| netIP := and_bytes nn m; netMask := m |}.
Proof.
  intros Hc Hk.
  assert (Hk1 : 0 <= k < 1000) by (destruct Hc as [_ [Hl|[Hl _]]]; rewrite Hl in Hk; lia).
  unfold ParseCIDR. rewrite IndexByte_app by by apply IPString_no_slash.
  cbn [IndexByte String.append Ascii.eqb]. simpl (_ <$> _). cbv iota beta.
  rewrite Nat.add_0_r. change ("/" ++ itoa3 k)%string with (String "/" (itoa3 k)).
  rewrite str_take_app, str_drop_app, ParseAddr_IPString, dtoi_itoa3 by done.
  destruct Hc as [Hb [Hl|[Hl Ht]]]; unfold as16; rewrite Hl in *; simpl.
  - change (8 * Z.of_nat 4) with 32 in *. destruct (Z.ltb_spec 32 k); [lia|].
    do 2 f_equal. apply IPMaskOp_v4; [done|]. by apply (CIDRMask_length k 4).
  - change (8 * Z.of_nat 16) with 128 in *. destruct (Z.ltb_spec 128 k); [lia|].
    do 2 f_equal. apply IPMaskOp_v6; [done|]. by apply (CIDRMask_length k 16).
Qed.

Lemma To4_16_nil x : length x = 16%nat -> To4 x = [] <-> take 12 x <> v4InV6Prefix.
Proof.
  intros Hl. unfold To4. rewrite decide_False by lia.
  destruct (decide _) as [[_ Ht]|Hn]; split; try done.
  - intros E. apply (f_equal length) in E. rewrite length_drop, Hl in E. done.
  - intros _ Ht. by apply Hn.
Qed.

Lemma and_bytes_ones x : Forall byte_ok x -> and_bytes x (replicate (length x) 255) = x.
Proof.
  intros Hx. induction Hx as [|a x [Ha Ha'] Hx IH]; [done|]. unfold and_bytes in *. simpl. rewrite IH.
  f_equal. change 255 with (Z.ones 8). rewrite Z.land_ones by lia. by apply Z.mod_small.
Qed.

Lemma CIDRMask_ones k : 0 <= k <= 128 -> 96 <= k -> take 12 (CIDRMask k 128) = replicate 12 255.
Proof.
  intros Hk. pose proof (mask_check_spec 128
    (fun k => bool_decide (96 <= k -> take 12 (CIDRMask k 128) = replicate 12 255)) k) as H.
  specialize (H ltac:(vm_compute; reflexivity) Hk). cbv beta in H. by apply bool_decide_eq_true_1 in H.
Qed.

(** Masking an IPv6 number never turns it into an IPv4-mapped one. *)
Lemma To4_masked nn k : length nn = 16%nat -> Forall byte_ok nn -> 0 <= k <= 128 ->
  To4 nn = [] -> To4 (and_bytes nn (CIDRMask k 128)) = [].
Proof.
  intros Hl Hb Hk Ht. set (m := CIDRMask k 128).
  assert (Hm : length m = 16%nat) by by apply (CIDRMask_length k 16).
  apply To4_16_nil; [by rewrite and_bytes_length; lia|]. apply To4_16_nil in Ht; [|done].
  rewrite and_bytes_take. intros Hp. apply Ht.
  assert (Hff : and_bytes v4InV6Prefix (take 12 m) = v4InV6Prefix) by by rewrite <- Hp, and_bytes_idemp.
  destruct (CIDRMask_mapped k Hk (or_introl Hff)) as (H96 & _ & _).
  unfold m in Hp. rewrite CIDRMask_ones in Hp by done. rewrite <- Hp.
  symmetry. rewrite <- (and_bytes_ones (take 12 nn)) at 2 by by apply Forall_take.
  by rewrite length_take, Hl.
Qed.

Lemma canonical_masked nn k : canonical nn -> 0 <= k <= 8 * Z.of_nat (length nn) ->
  canonical (and_bytes nn (CIDRMask k (8 * Z.of_nat (length nn)))).
Proof.
  intros [Hb Hl] Hk.
  assert (Hml : length (and_bytes nn (CIDRMask k (8 * Z.of_nat (length nn)))) = length nn)
    by (apply and_bytes_length; rewrite CIDRMask_length; lia).
  split; [apply and_bytes_ok; [done|by apply mask_bytes_ok; lia]|].
  rewrite Hml. destruct Hl as [Hl|[Hl Ht]]; [by left|right]. split; [done|].
  rewrite Hl in *. by apply To4_masked.
Qed.

Lemma networkNumberAndMask_canonical nn m : canonical nn -> length m = length nn ->
  networkNumberAndMask {| netIP := nn; netMask := m |} = Some (nn, m).
Proof.
  intros [_ [Hl|[Hl Ht]]] Hm; unfold networkNumberAndMask; simpl; rewrite Hm, Hl.
  - unfold To4. rewrite Hl. simpl. destruct nn; [done|]. simpl in *. by rewrite Hl.
  - rewrite Ht, Hl. done.
Qed.

(** Printing a network and parsing the text back gives a network that
    contains the same addresses. *)
Lemma ParseCIDR_NetString n : wf_net n ->
  exists n', ParseCIDR (NetString n) = Some n' /\ forall ip, NetContains n' ip = NetContains n ip.
Proof.
  intros (nn & k & Hn & Hk & Hc). set (m := CIDRMask k (8 * Z.of_nat (length nn))) in *.
  assert (Hm : length m = length nn) by (unfold m; rewrite CIDRMask_length; lia).
  exists {| netIP := and_bytes nn m; netMask := m |}. split.
  - unfold NetString. rewrite Hn. unfold m at 1. rewrite simpleMaskLength_CIDRMask; [|..|done].
    { by rewrite ParseCIDR_string. }
    destruct Hc as [_ [Hl|[Hl _]]]; rewrite Hl; lia.
  - intros ip. unfold NetContains. rewrite Hn. simpl.
    rewrite networkNumberAndMask_canonical;
      [|by apply canonical_masked|rewrite and_bytes_length by done; lia].
    simpl. by rewrite and_bytes_length, and_bytes_idemp by done.
Qed.

(** ** Parsed addresses and networks are well formed *)

Lemma dec_val_range c d : dec_val c = Some d -> 0 <= d < 10.
Proof. unfold dec_val. case_match eqn:E; [|done]. intros [= <-]. lia. Qed.

Lemma hex_val_range c d : hex_val c = Some d -> 0 <= d < 16.
Proof. unfold hex_val. repeat case_match; intros [=]; lia. Qed.

Lemma parse_v4_loop_wf s first pd val k fields b :
  parse_v4_loop s first pd val k fields = Some b ->
  (length fields <= 3)%nat -> byte_ok val -> Forall byte_ok fields ->
  length b = 4%nat /\ Forall byte_ok b.
Proof.
  revert first pd val k fields. induction s as [|c s IH]; intros first pd val k fields; cbn [parse_v4_loop].
  - destruct (Nat.ltb_spec (length fields) 3); [done|]. intros [= <-] Hl Hv Hf.
    rewrite length_app. split; [simpl; lia|]. apply Forall_app. split; [done|by constructor].
  - destruct (dec_val c) as [d|] eqn:Hd.
    + apply dec_val_range in Hd. case_match; [done|].
      destruct (Z.ltb_spec 255 (val * 10 + d)); [done|].
      intros H1 Hl [Hv Hv'] Hf. eapply IH; eauto. unfold byte_ok. lia.
    + case_match; [|done]. case_match; [done|]. destruct (Nat.eqb_spec (length fields) 3); [done|].
      intros H3 Hl Hv Hf. eapply IH; [exact H3| |unfold byte_ok; lia|].
      * rewrite length_app. simpl. lia.
      * apply Forall_app. split; [done|by constructor].
Qed.

Lemma parse_v4_wf s b : parse_v4 s = Some b -> length b = 4%nat /\ Forall byte_ok b.
Proof.
  intros H. eapply parse_v4_loop_wf; [exact H|simpl; lia|unfold byte_ok; lia|constructor].
Qed.

Lemma scan_hex_range s off acc k g r :
  scan_hex s off acc = Some (k, g, r) -> group_ok acc -> group_ok g.
Proof.
  revert off acc. induction s as [|c s IH]; intros off acc; cbn [scan_hex]; [by intros [= <- <- <-]|].
  destruct (hex_val c) as [v|] eqn:Hv; [|by intros [= <- <- <-]].
  apply hex_val_range in Hv. case_match; [done|]. case_match; [done|].
  intros H1 Ha. eapply IH; [exact H1|]. unfold group_ok in *. lia.
Qed.

Lemma v6_loop_wf fuel s ip ell s' ip' ell' :
  v6_loop fuel s ip ell = Some (s', ip', ell') ->
  length ip = (16 - 2 * fuel)%nat -> (fuel <= 8)%nat -> Forall byte_ok ip ->
  (length ip' <= 16)%nat /\ Forall byte_ok ip'.
Proof.
  revert s ip ell. induction fuel as [|fuel IH]; intros s ip ell; cbn [v6_loop].
  { intros [= <- <- <-] Hl _ Hb. split; [lia|done]. }
  destruct (scan_hex s 0 0) as [[[k g] rest]|] eqn:Hs; [|done]. destruct k as [|k]; [done|].
  apply scan_hex_range in Hs; [|unfold group_ok; lia].
  intros H Hl Hf Hb.
  assert (Hb' : Forall byte_ok (ip ++ [g / 256; g mod 256])).
  { apply Forall_app. split; [done|]. unfold group_ok in Hs. repeat constructor; unfold byte_ok; lia. }
  assert (Hl' : length (ip ++ [g / 256; g mod 256]) = (16 - 2 * fuel)%nat) by (rewrite length_app; simpl; lia).
  repeat (case_match; simplify_eq/=); try (split; [lia|done]);
    try (eapply IH; [eassumption|done|lia|done]).
  match goal with H : parse_v4 _ = Some _ |- _ => apply parse_v4_wf in H as [? ?] end.
  rewrite length_app. split; [|by apply Forall_app]. destruct (Nat.ltb_spec 16 (length ip + 4)); [done|lia].
Qed.

Lemma parse_v6_wf s b : parse_v6 s = Some b -> length b = 16%nat /\ Forall byte_ok b.
Proof.
  assert (Hfin : forall s ell, v6_finish (v6_loop 8 s [] ell) = Some b -> length b = 16%nat /\ Forall byte_ok b).
  { intros t ell. unfold v6_finish. destruct (v6_loop 8 t [] ell) as [[[s' ip] ell']|] eqn:E; [|done].
    apply v6_loop_wf in E as [Hl Hb]; [|done|lia|constructor].
    destruct s'; [|done]. destruct (Nat.ltb_spec (length ip) 16).
    - destruct ell' as [e|]; [|done]. intros [= <-].
      rewrite !length_app, length_replicate, length_take, length_drop. split; [lia|].
      apply Forall_app. split; [by apply Forall_take|]. apply Forall_app. split; [|by apply Forall_drop].
      apply Forall_replicate. unfold byte_ok. lia.
    - destruct ell'; [done|]. intros [= <-]. split; [lia|done]. }
  unfold parse_v6. repeat case_match; intros H'; try (by eapply Hfin). injection H' as <-.
  split; [done|]. by repeat constructor.
Qed.

Lemma ParseAddr_wf s b is4 : ParseAddr s = Some (b, is4) ->
  length b = 16%nat /\ Forall byte_ok b /\ (is4 = true -> take 12 b = v4InV6Prefix).
Proof.
  unfold ParseAddr. case_match; [|done]. case_match; [| |done].
  - destruct (parse_v4 s) as [b4|] eqn:E; [|done]. intros [= <- <-].
    apply parse_v4_wf in E as [Hl Hb]. split; [simpl; lia|]. split; [|done].
    repeat (constructor; [unfold byte_ok; lia|]). done.
  - case_match; [done|]. destruct (parse_v6 s) as [b6|] eqn:E; [|done]. intros [= <- <-].
    apply parse_v6_wf in E as [Hl Hb]. done.
Qed.

(** A well-formed address: four or sixteen bytes. *)
Definition valid_ip (ip : IP) : Prop := Forall byte_ok ip /\ (length ip = 4%nat \/ length ip = 16%nat).

Lemma ParseIP_valid s : ParseIP s <> [] -> valid_ip (ParseIP s).
Proof.
  unfold ParseIP. destruct (ParseAddr s) as [[b is4]|] eqn:E; [|done].
  apply ParseAddr_wf in E as (Hl & Hb & _). intros _. split; auto.
Qed.

Definition norm4 (ip : IP) : IP := match To4 ip with [] => ip | ip4 => ip4 end.

Lemma norm4_canonical ip : valid_ip ip -> canonical (norm4 ip).
Proof.
  intros [Hb [Hl|Hl]]; unfold norm4.
  - unfold To4. rewrite decide_True by done. destruct ip; [done|]. split; [done|by left].
  - destruct (To4 ip) as [|x l] eqn:E; [split; [done|by right]|]. unfold To4 in E.
    rewrite decide_False in E by lia. destruct (decide _); [|done]. rewrite <- E.
    split; [by apply Forall_drop|]. left. rewrite length_drop. lia.
Qed.

Lemma dtoi_nonneg s n : dtoi s = Some n -> 0 <= n.
Proof.
  unfold dtoi. case_match; [done|].
  assert (Hl : forall s a, 0 <= a -> dtoi_loop s a = Some n -> 0 <= n).
  { clear. induction s as [|c s IH]; intros a Ha; cbn [dtoi_loop]; [by intros [= <-]|].
    destruct (dec_val c) eqn:Hd; [|done]. apply dec_val_range in Hd. case_match; [done|].
    apply IH. lia. }
  by apply Hl.
Qed.

Lemma wf_net_canonical nn k : canonical nn -> 0 <= k <= 8 * Z.of_nat (length nn) ->
  wf_net {| netIP := nn; netMask := CIDRMask k (8 * Z.of_nat (length nn)) |}.
Proof.
  intros Hc Hk. exists nn, k. split; [|done].
  apply networkNumberAndMask_canonical; [done|]. rewrite CIDRMask_length; lia.
Qed.

Lemma To4_mapped ip : length ip = 16%nat -> take 12 ip = v4InV6Prefix -> To4 ip = drop 12 ip.
Proof. intros Hl Ht. unfold To4. rewrite decide_False by lia. by rewrite decide_True. Qed.

(** A 128-bit network whose masked number is IPv4-mapped is a 32-bit network. *)
Lemma wf_net_mapped b k : length b = 16%nat -> Forall byte_ok b -> 0 <= k <= 128 ->
  wf_net {| netIP := and_bytes b (CIDRMask k 128); netMask := CIDRMask k 128 |}.
Proof.
  intros Hl Hb Hk. set (m := CIDRMask k 128). set (x := and_bytes b m).
  assert (Hm : length m = 16%nat) by by apply (CIDRMask_length k 16).
  assert (Hx : length x = 16%nat) by (unfold x; rewrite and_bytes_length; lia).
  assert (Hxb : Forall byte_ok x) by (apply and_bytes_ok; [done|by apply mask_bytes_ok; lia]).
  destruct (decide (take 12 x = v4InV6Prefix)) as [Hp|Hp].
  - assert (Hff : and_bytes v4InV6Prefix (take 12 m) = v4InV6Prefix).
    { rewrite <- Hp. unfold x. by rewrite and_bytes_take, and_bytes_idemp. }
    destruct (CIDRMask_mapped k Hk (or_introl Hff)) as (H96 & Hdm & _).
    assert (Hd : length (drop 12 x) = 4%nat) by (rewrite length_drop; lia).
    exists (drop 12 x), (k - 96). rewrite Hd. change (8 * Z.of_nat 4) with 32.
    split; [|split; [lia|split; [by apply Forall_drop|by left]]].
    unfold networkNumberAndMask. simpl netIP; simpl netMask.
    assert (Ht : To4 x = drop 12 x) by by apply To4_mapped.
    rewrite Ht. destruct (drop 12 x) as [|y l] eqn:E; [done|].
    rewrite decide_True by (left; exact Hd). rewrite decide_False, decide_True by lia.
    rewrite decide_True by exact Hd. by rewrite <- Hdm.
  - pose proof (wf_net_canonical x k) as H. rewrite Hx in H. apply H; [|done].
    split; [done|]. right. split; [done|]. by apply To4_16_nil.
Qed.

Lemma ParseCIDR_wf s n : ParseCIDR s = Some n -> wf_net n.
Proof.
  unfold ParseCIDR. case_match; [|done].
  destruct (ParseAddr _) as [[b is4]|] eqn:Ha; [|done].
  destruct (dtoi _) as [k|] eqn:Hk; [|done]. apply dtoi_nonneg in Hk.
  apply ParseAddr_wf in Ha as (Hl & Hb & H4).
  destruct is4.
  - destruct (Z.ltb_spec 32 k); [done|]. intros [= <-].
    specialize (H4 eq_refl). rewrite <- (take_drop 12 b), H4.
    assert (Hd : length (drop 12 b) = 4%nat) by (rewrite length_drop; lia).
    assert (Hm : length (CIDRMask k 32) = 4%nat) by by apply (CIDRMask_length k 4).
    rewrite IPMaskOp_v4 by done. set (nn := drop 12 b) in *.
    pose proof (canonical_masked nn k) as Hc. rewrite Hd in Hc.
    specialize (Hc ltac:(split; [by apply Forall_drop|by left]) ltac:(lia)).
    pose proof (wf_net_canonical _ k Hc) as Hw. rewrite and_bytes_length, Hd in Hw by (rewrite Hd; done).
    apply Hw. lia.
  - destruct (Z.ltb_spec 128 k); [done|]. intros [= <-].
    rewrite IPMaskOp_v6; [|done|by apply (CIDRMask_length k 16)]. apply wf_net_mapped; auto.
Qed.

(** ** Equality of addresses is equality of their canonical forms *)

Lemma IPEqual_norm4 a b : valid_ip a -> valid_ip b -> IPEqual a b = bool_decide (norm4 a = norm4 b).
Proof.
  assert (N4 : forall x, length x = 4%nat -> norm4 x = x).
  { intros x Hx. unfold norm4, To4. rewrite decide_True by done. by destruct x. }
  assert (N16 : forall x, length x = 16%nat ->
     norm4 x = if decide (take 12 x = v4InV6Prefix) then drop 12 x else x).
  { intros x Hx. unfold norm4. destruct (decide _) as [Ht|Ht].
    - rewrite To4_mapped by done. destruct (drop 12 x) eqn:E; [|done].
      apply (f_equal length) in E. rewrite length_drop, Hx in E. done.
    - by rewrite (proj2 (To4_16_nil x Hx) Ht). }
  assert (TD : forall x : IP, x = take 12 x ++ drop 12 x) by (intros; by rewrite take_drop).
  intros [_ [Ha|Ha]] [_ [Hb|Hb]]; unfold IPEqual.
  - rewrite decide_True by lia. by rewrite !N4.
  - rewrite decide_False, decide_True by lia. rewrite N4, N16 by done. apply bool_decide_ext.
    destruct (decide _); [naive_solver|]. split; [naive_solver|]. intros ->. lia.
  - rewrite decide_False, decide_False, decide_True by lia. rewrite (N4 b), N16 by done. apply bool_decide_ext.
    destruct (decide _); [naive_solver|]. split; [naive_solver|]. intros ->. lia.
  - rewrite decide_True by lia. rewrite !N16 by done. apply bool_decide_ext.
    destruct (decide _) as [Ta|Ta], (decide _) as [Tb|Tb].
    + rewrite (TD a), (TD b), Ta, Tb at 1. split; [by intros ?%(inj (v4InV6Prefix ++.))|by intros ->].
    + split; [intros ->; done|]. intros E. apply (f_equal length) in E. rewrite length_drop in E. lia.
    + split; [intros ->; done|]. intros E. apply (f_equal length) in E. rewrite length_drop in E. lia.
    + done.
Qed.
