(* ===== verification/Firewall.v ===== *)
(** * pkg/firewall: rules, rule files, rule providers and the linear matcher

    Models src/pkg/firewall/firewall.go, provider.go, file_provider.go and
    database_provider.go.  A rules file is its contents ([None] when
    [os.Open] fails); a database is the result of its one query. *)

From Stdlib Require Import Ascii String.
From S2P Require Import Prelude.
From stdpp Require Import list.
From S2P Require Import GoStrings NetIP NetIPFacts.

(** ** Data *)

Record FirewallRule := mkRule {
  SourceIP : IP;
  SourceNetwork : option IPNet;
  DestIP : IP;
  DestNetwork : option IPNet }.

Record Firewall := mkFirewall { rules : list FirewallRule }.

Definition NewFirewall : Firewall := {| rules := [] |}.

(** Why a rule does not parse ([parseRule]'s four errors). *)
Inductive RuleError :=
| InvalidSourceCIDR (s : string)
| InvalidSourceIP (s : string)
| InvalidDestCIDR (s : string)
| InvalidDestIP (s : string).

Inductive LoadError :=
| OpenFailed
| FieldCount (line got : nat)
| BadRule (line : nat) (e : RuleError)
| ReadFailed.

(** ** Parsing *)

(** One side of a rule: an IP address or, with a slash, a CIDR network. *)
Definition parseEndpoint (s : string) : option (IP * option IPNet) :=
  if Contains s "/" then (fun n => ([], Some n)) <$> ParseCIDR s
  else match ParseIP s with [] => None | ip => Some (ip, None) end.

Definition parseRule (sourceStr destStr : string) : result RuleError FirewallRule :=
  match parseEndpoint sourceStr with
  | None => Err (if Contains sourceStr "/" then InvalidSourceCIDR sourceStr else InvalidSourceIP sourceStr)
  | Some (sip, snet) =>
      match parseEndpoint destStr with
      | None => Err (if Contains destStr "/" then InvalidDestCIDR destStr else InvalidDestIP destStr)
      | Some (dip, dnet) => Ok {| SourceIP := sip; SourceNetwork := snet; DestIP := dip; DestNetwork := dnet |}
      end
  end.

(** [bufio.ScanLines]: lines end at LF, one trailing CR is dropped, a final
    unterminated line counts when it is not empty. *)
Definition LF : ascii := ascii_of_nat 10.
Definition CR : ascii := ascii_of_nat 13.

Definition drop_cr (rev_line : string) : string :=
  match rev_line with
  | String c r => if Ascii.eqb c CR then str_rev r else str_rev rev_line
  | EmptyString => EmptyString
  end.

Fixpoint scan_lines (cur : string) (s : string) : list string :=
  match s with
  | EmptyString => if String.eqb cur "" then [] else [drop_cr cur]
  | String c s => if Ascii.eqb c LF then drop_cr cur :: scan_lines "" s else scan_lines (String c cur) s
  end.

(** The scanner's buffer holds 64 KiB: a raw line of more than 65535 bytes
    stops the scan with [bufio.ErrTooLong].  Raw lengths include the CR. *)
Fixpoint raw_lengths (cur : nat) (s : string) : list nat :=
  match s with
  | EmptyString => if (cur =? 0)%nat then [] else [cur]
  | String c s => if Ascii.eqb c LF then cur :: raw_lengths 0 s else raw_lengths (S cur) s
  end.

Definition max_line : N := 65535.

Definition too_long (n : nat) : bool := N.ltb max_line (N.of_nat n).

(** A line of the file after [strings.TrimSpace]: skipped, or split in fields. *)
Definition is_skipped (line : string) : bool := String.eqb line "" || HasPrefix line "#".

Definition parseLine (lineNum : nat) (line : string) : result LoadError (option FirewallRule) :=
  let line := TrimSpace line in
  if is_skipped line then Ok None
  else match Fields line with
       | [a; b] =>
           match parseRule a b with
           | Ok r => Ok (Some r)
           | Err e => Err (BadRule lineNum e)
           end
       | parts => Err (FieldCount lineNum (length parts))
       end.

(** The [for scanner.Scan()] loop: [lineNum] is the number of lines read. *)
Fixpoint loadLines (lineNum : nat) (ls : list (string * nat)) (acc : list FirewallRule)
  : result LoadError Firewall :=
  match ls with
  | [] => Ok {| rules := acc |}
  | (line, raw) :: ls =>
      if too_long raw then Err ReadFailed
      else match parseLine (S lineNum) line with
           | Err e => Err e
           | Ok None => loadLines (S lineNum) ls acc
           | Ok (Some r) => loadLines (S lineNum) ls (acc ++ [r])
           end
  end.

Definition LoadFromFile (file : option string) : result LoadError Firewall :=
  match file with
  | None => Err OpenFailed
  | Some content => loadLines 0 (zip (scan_lines "" content) (raw_lengths 0 content)) (rules NewFirewall)
  end.

(** ** Matching *)

Definition matchesSource (rule : FirewallRule) (sourceIP : IP) : bool :=
  match SourceNetwork rule with
  | Some n => NetContains n sourceIP
  | None => IPEqual (SourceIP rule) sourceIP
  end.

Definition matchesDest (rule : FirewallRule) (destIP : IP) : bool :=
  match DestNetwork rule with
  | Some n => NetContains n destIP
  | None => IPEqual (DestIP rule) destIP
  end.

Fixpoint anyRule (rs : list FirewallRule) (sourceIP destIP : IP) : bool :=
  match rs with
  | [] => false
  | rule :: rs => if matchesSource rule sourceIP && matchesDest rule destIP then true else anyRule rs sourceIP destIP
  end.

Definition IsAllowed (fw : Firewall) (sourceIP destIP : IP) : bool :=
  if decide (length (rules fw) = 0) then true else anyRule (rules fw) sourceIP destIP.

(** The host part of "ip:port", or the whole string when there is no port. *)
Definition hostPart (addr : string) : string :=
  match SplitHostPort addr with Some (h, _) => h | None => addr end.

Fixpoint filterLoop (fw : Firewall) (sourceIP : IP) (addresses allowed : list string) : list string :=
  match addresses with
  | [] => allowed
  | addr :: rest =>
      match ParseIP (hostPart addr) with
      | [] => filterLoop fw sourceIP rest allowed
      | destIP =>
          if IsAllowed fw sourceIP destIP then filterLoop fw sourceIP rest (allowed ++ [addr])
          else filterLoop fw sourceIP rest allowed
      end
  end.

Definition FilterAddresses (fw : Firewall) (sourceIP : IP) (addresses : list string) : list string :=
  if decide (length (rules fw) = 0) then addresses else filterLoop fw sourceIP addresses [].

Definition RuleCount (fw : Firewall) : nat := length (rules fw).

(** ** Providers *)

(** [rule_wf] holds of rules whose networks came from [net.ParseCIDR] and whose addresses came
    from [net.ParseIP] or are nil. *)
Definition ip_or_nil (ip : IP) : Prop := ip = [] \/ valid_ip ip.

Definition endpoint_wf (ip : IP) (n : option IPNet) : Prop :=
  match n with Some n => wf_net n | None => ip_or_nil ip end.

Definition rule_wf (r : FirewallRule) : Prop :=
  endpoint_wf (SourceIP r) (SourceNetwork r) /\ endpoint_wf (DestIP r) (DestNetwork r).

Class RulesProvider (P : Type) := {
  provider_error : Type;
  GetRules : P -> result provider_error (list FirewallRule) }.

(** The promise a provider makes to the firewalls: from a state it reaches
    itself ([provider_inv]) it only delivers well-formed rules. *)
Class RulesProviderWf (P : Type) `{!RulesProvider P} := {
  provider_inv : P -> Prop;
  GetRules_wf : forall (p : P) rs, provider_inv p -> GetRules p = Ok rs -> Forall rule_wf rs }.

(** *** FileRulesProvider *)

Record FileRulesProvider := { filePath : string; frp_rules : list FirewallRule }.

(** [reload], over the file system's view of the provider's path *)
Definition reload (fs : string -> option string) (frp : FileRulesProvider) : result LoadError FileRulesProvider :=
  match LoadFromFile (fs (filePath frp)) with
  | Err e => Err e
  | Ok fw => Ok {| filePath := filePath frp; frp_rules := rules fw |}
  end.

Definition NewFileRulesProvider (fs : string -> option string) (path : string) : result LoadError FileRulesProvider :=
  reload fs {| filePath := path; frp_rules := [] |}.

Definition FileGetRules (frp : FileRulesProvider) : result LoadError (list FirewallRule) := Ok (frp_rules frp).

(** *** DatabaseRulesProvider *)

(** A row of [firewall_rules]: [None] is SQL NULL. *)
Record RuleRow := mkRow {
  source_ip : option string; source_network : option string;
  dest_ip : option string; dest_network : option string }.

Inductive DBError :=
| QueryFailed
| ScanFailed
| RowsFailed
| DBInvalidSourceCIDR
| DBInvalidSourceIP (s : string)
| DBInvalidDestCIDR
| DBInvalidDestIP (s : string).

(** What the query delivers: an error, or rows that scan ([Some]) or fail to
    scan ([None]), then whether the iteration ended with an error. *)
Definition QueryResult := option (list (option RuleRow) * bool).

Definition rowEndpoint (ip net : option string) (badCIDR : DBError) (badIP : string -> DBError)
  : result DBError (IP * option IPNet) :=
  match net with
  | Some s => match ParseCIDR s with Some n => Ok ([], Some n) | None => Err badCIDR end
  | None =>
      match ip with
      | Some s => match ParseIP s with [] => Err (badIP s) | x => Ok (x, None) end
      | None => Ok ([], None)
      end
  end.

Definition rowRule (row : RuleRow) : result DBError FirewallRule :=
  match rowEndpoint (source_ip row) (source_network row) DBInvalidSourceCIDR DBInvalidSourceIP with
  | Err e => Err e
  | Ok (sip, snet) =>
      match rowEndpoint (dest_ip row) (dest_network row) DBInvalidDestCIDR DBInvalidDestIP with
      | Err e => Err e
      | Ok (dip, dnet) => Ok {| SourceIP := sip; SourceNetwork := snet; DestIP := dip; DestNetwork := dnet |}
      end
  end.

Fixpoint rowsLoop (rows : list (option RuleRow)) (acc : list FirewallRule) : result DBError (list FirewallRule) :=
  match rows with
  | [] => Ok acc
  | None :: _ => Err ScanFailed
  | Some row :: rows =>
      match rowRule row with
      | Err e => Err e
      | Ok r => rowsLoop rows (acc ++ [r])
      end
  end.

Record DatabaseRulesProvider := { db_query : QueryResult }.

Definition DBGetRules (drp : DatabaseRulesProvider) : result DBError (list FirewallRule) :=
  match db_query drp with
  | None => Err QueryFailed
  | Some (rows, rows_err) =>
      match rowsLoop rows [] with
      | Err e => Err e
      | Ok rs => if rows_err then Err RowsFailed else Ok rs
      end
  end.

#[export] Instance FileProvider : RulesProvider FileRulesProvider :=
  { provider_error := LoadError; GetRules := FileGetRules }.
#[export] Instance DBProvider : RulesProvider DatabaseRulesProvider :=
  { provider_error := DBError; GetRules := DBGetRules }.

Definition LoadFromProvider `{RulesProvider P} (p : P) : result provider_error Firewall :=
  match GetRules p with
  | Err e => Err e
  | Ok rs => Ok {| rules := rules NewFirewall ++ rs |}
  end.

Definition demo_rules : string :=
  ("# demo" ++ String LF ("  192.168.1.10   10.0.0.5 " ++ String CR (String LF (String LF
   ("192.168.1.0/24 10.0.0.0/24")))))%string.

Example demo_load :
  match LoadFromFile (Some demo_rules) with
  | Err _ => None
  | Ok fw =>
      Some (RuleCount fw,
            IsAllowed fw (ParseIP "192.168.1.7") (ParseIP "10.0.0.9"),
            IsAllowed fw (ParseIP "192.168.2.7") (ParseIP "10.0.0.9"),
            FilterAddresses fw (ParseIP "192.168.1.7") ["10.0.0.9:80"; "10.0.1.9:80"; "host"; "10.0.0.1"]%string)
  end = Some (2, true, false, ["10.0.0.9:80"; "10.0.0.1"]%string).
Proof. vm_compute. reflexivity. Qed.

(** ** Loading a rules file *)

(** A line of a file loads as [o] under any line number: it is skipped
    ([None]) or it is one rule. *)
Definition line_loads (line : string) (o : option FirewallRule) : Prop :=
  (is_skipped (TrimSpace line) = true /\ o = None) \/
  (is_skipped (TrimSpace line) = false /\
   exists a b r, Fields (TrimSpace line) = [a; b] /\ parseRule a b = Ok r /\ o = Some r).

Lemma parseLine_loads n line o : parseLine n line = Ok o <-> line_loads line o.
Proof.
  unfold parseLine, line_loads. cbv zeta. destruct (is_skipped _).
  { split; [intros [= <-]; by left|]. intros [[_ ->]|[[=] _]]. done. }
  destruct (Fields _) as [|a [|b [|c fs]]].
  3: destruct (parseRule a b) eqn:E.
  all: split; [try done|intros [[[=] _]|(_ & ? & ? & ? & [=] & ? & ?)]; congruence].
  intros [= <-]. right. eauto 10.
Qed.

Lemma scan_raw_length cur n s :
  (cur = ""%string <-> n = 0%nat) -> length (scan_lines cur s) = length (raw_lengths n s).
Proof.
  revert cur n. induction s as [|c s IH]; intros cur n Hc; simpl.
  - destruct (String.eqb_spec cur ""), (Nat.eqb_spec n 0); naive_solver.
  - destruct (Ascii.eqb c LF); simpl; [by rewrite (IH "" 0)|]. apply IH. done.
Qed.

Lemma loadLines_ok lineNum ls acc fw :
  loadLines lineNum ls acc = Ok fw <->
  Forall (fun x => too_long x.2 = false) ls /\
  exists per, Forall2 (fun x o => line_loads x.1 o) ls per /\ rules fw = acc ++ omap id per.
Proof.
  revert lineNum acc. induction ls as [|[l n] ls IH]; intros lineNum acc; simpl.
  - split.
    + intros [= <-]. split; [constructor|]. exists []. split; [constructor|]. by rewrite app_nil_r.
    + intros (_ & per & Hper & Hr). inversion Hper; subst. destruct fw as [rs]. simpl in *.
      rewrite app_nil_r in Hr. by subst.
  - rewrite Forall_cons. destruct (too_long n) eqn:Ht.
    { simpl. split; [done|]. intros [[? _] _]. congruence. }
    destruct (parseLine (S lineNum) l) as [o|e] eqn:E.
    + pose proof E as Hl. rewrite parseLine_loads in Hl.
      assert (forall o', line_loads l o' -> o' = o) as Hfun.
      { intros o' Ho'. apply (parseLine_loads (S lineNum)) in Ho'. congruence. }
      transitivity (loadLines (S lineNum) ls (acc ++ option_list o) = Ok fw).
      { destruct o; simpl; by rewrite ?app_nil_r. }
      assert (forall per, omap id (o :: per) = option_list o ++ omap id per) as Ho by (by destruct o).
      rewrite IH. split.
      * intros (Hf & per & Hper & Hr). split; [done|]. exists (o :: per).
        rewrite Ho, Hr, app_assoc. by split; [constructor|].
      * intros ([_ Hf] & per & Hper & Hr). split; [done|].
        inversion Hper as [|? o' ? per' Ho' Hper']; subst. apply Hfun in Ho' as ->.
        exists per'. by rewrite Hr, Ho, app_assoc.
    + split; [done|]. intros (_ & per & Hper & _). inversion Hper as [|? o' ? per' Ho' Hper']; subst.
      apply (parseLine_loads (S lineNum)) in Ho'. simpl in Ho'. congruence.
Qed.

(** [loadLines] stops at the first line that is too long or does not parse. *)
Lemma loadLines_err lineNum ls acc e :
  loadLines lineNum ls acc = Err e <->
  exists i l n, ls !! i = Some (l, n) /\
    (forall j x, (j < i)%nat -> ls !! j = Some x -> too_long x.2 = false /\ exists o, line_loads x.1 o) /\
    (if too_long n then e = ReadFailed else parseLine (S (lineNum + i)) l = Err e).
Proof.
  revert lineNum acc. induction ls as [|[l n] ls IH]; intros lineNum acc; simpl.
  - split; [done|]. intros (? & ? & ? & [=] & _).
  - split.
    + destruct (too_long n) eqn:Ht.
      { intros [= <-]. exists 0%nat, l, n. rewrite Ht. repeat split; lia. }
      destruct (parseLine (S lineNum) l) as [o|e'] eqn:E.
      * intros H. assert (exists acc', loadLines (S lineNum) ls acc' = Err e) as [acc' H'] by (destruct o; eauto).
        apply IH in H' as (i & l' & n' & Hi & Hj & He). exists (S i), l', n'. split; [done|]. split.
        -- intros [|j] x Hlt Hx; [injection Hx as <-; rewrite parseLine_loads in E; eauto|].
           apply (Hj j); [lia|done].
        -- by rewrite Nat.add_succ_r.
      * intros [= <-]. exists 0%nat, l, n. rewrite Ht, Nat.add_0_r. repeat split; try done; lia.
    + intros ([|i] & l' & n' & Hi & Hj & He).
      * simplify_eq/=. rewrite Nat.add_0_r in He. destruct (too_long n'); [by subst|]. by rewrite He.
      * destruct (Hj 0%nat (l, n)) as [Ht [o Ho]]; [lia|done|]. simpl in Ht, Ho. rewrite Ht.
        apply (parseLine_loads (S lineNum)) in Ho. rewrite Ho.
        assert (forall acc', loadLines (S lineNum) ls acc' = Err e).
        { intros acc'. apply IH. exists i, l', n'. rewrite <- Nat.add_succ_r. split; [done|]. split; [|done].
          intros j x Hlt Hx. apply (Hj (S j)); [lia|done]. }
        destruct o; auto.
Qed.

(** C24: a rules file loads exactly when no line exceeds the scanner's buffer
    and every line is blank, a comment, or two fields that parse as a rule;
    the firewall then holds the rules of the non-skipped lines, in file
    order. *)
Theorem LoadFromFile_rules content fw :
  LoadFromFile (Some content) = Ok fw <->
  Forall (fun n => too_long n = false) (raw_lengths 0 content) /\
  exists per, Forall2 line_loads (scan_lines "" content) per /\ rules fw = omap id per.
Proof.
  unfold LoadFromFile. rewrite loadLines_ok. simpl.
  assert (Hl : length (scan_lines "" content) = length (raw_lengths 0 content)) by by apply scan_raw_length.
  rewrite <- (Forall_fmap snd (fun n => too_long n = false)), snd_zip by lia.
  revert Hl. generalize (scan_lines "" content), (raw_lengths 0 content). intros L N Hl.
  assert (forall per, Forall2 (fun x o => line_loads x.1 o) (zip L N) per <-> Forall2 line_loads L per) as Hz.
  { intros per. rewrite <- (fst_zip L N) at 2 by lia. by rewrite Forall2_fmap_l. }
  by setoid_rewrite Hz.
Qed.

(** When a rules file does not load, the error is about its first bad
    line: every earlier line loads, and the reported error is a read error
    when that line is too long and otherwise names its number, counted from
    one, and the defect. *)
Theorem LoadFromFile_first_error content e :
  LoadFromFile (Some content) = Err e <->
  exists i l n, zip (scan_lines "" content) (raw_lengths 0 content) !! i = Some (l, n) /\
    (forall j l' n', (j < i)%nat -> zip (scan_lines "" content) (raw_lengths 0 content) !! j = Some (l', n') ->
       too_long n' = false /\ exists o, line_loads l' o) /\
    (if too_long n then e = ReadFailed else parseLine (S i) l = Err e).
Proof.
  unfold LoadFromFile. rewrite loadLines_err.
  split; intros (i & l & n & Hi & Hj & He); exists i, l, n; (split; [done|split; [|done]]).
  - intros j l' n' Hlt Hx. by apply (Hj j (l', n')).
  - intros j [l' n'] Hlt Hx. by apply (Hj j l' n').
Qed.

(** ** Matching and filtering *)

Lemma anyRule_spec rs s d :
  anyRule rs s d = true <-> exists r, r ∈ rs /\ matchesSource r s = true /\ matchesDest r d = true.
Proof.
  induction rs as [|r rs IH]; simpl; [split; [done|set_solver]|].
  destruct (matchesSource r s && matchesDest r d) eqn:E.
  - split; [|done]. intros _. apply andb_true_iff in E as [? ?]. exists r. set_solver.
  - rewrite IH. apply andb_false_iff in E. split; [set_solver|].
    intros (r' & [->|?]%elem_of_cons & ? & ?); [destruct E; congruence|set_solver].
Qed.

(** The linear firewall allows a communication exactly when it holds no
    rule, or some rule matches both the source and the destination. *)
Theorem IsAllowed_spec fw s d :
  IsAllowed fw s d = true <->
  rules fw = [] \/ exists r, r ∈ rules fw /\ matchesSource r s = true /\ matchesDest r d = true.
Proof.
  unfold IsAllowed. case_decide as E.
  - apply length_zero_iff_nil in E. rewrite E. naive_solver.
  - rewrite anyRule_spec. split; [by right|]. intros [H|]; [|done]. by rewrite H in E.
Qed.

(** What a filtered address must satisfy. *)
Definition addr_allowed (allowed : IP -> bool) (addr : string) : bool :=
  match ParseIP (hostPart addr) with [] => false | destIP => allowed destIP end.

Lemma filterLoop_filter fw s addrs acc :
  filterLoop fw s addrs acc = acc ++ List.filter (addr_allowed (IsAllowed fw s)) addrs.
Proof.
  revert acc. induction addrs as [|a addrs IH]; intros acc; simpl; [by rewrite app_nil_r|].
  unfold addr_allowed at 1. destruct (ParseIP (hostPart a)) as [|b ip]; [done|].
  destruct (IsAllowed fw s (b :: ip)); [|done]. by rewrite IH, <- app_assoc.
Qed.

(** ** Providers deliver well-formed rules *)

Lemma parseEndpoint_wf s ip n : parseEndpoint s = Some (ip, n) -> endpoint_wf ip n.
Proof.
  unfold parseEndpoint. case_match.
  - destruct (ParseCIDR s) as [n'|] eqn:E; [|done]. intros [= <- <-]. by eapply ParseCIDR_wf.
  - pose proof (ParseIP_valid s) as Hv. destruct (ParseIP s); [done|]. intros [= <- <-]. right. by apply Hv.
Qed.

Lemma parseRule_wf a b r : parseRule a b = Ok r -> rule_wf r.
Proof.
  unfold parseRule. destruct (parseEndpoint a) as [[sip snet]|] eqn:Ea; [|done].
  destruct (parseEndpoint b) as [[dip dnet]|] eqn:Eb; [|done]. intros [= <-].
  split; by eapply parseEndpoint_wf.
Qed.

Lemma LoadFromFile_wf f fw : LoadFromFile f = Ok fw -> Forall rule_wf (rules fw).
Proof.
  destruct f as [content|]; [|done]. unfold LoadFromFile. rewrite loadLines_ok. intros (_ & per & Hper & ->).
  simpl. apply Forall_forall. intros r (o & Ho & Hr)%list_elem_of_omap.
  apply list_elem_of_lookup in Ho as [i Hi]. destruct (Forall2_lookup_r _ _ _ _ _ Hper Hi) as (x & _ & Hx).
  destruct Hx as [[_ ->]|(_ & a & b & r' & _ & Hp & ->)]; [done|]. injection Hr as ->.
  by eapply parseRule_wf.
Qed.

Lemma rowEndpoint_wf ip net e1 e2 x n : rowEndpoint ip net e1 e2 = Ok (x, n) -> endpoint_wf x n.
Proof.
  unfold rowEndpoint. destruct net as [s|].
  - destruct (ParseCIDR s) eqn:E; [|done]. intros [= <- <-]. by eapply ParseCIDR_wf.
  - destruct ip as [s|]; [|intros [= <- <-]; by left].
    pose proof (ParseIP_valid s) as Hv. destruct (ParseIP s); [done|]. intros [= <- <-]. right. by apply Hv.
Qed.

Lemma rowRule_wf row r : rowRule row = Ok r -> rule_wf r.
Proof.
  unfold rowRule. destruct (rowEndpoint (source_ip row) _ _ _) as [[sip snet]|] eqn:Ea; [|done].
  destruct (rowEndpoint (dest_ip row) _ _ _) as [[dip dnet]|] eqn:Eb; [|done]. intros [= <-].
  split; by eapply rowEndpoint_wf.
Qed.

Lemma rowsLoop_ok rows acc rs :
  rowsLoop rows acc = Ok rs <->
  exists new, Forall2 (fun o r => exists row, o = Some row /\ rowRule row = Ok r) rows new /\ rs = acc ++ new.
Proof.
  revert acc. induction rows as [|[row|] rows IH]; intros acc; simpl.
  - split; [intros [= <-]; exists []; by rewrite app_nil_r|].
    intros (new & Hn & ->). inversion Hn. by rewrite app_nil_r.
  - destruct (rowRule row) as [r|e] eqn:E.
    + rewrite IH. split.
      * intros (new & Hn & ->). exists (r :: new). rewrite <- app_assoc. split; [|done]. constructor; eauto.
      * intros (new & Hn & ->). inversion Hn as [|? r' ? new' (row' & Hx & Hr') Hn']; subst.
        assert (r' = r) as -> by congruence. exists new'. by rewrite <- app_assoc.
    + split; [done|]. intros (new & Hn & _). inversion Hn as [|? r' ? new' (row' & Hx & Hr') Hn'].
      congruence.
  - split; [done|]. intros (new & Hn & _). inversion Hn as [|? r' ? new' (row' & Hx & Hr') Hn']. done.
Qed.

Lemma DBGetRules_wf drp rs : DBGetRules drp = Ok rs -> Forall rule_wf rs.
Proof.
  unfold DBGetRules. destruct (db_query drp) as [[rows err]|]; [|done].
  destruct (rowsLoop rows []) as [rs'|] eqn:E; [|done]. destruct err; [done|]. intros [= <-].
  apply rowsLoop_ok in E as (new & Hn & ->). simpl. apply Forall_forall. intros r [i Hi]%list_elem_of_lookup.
  destruct (Forall2_lookup_r _ _ _ _ _ Hn Hi) as (o & _ & row & _ & Hr). by eapply rowRule_wf.
Qed.

#[export, refine] Instance FileProviderWf : RulesProviderWf FileRulesProvider :=
  { provider_inv := fun frp => Forall rule_wf (frp_rules frp); GetRules_wf := _ }.
Proof. intros p rs Hp [= <-]. done. Defined.

#[export, refine] Instance DBProviderWf : RulesProviderWf DatabaseRulesProvider :=
  { provider_inv := fun _ => True; GetRules_wf := _ }.
Proof. intros p rs _. apply DBGetRules_wf. Defined.

Lemma reload_inv fs frp frp' : reload fs frp = Ok frp' -> provider_inv frp'.
Proof.
  unfold reload. destruct (LoadFromFile _) as [fw|] eqn:E; [|done]. intros [= <-]. by apply LoadFromFile_wf in E.
Qed.
