(* ===== verification/IndexedFirewall.v ===== *)
(** * pkg/firewall/indexed_firewall.go: the indexed matcher

    The index is a Go map from the textual form of a source network to the
    destination networks allowed from it.  [for k, v := range index] visits
    the entries in an unspecified order, so the operations that iterate take
    the order as an argument; [is_order] says an order is one Go may choose.
    The main theorem is that the index decides exactly like the linear
    firewall of [Firewall.v] on the same rules. *)

From Stdlib Require Import Ascii String.
From S2P Require Import Prelude.
From stdpp Require Import list.
From S2P Require Import GoStrings NetIP NetIPFacts Firewall.

(** ** Data *)

Record FirewallStats := mkFStats {
  TotalChecks : Z; TotalAllowed : Z; TotalBlocked : Z; LastReloadTime : Z }.

Definition zero_stats : FirewallStats := mkFStats 0 0 0 0.

Abbreviation Index := (gmap string (list IPNet)).

Record IndexedFirewall (P : Type) := mkIFW { provider : P; index : Index; stats : FirewallStats }.
Arguments mkIFW {P}. Arguments provider {P}. Arguments index {P}. Arguments stats {P}.

(** ** Building the index *)

Definition ipToNetwork (ip : IP) : IPNet :=
  match To4 ip with
  | [] => {| netIP := ip; netMask := CIDRMask 128 128 |}
  | _ => {| netIP := ip; netMask := CIDRMask 32 32 |}
  end.

Definition getSourceKey (rule : FirewallRule) : string :=
  match SourceNetwork rule with
  | Some n => NetString n
  | None => NetString (ipToNetwork (SourceIP rule))
  end.

Definition getDestNet (rule : FirewallRule) : IPNet :=
  match DestNetwork rule with
  | Some n => n
  | None => ipToNetwork (DestIP rule)
  end.

(** [newIndex\[k\] = append(newIndex\[k\], destNet)] for each rule *)
Definition indexStep (idx : Index) (rule : FirewallRule) : Index :=
  let sourceKey := getSourceKey rule in
  <[sourceKey := default [] (idx !! sourceKey) ++ [getDestNet rule]]> idx.

Definition buildIndex (rs : list FirewallRule) : Index := foldl indexStep ∅ rs.

Definition rebuildIndex `{RulesProvider P} (ifw : IndexedFirewall P)
  : result provider_error (IndexedFirewall P) :=
  match GetRules (provider ifw) with
  | Err e => Err e
  | Ok rs => Ok {| provider := provider ifw; index := buildIndex rs; stats := stats ifw |}
  end.

Definition NewIndexedFirewall `{RulesProvider P} (p : P) : result provider_error (IndexedFirewall P) :=
  rebuildIndex {| provider := p; index := ∅; stats := zero_stats |}.

(** ** Deciding *)

Definition is_order (idx : Index) (order : list (string * list IPNet)) : Prop :=
  order ≡ₚ map_to_list idx.

Definition sourceMatches (sourceKey : string) (sourceIP : IP) : bool :=
  match ParseCIDR sourceKey with
  | None => false
  | Some network => NetContains network sourceIP
  end.

Fixpoint anyDest (destNets : list IPNet) (destIP : IP) : bool :=
  match destNets with
  | [] => false
  | destNet :: destNets => if NetContains destNet destIP then true else anyDest destNets destIP
  end.

(** The two nested loops of [IsAllowed] and [filterAddressHelper] *)
Fixpoint rangeIndex (order : list (string * list IPNet)) (sourceIP destIP : IP) : bool :=
  match order with
  | [] => false
  | (sourceKey, destNets) :: order =>
      if sourceMatches sourceKey sourceIP then
        if anyDest destNets destIP then true else rangeIndex order sourceIP destIP
      else rangeIndex order sourceIP destIP
  end.

Definition count_allowed (s : FirewallStats) : FirewallStats :=
  mkFStats (wrap64 (TotalChecks s + 1)) (wrap64 (TotalAllowed s + 1)) (TotalBlocked s) (LastReloadTime s).
Definition count_blocked (s : FirewallStats) : FirewallStats :=
  mkFStats (wrap64 (TotalChecks s + 1)) (TotalAllowed s) (wrap64 (TotalBlocked s + 1)) (LastReloadTime s).

Definition set_stats {P} (ifw : IndexedFirewall P) (s : FirewallStats) : IndexedFirewall P :=
  {| provider := provider ifw; index := index ifw; stats := s |}.

Definition IsAllowedIx {P} (order : list (string * list IPNet)) (ifw : IndexedFirewall P) (sourceIP destIP : IP)
  : bool * IndexedFirewall P :=
  if decide (size (index ifw) = 0) then (true, set_stats ifw (count_allowed (stats ifw)))
  else if rangeIndex order sourceIP destIP then (true, set_stats ifw (count_allowed (stats ifw)))
  else (false, set_stats ifw (count_blocked (stats ifw))).

Definition filterAddressHelper (order : list (string * list IPNet)) (sourceIP destIP : IP)
    (allowed : list string) (addr : string) : list string :=
  if rangeIndex order sourceIP destIP then allowed ++ [addr] else allowed.

(** The address loop; every address has its own iteration order. *)
Fixpoint filterIxLoop (orders : nat -> list (string * list IPNet)) (i : nat) (sourceIP : IP)
    (addresses allowed : list string) : list string :=
  match addresses with
  | [] => allowed
  | addr :: rest =>
      match ParseIP (hostPart addr) with
      | [] => filterIxLoop orders (S i) sourceIP rest allowed
      | destIP =>
          filterIxLoop orders (S i) sourceIP rest (filterAddressHelper (orders i) sourceIP destIP allowed addr)
      end
  end.

Definition FilterAddressesIx {P} (orders : nat -> list (string * list IPNet)) (ifw : IndexedFirewall P)
    (sourceIP : IP) (addresses : list string) : list string :=
  if decide (size (index ifw) = 0) then addresses else filterIxLoop orders 0 sourceIP addresses [].

(** ** Maintenance *)

Definition Reload `{RulesProvider P} (now : Z) (ifw : IndexedFirewall P)
  : result provider_error (IndexedFirewall P) :=
  match rebuildIndex ifw with
  | Err e => Err e
  | Ok ifw' =>
      let s := stats ifw' in
      Ok (set_stats ifw' (mkFStats (TotalChecks s) (TotalAllowed s) (TotalBlocked s) now))
  end.

Definition GetFirewallStats {P} (ifw : IndexedFirewall P) : FirewallStats := stats ifw.

(** ** The index holds each rule under its source key *)

Lemma buildIndex_lookup rs k n :
  (exists l, buildIndex rs !! k = Some l /\ n ∈ l) <->
  exists r, r ∈ rs /\ getSourceKey r = k /\ getDestNet r = n.
Proof.
  unfold buildIndex. revert n k. induction rs as [|r rs IH] using rev_ind; intros n k.
  - simpl. setoid_rewrite lookup_empty. set_solver.
  - rewrite foldl_snoc. unfold indexStep at 1. setoid_rewrite elem_of_app. setoid_rewrite list_elem_of_singleton.
    set (m := foldl indexStep ∅ rs) in *. destruct (decide (getSourceKey r = k)) as [<-|Hk].
    + setoid_rewrite lookup_insert_eq. split.
      * intros (l & [= <-] & [Hn|Hn%list_elem_of_singleton]%elem_of_app); [|set_solver].
        destruct (m !! getSourceKey r) as [l|] eqn:E; simpl in Hn; [|set_solver].
        destruct (proj1 (IH n (getSourceKey r))) as (r' & ? & ? & ?); [eauto|]. set_solver.
      * intros (r' & [Hr| ->] & Hk & Hn); eexists; (split; [done|]); [|set_solver].
        apply elem_of_app. left. destruct (proj2 (IH n (getSourceKey r))) as (l & Hl & ?); [eauto|].
        by rewrite Hl.
    + setoid_rewrite lookup_insert_ne; [|done]. rewrite IH. set_solver.
Qed.

Lemma buildIndex_empty rs : size (buildIndex rs) = 0 <-> rs = [].
Proof.
  split; [|by intros ->]. rewrite map_size_empty_iff. unfold buildIndex.
  destruct rs as [|r rs] using rev_ind; [done|]. rewrite foldl_snoc.
  unfold indexStep at 1. intros E. by apply insert_non_empty in E.
Qed.

Lemma anyDest_spec l d : anyDest l d = true <-> exists n, n ∈ l /\ NetContains n d = true.
Proof.
  induction l as [|n l IH]; simpl; [split; [done|set_solver]|].
  destruct (NetContains n d) eqn:E; [split; [|done]; set_solver|].
  rewrite IH. split; [set_solver|]. intros (n' & [->|?]%elem_of_cons & ?); [congruence|eauto].
Qed.

Lemma rangeIndex_spec order s d :
  rangeIndex order s d = true <->
  exists k l n, (k, l) ∈ order /\ sourceMatches k s = true /\ n ∈ l /\ NetContains n d = true.
Proof.
  induction order as [|[k l] order IH]; simpl; [split; [done|set_solver]|].
  destruct (sourceMatches k s) eqn:Es; [destruct (anyDest l d) eqn:Ed|].
  - split; [|done]. intros _. apply anyDest_spec in Ed as (n & ? & ?). exists k, l, n. set_solver.
  - rewrite IH. split; [set_solver|]. intros (k' & l' & n & [[= -> ->]|?]%elem_of_cons & Hs & Hn & Hd); [|set_solver].
    assert (anyDest l d = true) by (apply anyDest_spec; eauto). congruence.
  - rewrite IH. split; [set_solver|]. intros (k' & l' & n & [[= -> ->]|?]%elem_of_cons & Hs & Hn & Hd); [|set_solver].
    congruence.
Qed.

(** ** A single address as a network *)

Lemma To4_length ip x l : To4 ip = x :: l -> valid_ip ip -> length (x :: l) = 4%nat.
Proof.
  intros E [_ H]. rewrite <- E. unfold To4 in *. case_decide; [done|]. case_decide as H2; [|done].
  rewrite length_drop. lia.
Qed.

Lemma networkNumberAndMask_ip ip : valid_ip ip ->
  networkNumberAndMask (ipToNetwork ip)
  = Some (norm4 ip, CIDRMask (8 * Z.of_nat (length (norm4 ip))) (8 * Z.of_nat (length (norm4 ip)))).
Proof.
  intros Hv. unfold networkNumberAndMask, ipToNetwork, norm4.
  destruct (To4 ip) as [|x l] eqn:E.
  - cbn [netIP netMask]. rewrite E. destruct Hv as [Hb [Hl|Hl]].
    { unfold To4 in E. rewrite decide_True in E by done. by subst. }
    rewrite Hl. done.
  - cbn [netIP netMask]. rewrite E. pose proof (To4_length _ _ _ E Hv) as Hl. rewrite Hl. done.
Qed.

Lemma ipToNetwork_wf ip : valid_ip ip -> wf_net (ipToNetwork ip).
Proof.
  intros Hv. exists (norm4 ip), (8 * Z.of_nat (length (norm4 ip)))%Z.
  split; [by apply networkNumberAndMask_ip|]. split; [lia|]. by apply norm4_canonical.
Qed.

Lemma full_mask nn : canonical nn ->
  CIDRMask (8 * Z.of_nat (length nn)) (8 * Z.of_nat (length nn)) = replicate (length nn) 255%Z.
Proof. intros [_ [Hl|[Hl _]]]; rewrite Hl; done. Qed.

(** The /32 or /128 network of an address contains that address only. *)
Lemma NetContains_ip ip x : valid_ip ip -> valid_ip x -> NetContains (ipToNetwork ip) x = IPEqual ip x.
Proof.
  intros Hi Hx. rewrite IPEqual_norm4 by done. unfold NetContains. rewrite networkNumberAndMask_ip by done.
  cbn [default from_option id]. fold (norm4 x). pose proof (norm4_canonical _ Hi) as Ci.
  rewrite full_mask by done. apply bool_decide_ext. split.
  - intros [Hl He]. rewrite <- Hl in He at 2. destruct Ci as [Cb _]. pose proof (norm4_canonical _ Hx) as [Cx _].
    by rewrite !and_bytes_ones in He.
  - by intros ->.
Qed.

(** A rule with no address (a row of NULLs) contains no address. *)
Lemma NetContains_nil x : valid_ip x -> NetContains (ipToNetwork []) x = false.
Proof.
  intros [_ Hl]. unfold NetContains. cbn. apply bool_decide_eq_false. intros [H _].
  fold (norm4 x) in H. unfold norm4, To4 in H. destruct Hl as [Hl|Hl]; rewrite Hl in H; simpl in H.
  - destruct x; [done|]. by rewrite Hl in H.
  - case_decide as Ht; [|lia]. destruct (drop 12 x) eqn:E; [lia|done].
Qed.

(** ** Equivalence with the linear firewall *)

Lemma matches_network (ip : IP) (n : option IPNet) x : endpoint_wf ip n -> valid_ip x ->
  match n with Some n => NetContains n x | None => IPEqual ip x end
  = NetContains (match n with Some n => n | None => ipToNetwork ip end) x.
Proof.
  intros Hw Hx. destruct n as [n|]; [done|]. destruct Hw as [->|Hv]; [|by rewrite NetContains_ip].
  rewrite NetContains_nil by done. destruct Hx as [_ Hl]. destruct Hl as [Hl|Hl]; by destruct x.
Qed.

Lemma matchesDest_getDestNet r d : rule_wf r -> valid_ip d -> matchesDest r d = NetContains (getDestNet r) d.
Proof. intros [_ Hd] Hv. by apply matches_network. Qed.

Lemma sourceMatches_key r s : rule_wf r -> valid_ip s -> sourceMatches (getSourceKey r) s = matchesSource r s.
Proof.
  intros [Hs _] Hv. unfold matchesSource. rewrite (matches_network _ _ _ Hs Hv).
  unfold sourceMatches, getSourceKey.
  destruct (SourceNetwork r) as [n|]; simpl in Hs.
  - destruct (ParseCIDR_NetString n Hs) as (n' & -> & H). apply H.
  - destruct Hs as [->|Hi]; [by rewrite NetContains_nil|].
    destruct (ParseCIDR_NetString _ (ipToNetwork_wf _ Hi)) as (n' & -> & H). apply H.
Qed.

Lemma rangeIndex_anyRule order rs s d :
  is_order (buildIndex rs) order -> Forall rule_wf rs -> valid_ip s -> valid_ip d ->
  rangeIndex order s d = anyRule rs s d.
Proof.
  intros Ho Hw Hs Hd. apply eq_true_iff_eq. rewrite rangeIndex_spec, anyRule_spec.
  rewrite Forall_forall in Hw. split.
  - intros (k & l & n & Hkl & Hks & Hn & Hnd). unfold is_order in Ho. rewrite Ho, elem_of_map_to_list in Hkl.
    destruct (proj1 (buildIndex_lookup rs k n)) as (r & Hr & <- & <-); [eauto|]. exists r.
    rewrite <- sourceMatches_key, matchesDest_getDestNet by auto. done.
  - intros (r & Hr & Hms & Hmd). rewrite <- sourceMatches_key in Hms by auto.
    rewrite matchesDest_getDestNet in Hmd by auto.
    destruct (proj2 (buildIndex_lookup rs (getSourceKey r) (getDestNet r))) as (l & Hl & Hn); [eauto|].
    exists (getSourceKey r), l, (getDestNet r). unfold is_order in Ho. by rewrite Ho, elem_of_map_to_list.
Qed.

(** A firewall whose index was built from the rules [rs]. *)
Definition indexes {P} (ifw : IndexedFirewall P) (rs : list FirewallRule) : Prop :=
  index ifw = buildIndex rs /\ Forall rule_wf rs.

Lemma IsAllowedIx_linear {P} order (ifw : IndexedFirewall P) rs s d :
  indexes ifw rs -> is_order (index ifw) order -> valid_ip s -> valid_ip d ->
  (IsAllowedIx order ifw s d).1 = IsAllowed {| rules := rs |} s d.
Proof.
  intros [Hi Hw] Ho Hs Hd. unfold IsAllowedIx, IsAllowed. rewrite Hi in *. simpl.
  destruct (decide (size _ = 0)) as [E|E], (decide (length rs = 0)) as [E'|E']; try done.
  - by apply buildIndex_empty in E as ->.
  - apply length_zero_iff_nil in E' as ->. done.
  - rewrite (rangeIndex_anyRule _ _ _ _ Ho Hw Hs Hd). by destruct (anyRule rs s d).
Qed.

Lemma filterIxLoop_filter orders i s addrs acc rs :
  (forall j, is_order (buildIndex rs) (orders j)) -> Forall rule_wf rs -> valid_ip s ->
  filterIxLoop orders i s addrs acc = acc ++ List.filter (addr_allowed (anyRule rs s)) addrs.
Proof.
  intros Ho Hw Hs. revert i acc. induction addrs as [|a addrs IH]; intros i acc; simpl; [by rewrite app_nil_r|].
  unfold addr_allowed at 1. pose proof (ParseIP_valid (hostPart a)) as Hv.
  destruct (ParseIP (hostPart a)) as [|b ip]; [apply IH|].
  rewrite IH. unfold filterAddressHelper.
  rewrite (rangeIndex_anyRule _ rs _ _ (Ho i) Hw Hs (Hv ltac:(done))).
  destruct (anyRule rs s (b :: ip)); [by rewrite <- app_assoc|done].
Qed.

Lemma FilterAddressesIx_linear {P} orders (ifw : IndexedFirewall P) rs s addrs :
  indexes ifw rs -> (forall j, is_order (index ifw) (orders j)) -> valid_ip s ->
  FilterAddressesIx orders ifw s addrs = FilterAddresses {| rules := rs |} s addrs.
Proof.
  intros [Hi Hw] Ho Hs. unfold FilterAddressesIx, FilterAddresses. rewrite Hi in *. simpl.
  destruct (decide (size _ = 0)) as [E|E], (decide (length rs = 0)) as [E'|E']; try done.
  - by apply buildIndex_empty in E as ->.
  - apply length_zero_iff_nil in E' as ->. done.
  - rewrite (filterIxLoop_filter _ _ _ _ _ rs), filterLoop_filter by done. f_equal.
    apply filter_ext. intros a. unfold addr_allowed, IsAllowed. simpl.
    destruct (ParseIP _); [done|]. by rewrite decide_False.
Qed.

(** ** Claims *)

Section claims.
Context {P : Type} `{RulesProviderWf P}.

(** The states a firewall reaches: created, asked, reloaded (successfully
    or not), its provider's contents changing in between. *)
Inductive ifw_reachable : IndexedFirewall P -> Prop :=
| ifw_new p ifw : provider_inv p -> NewIndexedFirewall p = Ok ifw -> ifw_reachable ifw
| ifw_check order ifw s d : ifw_reachable ifw -> is_order (index ifw) order ->
    ifw_reachable (IsAllowedIx order ifw s d).2
| ifw_reload now ifw ifw' : ifw_reachable ifw -> Reload now ifw = Ok ifw' -> ifw_reachable ifw'
| ifw_provider ifw p : ifw_reachable ifw -> provider_inv p ->
    ifw_reachable {| provider := p; index := index ifw; stats := stats ifw |}.

Lemma rebuildIndex_indexes (ifw ifw' : IndexedFirewall P) :
  provider_inv (provider ifw) -> rebuildIndex ifw = Ok ifw' ->
  exists rs, GetRules (provider ifw) = Ok rs /\ indexes ifw' rs.
Proof using Type*.
  intros Hp. unfold rebuildIndex. destruct (GetRules (provider ifw)) as [rs|e] eqn:E; [|done].
  intros [= <-]. exists rs. split; [done|]. split; [done|]. by eapply GetRules_wf.
Qed.

Definition stats_ok (s : FirewallStats) : Prop :=
  TotalChecks s = wrap64 (TotalAllowed s + TotalBlocked s).

Lemma count_ok s : stats_ok s -> stats_ok (count_allowed s) /\ stats_ok (count_blocked s).
Proof using Type.
  unfold stats_ok. simpl. intros ->. rewrite !wrap64_add_l, !wrap64_add_r.
  split; f_equal; lia.
Qed.

Lemma IsAllowedIx_frame order (ifw : IndexedFirewall P) s d :
  let ifw' := (IsAllowedIx order ifw s d).2 in
  provider ifw' = provider ifw /\ index ifw' = index ifw /\
  stats ifw' = if (IsAllowedIx order ifw s d).1 then count_allowed (stats ifw) else count_blocked (stats ifw).
Proof using Type. unfold IsAllowedIx. destruct (decide _); [done|]. by destruct (rangeIndex _ _ _). Qed.

(** Every reachable firewall holds the index of well-formed rules its
    provider delivered, and its counters add up. *)
Lemma reachable_inv ifw : ifw_reachable ifw ->
  (exists rs, indexes ifw rs) /\ provider_inv (provider ifw) /\ stats_ok (stats ifw).
Proof using Type*.
  induction 1 as [p ifw Hp E|order ifw s d _ ([rs Hi] & Hp & Hs) _|now ifw ifw' _ (_ & Hp & Hs) E
                 |ifw p _ ([rs Hi] & _ & Hs) Hp].
  - pose proof E as E'. apply rebuildIndex_indexes in E as (rs & _ & Hi); [|done].
    split; [eauto|]. unfold NewIndexedFirewall, rebuildIndex in E'. destruct (GetRules _); [|done].
    injection E' as <-. done.
  - destruct (IsAllowedIx_frame order ifw s d) as (-> & Hx & ->). split; [exists rs|].
    { unfold indexes in *. by rewrite Hx. }
    split; [done|]. apply count_ok in Hs as [? ?]. by destruct (IsAllowedIx _ _ _ _).1.
  - unfold Reload in E. destruct (rebuildIndex ifw) as [ifw1|] eqn:E1; [|done]. injection E as <-.
    pose proof E1 as E2. apply rebuildIndex_indexes in E1 as (rs & _ & Hi); [|done].
    split; [by exists rs|]. unfold rebuildIndex in E2. destruct (GetRules _); [|done]. by injection E2 as <-.
  - by split; [exists rs|].
Qed.

(** C4: on any rules a well-behaved provider delivers, the indexed firewall
    decides every pair of well-formed addresses as the linear firewall does,
    whatever order Go visits the index in: textual source keys, grouping by
    source and /32 or /128 host networks lose and add nothing. *)
Theorem indexed_equals_linear p ifw fw order s d :
  provider_inv p -> NewIndexedFirewall p = Ok ifw -> LoadFromProvider p = Ok fw ->
  is_order (index ifw) order -> valid_ip s -> valid_ip d ->
  (IsAllowedIx order ifw s d).1 = IsAllowed fw s d.
Proof using Type*.
  intros Hp E1 E2 Ho Hs Hd. apply rebuildIndex_indexes in E1 as (rs & Hrs & Hi); [|done].
  unfold LoadFromProvider in E2. simpl in Hrs. rewrite Hrs in E2. injection E2 as <-.
  by apply IsAllowedIx_linear.
Qed.

(** Filtering a list of addresses through the index keeps exactly the
    addresses the linear firewall keeps, in order, even when every address
    sees a different iteration order of the index. *)
Theorem indexed_filter_equals_linear p ifw fw orders s addrs :
  provider_inv p -> NewIndexedFirewall p = Ok ifw -> LoadFromProvider p = Ok fw ->
  (forall j, is_order (index ifw) (orders j)) -> valid_ip s ->
  FilterAddressesIx orders ifw s addrs = FilterAddresses fw s addrs.
Proof using Type*.
  intros Hp E1 E2 Ho Hs. apply rebuildIndex_indexes in E1 as (rs & Hrs & Hi); [|done].
  unfold LoadFromProvider in E2. simpl in Hrs. rewrite Hrs in E2. injection E2 as <-.
  by apply FilterAddressesIx_linear.
Qed.

(** In every state a firewall reaches through checks, reloads and
    provider changes, its decisions are those of the linear firewall on some
    well-formed rules, and the checks counted are the allowed plus the
    blocked ones (modulo 2^64). *)
Theorem indexed_reachable_sound ifw : ifw_reachable ifw ->
  (exists rs, Forall rule_wf rs /\
     forall order s d, is_order (index ifw) order -> valid_ip s -> valid_ip d ->
       (IsAllowedIx order ifw s d).1 = IsAllowed {| rules := rs |} s d) /\
  TotalChecks (stats ifw) = wrap64 (TotalAllowed (stats ifw) + TotalBlocked (stats ifw)).
Proof using Type*.
  intros ([rs Hi] & _ & Hs)%reachable_inv. split; [|done]. exists rs. split; [apply Hi|].
  intros. by apply IsAllowedIx_linear.
Qed.

End claims.

(** ** Witnesses *)

Definition demo_db : DatabaseRulesProvider :=
  {| db_query := Some ([Some (mkRow (Some "192.168.1.10") None (Some "10.0.0.5") None);
                        Some (mkRow None (Some "192.168.1.77/24") None (Some "10.0.0.0/24"));
                        Some (mkRow None (Some "2001:db8::/32") (Some "fe80::1") None);
                        Some (mkRow None None None None)]%string, false) |}.

Definition demo_ifw : IndexedFirewall DatabaseRulesProvider :=
  match NewIndexedFirewall demo_db with
  | Ok ifw => ifw
  | Err _ => {| provider := demo_db; index := ∅; stats := zero_stats |}
  end.

Definition demo_fw : Firewall :=
  match LoadFromProvider demo_db with Ok fw => fw | Err _ => NewFirewall end.

Definition demo_order : list (string * list IPNet) := reverse (map_to_list (index demo_ifw)).

Lemma demo_is_order : is_order (index demo_ifw) demo_order.
Proof. apply reverse_Permutation. Qed.

Lemma demo_valid s : ParseIP s <> [] -> valid_ip (ParseIP s).
Proof. apply ParseIP_valid. Qed.

Lemma indexed_equals_linear_witness :
  (IsAllowedIx demo_order demo_ifw (ParseIP "192.168.1.200") (ParseIP "10.0.0.9")).1
  = IsAllowed demo_fw (ParseIP "192.168.1.200") (ParseIP "10.0.0.9") /\
  IsAllowed demo_fw (ParseIP "192.168.1.200") (ParseIP "10.0.0.9") = true /\
  size (index demo_ifw) = 4.
Proof.
  split; [|split; vm_compute; reflexivity].
  apply (indexed_equals_linear demo_db); [exact I|reflexivity|reflexivity|apply demo_is_order|..];
    apply demo_valid; discriminate.
Defined.

Lemma indexed_filter_equals_linear_witness :
  FilterAddressesIx (fun _ => demo_order) demo_ifw (ParseIP "2001:db8::5") ["[fe80::1]:80"; "10.0.0.1:80"]%string
  = FilterAddresses demo_fw (ParseIP "2001:db8::5") ["[fe80::1]:80"; "10.0.0.1:80"]%string.
Proof.
  apply (indexed_filter_equals_linear demo_db); [exact I|reflexivity|reflexivity|intros; apply demo_is_order|].
  apply demo_valid; discriminate.
Defined.

Lemma indexed_reachable_sound_witness :
  let ifw := (IsAllowedIx demo_order demo_ifw (ParseIP "192.168.2.1") (ParseIP "10.0.0.9")).2 in
  TotalChecks (stats ifw) = wrap64 (TotalAllowed (stats ifw) + TotalBlocked (stats ifw)) /\
  TotalBlocked (stats ifw) = 1%Z.
Proof.
  split; [|vm_compute; reflexivity].
  apply indexed_reachable_sound, ifw_check; [|apply demo_is_order].
  apply (ifw_new demo_db); [exact I|reflexivity].
Defined.
