(* ===== verification/GoURL.v ===== *)
(** * The part of Go's [net/url] the registry uses

    [url.Parse(s)] followed by [u.Hostname()], as in Go 1.24: [None] is a
    parse error.  User information, path and fragment only matter through
    the errors they cause, so the unescaped text of those parts is dropped. *)

From Stdlib Require Import Ascii String.
From S2P Require Import Prelude.
From stdpp Require Import list.
From S2P Require Import GoStrings NetIP.
Local Open Scope string_scope.

Definition in_range (lo hi : nat) (c : ascii) : bool := (lo <=? nat_of_ascii c)%nat && (nat_of_ascii c <=? hi)%nat.
Definition is_alpha (c : ascii) : bool := in_range 97 122 c || in_range 65 90 c.
Definition is_digit (c : ascii) : bool := in_range 48 57 c.
Definition one_of (cs : string) (c : ascii) : bool := has_byte cs c.

Fixpoint all_bytes (p : ascii -> bool) (s : string) : bool :=
  match s with EmptyString => true | String c s => p c && all_bytes p s end.

Lemma all_bytes_app p a b : all_bytes p (a ++ b) = all_bytes p a && all_bytes p b.
Proof. induction a as [|x a IH]; [done|]. simpl. by rewrite IH, andb_assoc. Qed.

(** [strings.Cut(s, c)] for a one-byte separator *)
Definition Cut (s : string) (c : ascii) : string * string :=
  match IndexByte s c with
  | Some i => (str_take i s, str_drop (S i) s)
  | None => (s, "")
  end.

Definition is_ctl (c : ascii) : bool := in_range 0 31 c || in_range 127 127 c.

(** [getScheme]: [None] for "missing protocol scheme" *)
Fixpoint getScheme_loop (whole : string) (first : bool) (pre s : string) : option (string * string) :=
  match s with
  | EmptyString => Some ("", whole)
  | String c s =>
      if is_alpha c then getScheme_loop whole false (String c pre) s
      else if is_digit c || one_of "+-." c then
        if first then Some ("", whole) else getScheme_loop whole false (String c pre) s
      else if Ascii.eqb c ":"%char then
        if first then None else Some (str_rev pre, s)
      else Some ("", whole)
  end.
Definition getScheme (s : string) : option (string * string) := getScheme_loop s true "" s.

Inductive encoding := encodePath | encodeHost | encodeZone.

(** [shouldEscape] in the host and zone modes *)
Definition shouldEscapeHost (c : ascii) : bool :=
  negb (is_alpha c || is_digit c || one_of "!$&'()*+,;=:[]<>-_.~" c || Ascii.eqb c (ascii_of_nat 34)).

(** [unescape]: [None] for a malformed escape or a byte not allowed in a host *)
Fixpoint unescape (mode : encoding) (fuel : nat) (s : string) : option string :=
  match fuel with
  | O => Some ""
  | S fuel =>
      match s with
      | EmptyString => Some ""
      | String "%" (String a (String b r)) =>
          match hex_val a, hex_val b with
          | Some x, Some y =>
              let v := ascii_of_nat (Z.to_nat (x * 16 + y)) in
              let pct25 := String.eqb (String a (String b "")) "25" in
              let bad := match mode with
                         | encodePath => false
                         | encodeHost => Z.ltb x 8 && negb pct25
                         | encodeZone => negb pct25 && negb (Ascii.eqb v " "%char) && shouldEscapeHost v
                         end in
              if bad then None else String v <$> unescape mode fuel r
          | _, _ => None
          end
      | String "%" _ => None
      | String c r =>
          let bad := match mode with
                     | encodePath => false
                     | _ => in_range 0 127 c && shouldEscapeHost c
                     end in
          if bad then None else String c <$> unescape mode fuel r
      end
  end.

Definition Unescape (mode : encoding) (s : string) : option string := unescape mode (String.length s) s.

Definition validOptionalPort (port : string) : bool :=
  match port with
  | EmptyString => true
  | String c r => Ascii.eqb c ":"%char && all_bytes is_digit r
  end.

Definition validUserinfo (s : string) : bool :=
  all_bytes (fun c => is_alpha c || is_digit c || one_of "-._:~!$&'()*+,;=%@" c) s.

Fixpoint Index_sub (s sub : string) : option nat :=
  if HasPrefix s sub then Some 0
  else match s with EmptyString => None | String _ s => S <$> Index_sub s sub end.

Definition parseHost (host : string) : option string :=
  if HasPrefix host "[" then
    match LastIndexByte host "]"%char with
    | None => None
    | Some i =>
        if negb (validOptionalPort (str_drop (S i) host)) then None
        else match Index_sub (str_take i host) "%25" with
             | Some zone =>
                 match Unescape encodeHost (str_take zone host),
                       Unescape encodeZone (str_drop zone (str_take i host)),
                       Unescape encodeHost (str_drop i host) with
                 | Some h1, Some h2, Some h3 => Some (h1 ++ h2 ++ h3)
                 | _, _, _ => None
                 end
             | None => Unescape encodeHost host
             end
    end
  else match LastIndexByte host ":"%char with
       | Some i => if validOptionalPort (str_drop i host) then Unescape encodeHost host else None
       | None => Unescape encodeHost host
       end.

Definition parseAuthority (authority : string) : option string :=
  match LastIndexByte authority "@"%char with
  | None => parseHost authority
  | Some i =>
      match parseHost (str_drop (S i) authority) with
      | None => None
      | Some host =>
          let userinfo := str_take i authority in
          let '(username, password) := Cut userinfo ":"%char in
          if validUserinfo userinfo then
            match Unescape encodePath username, Unescape encodePath password with
            | Some _, Some _ => Some host
            | _, _ => None
            end
          else None
      end
  end.

(** [parse(rawURL, false)]: the URL's Host *)
Definition parseURL (rawURL : string) : option string :=
  if negb (all_bytes (fun c => negb (is_ctl c)) rawURL) then None
  else if String.eqb rawURL "*" then Some ""
  else match getScheme rawURL with
       | None => None
       | Some (scheme, rest) =>
           let '(rest, _) := Cut rest "?"%char in
           let noscheme := String.eqb scheme "" in
           if negb (HasPrefix rest "/") && negb noscheme then Some ""
           else if negb (HasPrefix rest "/") && has_byte (Cut rest "/"%char).1 ":"%char then None
           else
             let '(host, rest) :=
               if (negb noscheme || negb (HasPrefix rest "///")) && HasPrefix rest "//" then
                 let authority := str_drop 2 rest in
                 match IndexByte authority "/"%char with
                 | Some i => (parseAuthority (str_take i authority), str_drop i authority)
                 | None => (parseAuthority authority, "")
                 end
               else (Some "", rest) in
             match host, Unescape encodePath rest with
             | Some h, Some _ => Some h
             | _, _ => None
             end
       end.

Definition stripPort (hostPort : string) : string :=
  let host :=
    match LastIndexByte hostPort ":"%char with
    | Some colon => if validOptionalPort (str_drop colon hostPort) then str_take colon hostPort else hostPort
    | None => hostPort
    end in
  match LastIndexByte host "]"%char with
  | Some e =>
      if HasPrefix host "[" && Nat.eqb (S e) (String.length host)
      then str_take (e - 1) (str_drop 1 host) else host
  | None => host
  end.

(** [u, err := url.Parse(s)], then [u.Hostname()] *)
Definition URLHostname (s : string) : option string :=
  let '(u, frag) := Cut s "#"%char in
  match parseURL u with
  | None => None
  | Some host => match Unescape encodePath frag with None => None | Some _ => Some (stripPort host) end
  end.

Example url_ex1 : URLHostname "http://10.0.0.5:8080/x?y#z" = Some "10.0.0.5". Proof. reflexivity. Qed.
Example url_ex2 : URLHostname "tcp://user:pw@[fe80::1]:80" = Some "fe80::1". Proof. reflexivity. Qed.
Example url_ex3 : URLHostname "http://a b" = None. Proof. reflexivity. Qed.
Example url_ex4 : URLHostname "http://h:port/" = None. Proof. reflexivity. Qed.
Example url_ex5 : URLHostname "http://h/%zz" = None. Proof. reflexivity. Qed.
Example url_ex6 : URLHostname "mailto://x" = Some "x". Proof. reflexivity. Qed.
Example url_ex7 : URLHostname "a:b://x" = Some "". Proof. reflexivity. Qed.
