(* ===== verification/Registry.v ===== *)
(** * pkg/registry/registry.go: entries, errors and the [Registry] interface

    The interface is a type class over the registry's whole state: every
    method takes the clock reading its body makes ([time.Now()], in
    nanoseconds) and returns the new state.  The abstract [Directory] says
    what every registry keeps. *)

From Stdlib Require Import Ascii String.
From S2P Require Import Prelude.
From stdpp Require Import list.
From S2P Require Import GoStrings NetIP GoURL.
Local Open Scope Z_scope.

(** Errors of a persistent store: its own "not found", or a failed call *)
Inductive StoreError := StoreNotFound | StoreFailed.

#[export] Instance StoreError_eq_dec : EqDecision StoreError.
Proof. solve_decision. Defined.

(** The sentinel errors; a store-backed registry also passes on store errors. *)
Inductive RegError :=
| ErrNotFound | ErrNoAllowedService | ErrInvalidTaskName | ErrInvalidAddress | ErrStore (e : StoreError).

#[export] Instance RegError_eq_dec : EqDecision RegError.
Proof. solve_decision. Defined.

Record ServiceEntry := mkEntry {
  Address : string; LastHeartbeat : Z; QueryCount : Z; Capacity : Z }.

#[export] Instance ServiceEntry_eq_dec : EqDecision ServiceEntry.
Proof. solve_decision. Defined.

Record Stats := mkStats { TotalQueries : Z; TotalTasks : Z }.

(** ** The interface *)

(** [reg_capacityAware] is the type assertion to [capacityAwareRegistry]. *)
Class Registry (R : Type) := {
  reg_Register : Z -> string -> string -> R -> R;
  reg_capacityAware : option (Z -> string -> string -> Z -> R -> R);
  reg_GetServiceForRequestor : Z -> string -> IP -> R -> result RegError string * R }.

(** ** Addresses

    [destinationIPFromAddress]: the IP a service address denotes, from a URL,
    a "host:port" pair or a bare address; nil when there is none. *)

Definition urlIP (addr : string) : IP :=
  if Contains addr "://" then
    match URLHostname addr with
    | Some h => let host := TrimSpace h in if String.eqb host "" then [] else ParseIP host
    | None => []
    end
  else [].

Definition hostPortIP (addr : string) : IP :=
  match SplitHostPort addr with
  | Some (host, _) => ParseIP (TrimBytes ["["; "]"]%string host)
  | None => []
  end.

Definition destinationIPFromAddress (address : string) : IP :=
  let addr := TrimSpace address in
  if String.eqb addr "" then []
  else match urlIP addr with
       | [] => match hostPortIP addr with
               | [] => ParseIP addr
               | ip => ip
               end
       | ip => ip
       end.

Example dest_url : destinationIPFromAddress "http://10.0.0.5:8080/a" = IPv4 10 0 0 5. Proof. reflexivity. Qed.
Example dest_hp : destinationIPFromAddress " [::1]:80" = ParseIP "::1". Proof. reflexivity. Qed.
Example dest_none : destinationIPFromAddress "worker:80" = []. Proof. reflexivity. Qed.

(** ** Weights *)

Definition serviceWeight (entry : ServiceEntry) : Z :=
  if Capacity entry <=? 0 then 1 else Capacity entry.

Definition totalServiceWeight (entries : list ServiceEntry) : Z :=
  foldl (fun total entry => wrap64 (total + serviceWeight entry)) 0 entries.

Fixpoint selectLoop (running : Z) (entries : list ServiceEntry) (slot : Z) : option string :=
  match entries with
  | [] => None
  | entry :: entries =>
      let running := wrap64 (running + serviceWeight entry) in
      if slot <? running then Some (Address entry) else selectLoop running entries slot
  end.

Definition selectWeightedAddress (entries : list ServiceEntry) (slot : Z) : option string :=
  selectLoop 0 entries slot.

(** *** The reference: the expanded pool the code avoids building *)

Definition expand (entries : list ServiceEntry) : list string :=
  entries ≫= fun e => replicate (Z.to_nat (serviceWeight e)) (Address e).

Definition weight_sum (entries : list ServiceEntry) : Z := foldr (fun e s => serviceWeight e + s) 0 entries.

(** The weights, added as unbounded integers, fit an [int]. *)
Definition weights_fit (entries : list ServiceEntry) : Prop := weight_sum entries <= int64_max.

Lemma serviceWeight_pos e : 1 <= serviceWeight e.
Proof. unfold serviceWeight. destruct (Z.leb_spec (Capacity e) 0); lia. Qed.

Lemma weight_sum_nonneg es : 0 <= weight_sum es.
Proof. induction es as [|e es IH]; simpl; [lia|]. pose proof (serviceWeight_pos e). lia. Qed.

Lemma weight_sum_pos es : es <> [] -> 1 <= weight_sum es.
Proof.
  destruct es as [|e es]; [done|]. intros _. simpl.
  pose proof (serviceWeight_pos e). pose proof (weight_sum_nonneg es). lia.
Qed.

Lemma expand_cons e es : expand (e :: es) = replicate (Z.to_nat (serviceWeight e)) (Address e) ++ expand es.
Proof. done. Qed.

Lemma expand_length es : Z.of_nat (length (expand es)) = weight_sum es.
Proof.
  induction es as [|e es IH]; [done|]. rewrite expand_cons, length_app, length_replicate. simpl.
  pose proof (serviceWeight_pos e). lia.
Qed.

Lemma totalServiceWeight_wrap es : totalServiceWeight es = wrap64 (weight_sum es).
Proof.
  unfold totalServiceWeight.
  assert (H : forall acc, foldl (fun t e => wrap64 (t + serviceWeight e)) (wrap64 acc) es = wrap64 (acc + weight_sum es)).
  { induction es as [|e es IH]; intros acc; simpl; [f_equal; lia|].
    rewrite wrap64_add_l, IH. f_equal. lia. }
  apply (H 0).
Qed.

Lemma totalServiceWeight_fit es : weights_fit es -> totalServiceWeight es = weight_sum es.
Proof.
  intros H. rewrite totalServiceWeight_wrap. apply wrap64_id.
  pose proof (weight_sum_nonneg es). unfold weights_fit, in_int64, int64_min in *. lia.
Qed.

Lemma selectLoop_expand es running slot :
  0 <= running -> running + weight_sum es <= int64_max -> running <= slot ->
  selectLoop running es slot = expand es !! Z.to_nat (slot - running).
Proof.
  revert running. induction es as [|e es IH]; intros running H0 Hs Hr; [done|].
  cbn [selectLoop]. simpl in Hs. pose proof (serviceWeight_pos e) as Hw. pose proof (weight_sum_nonneg es).
  assert (Hid : wrap64 (running + serviceWeight e) = running + serviceWeight e).
  { apply wrap64_id. unfold in_int64, int64_min. lia. }
  rewrite Hid, expand_cons. destruct (Z.ltb_spec slot (running + serviceWeight e)).
  - rewrite lookup_app_l by (rewrite length_replicate; lia). symmetry. apply lookup_replicate_2. lia.
  - rewrite lookup_app_r by (rewrite length_replicate; lia). rewrite length_replicate, IH by lia.
    f_equal. lia.
Qed.

(** A negative slot (the cursor has wrapped) selects the first entry. *)
Lemma selectLoop_negative e es slot :
  serviceWeight e <= int64_max -> slot < 0 -> selectWeightedAddress (e :: es) slot = Some (Address e).
Proof.
  intros Hw Hs. unfold selectWeightedAddress. cbn. pose proof (serviceWeight_pos e).
  rewrite wrap64_id by (unfold in_int64, int64_min; lia).
  by rewrite (proj2 (Z.ltb_lt _ _)) by lia.
Qed.

Lemma selectLoop_In running es slot a : selectLoop running es slot = Some a -> exists e, e ∈ es /\ Address e = a.
Proof.
  revert running. induction es as [|e es IH]; intros running; cbn [selectLoop]; [done|].
  case_match; [intros [= <-]; set_solver|]. intros (e' & ? & ?)%IH. set_solver.
Qed.

(** With weights that fit an [int], the weighted selection that walks the
    entries returns what indexing the expanded pool (each address repeated
    as often as its capacity) would return, and fails exactly past its end. *)
Theorem selectWeightedAddress_expand es slot :
  weights_fit es -> 0 <= slot -> selectWeightedAddress es slot = expand es !! Z.to_nat slot.
Proof. intros Hf Hs. unfold selectWeightedAddress. rewrite selectLoop_expand by done. f_equal. lia. Qed.

Definition demo_entries : list ServiceEntry :=
  [mkEntry "a" 0 0 2; mkEntry "b" 0 0 1; mkEntry "c" 0 0 (-4)]%string.

Lemma selectWeightedAddress_expand_witness :
  selectWeightedAddress demo_entries 2 = expand demo_entries !! 2%nat /\ expand demo_entries = ["a"; "a"; "b"; "c"]%string.
Proof. split; [apply (selectWeightedAddress_expand demo_entries 2); [vm_compute; discriminate|lia]|reflexivity]. Defined.

(** ** A full turn of a cursor visits every slot of the pool once *)

Lemma rotation {A} (f : nat -> A) (w : nat) (c : nat) :
  (forall i, f (i + w)%nat = f i) -> f <$> seq c w ≡ₚ f <$> seq 0 w.
Proof.
  intros Hf. induction c as [|c IH]; [done|]. rewrite <- IH. destruct w as [|w]; [done|].
  rewrite (seq_S w (S c)). change (seq c (S w)) with (c :: seq (S c) w).
  rewrite fmap_app, fmap_cons. simpl.
  replace (S (c + w)) with (c + S w)%nat by lia. rewrite Hf. by rewrite Permutation_app_comm.
Qed.

Lemma seq_lookup_list {A} (l : list A) (d : A) : (fun i => default d (l !! i)) <$> seq 0 (length l) = l.
Proof.
  apply list_eq. intros i. rewrite list_lookup_fmap. destruct (decide (i < length l)%nat) as [Hi|Hi].
  - rewrite lookup_seq_lt by done. simpl. by destruct (lookup_lt_is_Some_2 l i Hi) as [x ->].
  - rewrite lookup_seq_ge, lookup_ge_None_2 by lia. done.
Qed.

(** Reading a non-empty list at [length l] consecutive positions modulo its
    length yields a permutation of the list. *)
Lemma cyclic_read {A} (l : list A) (d : A) (c : nat) :
  l <> [] -> (fun i => default d (l !! (i mod length l)%nat)) <$> seq c (length l) ≡ₚ l.
Proof.
  intros Hl. assert (length l <> 0)%nat by (by destruct l).
  rewrite rotation.
  - apply reflexive_eq. rewrite <- (seq_lookup_list l d) at 2. apply list_fmap_ext.
    intros i x [Hx Hi]%lookup_seq. subst. simpl. by rewrite Nat.mod_small.
  - intros i. replace (i + length l)%nat with (i + 1 * length l)%nat by lia. by rewrite Nat.Div0.mod_add.
Qed.

(** ** The abstract specification: a directory of services

    What a registry promises whatever its implementation: for each task and
    address, the last heartbeat and the capacity.  Blank names are ignored,
    a plain registration keeps a known capacity, expiry drops the entries
    whose heartbeat is at least [timeout] old. *)

Abbreviation Directory := (gmap (string * string) (Z * Z)).

Definition dir_put (now : Z) (cap : option (Z * Z) -> Z) (task addr : string) (d : Directory) : Directory :=
  let k := (TrimSpace task, TrimSpace addr) in
  if String.eqb k.1 "" || String.eqb k.2 "" then d else <[k := (now, cap (d !! k))]> d.

Definition dir_register (now : Z) (task addr : string) (d : Directory) : Directory :=
  dir_put now (fun old => default 1 (snd <$> old)) task addr d.

Definition dir_register_cap (now : Z) (task addr : string) (capacity : Z) (d : Directory) : Directory :=
  dir_put now (fun _ => if capacity <=? 0 then 1 else capacity) task addr d.

Definition dir_expire (now timeout : Z) (d : Directory) : Directory :=
  filter (fun kv => now < kv.2.1 + timeout) d.
