(* ===== verification/Memory.v ===== *)
(** * pkg/registry/memory.go: the in-memory registry

    The Go maps are finite maps; a [sync.Map] of counters is the finite map
    of its counters' values.  Times are nanoseconds since the epoch.  Each
    operation is one call, executed alone: the registry's mutex makes the
    writers exclusive; [MemoryConc.v] interleaves queries, which share it for
    reading. *)

From Stdlib Require Import Ascii String.
From S2P Require Import Prelude.
From stdpp Require Import list.
From S2P Require Import GoStrings NetIP NetIPFacts Firewall Registry.
Local Open Scope Z_scope.

Record MemoryRegistry := mkMem {
  services : gmap string (list ServiceEntry);
  roundRobinIndex : gmap string Z;
  queryCounters : gmap string Z;
  totalQueries : Z;
  firewall : option Firewall }.

Definition NewMemoryRegistry : MemoryRegistry := mkMem ∅ ∅ ∅ 0 None.

Definition SetFirewall (fw : option Firewall) (m : MemoryRegistry) : MemoryRegistry :=
  mkMem (services m) (roundRobinIndex m) (queryCounters m) (totalQueries m) fw.

(** [sync.Map.LoadOrStore] of a fresh zero counter *)
Definition LoadOrStore (k : string) (c : gmap string Z) : gmap string Z :=
  match c !! k with Some _ => c | None => <[k := 0]> c end.

(** [atomic.Int64.Add(1)] on the counter stored under [k] *)
Definition AddOne (k : string) (c : gmap string Z) : Z * gmap string Z :=
  let v := wrap64 (default 0 (c !! k) + 1) in (v, <[k := v]> c).

Definition counterKey (task addr : string) : string := (task ++ ":" ++ addr)%string.

(** ** Registration *)

(** The loop that updates the entry of [addr] in place, if there is one *)
Fixpoint updateEntry (f : ServiceEntry -> ServiceEntry) (addr : string) (entries : list ServiceEntry)
  : option (list ServiceEntry) :=
  match entries with
  | [] => None
  | e :: es =>
      if String.eqb (Address e) addr then Some (f e :: es)
      else (fun es' => e :: es') <$> updateEntry f addr es
  end.

Definition heartbeat (now : Z) (e : ServiceEntry) : ServiceEntry :=
  mkEntry (Address e) now (QueryCount e) (Capacity e).
Definition heartbeatCap (now capacity : Z) (e : ServiceEntry) : ServiceEntry :=
  mkEntry (Address e) now (QueryCount e) capacity.

(** Common tail of the two registration calls: update in place, or append
    and make sure the task has a cursor. *)
Definition upsert (f : ServiceEntry -> ServiceEntry) (newEntry : ServiceEntry) (task addr : string)
    (m : MemoryRegistry) : MemoryRegistry :=
  let entries := default [] (services m !! task) in
  match updateEntry f addr entries with
  | Some entries' =>
      mkMem (<[task := entries']> (services m)) (roundRobinIndex m) (queryCounters m) (totalQueries m) (firewall m)
  | None =>
      mkMem (<[task := entries ++ [newEntry]]> (services m)) (LoadOrStore task (roundRobinIndex m))
            (queryCounters m) (totalQueries m) (firewall m)
  end.

Definition Register (now : Z) (task addr : string) (m : MemoryRegistry) : MemoryRegistry :=
  let task := TrimSpace task in
  let addr := TrimSpace addr in
  if String.eqb task "" || String.eqb addr "" then m
  else upsert (heartbeat now) (mkEntry addr now 0 1) task addr m.

Definition RegisterWithCapacity (now : Z) (task addr : string) (capacity : Z) (m : MemoryRegistry) : MemoryRegistry :=
  let task := TrimSpace task in
  let addr := TrimSpace addr in
  if String.eqb task "" || String.eqb addr "" then m
  else
    let capacity := if capacity <=? 0 then 1 else capacity in
    upsert (heartbeatCap now capacity) (mkEntry addr now 0 capacity) task addr m.

(** ** Queries *)

Definition entryAllowed (fw : Firewall) (requestorIP : IP) (entry : ServiceEntry) : bool :=
  match destinationIPFromAddress (Address entry) with
  | [] => false
  | destIP => IsAllowed fw requestorIP destIP
  end.

Fixpoint filterEntries (fw : Firewall) (requestorIP : IP) (entries acc : list ServiceEntry) : list ServiceEntry :=
  match entries with
  | [] => acc
  | entry :: entries =>
      filterEntries fw requestorIP entries (if entryAllowed fw requestorIP entry then acc ++ [entry] else acc)
  end.

(** The entries the requestor may be given; [None] when the firewall is in
    force and allows none of them. *)
Definition allowedEntries (fw : option Firewall) (requestorIP : IP) (entryCopy : list ServiceEntry)
  : option (list ServiceEntry) :=
  match fw, requestorIP with
  | None, _ | _, [] => Some entryCopy
  | Some fw, _ =>
      match filterEntries fw requestorIP entryCopy [] with
      | [] => None
      | allowed => Some allowed
      end
  end.

Definition GetServiceForRequestor (task : string) (requestorIP : IP) (m : MemoryRegistry)
  : result RegError string * MemoryRegistry :=
  let task := TrimSpace task in
  if String.eqb task "" then (Err ErrInvalidTaskName, m)
  else match services m !! task with
  | None | Some [] => (Err ErrNotFound, m)
  | Some entryCopy =>
      match allowedEntries (firewall m) requestorIP entryCopy with
      | None => (Err ErrNoAllowedService, m)
      | Some allowed =>
          let totalWeight := totalServiceWeight allowed in
          if totalWeight <=? 0 then (Err ErrNotFound, m)
          else
            let '(idx, rr) := AddOne task (LoadOrStore task (roundRobinIndex m)) in
            let slot := Z.rem (wrap64 (idx - 1)) totalWeight in
            match selectWeightedAddress allowed slot with
            | None => (Err ErrNotFound, mkMem (services m) rr (queryCounters m) (totalQueries m) (firewall m))
            | Some selectedAddr =>
                let key := counterKey task selectedAddr in
                let '(_, qc) := AddOne key (LoadOrStore key (queryCounters m)) in
                (Ok selectedAddr, mkMem (services m) rr qc (wrap64 (totalQueries m + 1)) (firewall m))
            end
      end
  end.

Definition GetService (task : string) (m : MemoryRegistry) : result RegError string * MemoryRegistry :=
  GetServiceForRequestor task [] m.

(** ** Expiry *)

Definition alive (now timeout : Z) (e : ServiceEntry) : bool := now <? LastHeartbeat e + timeout.

(** The loop over one task's entries: those kept, the counters left, the
    number removed *)
Fixpoint sweep (now timeout : Z) (task : string) (entries kept : list ServiceEntry) (qc : gmap string Z) (removed : Z)
  : list ServiceEntry * gmap string Z * Z :=
  match entries with
  | [] => (kept, qc, removed)
  | e :: es =>
      if alive now timeout e then sweep now timeout task es (kept ++ [e]) qc removed
      else sweep now timeout task es kept (delete (counterKey task (Address e)) qc) (removed + 1)
  end.

Definition cleanupTask (now timeout : Z) (acc : MemoryRegistry * Z) (entry : string * list ServiceEntry)
  : MemoryRegistry * Z :=
  let '(m, removed) := acc in
  let '(task, entries) := entry in
  let '(kept, qc, removed) := sweep now timeout task entries [] (queryCounters m) removed in
  match kept with
  | [] => (mkMem (delete task (services m)) (delete task (roundRobinIndex m)) qc (totalQueries m) (firewall m), removed)
  | _ => (mkMem (<[task := kept]> (services m)) (roundRobinIndex m) qc (totalQueries m) (firewall m), removed)
  end.

(** [for task, entries := range services] in the order Go picks *)
Definition Cleanup (order : list (string * list ServiceEntry)) (now timeout : Z) (m : MemoryRegistry)
  : MemoryRegistry * Z :=
  foldl (cleanupTask now timeout) (m, 0) order.

(** ** Observers *)

Definition withCount (qc : gmap string Z) (task : string) (e : ServiceEntry) : ServiceEntry :=
  match qc !! counterKey task (Address e) with
  | Some n => mkEntry (Address e) (LastHeartbeat e) n (Capacity e)
  | None => e
  end.

Definition listTask (qc : gmap string Z) (task : string) (entries : list ServiceEntry) : list ServiceEntry :=
  withCount qc task <$> entries.

Definition ListServices (m : MemoryRegistry) : gmap string (list ServiceEntry) :=
  map_imap (fun task entries => Some (listTask (queryCounters m) task entries)) (services m).

Definition GetStats (m : MemoryRegistry) : Stats :=
  mkStats (totalQueries m) (Z.of_nat (size (services m))).

Definition demo1 : MemoryRegistry :=
  RegisterWithCapacity 5 " echo " "10.0.0.1:80" 2 (Register 1 "echo" "10.0.0.2:80" NewMemoryRegistry).

Fixpoint queries (n : nat) (task : string) (ip : IP) (m : MemoryRegistry) : list (result RegError string) * MemoryRegistry :=
  match n with
  | O => ([], m)
  | S n => let '(r, m) := GetServiceForRequestor task ip m in
           let '(rs, m) := queries n task ip m in (r :: rs, m)
  end.

Example demo_queries : (queries 4 "echo" [] demo1).1
  = Ok <$> ["10.0.0.2:80"; "10.0.0.1:80"; "10.0.0.1:80"; "10.0.0.2:80"]%string.
Proof. vm_compute. reflexivity. Qed.

(** ** Invariant *)

Definition entry_wf (e : ServiceEntry) : Prop := 1 <= Capacity e <= int64_max /\ in_int64 (QueryCount e).

Definition task_wf (es : list ServiceEntry) : Prop :=
  es <> [] /\ NoDup (Address <$> es) /\ Forall entry_wf es.

Record mem_wf (m : MemoryRegistry) : Prop := {
  wf_tasks : map_Forall (fun _ => task_wf) (services m);
  wf_cursors : dom (roundRobinIndex m) = dom (services m);
  wf_cursor_range : map_Forall (fun _ c => in_int64 c) (roundRobinIndex m);
  wf_counter_range : map_Forall (fun _ c => in_int64 c) (queryCounters m);
  wf_total_range : in_int64 (totalQueries m) }.

(** ** Registration *)

(** The entry of an address in a task's list, as heartbeat and capacity *)
Fixpoint findEntry (es : list ServiceEntry) (addr : string) : option (Z * Z) :=
  match es with
  | [] => None
  | e :: es => if String.eqb (Address e) addr then Some (LastHeartbeat e, Capacity e) else findEntry es addr
  end.

Definition mem_view (m : MemoryRegistry) (task addr : string) : option (Z * Z) :=
  services m !! task ≫= fun es => findEntry es addr.

Definition keeps_address (f : ServiceEntry -> ServiceEntry) : Prop := forall e, Address (f e) = Address e.

Lemma updateEntry_None f addr es : updateEntry f addr es = None <-> addr ∉ Address <$> es.
Proof.
  induction es as [|e es IH]; simpl; [set_solver|]. rewrite not_elem_of_cons.
  destruct (String.eqb_spec (Address e) addr) as [->|Hne].
  - split; [done|]. by intros [? _].
  - rewrite fmap_None, IH. naive_solver.
Qed.

Lemma updateEntry_Some f addr es es' : updateEntry f addr es = Some es' ->
  exists pre e post, es = pre ++ e :: post /\ es' = pre ++ f e :: post /\ Address e = addr /\
    addr ∉ Address <$> pre.
Proof.
  revert es'. induction es as [|e es IH]; simpl; [done|]. intros es'.
  destruct (String.eqb_spec (Address e) addr) as [<-|Hne].
  - intros [= <-]. exists [], e, es. set_solver.
  - intros (es1 & (pre & e1 & post & -> & -> & He & Hp)%IH & ->)%fmap_Some.
    exists (e :: pre), e1, post. repeat split; [done|]. set_solver.
Qed.

Lemma findEntry_app es1 es2 a : a ∉ Address <$> es1 -> findEntry (es1 ++ es2) a = findEntry es2 a.
Proof.
  induction es1 as [|e es1 IH]; simpl; [done|]. rewrite not_elem_of_cons. intros [Hne Hi].
  destruct (String.eqb_spec (Address e) a); [congruence|auto].
Qed.

Lemma findEntry_app_ne es1 e es2 a : Address e <> a -> findEntry (es1 ++ e :: es2) a = findEntry (es1 ++ es2) a.
Proof.
  intros Hne. induction es1 as [|e1 es1 IH]; simpl; [|by rewrite IH].
  destruct (String.eqb_spec (Address e) a); [congruence|done].
Qed.

Lemma findEntry_None es a : findEntry es a = None <-> a ∉ Address <$> es.
Proof.
  induction es as [|e es IH]; simpl; [set_solver|]. rewrite not_elem_of_cons.
  destruct (String.eqb_spec (Address e) a) as [->|Hne]; [naive_solver|]. rewrite IH. naive_solver.
Qed.

Lemma findEntry_elem es a : is_Some (findEntry es a) <-> a ∈ Address <$> es.
Proof.
  rewrite <- not_eq_None_Some, findEntry_None. split; [|naive_solver].
  intros H. destruct (decide (a ∈ Address <$> es)); [done|naive_solver].
Qed.

(** What [upsert] does to a task's list: addresses keep their order, a new
    one goes last, and only the addressed entry changes. *)
Definition upsert_list (f : ServiceEntry -> ServiceEntry) (newEntry : ServiceEntry) (addr : string)
    (es : list ServiceEntry) : list ServiceEntry :=
  match updateEntry f addr es with Some es' => es' | None => es ++ [newEntry] end.

Lemma upsert_list_addresses f new addr es : keeps_address f -> Address new = addr ->
  Address <$> upsert_list f new addr es
  = if decide (addr ∈ Address <$> es) then Address <$> es else (Address <$> es) ++ [addr].
Proof.
  intros Hf Hn. unfold upsert_list. destruct (updateEntry f addr es) as [es'|] eqn:E.
  - apply updateEntry_Some in E as (pre & e & post & -> & -> & He & Hp).
    rewrite !fmap_app, !fmap_cons, Hf, decide_True; [done|]. set_solver.
  - apply updateEntry_None in E. rewrite decide_False by done. rewrite fmap_app. simpl. by rewrite Hn.
Qed.

Lemma upsert_list_find f new addr es a : keeps_address f -> Address new = addr ->
  findEntry (upsert_list f new addr es) a =
    if decide (a = addr) then
      match List.find (fun e => String.eqb (Address e) addr) es with
      | Some e => Some (LastHeartbeat (f e), Capacity (f e))
      | None => Some (LastHeartbeat new, Capacity new)
      end
    else findEntry es a.
Proof.
  intros Hf Hn. unfold upsert_list.
  induction es as [|e es IH]; simpl.
  - rewrite Hn. destruct (String.eqb_spec addr a), (decide (a = addr)); congruence.
  - destruct (String.eqb_spec (Address e) addr) as [He|He]; simpl.
    + rewrite Hf, He. destruct (String.eqb_spec addr a), (decide (a = addr)); congruence.
    + destruct (updateEntry f addr es); simpl in *; rewrite IH;
        destruct (String.eqb_spec (Address e) a), (decide (a = addr)); congruence.
Qed.

Lemma upsert_list_Forall (Q : ServiceEntry -> Prop) f new addr es :
  (forall e, Q e -> Q (f e)) -> Q new -> Forall Q es -> Forall Q (upsert_list f new addr es).
Proof.
  intros Hf Hn Hes. unfold upsert_list. destruct (updateEntry f addr es) as [es'|] eqn:E.
  - apply updateEntry_Some in E as (pre & e & post & -> & -> & _).
    apply Forall_app in Hes as [? Hes]. apply Forall_cons in Hes as [? ?]. apply Forall_app. auto.
  - apply Forall_app. auto.
Qed.

Lemma upsert_services f new task addr m :
  services (upsert f new task addr m)
  = <[task := upsert_list f new addr (default [] (services m !! task))]> (services m).
Proof. unfold upsert, upsert_list. by destruct (updateEntry _ _ _). Qed.

Lemma LoadOrStore_lookup k c k' :
  LoadOrStore k c !! k' = if decide (k' = k) then Some (default 0 (c !! k)) else c !! k'.
Proof.
  unfold LoadOrStore. destruct (c !! k) eqn:E; destruct (decide (k' = k)) as [->|]; simpl; try done.
  - by rewrite lookup_insert_eq.
  - by rewrite lookup_insert_ne.
Qed.

Lemma LoadOrStore_dom k c : dom (LoadOrStore k c) = dom c ∪ {[k]}.
Proof.
  unfold LoadOrStore. destruct (c !! k) eqn:E; [|set_solver].
  apply elem_of_dom_2 in E. set_solver.
Qed.

Lemma LoadOrStore_range k c :
  map_Forall (fun _ v => in_int64 v) c -> map_Forall (fun _ v => in_int64 v) (LoadOrStore k c).
Proof.
  unfold LoadOrStore. intros H. destruct (c !! k); [done|]. apply map_Forall_insert_2; [apply in_int64_0|done].
Qed.

Lemma AddOne_spec k c :
  let v := wrap64 (default 0 (c !! k) + 1) in
  AddOne k (LoadOrStore k c) = (v, <[k := v]> (LoadOrStore k c)).
Proof. unfold AddOne. rewrite LoadOrStore_lookup, decide_True by done. done. Qed.

Lemma upsert_wf f new task addr m :
  keeps_address f -> (forall e, entry_wf e -> entry_wf (f e)) -> Address new = addr -> entry_wf new -> mem_wf m -> mem_wf (upsert f new task addr m).
Proof.
  intros Hf Hwf Hn Hnew [W1 W2 W3 W4 W5].
  assert (Hold : NoDup (Address <$> default [] (services m !! task)) /\ Forall entry_wf (default [] (services m !! task))).
  { destruct (services m !! task) as [es|] eqn:E; [|split; constructor].
    by apply W1 in E as (_ & ? & ?). }
  destruct Hold as [Hnd Hfa]. constructor.
  - rewrite upsert_services. apply map_Forall_insert_2; [|done].
    pose proof (upsert_list_addresses f new addr (default [] (services m !! task)) Hf Hn) as Ha.
    split; [|split].
    + intros E. rewrite E in Ha. destruct (decide _) as [Hi|]; [rewrite <- Ha in Hi; set_solver|].
      symmetry in Ha. by apply app_nil in Ha as [_ ?].
    + rewrite Ha. destruct (decide _); [done|]. apply NoDup_app. split; [done|]. split; [set_solver|].
      apply NoDup_singleton.
    + by apply upsert_list_Forall.
  - rewrite upsert_services. unfold upsert. destruct (updateEntry _ _ _) eqn:E; simpl.
    + destruct (services m !! task) eqn:Es; [|done]. apply elem_of_dom_2 in Es. set_solver.
    + rewrite LoadOrStore_dom. set_solver.
  - unfold upsert. destruct (updateEntry _ _ _); simpl; [done|]. by apply LoadOrStore_range.
  - unfold upsert. by destruct (updateEntry _ _ _).
  - unfold upsert. by destruct (updateEntry _ _ _).
Qed.

Lemma blank_spec t a : String.eqb t "" || String.eqb a "" = false <-> t <> ""%string /\ a <> ""%string.
Proof. rewrite orb_false_iff, !String.eqb_neq. done. Qed.

Lemma Register_wf now task addr m : mem_wf m -> mem_wf (Register now task addr m).
Proof.
  intros Hm. unfold Register. destruct (_ || _); [done|].
  apply upsert_wf; [done|done|done| |done]. split; [unfold int64_max; simpl; lia|apply in_int64_0].
Qed.

Lemma RegisterWithCapacity_wf now task addr capacity m :
  in_int64 capacity -> mem_wf m -> mem_wf (RegisterWithCapacity now task addr capacity m).
Proof.
  intros Hc Hm. unfold RegisterWithCapacity. destruct (_ || _); [done|].
  assert (1 <= (if capacity <=? 0 then 1 else capacity) <= int64_max).
  { destruct Hc. destruct (Z.leb_spec capacity 0); unfold int64_max in *; lia. }
  apply upsert_wf; [done| |done| |done].
  - by intros e [_ ?].
  - split; [done|apply in_int64_0].
Qed.

Lemma upsert_view f new task addr m t a : keeps_address f -> Address new = addr ->
  mem_view (upsert f new task addr m) t a =
    if decide ((t, a) = (task, addr)) then
      match List.find (fun e => String.eqb (Address e) addr) (default [] (services m !! task)) with
      | Some e => Some (LastHeartbeat (f e), Capacity (f e))
      | None => Some (LastHeartbeat new, Capacity new)
      end
    else mem_view m t a.
Proof.
  intros Hf Hn. unfold mem_view. rewrite upsert_services. destruct (decide (t = task)) as [->|Ht].
  - rewrite lookup_insert_eq. simpl. rewrite upsert_list_find by done.
    destruct (decide (a = addr)) as [->|Ha]; [by rewrite decide_True|].
    rewrite decide_False by (by intros [= ?]). by destruct (services m !! task).
  - rewrite lookup_insert_ne by done. by rewrite decide_False by (by intros [= ? ?]).
Qed.

(** [find] and [findEntry] agree *)
Lemma find_findEntry es a :
  (fun e => (LastHeartbeat e, Capacity e)) <$> List.find (fun e => String.eqb (Address e) a) es = findEntry es a.
Proof. induction es as [|e es IH]; simpl; [done|]. by destruct (String.eqb (Address e) a). Qed.

(** ** Queries *)

Lemma filterEntries_filter fw ip es acc :
  filterEntries fw ip es acc = acc ++ List.filter (entryAllowed fw ip) es.
Proof.
  revert acc. induction es as [|e es IH]; intros acc; simpl; [by rewrite app_nil_r|].
  rewrite IH. destruct (entryAllowed fw ip e); [by rewrite <- app_assoc|done].
Qed.

(** Whether an entry may be given to a requestor *)
Definition permitted (fw : option Firewall) (ip : IP) (e : ServiceEntry) : bool :=
  match fw, ip with
  | None, _ | _, [] => true
  | Some fw, _ => entryAllowed fw ip e
  end.

Lemma allowedEntries_spec fw ip es : es <> [] ->
  allowedEntries fw ip es =
    match List.filter (permitted fw ip) es with [] => None | al => Some al end.
Proof.
  intros Hes. assert (Hid : List.filter (fun _ : ServiceEntry => true) es = es).
  { clear. induction es; simpl; congruence. }
  unfold allowedEntries, permitted.
  destruct fw as [fw|]; [destruct ip as [|b ip]|]; [by rewrite Hid; destruct es| |by rewrite Hid; destruct es].
  by rewrite filterEntries_filter.
Qed.

Lemma weight_sum_filter p es : weight_sum (List.filter p es) <= weight_sum es.
Proof.
  induction es as [|e es IH]; simpl; [lia|]. pose proof (serviceWeight_pos e). destruct (p e); simpl; lia.
Qed.

(** Whatever the cursor's value, a wrapped one included, some entry is selected. *)
Lemma select_rem_total es c : es <> [] -> weights_fit es ->
  exists a, selectWeightedAddress es (Z.rem c (weight_sum es)) = Some a.
Proof.
  intros Hes Hf. pose proof (weight_sum_pos es Hes) as Hp.
  destruct (decide (0 <= Z.rem c (weight_sum es))) as [H0|H0].
  - unfold selectWeightedAddress. rewrite selectLoop_expand by (try done; lia).
    apply lookup_lt_is_Some_2. pose proof (expand_length es). pose proof (Z.rem_bound_abs c (weight_sum es) ltac:(lia)). lia.
  - destruct es as [|e es]; [done|]. rewrite selectLoop_negative; [eauto| |lia].
    unfold weights_fit in Hf. simpl in Hf. pose proof (weight_sum_nonneg es). lia.
Qed.

(** The state after a query that selects: the cursor and two counters move. *)
Definition counted (task addr : string) (m : MemoryRegistry) : MemoryRegistry :=
  let key := counterKey task addr in
  mkMem (services m)
        (AddOne task (LoadOrStore task (roundRobinIndex m))).2
        (AddOne key (LoadOrStore key (queryCounters m))).2
        (wrap64 (totalQueries m + 1)) (firewall m).

Definition cursor (m : MemoryRegistry) (task : string) : Z := default 0 (roundRobinIndex m !! task).

Lemma cursor_range m t : mem_wf m -> in_int64 (cursor m t).
Proof.
  intros Hm. unfold cursor. destruct (roundRobinIndex m !! t) eqn:E; [|apply in_int64_0].
  by apply (wf_cursor_range m Hm) in E.
Qed.

(** What a query does on a known task whose weights fit, branch by branch. *)
Lemma query_known task ip m es :
  mem_wf m -> TrimSpace task <> ""%string -> services m !! TrimSpace task = Some es -> weights_fit es ->
  match List.filter (permitted (firewall m) ip) es with
  | [] => GetServiceForRequestor task ip m = (Err ErrNoAllowedService, m)
  | al => exists a, selectWeightedAddress al (Z.rem (cursor m (TrimSpace task)) (weight_sum al)) = Some a /\
      GetServiceForRequestor task ip m = (Ok a, counted (TrimSpace task) a m)
  end.
Proof.
  intros Hm Ht Hs Hf. pose proof (cursor_range m (TrimSpace task) Hm) as Hc.
  destruct (wf_tasks m Hm _ _ Hs) as (Hne & _).
  unfold GetServiceForRequestor, counted. set (t := TrimSpace task) in *.
  rewrite (proj2 (String.eqb_neq _ _) Ht), Hs. rewrite (allowedEntries_spec _ _ _ Hne).
  pose proof (weight_sum_filter (permitted (firewall m) ip) es) as Hle.
  destruct (List.filter _ es) as [|e al] eqn:E; [by destruct es|].
  assert (Hfa : weights_fit (e :: al)) by (unfold weights_fit in *; lia).
  rewrite totalServiceWeight_fit by done. pose proof (weight_sum_pos (e :: al) ltac:(done)).
  rewrite (proj2 (Z.leb_gt _ _)) by lia. rewrite !AddOne_spec.
  fold (cursor m t). rewrite wrap64_add_sub by done.
  destruct (select_rem_total (e :: al) (cursor m t)) as [a Ha]; [done..|]. rewrite Ha.
  exists a. split; [done|]. destruct es; [done|]. rewrite !AddOne_spec. done.
Qed.

(** ** Expiry *)

Definition expired (now timeout : Z) (e : ServiceEntry) : bool := negb (alive now timeout e).

Definition keepAlive (now timeout : Z) (es : list ServiceEntry) : option (list ServiceEntry) :=
  match List.filter (alive now timeout) es with [] => None | kept => Some kept end.

Lemma sweep_spec now timeout task es kept qc removed :
  sweep now timeout task es kept qc removed =
    (kept ++ List.filter (alive now timeout) es,
     foldl (fun qc e => delete (counterKey task (Address e)) qc) qc (List.filter (expired now timeout) es),
     removed + Z.of_nat (length (List.filter (expired now timeout) es))).
Proof.
  revert kept qc removed. induction es as [|e es IH]; intros kept qc removed; simpl.
  - rewrite app_nil_r. f_equal. lia.
  - change (expired now timeout e) with (negb (alive now timeout e)).
    destruct (alive now timeout e); rewrite IH; simpl.
    + by rewrite <- app_assoc.
    + f_equal. lia.
Qed.

Lemma deletes_lookup task es (qc : gmap string Z) k :
  foldl (fun qc e => delete (counterKey task (Address e)) qc) qc es !! k
  = if decide (k ∈ (fun e => counterKey task (Address e)) <$> es) then None else qc !! k.
Proof.
  revert qc. induction es as [|e es IH]; intros qc; simpl; [done|]. rewrite IH.
  destruct (decide (k = counterKey task (Address e))) as [->|Hk].
  - rewrite lookup_delete_eq. rewrite (decide_True (P := _ ∈ _ :: _)) by set_solver. by case_decide.
  - rewrite lookup_delete_ne by done. apply decide_ext. set_solver.
Qed.

(** Keys of the counters that expiry deletes *)
Definition expiredKeys (now timeout : Z) (te : string * list ServiceEntry) : list string :=
  (fun e => counterKey te.1 (Address e)) <$> List.filter (expired now timeout) te.2.

Lemma cleanupTask_spec now timeout m removed task es :
  exists m', cleanupTask now timeout (m, removed) (task, es)
    = (m', removed + Z.of_nat (length (List.filter (expired now timeout) es))) /\
  services m' = partial_alter (fun _ => keepAlive now timeout es) task (services m) /\
  (forall t, roundRobinIndex m' !! t
     = if decide (t = task /\ keepAlive now timeout es = None) then None else roundRobinIndex m !! t) /\
  (forall k, queryCounters m' !! k
     = if decide (k ∈ expiredKeys now timeout (task, es)) then None else queryCounters m !! k) /\
  totalQueries m' = totalQueries m /\ firewall m' = firewall m.
Proof.
  unfold cleanupTask. rewrite sweep_spec. simpl. unfold keepAlive.
  destruct (List.filter (alive now timeout) es) as [|e kept]; simpl; eexists; (split; [done|]); simpl.
  - split; [done|]. split; [|by split; [intros k; apply deletes_lookup|]].
    intros t. destruct (decide (t = task)) as [->|Ht].
    + rewrite lookup_delete_eq, decide_True; done.
    + rewrite lookup_delete_ne, decide_False by naive_solver. done.
  - split; [done|]. split; [|by split; [intros k; apply deletes_lookup|]].
    intros t. rewrite decide_False by (by intros [_ ?]). done.
Qed.

(** The sweep over any list of distinct tasks. *)
Lemma Cleanup_fold now timeout order m removed :
  NoDup order.*1 ->
  let r := foldl (cleanupTask now timeout) (m, removed) order in
  let om : gmap string (list ServiceEntry) := list_to_map order in
  (forall t, services r.1 !! t = match om !! t with Some es => keepAlive now timeout es | None => services m !! t end) /\
  (forall t, roundRobinIndex r.1 !! t =
     match om !! t with
     | Some es => match keepAlive now timeout es with Some _ => roundRobinIndex m !! t | None => None end
     | None => roundRobinIndex m !! t
     end) /\
  (forall k, queryCounters r.1 !! k
     = if decide (k ∈ order ≫= expiredKeys now timeout) then None else queryCounters m !! k) /\
  totalQueries r.1 = totalQueries m /\ firewall r.1 = firewall m /\
  r.2 = removed + Z.of_nat (sum_list_with (fun te => length (List.filter (expired now timeout) te.2)) order).
Proof.
  revert m removed. induction order as [|[t0 es0] order IH]; intros m removed Hnd; cbv zeta.
  - simpl. repeat split; try done. lia.
  - simpl in Hnd. apply NoDup_cons in Hnd as [Hni Hnd]. cbn [foldl].
    destruct (cleanupTask_spec now timeout m removed t0 es0) as (m' & -> & S1 & S2 & S3 & S4 & S5).
    destruct (IH m' (removed + Z.of_nat (length (List.filter (expired now timeout) es0))) Hnd) as (I1 & I2 & I3 & I4 & I5 & I6).
    assert (Hnone : (list_to_map order : gmap string (list ServiceEntry)) !! t0 = None).
    { by apply not_elem_of_list_to_map_1. }
    split; [|split; [|split; [|split; [congruence|split; [congruence|rewrite I6; simpl; lia]]]]].
    + intros t. rewrite I1, S1. simpl. destruct (decide (t = t0)) as [->|Ht].
      * by rewrite Hnone, lookup_insert_eq, lookup_partial_alter_eq.
      * rewrite lookup_insert_ne, lookup_partial_alter_ne by done. done.
    + intros t. rewrite I2, S2. simpl. destruct (decide (t = t0)) as [->|Ht].
      * rewrite Hnone, lookup_insert_eq. destruct (keepAlive now timeout es0); case_decide; naive_solver.
      * rewrite lookup_insert_ne, (decide_False (P := t = t0 /\ _)) by naive_solver. done.
    + intros k. rewrite I3, S3. cbn [mbind list_bind]. repeat case_decide; try done; set_solver.
Qed.

Definition is_range (m : MemoryRegistry) (order : list (string * list ServiceEntry)) : Prop :=
  order ≡ₚ map_to_list (services m).

Lemma is_range_map m order : is_range m order -> NoDup order.*1 /\ list_to_map order = services m.
Proof.
  intros H. assert (NoDup order.*1) by (rewrite H; apply NoDup_fst_map_to_list).
  split; [done|]. rewrite <- (list_to_map_to_list (services m)). by apply list_to_map_proper.
Qed.

Lemma Cleanup_services order now timeout m : is_range m order ->
  forall t, services (Cleanup order now timeout m).1 !! t = services m !! t ≫= keepAlive now timeout.
Proof.
  intros [Hnd Hom]%is_range_map t. destruct (Cleanup_fold now timeout order m 0 Hnd) as [H _].
  unfold Cleanup. rewrite H, Hom. by destruct (services m !! t).
Qed.

Lemma keepAlive_Some now timeout es es' : keepAlive now timeout es = Some es' ->
  es' = List.filter (alive now timeout) es /\ es' <> [].
Proof. unfold keepAlive. destruct (List.filter _ es); [done|]. by intros [= <-]. Qed.

Lemma task_wf_filter p es : List.filter p es <> [] -> task_wf es -> task_wf (List.filter p es).
Proof.
  intros Hne (_ & Hnd & Hfa). pose proof (filter_sublist p es) as Hs.
  split; [done|split].
  - eapply sublist_NoDup; [exact Hnd|by apply fmap_sublist].
  - rewrite Forall_forall in *. intros e He. by eapply Hfa, elem_of_sublist.
Qed.

Lemma Cleanup_wf order now timeout m : is_range m order -> mem_wf m -> mem_wf (Cleanup order now timeout m).1.
Proof.
  intros Ho [W1 W2 W3 W4 W5]. pose proof (Cleanup_services order now timeout m Ho) as Hsv.
  destruct (is_range_map _ _ Ho) as [Hnd Hom].
  destruct (Cleanup_fold now timeout order m 0 Hnd) as (_ & H2 & H3 & H4 & _). rewrite Hom in H2.
  fold (Cleanup order now timeout m) in H2, H3, H4. constructor.
  - intros t es'. rewrite Hsv. intros (es & Hes & [-> Hne]%keepAlive_Some)%bind_Some.
    apply task_wf_filter; [done|]. by eapply W1.
  - apply set_eq. intros t. rewrite !elem_of_dom, Hsv, H2.
    assert (Hd : is_Some (roundRobinIndex m !! t) <-> is_Some (services m !! t)) by (rewrite <- !elem_of_dom; set_solver).
    destruct (services m !! t) as [es|]; [|done]. simpl. destruct (keepAlive now timeout es); [|done].
    rewrite Hd. by split; eauto.
  - intros t c. rewrite H2. destruct (services m !! t); [destruct (keepAlive _ _ _)|]; [|done|]; apply W3.
  - intros k c. rewrite H3. case_decide; [done|]. apply W4.
  - by rewrite H4.
Qed.

Lemma counted_wf task a m : is_Some (services m !! task) -> mem_wf m -> mem_wf (counted task a m).
Proof.
  intros Hs [W1 W2 W3 W4 W5]. unfold counted. rewrite !AddOne_spec. constructor; simpl.
  - done.
  - rewrite dom_insert_L, LoadOrStore_dom, W2. apply elem_of_dom in Hs. set_solver.
  - apply map_Forall_insert_2; [apply wrap64_range|]. by apply LoadOrStore_range.
  - apply map_Forall_insert_2; [apply wrap64_range|]. by apply LoadOrStore_range.
  - apply wrap64_range.
Qed.

Lemma rr_moved_wf task m : is_Some (services m !! task) -> mem_wf m ->
  mem_wf (mkMem (services m) (AddOne task (LoadOrStore task (roundRobinIndex m))).2 (queryCounters m) (totalQueries m) (firewall m)).
Proof.
  intros Hs [W1 W2 W3 W4 W5]. rewrite AddOne_spec. constructor; simpl; [done| | |done|done].
  - rewrite dom_insert_L, LoadOrStore_dom, W2. apply elem_of_dom in Hs. set_solver.
  - apply map_Forall_insert_2; [apply wrap64_range|]. by apply LoadOrStore_range.
Qed.

(** A query leaves the services and the firewall alone. *)
Lemma query_frame task ip m :
  let m' := (GetServiceForRequestor task ip m).2 in
  services m' = services m /\ firewall m' = firewall m /\ (mem_wf m -> mem_wf m').
Proof.
  unfold GetServiceForRequestor. cbv zeta. case_match; [done|].
  destruct (services m !! TrimSpace task) as [[|e es]|] eqn:Hs; [done| |done].
  destruct (allowedEntries _ _ _) as [al|]; [|done]. case_match; [done|].
  rewrite AddOne_spec. destruct (selectWeightedAddress _ _) as [a|]; rewrite ?AddOne_spec; (split; [done|split; [done|]]).
  - intros Hm. apply (counted_wf (TrimSpace task) a) in Hm; [|eauto]. unfold counted in Hm.
    rewrite !AddOne_spec in Hm. exact Hm.
  - intros Hm. apply (rr_moved_wf (TrimSpace task)) in Hm; [|eauto]. by rewrite AddOne_spec in Hm.
Qed.

(** An answer given under a firewall is an allowed destination, whatever the
    state of the registry. *)
Lemma query_safe task ip m m' a fw :
  GetServiceForRequestor task ip m = (Ok a, m') -> firewall m = Some fw -> ip <> [] ->
  destinationIPFromAddress a <> [] /\ IsAllowed fw ip (destinationIPFromAddress a) = true.
Proof.
  unfold GetServiceForRequestor. intros E Hfw Hip. case_match; [done|].
  destruct (services m !! TrimSpace task) as [[|e0 es]|]; [done| |done].
  rewrite Hfw, (allowedEntries_spec _ _ (e0 :: es)) in E by done.
  destruct (List.filter _ _) as [|e al] eqn:El; [done|]. case_match; [done|]. rewrite AddOne_spec in E.
  destruct (selectWeightedAddress (e :: al) _) as [a'|] eqn:Hsel; [|done]. rewrite AddOne_spec in E. injection E as <- _.
  apply selectLoop_In in Hsel as (e' & He' & <-). rewrite <- El in He'. apply list_elem_of_In, filter_In in He' as [_ Hp].
  unfold permitted in Hp. destruct ip as [|b ip]; [done|]. unfold entryAllowed in Hp.
  destruct (destinationIPFromAddress (Address e')); done.
Qed.

(** ** Histories: any sequence of calls *)

Inductive mem_op :=
| OpRegister (now : Z) (task addr : string)
| OpRegisterWithCapacity (now : Z) (task addr : string) (capacity : Z)
| OpQuery (task : string) (ip : IP)
| OpCleanup (now timeout : Z)
| OpSetFirewall (fw : option Firewall).

Inductive mem_step (m : MemoryRegistry) : mem_op -> MemoryRegistry -> Prop :=
| step_register now task addr : mem_step m (OpRegister now task addr) (Register now task addr m)
| step_register_cap now task addr capacity : in_int64 capacity ->
    mem_step m (OpRegisterWithCapacity now task addr capacity) (RegisterWithCapacity now task addr capacity m)
| step_query task ip : mem_step m (OpQuery task ip) (GetServiceForRequestor task ip m).2
| step_cleanup order now timeout : is_range m order ->
    mem_step m (OpCleanup now timeout) (Cleanup order now timeout m).1
| step_firewall fw : mem_step m (OpSetFirewall fw) (SetFirewall fw m).

Inductive mem_run : list mem_op -> MemoryRegistry -> Prop :=
| run_nil : mem_run [] NewMemoryRegistry
| run_snoc ops op m m' : mem_run ops m -> mem_step m op m' -> mem_run (ops ++ [op]) m'.

Definition dir_exec (d : Directory) (op : mem_op) : Directory :=
  match op with
  | OpRegister now task addr => dir_register now task addr d
  | OpRegisterWithCapacity now task addr capacity => dir_register_cap now task addr capacity d
  | OpCleanup now timeout => dir_expire now timeout d
  | OpQuery _ _ | OpSetFirewall _ => d
  end.

Definition refines (m : MemoryRegistry) (d : Directory) : Prop :=
  forall t a, mem_view m t a = d !! (t, a).

Lemma SetFirewall_wf fw m : mem_wf m -> mem_wf (SetFirewall fw m).
Proof. intros [? ? ? ? ?]. by constructor. Qed.

Lemma mem_step_wf m op m' : mem_step m op m' -> mem_wf m -> mem_wf m'.
Proof.
  intros Hs Hm. inversion Hs; subst.
  - by apply Register_wf.
  - by apply RegisterWithCapacity_wf.
  - by apply query_frame.
  - by apply Cleanup_wf.
  - by apply SetFirewall_wf.
Qed.

Lemma new_wf : mem_wf NewMemoryRegistry.
Proof.
  constructor; cbn.
  - apply map_Forall_empty.
  - by rewrite !dom_empty_L.
  - apply map_Forall_empty.
  - apply map_Forall_empty.
  - apply in_int64_0.
Qed.

Lemma mem_run_wf ops m : mem_run ops m -> mem_wf m.
Proof. induction 1 as [|ops op m m' _ IH Hs]; [apply new_wf|]. by eapply mem_step_wf. Qed.

Lemma upsert_refines f new task addr m d cap :
  keeps_address f -> Address new = addr ->
  (forall e, LastHeartbeat (f e) = LastHeartbeat new /\ Capacity (f e) = cap (Some (LastHeartbeat e, Capacity e))) ->
  Capacity new = cap None -> refines m d ->
  refines (upsert f new task addr m) (<[(task, addr) := (LastHeartbeat new, cap (d !! (task, addr)))]> d).
Proof.
  intros Hf Hn Hfe Hcn Hr t a. rewrite upsert_view by done. case_decide as E.
  - rewrite E, lookup_insert_eq, <- Hr. unfold mem_view.
    replace (services m !! task ≫= _) with (findEntry (default [] (services m !! task)) addr)
      by (by destruct (services m !! task)).
    rewrite <- find_findEntry. destruct (List.find _ _) as [e|]; simpl; [|by rewrite Hcn].
    destruct (Hfe e) as [-> ->]. done.
  - rewrite lookup_insert_ne by done. apply Hr.
Qed.

Lemma Register_refines now task addr m d :
  refines m d -> refines (Register now task addr m) (dir_register now task addr d).
Proof.
  intros Hr. unfold Register, dir_register, dir_put. simpl. case_match; [done|].
  by apply (upsert_refines (heartbeat now) (mkEntry (TrimSpace addr) now 0 1) _ _ _ _
              (fun old => default 1 (snd <$> old))).
Qed.

Lemma RegisterWithCapacity_refines now task addr capacity m d :
  refines m d -> refines (RegisterWithCapacity now task addr capacity m) (dir_register_cap now task addr capacity d).
Proof.
  intros Hr. unfold RegisterWithCapacity, dir_register_cap, dir_put. simpl. case_match; [done|].
  by apply (upsert_refines (heartbeatCap now _) (mkEntry (TrimSpace addr) now 0 _) _ _ _ _
              (fun _ => if capacity <=? 0 then 1 else capacity)).
Qed.

Lemma findEntry_alive now timeout es a : NoDup (Address <$> es) ->
  findEntry (List.filter (alive now timeout) es) a
  = findEntry es a ≫= fun hc => if now <? hc.1 + timeout then Some hc else None.
Proof.
  induction es as [|e es IH]; simpl; [done|]. intros [Hni Hnd]%NoDup_cons. unfold alive at 1.
  destruct (String.eqb_spec (Address e) a) as [<-|Hne].
  - destruct (Z.ltb_spec now (LastHeartbeat e + timeout)) as [H|H]; simpl.
    + rewrite String.eqb_refl. by rewrite (proj2 (Z.ltb_lt _ _)).
    + rewrite (proj2 (Z.ltb_ge _ _)) by lia. apply findEntry_None. contradict Hni.
      eapply elem_of_sublist; [exact Hni|]. apply fmap_sublist, filter_sublist.
  - destruct (_ <? _); simpl; [|auto]. rewrite (proj2 (String.eqb_neq _ _) Hne). auto.
Qed.

Lemma Cleanup_refines order now timeout m d : is_range m order -> mem_wf m ->
  refines m d -> refines (Cleanup order now timeout m).1 (dir_expire now timeout d).
Proof.
  intros Ho Hm Hr t a. unfold mem_view, dir_expire. rewrite Cleanup_services by done.
  rewrite map_lookup_filter, <- Hr. unfold mem_view. destruct (services m !! t) as [es|] eqn:Hs; [|done]. simpl.
  destruct (wf_tasks m Hm _ _ Hs) as (_ & Hnd & _).
  replace (keepAlive now timeout es ≫= _) with (findEntry (List.filter (alive now timeout) es) a)
    by (unfold keepAlive; by destruct (List.filter _ es)).
  rewrite findEntry_alive by done. destruct (findEntry es a) as [[hb c]|]; [|done]. simpl.
  destruct (Z.ltb_spec now (hb + timeout)); case_guard; simpl in *; done || lia.
Qed.

Lemma mem_step_refines m op m' d : mem_wf m -> mem_step m op m' -> refines m d -> refines m' (dir_exec d op).
Proof.
  intros Hm Hs Hr. inversion Hs; subst; simpl.
  - by apply Register_refines.
  - by apply RegisterWithCapacity_refines.
  - intros t a. unfold mem_view. destruct (query_frame task ip m) as [-> _]. apply Hr.
  - by apply Cleanup_refines.
  - done.
Qed.

Lemma mem_run_refines ops m : mem_run ops m -> refines m (foldl dir_exec ∅ ops).
Proof.
  induction 1 as [|ops op m m' Hrun Hr Hs]; [by intros t a|].
  rewrite foldl_snoc. eapply mem_step_refines; [by eapply mem_run_wf|done|done].
Qed.

(** The directory only holds trimmed, non-blank names. *)
Definition names_ok (k : string * string) : Prop :=
  k.1 <> ""%string /\ k.2 <> ""%string /\ TrimSpace k.1 = k.1 /\ TrimSpace k.2 = k.2.

Lemma dir_put_names now cap task addr d :
  map_Forall (fun k _ => names_ok k) d -> map_Forall (fun k _ => names_ok k) (dir_put now cap task addr d).
Proof.
  intros Hd. unfold dir_put. simpl. destruct (_ || _) eqn:E; [done|]. apply blank_spec in E as [? ?].
  apply map_Forall_insert_2; [|done]. unfold names_ok. simpl. by rewrite !TrimSpace_idemp.
Qed.

Lemma dir_run_names ops : map_Forall (fun k _ => names_ok k) (foldl dir_exec ∅ ops).
Proof.
  induction ops as [|op ops IH] using rev_ind; [apply map_Forall_empty|]. rewrite foldl_snoc.
  destruct op; simpl; try done; [by apply dir_put_names..|].
  intros k v [Hk _]%map_lookup_filter_Some. by eapply IH.
Qed.

(** ** Fair shares *)

(** One query at cursor [c >= 0] reads the expanded pool at [c mod W]. *)
(** The slot of a cursor that has not wrapped is its position in the pool. *)
Lemma select_pool al c : al <> [] -> weights_fit al -> 0 <= c ->
  selectWeightedAddress al (Z.rem c (weight_sum al)) = Some (default ""%string (expand al !! (Z.to_nat c mod length (expand al))%nat)).
Proof.
  intros Hne Hf Hc. pose proof (weight_sum_pos al Hne). pose proof (expand_length al) as Hlen. rewrite Z.rem_mod_nonneg by lia.
  pose proof (Z.mod_pos_bound c (weight_sum al)) as Hb. unfold selectWeightedAddress.
  rewrite selectLoop_expand; [|lia|unfold weights_fit in Hf; lia|lia].
  rewrite Z.sub_0_r, <- Hlen, Z2Nat.inj_mod, Nat2Z.id by lia.
  assert (Hlt : (Z.to_nat c mod length (expand al) < length (expand al))%nat) by (apply Nat.mod_upper_bound; lia).
  by apply lookup_lt_is_Some_2 in Hlt as [a ->].
Qed.

Lemma query_pool task ip m es al :
  mem_wf m -> TrimSpace task <> ""%string -> services m !! TrimSpace task = Some es -> weights_fit es ->
  List.filter (permitted (firewall m) ip) es = al -> al <> [] -> 0 <= cursor m (TrimSpace task) ->
  exists a, GetServiceForRequestor task ip m = (Ok a, counted (TrimSpace task) a m) /\
    a = default ""%string (expand al !! (Z.to_nat (cursor m (TrimSpace task)) mod length (expand al))%nat).
Proof.
  intros Hm Ht Hs Hf Hal Hne Hc. pose proof (query_known task ip m es Hm Ht Hs Hf) as H.
  pose proof (weight_sum_filter (permitted (firewall m) ip) es) as Hle.
  rewrite Hal in *. destruct al as [|e al]; [done|]. destruct H as (a & Hsel & ->). exists a. split; [done|].
  rewrite select_pool in Hsel; [congruence|done|unfold weights_fit in *; lia|done].
Qed.

Lemma counted_cursor task a m : in_int64 (cursor m task + 1) -> cursor (counted task a m) task = cursor m task + 1.
Proof.
  intros H. unfold cursor, counted in *. rewrite AddOne_spec. simpl. rewrite lookup_insert_eq. simpl.
  by apply wrap64_id.
Qed.

Lemma queries_pool n task ip m es al :
  mem_wf m -> TrimSpace task <> ""%string -> services m !! TrimSpace task = Some es -> weights_fit es ->
  List.filter (permitted (firewall m) ip) es = al -> al <> [] ->
  0 <= cursor m (TrimSpace task) -> cursor m (TrimSpace task) + Z.of_nat n <= int64_max ->
  (queries n task ip m).1 =
    (fun i => Ok (default ""%string (expand al !! (i mod length (expand al))%nat)))
      <$> seq (Z.to_nat (cursor m (TrimSpace task))) n.
Proof.
  revert m. induction n as [|n IH]; intros m Hm Ht Hs Hf Hal Hne Hc Hmax; [done|]. cbn [queries].
  destruct (query_pool task ip m es al Hm Ht Hs Hf Hal Hne Hc) as (a & Hq & Ha).
  destruct (query_frame task ip m) as (E1 & E2 & Hm'). rewrite Hq in *. simpl in E1, E2, Hm'.
  assert (Hcur : cursor (counted (TrimSpace task) a m) (TrimSpace task) = cursor m (TrimSpace task) + 1).
  { apply counted_cursor. unfold in_int64, int64_min. lia. }
  specialize (IH (counted (TrimSpace task) a m) (Hm' Hm) Ht Hs Hf Hal Hne).
  rewrite Hcur in IH. destruct (queries n task ip _) as [rs m'] eqn:E. simpl in *.
  rewrite IH by lia. replace (Z.to_nat (cursor m (TrimSpace task) + 1)) with (S (Z.to_nat (cursor m (TrimSpace task)))) by lia.
  by rewrite Ha.
Qed.

(** ** Claims *)

(** C1: after any sequence of registrations, queries, sweeps and firewall
    changes the registry is well formed (non-empty duplicate-free entry
    lists, positive capacities, a cursor for exactly the known tasks,
    counters in range), every name in it is trimmed and not blank, and it
    holds exactly the directory the abstract specification computes from the
    same calls. *)
Theorem memory_refines_directory ops m :
  mem_run ops m ->
  mem_wf m /\ refines m (foldl dir_exec ∅ ops) /\
  forall t a, is_Some (mem_view m t a) ->
    t <> ""%string /\ a <> ""%string /\ TrimSpace t = t /\ TrimSpace a = a.
Proof.
  intros Hrun. pose proof (mem_run_refines _ _ Hrun) as Hr. split; [by eapply mem_run_wf|]. split; [done|].
  intros t a. rewrite Hr. intros [hc Hd]. by apply (dir_run_names ops) in Hd.
Qed.

(** A query's outcome on every branch.  A blank name is invalid; an
    unknown task is not found; when the firewall permits none of the task's
    services the query is refused; otherwise the answer is the address of a
    registered service that the firewall permits, also after the cursor has
    wrapped around. *)
Theorem memory_query_outcome ops m task ip :
  mem_run ops m ->
  (forall es, services m !! TrimSpace task = Some es -> weights_fit es) ->
  match (GetServiceForRequestor task ip m).1 with
  | Err ErrInvalidTaskName => TrimSpace task = ""%string
  | Err ErrNotFound => TrimSpace task <> ""%string /\ forall a, mem_view m (TrimSpace task) a = None
  | Err ErrNoAllowedService =>
      exists es fw, services m !! TrimSpace task = Some es /\ firewall m = Some fw /\ ip <> [] /\
        forall e, e ∈ es -> entryAllowed fw ip e = false
  | Err ErrInvalidAddress | Err (ErrStore _) => False
  | Ok a =>
      is_Some (mem_view m (TrimSpace task) a) /\
      forall fw, firewall m = Some fw -> ip <> [] ->
        destinationIPFromAddress a <> [] /\ IsAllowed fw ip (destinationIPFromAddress a) = true
  end.
Proof.
  intros Hm%mem_run_wf Hfit. destruct (decide (TrimSpace task = ""%string)) as [Ht|Ht].
  { unfold GetServiceForRequestor. rewrite Ht. done. }
  destruct (services m !! TrimSpace task) as [es|] eqn:Hs.
  2:{ unfold GetServiceForRequestor. rewrite (proj2 (String.eqb_neq _ _) Ht), Hs. simpl.
      split; [done|]. intros a. unfold mem_view. by rewrite Hs. }
  pose proof (query_known task ip m es Hm Ht Hs (Hfit es eq_refl)) as H.
  destruct (wf_tasks m Hm _ _ Hs) as (Hne & _ & Hfa).
  destruct (List.filter _ es) as [|e al] eqn:E.
  - rewrite H. simpl. destruct (firewall m) as [fw|]; [destruct ip as [|b ip]|].
    1,3: by destruct es.
    exists es, fw. repeat split; [done..|]. intros e He. destruct (entryAllowed fw (b :: ip) e) eqn:Hp; [|done].
    apply list_elem_of_In in He. assert (In e []) as []. rewrite <- E. by apply filter_In.
  - destruct H as (a & Hsel & ->). simpl. apply selectLoop_In in Hsel as (e' & He' & <-).
    apply list_elem_of_In in He'. rewrite <- E in He'. apply filter_In in He' as [He' Hp].
    split; [|].
    + unfold mem_view. rewrite Hs. simpl. apply findEntry_elem. apply list_elem_of_fmap_2. by apply list_elem_of_In.
    + intros fw Hfw Hip. rewrite Hfw in Hp. destruct ip as [|b ip]; [done|]. simpl in Hp. unfold entryAllowed in Hp.
      destruct (destinationIPFromAddress (Address e')); done.
Qed.

(** C2: weighted round robin is exact.  Over [W] consecutive queries by one
    requestor, [W] the sum of the permitted services' capacities, the answers
    are a permutation of the pool in which every permitted service occurs as
    often as its capacity, wherever the cursor starts. *)
Theorem memory_weighted_fairness ops m task ip es :
  mem_run ops m -> TrimSpace task <> ""%string -> services m !! TrimSpace task = Some es -> weights_fit es ->
  let al := List.filter (permitted (firewall m) ip) es in
  al <> [] -> 0 <= cursor m (TrimSpace task) -> cursor m (TrimSpace task) + weight_sum al <= int64_max ->
  (queries (Z.to_nat (weight_sum al)) task ip m).1 ≡ₚ Ok <$> expand al.
Proof.
  intros Hm%mem_run_wf Ht Hs Hf al Hne Hc Hmax. pose proof (weight_sum_pos al Hne) as Hp.
  pose proof (expand_length al) as Hlen. rewrite (queries_pool _ _ _ _ es al) by (try done; lia).
  replace (Z.to_nat (weight_sum al)) with (length (expand al)) by lia.
  assert (Hx : expand al <> []) by (intros E; rewrite E in Hlen; simpl in Hlen; lia).
  pose proof (cyclic_read (expand al) ""%string (Z.to_nat (cursor m (TrimSpace task))) Hx) as Hcy.
  apply (fmap_Permutation (@Ok RegError string)) in Hcy. by rewrite <- list_fmap_compose in Hcy.
Qed.

(** A sweep does not depend on the order Go visits the tasks in.  It
    keeps in each task, in order, exactly the entries younger than the
    timeout, forgets a task with none left together with its cursor, deletes
    exactly the counters of the removed entries, and returns their number. *)
Theorem memory_cleanup_exact order now timeout m : is_range m order ->
  let r := Cleanup order now timeout m in
  (forall t, services r.1 !! t = services m !! t ≫= keepAlive now timeout) /\
  (forall t, roundRobinIndex r.1 !! t =
     if decide (services m !! t ≫= keepAlive now timeout = None /\ is_Some (services m !! t))
     then None else roundRobinIndex m !! t) /\
  (forall k, queryCounters r.1 !! k =
     if decide (k ∈ map_to_list (services m) ≫= expiredKeys now timeout) then None else queryCounters m !! k) /\
  totalQueries r.1 = totalQueries m /\ firewall r.1 = firewall m /\
  r.2 = Z.of_nat (sum_list_with (fun te => length (List.filter (expired now timeout) te.2)) (map_to_list (services m))).
Proof.
  intros Ho. pose proof (is_range_map _ _ Ho) as [Hnd Hom]. cbv zeta.
  destruct (Cleanup_fold now timeout order m 0 Hnd) as (_ & H2 & H3 & H4 & H5 & H6). rewrite Hom in H2.
  fold (Cleanup order now timeout m) in *. split; [by apply Cleanup_services|]. split; [|split; [|split; [done|split; [done|]]]].
  - intros t. rewrite H2. case_decide as Hd.
    + destruct Hd as [Hk [es Hes]]. rewrite Hes in *. simpl in Hk. by rewrite Hk.
    + destruct (services m !! t) as [es|]; [|done]. simpl in Hd.
      destruct (keepAlive now timeout es); [done|]. contradict Hd. eauto.
  - intros k. rewrite H3. apply decide_ext. by rewrite Ho.
  - rewrite H6. unfold is_range in Ho. by rewrite Ho.
Qed.

(** Capacities are client-supplied and their sum can overflow an [int]:
    two registrations that are each accepted leave a task with two live
    services that no query can resolve. *)
Theorem memory_capacity_overflow :
  exists m, mem_run [OpRegisterWithCapacity 0 "t" "10.0.0.1:1" int64_max; OpRegisterWithCapacity 0 "t" "10.0.0.2:1" 1] m /\
    is_Some (mem_view m "t" "10.0.0.1:1") /\ is_Some (mem_view m "t" "10.0.0.2:1") /\
    (GetService "t" m).1 = Err ErrNotFound.
Proof.
  eexists. split.
  - apply (run_snoc [_] _ (RegisterWithCapacity 0 "t" "10.0.0.1:1" int64_max NewMemoryRegistry)).
    + apply (run_snoc [] _ NewMemoryRegistry); [constructor|]. constructor. unfold in_int64, int64_min, int64_max. lia.
    + constructor. unfold in_int64, int64_min, int64_max. lia.
  - split; [vm_compute; eauto|]. split; [vm_compute; eauto|]. vm_compute. reflexivity.
Qed.

(** ** Witnesses *)

Definition demo_ops : list mem_op :=
  [OpSetFirewall (Some {| rules := [mkRule [] (ParseCIDR "192.168.0.0/16") [] (ParseCIDR "10.0.0.0/24")] |});
   OpRegister 1 "echo" "10.0.0.2:80"; OpRegister 2 "echo" "10.0.9.9:80";
   OpRegisterWithCapacity 5 " echo " "10.0.0.1:80" 2]%string.

Definition exec_op (op : mem_op) (m : MemoryRegistry) : MemoryRegistry :=
  match op with
  | OpRegister now task addr => Register now task addr m
  | OpRegisterWithCapacity now task addr capacity => RegisterWithCapacity now task addr capacity m
  | OpQuery task ip => (GetServiceForRequestor task ip m).2
  | OpCleanup now timeout => (Cleanup (map_to_list (services m)) now timeout m).1
  | OpSetFirewall fw => SetFirewall fw m
  end.

Definition capacities_ok (op : mem_op) : Prop :=
  match op with OpRegisterWithCapacity _ _ _ c => in_int64 c | _ => True end.

Lemma exec_run ops : Forall capacities_ok ops -> mem_run ops (foldl (fun m op => exec_op op m) NewMemoryRegistry ops).
Proof.
  induction ops as [|op ops IH] using rev_ind; intros Hc; [constructor|]. apply Forall_app in Hc as [Hc Ho].
  apply Forall_cons in Ho as [Ho _]. rewrite foldl_snoc. econstructor; [by apply IH|].
  destruct op.
  - apply step_register.
  - by apply step_register_cap.
  - apply step_query.
  - apply step_cleanup. by unfold is_range.
  - apply step_firewall.
Qed.

Definition demo_mem : MemoryRegistry := foldl (fun m op => exec_op op m) NewMemoryRegistry demo_ops.

Lemma demo_run : mem_run demo_ops demo_mem.
Proof. apply exec_run. repeat constructor; discriminate. Qed.

Definition demo_es : list ServiceEntry := default [] (services demo_mem !! "echo"%string).

Lemma memory_refines_directory_witness :
  refines demo_mem (foldl dir_exec ∅ demo_ops) /\ mem_view demo_mem "echo" "10.0.0.1:80" = Some (5, 2).
Proof. split; [apply memory_refines_directory, demo_run|vm_compute; reflexivity]. Defined.

Lemma memory_query_outcome_witness :
  (forall fw, firewall demo_mem = Some fw -> ParseIP "192.168.3.4" <> [] ->
     destinationIPFromAddress "10.0.0.2:80" <> [] /\
     IsAllowed fw (ParseIP "192.168.3.4") (destinationIPFromAddress "10.0.0.2:80") = true) /\
  (GetServiceForRequestor "echo" (ParseIP "192.168.3.4") demo_mem).1 = Ok "10.0.0.2:80"%string.
Proof.
  split; [|vm_compute; reflexivity].
  pose proof (memory_query_outcome demo_ops demo_mem "echo" (ParseIP "192.168.3.4") demo_run) as H.
  replace (GetServiceForRequestor "echo" (ParseIP "192.168.3.4") demo_mem).1
    with (@Ok RegError string "10.0.0.2:80") in H by (vm_compute; reflexivity).
  apply H. intros es Hes. assert (es = demo_es) as -> by (unfold demo_es; change (TrimSpace "echo") with "echo"%string in Hes; by rewrite Hes).
  vm_compute. discriminate.
Defined.

Lemma memory_weighted_fairness_witness :
  (queries 3 "echo" (ParseIP "192.168.3.4") demo_mem).1 ≡ₚ Ok <$> ["10.0.0.2:80"; "10.0.0.1:80"; "10.0.0.1:80"]%string.
Proof.
  apply (memory_weighted_fairness demo_ops demo_mem "echo" (ParseIP "192.168.3.4") demo_es demo_run).
  - discriminate.
  - vm_compute. reflexivity.
  - vm_compute. discriminate.
  - vm_compute. discriminate.
  - vm_compute. discriminate.
  - vm_compute. discriminate.
Defined.

Lemma memory_cleanup_exact_witness :
  (Cleanup (reverse (map_to_list (services demo_mem))) 10 6 demo_mem).2 = 2 /\
  services (Cleanup (reverse (map_to_list (services demo_mem))) 10 6 demo_mem).1 !! "echo"%string
  = Some [mkEntry "10.0.0.1:80" 5 0 2].
Proof.
  split.
  - destruct (memory_cleanup_exact (reverse (map_to_list (services demo_mem))) 10 6 demo_mem) as (_ & _ & _ & _ & _ & H).
    + apply reverse_Permutation.
    + rewrite H. vm_compute. reflexivity.
  - vm_compute. reflexivity.
Defined.
