(* ===== verification/MemoryConc.v ===== *)
(** * Concurrent queries of the in-memory registry

    [MemoryRegistry.GetServiceForRequestor] holds the mutex only while it
    copies the entries; the rest works on atomic counters reached through two
    [sync.Map]s.  Here a call is the sequence of its atomic steps, and calls
    interleave in any way.  A counter is a cell of a heap, since a call keeps
    the pointer it loaded.  Run alone, the steps are the call of [Memory.v]. *)

From Stdlib Require Import Ascii String.
From S2P Require Import Prelude.
From stdpp Require Import list relations.
From S2P Require Import GoStrings NetIP NetIPFacts Firewall Registry Memory.
Local Open Scope Z_scope.

Record Shared := mkShared {
  sh_services : gmap string (list ServiceEntry);
  sh_roundRobin : gmap string nat;
  sh_counters : gmap string nat;
  cells : gmap nat Z;
  sh_total : Z;
  sh_firewall : option Firewall }.

(** Where a call is, with its local variables *)
Inductive pc :=
| Called
| Copied (entryCopy : list ServiceEntry)
| Filtered (allowed : list ServiceEntry)
| HasIndex (allowed : list ServiceEntry) (idxPtr : nat)
| Chosen (selectedAddr : string)
| HasCounter (selectedAddr : string) (counterPtr : nat)
| Counted (selectedAddr : string)
| Returned (r : result RegError string).

Definition freshCell (c : gmap nat Z) : nat := fresh (dom c : gset nat).

(** [LoadOrStore(k, &atomic.Int64{})]: the pointer, the map and the heap *)
Definition loadOrStore (k : string) (m : gmap string nat) (c : gmap nat Z) : nat * gmap string nat * gmap nat Z :=
  match m !! k with
  | Some p => (p, m, c)
  | None => let p := freshCell c in (p, <[k := p]> m, <[p := 0]> c)
  end.

Definition addOne (p : nat) (c : gmap nat Z) : Z * gmap nat Z :=
  let v := wrap64 (default 0 (c !! p) + 1) in (v, <[p := v]> c).

(** One atomic step of a call *)
Definition tstep (task : string) (requestorIP : IP) (l : pc) (s : Shared) : pc * Shared :=
  match l with
  | Called =>
      if String.eqb task "" then (Returned (Err ErrInvalidTaskName), s)
      else match sh_services s !! task with
           | None | Some [] => (Returned (Err ErrNotFound), s)
           | Some entries => (Copied entries, s)
           end
  | Copied entryCopy =>
      match allowedEntries (sh_firewall s) requestorIP entryCopy with
      | None => (Returned (Err ErrNoAllowedService), s)
      | Some allowed =>
          if totalServiceWeight allowed <=? 0 then (Returned (Err ErrNotFound), s) else (Filtered allowed, s)
      end
  | Filtered allowed =>
      let '(p, rr, c) := loadOrStore task (sh_roundRobin s) (cells s) in
      (HasIndex allowed p, mkShared (sh_services s) rr (sh_counters s) c (sh_total s) (sh_firewall s))
  | HasIndex allowed p =>
      let '(idx, c) := addOne p (cells s) in
      let s := mkShared (sh_services s) (sh_roundRobin s) (sh_counters s) c (sh_total s) (sh_firewall s) in
      let slot := Z.rem (wrap64 (idx - 1)) (totalServiceWeight allowed) in
      match selectWeightedAddress allowed slot with
      | None => (Returned (Err ErrNotFound), s)
      | Some a => (Chosen a, s)
      end
  | Chosen a =>
      let '(p, qc, c) := loadOrStore (counterKey task a) (sh_counters s) (cells s) in
      (HasCounter a p, mkShared (sh_services s) (sh_roundRobin s) qc c (sh_total s) (sh_firewall s))
  | HasCounter a p =>
      let '(_, c) := addOne p (cells s) in
      (Counted a, mkShared (sh_services s) (sh_roundRobin s) (sh_counters s) c (sh_total s) (sh_firewall s))
  | Counted a =>
      (Returned (Ok a), mkShared (sh_services s) (sh_roundRobin s) (sh_counters s) (cells s) (wrap64 (sh_total s + 1)) (sh_firewall s))
  | Returned r => (Returned r, s)
  end.

(** Any of the running calls takes its next step. *)
Inductive conc_step (task : string) (ip : IP) : list pc * Shared -> list pc * Shared -> Prop :=
| conc_tick i l ls s l' s' : ls !! i = Some l -> tstep task ip l s = (l', s') -> conc_step task ip (ls, s) (<[i := l']> ls, s').

(** The sequential registry a shared state stands for *)
Definition flat (s : Shared) : MemoryRegistry :=
  let read p := default 0 (cells s !! p) in
  mkMem (sh_services s) (read <$> sh_roundRobin s) (read <$> sh_counters s) (sh_total s) (sh_firewall s).

(** No cell is shared by two counters. *)
Record heap_ok (s : Shared) : Prop := {
  ho_rr : forall k p, sh_roundRobin s !! k = Some p -> is_Some (cells s !! p);
  ho_qc : forall k p, sh_counters s !! k = Some p -> is_Some (cells s !! p);
  ho_rr_inj : forall k1 k2 p, sh_roundRobin s !! k1 = Some p -> sh_roundRobin s !! k2 = Some p -> k1 = k2;
  ho_qc_inj : forall k1 k2 p, sh_counters s !! k1 = Some p -> sh_counters s !! k2 = Some p -> k1 = k2;
  ho_disj : forall k1 k2 p, sh_roundRobin s !! k1 = Some p -> sh_counters s !! k2 = Some p -> False }.

Lemma freshCell_None c : c !! freshCell c = None.
Proof. apply not_elem_of_dom. unfold freshCell. apply is_fresh. Qed.

(** The counters a map of pointers stands for *)
Definition readAll (m : gmap string nat) (c : gmap nat Z) : gmap string Z := (fun p => default 0 (c !! p)) <$> m.

Lemma readAll_fresh m c p v : (forall k q, m !! k = Some q -> q <> p) -> readAll m (<[p := v]> c) = readAll m c.
Proof.
  intros Hm. apply map_eq. intros k. unfold readAll. rewrite !lookup_fmap. destruct (m !! k) as [q|] eqn:E; [|done]. simpl.
  rewrite lookup_insert_ne; [done|]. intros ->. by apply (Hm k q).
Qed.

Lemma readAll_set m c k p v : m !! k = Some p -> (forall k', m !! k' = Some p -> k' = k) ->
  readAll m (<[p := v]> c) = <[k := v]> (readAll m c).
Proof.
  intros Ek Hinj. apply map_eq. intros k'. unfold readAll. rewrite lookup_fmap. destruct (decide (k = k')) as [->|Hne].
  - rewrite lookup_insert_eq, Ek. simpl. by rewrite lookup_insert_eq.
  - rewrite lookup_insert_ne, lookup_fmap by done. destruct (m !! k') as [q|] eqn:E; [|done]. simpl.
    rewrite lookup_insert_ne; [done|]. intros ->. by destruct Hne; rewrite (Hinj k').
Qed.

(** Loading the counter of a key, in a map whose cells are its own *)
Lemma loadOrStore_spec k m c p m' c' : loadOrStore k m c = (p, m', c') ->
  (forall k q, m !! k = Some q -> is_Some (c !! q)) ->
  readAll m' c' = LoadOrStore k (readAll m c) /\ m' !! k = Some p /\
  (m' = m /\ c' = c \/ m !! k = None /\ c !! p = None /\ m' = <[k := p]> m /\ c' = <[p := 0]> c).
Proof.
  unfold loadOrStore, LoadOrStore. intros E Hm. assert (Hr : readAll m c !! k = (fun p => default 0 (c !! p)) <$> m !! k) by apply lookup_fmap.
  destruct (m !! k) as [q|] eqn:Ek; injection E as <- <- <-; rewrite Hr; [by auto|]. simpl. pose proof (freshCell_None c) as Hf.
  split_and!; [|apply lookup_insert_eq|by right]. unfold readAll. rewrite fmap_insert, lookup_insert_eq. simpl. f_equal.
  apply readAll_fresh. intros k' q' E' ->. destruct (Hm _ _ E'). congruence.
Qed.

Lemma heap_ok_alloc_rr s k p : heap_ok s -> sh_roundRobin s !! k = None -> cells s !! p = None ->
  heap_ok (mkShared (sh_services s) (<[k := p]> (sh_roundRobin s)) (sh_counters s) (<[p := 0]> (cells s)) (sh_total s) (sh_firewall s)).
Proof.
  intros [h1 h2 h3 h4 h5] Ek Ep.
  assert (Hrr : forall k' q, sh_roundRobin s !! k' = Some q -> q <> p) by (intros k' q E ->; destruct (h1 _ _ E); congruence).
  assert (Hqc : forall k' q, sh_counters s !! k' = Some q -> q <> p) by (intros k' q E ->; destruct (h2 _ _ E); congruence).
  split; simpl.
  - intros k' q [[_ <-]|[_ E]]%lookup_insert_Some; [rewrite lookup_insert_eq; by eauto|]. rewrite lookup_insert_ne by (by apply not_eq_sym, (Hrr k')). by eapply h1.
  - intros k' q E. rewrite lookup_insert_ne by (by apply not_eq_sym, (Hqc k')). by eapply h2.
  - intros k1 k2 q. rewrite !lookup_insert_Some. intros [[<- <-]|[? E1]] [[<- E2]|[? E2]]; try done.
    + by destruct (Hrr _ _ E2).
    + subst. by destruct (Hrr _ _ E1).
    + by eapply h3.
  - done.
  - intros k1 k2 q. rewrite lookup_insert_Some. intros [[_ <-]|[_ E1]] E2; [by destruct (Hqc _ _ E2)|by eapply h5].
Qed.

Lemma heap_ok_alloc_qc s k p : heap_ok s -> sh_counters s !! k = None -> cells s !! p = None ->
  heap_ok (mkShared (sh_services s) (sh_roundRobin s) (<[k := p]> (sh_counters s)) (<[p := 0]> (cells s)) (sh_total s) (sh_firewall s)).
Proof.
  intros [h1 h2 h3 h4 h5] Ek Ep.
  assert (Hrr : forall k' q, sh_roundRobin s !! k' = Some q -> q <> p) by (intros k' q E ->; destruct (h1 _ _ E); congruence).
  assert (Hqc : forall k' q, sh_counters s !! k' = Some q -> q <> p) by (intros k' q E ->; destruct (h2 _ _ E); congruence).
  split; simpl.
  - intros k' q E. rewrite lookup_insert_ne by (by apply not_eq_sym, (Hrr k')). by eapply h1.
  - intros k' q [[_ <-]|[_ E]]%lookup_insert_Some; [rewrite lookup_insert_eq; by eauto|]. rewrite lookup_insert_ne by (by apply not_eq_sym, (Hqc k')). by eapply h2.
  - done.
  - intros k1 k2 q. rewrite !lookup_insert_Some. intros [[<- <-]|[? E1]] [[<- E2]|[? E2]]; try done.
    + by destruct (Hqc _ _ E2).
    + subst. by destruct (Hqc _ _ E1).
    + by eapply h4.
  - intros k1 k2 q E1. rewrite lookup_insert_Some. intros [[_ <-]|[_ E2]]; [by destruct (Hrr _ _ E1)|by eapply h5].
Qed.

Lemma heap_ok_write s p v svc tot fw : heap_ok s -> heap_ok (mkShared svc (sh_roundRobin s) (sh_counters s) (<[p := v]> (cells s)) tot fw).
Proof.
  intros [h1 h2 h3 h4 h5]. split; simpl; try done.
  - intros k q E%h1. destruct (decide (p = q)) as [->|]; [rewrite lookup_insert_eq; by eauto|by rewrite lookup_insert_ne].
  - intros k q E%h2. destruct (decide (p = q)) as [->|]; [rewrite lookup_insert_eq; by eauto|by rewrite lookup_insert_ne].
Qed.

(** Loading the cursor, and loading a counter, as steps of the registry *)
Lemma load_rr task s p rr c : heap_ok s -> loadOrStore task (sh_roundRobin s) (cells s) = (p, rr, c) ->
  let s' := mkShared (sh_services s) rr (sh_counters s) c (sh_total s) (sh_firewall s) in
  heap_ok s' /\ rr !! task = Some p /\ readAll rr c = LoadOrStore task (readAll (sh_roundRobin s) (cells s)) /\
  readAll (sh_counters s) c = readAll (sh_counters s) (cells s).
Proof.
  intros Hh E. destruct (loadOrStore_spec _ _ _ _ _ _ E (ho_rr s Hh)) as (Hr & Hk & [[-> ->]|(Ek & Ep & -> & ->)]); simpl.
  - split_and!; [by destruct s|done..].
  - split_and!; [by apply heap_ok_alloc_rr|done..|]. apply readAll_fresh. intros k q Eq ->. destruct (ho_qc s Hh _ _ Eq). congruence.
Qed.

Lemma load_qc key s p qc c : heap_ok s -> loadOrStore key (sh_counters s) (cells s) = (p, qc, c) ->
  let s' := mkShared (sh_services s) (sh_roundRobin s) qc c (sh_total s) (sh_firewall s) in
  heap_ok s' /\ qc !! key = Some p /\ readAll qc c = LoadOrStore key (readAll (sh_counters s) (cells s)) /\
  readAll (sh_roundRobin s) c = readAll (sh_roundRobin s) (cells s).
Proof.
  intros Hh E. destruct (loadOrStore_spec _ _ _ _ _ _ E (ho_qc s Hh)) as (Hr & Hk & [[-> ->]|(Ek & Ep & -> & ->)]); simpl.
  - split_and!; [by destruct s|done..].
  - split_and!; [by apply heap_ok_alloc_qc|done..|]. apply readAll_fresh. intros k q Eq ->. destruct (ho_rr s Hh _ _ Eq). congruence.
Qed.

(** ** What a step does to the counters *)

Definition cursorVal (s : Shared) (task : string) : Z := default 0 (readAll (sh_roundRobin s) (cells s) !! task).
Definition counterVal (s : Shared) (key : string) : Z := default 0 (readAll (sh_counters s) (cells s) !! key).

(** The pointers a call holds are those of its counters. *)
Definition ptr_ok (task : string) (s : Shared) (l : pc) : Prop :=
  match l with
  | HasIndex _ q => sh_roundRobin s !! task = Some q
  | HasCounter a q => sh_counters s !! counterKey task a = Some q
  | _ => True
  end.

Lemma readAll_val m c k p v : m !! k = Some p -> c !! p = Some v -> readAll m c !! k = Some v.
Proof. intros Hk Hp. unfold readAll. rewrite lookup_fmap, Hk. cbn. by rewrite Hp. Qed.

Lemma LoadOrStore_val k m k' : default 0 (LoadOrStore k m !! k') = default 0 (m !! k').
Proof. rewrite LoadOrStore_lookup. destruct (decide (k' = k)) as [->|]; done. Qed.

Lemma loadOrStore_grows k m c p m' c' : loadOrStore k m c = (p, m', c') -> m ⊆ m'.
Proof. unfold loadOrStore. destruct (m !! k) eqn:E; intros [= _ <- _]; [done|]. by apply insert_subseteq. Qed.

Record effect (task : string) (l l' : pc) (s s' : Shared) : Prop := {
  ef_heap : heap_ok s';
  ef_rr : sh_roundRobin s ⊆ sh_roundRobin s';
  ef_qc : sh_counters s ⊆ sh_counters s';
  ef_ptr : ptr_ok task s' l';
  ef_svc : sh_services s' = sh_services s;
  ef_fw : sh_firewall s' = sh_firewall s;
  ef_cursor : cursorVal s' task = match l with HasIndex _ _ => wrap64 (cursorVal s task + 1) | _ => cursorVal s task end;
  ef_counter : forall key, counterVal s' key =
    match l with
    | HasCounter a _ => if decide (key = counterKey task a) then wrap64 (counterVal s key + 1) else counterVal s key
    | _ => counterVal s key
    end;
  ef_total : sh_total s' = match l with Counted _ => wrap64 (sh_total s + 1) | _ => sh_total s end }.

(** A step that touches no counter *)
Lemma effect_none task l l' s : heap_ok s -> ptr_ok task s l' ->
  match l with HasIndex _ _ | HasCounter _ _ | Counted _ => False | _ => True end -> effect task l l' s s.
Proof. intros Hh Hp Hl. by split; destruct l. Qed.

Lemma add_cursor task q s : heap_ok s -> sh_roundRobin s !! task = Some q ->
  let s' := mkShared (sh_services s) (sh_roundRobin s) (sh_counters s) (addOne q (cells s)).2 (sh_total s) (sh_firewall s) in
  (addOne q (cells s)).1 = wrap64 (cursorVal s task + 1) /\ cursorVal s' task = wrap64 (cursorVal s task + 1) /\ forall key, counterVal s' key = counterVal s key.
Proof.
  intros Hh Hq s'. destruct (ho_rr s Hh _ _ Hq) as [v Hv]. assert (Hc : cursorVal s task = v) by (unfold cursorVal; by rewrite (readAll_val _ _ _ _ _ Hq Hv)).
  unfold s', addOne. rewrite Hv. cbn [default fst snd]. rewrite Hc. split_and!; [done| |].
  - unfold cursorVal. cbn [sh_roundRobin sh_counters cells]. by rewrite (readAll_val _ _ _ q (wrap64 (v + 1)) Hq) by apply lookup_insert_eq.
  - intros key. unfold counterVal. cbn [sh_roundRobin sh_counters cells]. rewrite readAll_fresh; [done|]. intros k p Hp ->. by apply (ho_disj s Hh _ _ _ Hq Hp).
Qed.

Lemma add_counter key q s : heap_ok s -> sh_counters s !! key = Some q ->
  let s' := mkShared (sh_services s) (sh_roundRobin s) (sh_counters s) (addOne q (cells s)).2 (sh_total s) (sh_firewall s) in
  (forall task, cursorVal s' task = cursorVal s task) /\
  forall k, counterVal s' k = if decide (k = key) then wrap64 (counterVal s k + 1) else counterVal s k.
Proof.
  intros Hh Hq s'. destruct (ho_qc s Hh _ _ Hq) as [v Hv]. unfold s', addOne. rewrite Hv. cbn [default fst snd]. split.
  - intros task. unfold cursorVal. cbn [sh_roundRobin sh_counters cells]. rewrite readAll_fresh; [done|]. intros k p Hp ->. by apply (ho_disj s Hh _ _ _ Hp Hq).
  - intros k. unfold counterVal. cbn [sh_roundRobin sh_counters cells]. rewrite (readAll_set _ _ key q); [|done|intros k' Hk'; by apply (ho_qc_inj s Hh _ _ q)].
    destruct (decide (k = key)) as [->|Hk]; [rewrite lookup_insert_eq|by rewrite lookup_insert_ne]. cbn. by rewrite (readAll_val _ _ _ _ _ Hq Hv).
Qed.

Lemma tstep_effect task ip l s l' s' : heap_ok s -> ptr_ok task s l -> tstep task ip l s = (l', s') -> effect task l l' s s'.
Proof.
  intros Hh Hp E. destruct l as [|es|al|al q|a|a q|a|r]; cbn [tstep] in E.
  - assert (Hn : s' = s /\ ptr_ok task s l').
    { destruct (String.eqb task ""); [by injection E as <- <-|]. destruct (sh_services s !! task) as [[|]|]; by injection E as <- <-. }
    destruct Hn as [-> ?]. by apply effect_none.
  - assert (Hn : s' = s /\ ptr_ok task s l').
    { destruct (allowedEntries _ _ _); [|by injection E as <- <-]. destruct (_ <=? _); by injection E as <- <-. }
    destruct Hn as [-> ?]. by apply effect_none.
  - destruct (loadOrStore task _ _) as [[p rr] c] eqn:El. injection E as <- <-. destruct (load_rr _ _ _ _ _ Hh El) as (Hh' & Hk & Hr & Hq).
    split; cbn in *; try done; [by eapply loadOrStore_grows|..].
    + unfold cursorVal. cbn [sh_roundRobin sh_counters cells]. by rewrite Hr, LoadOrStore_val.
    + intros key. unfold counterVal. cbn [sh_roundRobin sh_counters cells]. by rewrite Hq.
  - cbn in Hp. destruct (add_cursor task q s Hh Hp) as (_ & Hc & Hk). destruct (addOne q (cells s)) as [v c] eqn:Ea. cbn [snd] in Hc, Hk.
    assert (Hs' : s' = mkShared (sh_services s) (sh_roundRobin s) (sh_counters s) c (sh_total s) (sh_firewall s) /\ ptr_ok task s' l').
    { destruct (selectWeightedAddress _ _); by injection E as <- <-. }
    destruct Hs' as [-> Hp']. unfold addOne in Ea. injection Ea as <- <-. split; try done. by apply heap_ok_write.
  - destruct (loadOrStore (counterKey task a) _ _) as [[p qc] c] eqn:El. injection E as <- <-. destruct (load_qc _ _ _ _ _ Hh El) as (Hh' & Hk & Hq & Hr).
    split; cbn in *; try done; [by eapply loadOrStore_grows|..].
    + unfold cursorVal. cbn [sh_roundRobin sh_counters cells]. by rewrite Hr.
    + intros key. unfold counterVal. cbn [sh_roundRobin sh_counters cells]. by rewrite Hq, LoadOrStore_val.
  - cbn in Hp. destruct (add_counter (counterKey task a) q s Hh Hp) as (Hc & Hk). destruct (addOne q (cells s)) as [v c] eqn:Ea. cbn [snd] in Hc, Hk.
    injection E as <- <-. unfold addOne in Ea. injection Ea as <- <-. split; try done. by apply heap_ok_write.
  - injection E as <- <-. split; try done. by destruct Hh.
  - injection E as <- <-. by apply effect_none.
Qed.

(** ** Fairness under any interleaving *)

Definition answer (l : pc) : option string :=
  match l with
  | Chosen a | HasCounter a _ | Counted a | Returned (Ok a) => Some a
  | _ => None
  end.
Definition returned (l : pc) : bool := match l with Returned _ => true | _ => false end.

(** The calls that have counted their answer under [key] *)
Definition countedAs (task key : string) (l : pc) : bool :=
  match l with Counted a | Returned (Ok a) => bool_decide (counterKey task a = key) | _ => false end.

Lemma omap_cons {A B} (f : A -> option B) x (l : list A) :
  omap f (x :: l) = match f x with Some y => y :: omap f l | None => omap f l end.
Proof. done. Qed.

Lemma omap_length {A B} (f : A -> option B) (l : list A) : (length (omap f l) <= length l)%nat.
Proof. induction l as [|x l IH]; [done|]. rewrite omap_cons. destruct (f x); cbn [length]; lia. Qed.

Lemma omap_length_lt {A B} (f : A -> option B) (l : list A) i x : l !! i = Some x -> f x = None -> (length (omap f l) < length l)%nat.
Proof.
  revert i. induction l as [|y l IH]; intros [|i] E Hx; [done..| |]; rewrite omap_cons; cbn [length].
  - injection E as ->. rewrite Hx. pose proof (omap_length f l). lia.
  - specialize (IH i E Hx). destruct (f y); cbn [length]; lia.
Qed.

(** How many calls satisfy [f], after one of them has moved *)
Definition count (f : pc -> bool) (ls : list pc) : nat := length (List.filter f ls).

Lemma count_step f i ls l l' : ls !! i = Some l -> (f l = true -> f l' = true) ->
  count f (<[i := l']> ls) = (count f ls + (if f l then 0 else if f l' then 1 else 0))%nat.
Proof.
  intros Hl Hf. revert i Hl. unfold count. induction ls as [|x ls IH]; intros [|i] Hl; [done..| |].
  - injection Hl as ->. change (<[O := l']> (l :: ls)) with (l' :: ls). cbn [List.filter].
    destruct (f l); [rewrite (Hf eq_refl); cbn; lia|]. destruct (f l'); cbn; lia.
  - change (<[S i := l']> (x :: ls)) with (x :: <[i := l']> ls). cbn [List.filter]. specialize (IH i Hl). destruct (f x); cbn [length]; lia.
Qed.

Lemma answers_step i ls l l' : ls !! i = Some l ->
  (answer l' = answer l -> omap answer (<[i := l']> ls) = omap answer ls) /\
  (forall a, answer l = None -> answer l' = Some a -> omap answer (<[i := l']> ls) ≡ₚ omap answer ls ++ [a]).
Proof.
  revert i. induction ls as [|x ls IH]; intros [|i] E; [done..| |].
  - injection E as ->. change (<[O := l']> (l :: ls)) with (l' :: ls). rewrite !omap_cons. split; [by intros ->|].
    intros a -> ->. by rewrite Permutation_app_comm.
  - destruct (IH i E) as (H1 & H2). change (<[S i := l']> (x :: ls)) with (x :: <[i := l']> ls). rewrite !omap_cons. split.
    + intros Ha. by rewrite H1.
    + intros a Ha Ha'. destruct (answer x); [|by apply H2]. by rewrite (H2 a Ha Ha').
Qed.

Section Fair.
Context (task : string) (ip : IP) (es al : list ServiceEntry) (c0 : nat) (s0 : Shared).
Context (Htask : task <> ""%string) (Hsvc : sh_services s0 !! task = Some es) (Hes : es <> []).
Context (Hal : List.filter (permitted (sh_firewall s0) ip) es = al) (Hne : al <> []) (Hfit : weights_fit es).

Definition slotAddr (i : nat) : string := default ""%string (expand al !! (i mod length (expand al))%nat).

Lemma al_fit : weights_fit al.
Proof. subst al. pose proof (weight_sum_filter (permitted (sh_firewall s0) ip) es). unfold weights_fit in *. lia. Qed.

(** What each call knows while only queries run *)
Definition local_ok (l : pc) : Prop :=
  match l with
  | Copied es' => es' = es
  | Filtered al' | HasIndex al' _ => al' = al
  | Returned (Err _) => False
  | _ => True
  end.

Record conc_inv (n : nat) (ls : list pc) (s : Shared) : Prop := {
  ci_svc : sh_services s = sh_services s0;
  ci_fw : sh_firewall s = sh_firewall s0;
  ci_heap : heap_ok s;
  ci_len : length ls = n;
  ci_local : Forall local_ok ls;
  ci_ptr : Forall (ptr_ok task s) ls;
  ci_draws : exists k, cursorVal s task = Z.of_nat (c0 + k) /\ omap answer ls ≡ₚ slotAddr <$> seq c0 k;
  ci_counts : forall key, counterVal s key = wrap64 (counterVal s0 key + Z.of_nat (count (countedAs task key) ls));
  ci_total : sh_total s = wrap64 (sh_total s0 + Z.of_nat (count returned ls)) }.

(** The local part of a step *)
Lemma tstep_local l s l' s' : sh_services s = sh_services s0 -> sh_firewall s = sh_firewall s0 -> heap_ok s -> local_ok l -> ptr_ok task s l ->
  (answer l = None -> 0 <= cursorVal s task < int64_max) -> tstep task ip l s = (l', s') ->
  local_ok l' /\ match l with
                 | HasIndex _ _ => l' = Chosen (slotAddr (Z.to_nat (cursorVal s task)))
                 | _ => answer l' = answer l
                 end /\
  returned l' = match l with Counted _ | Returned _ => true | _ => false end.
Proof.
  intros H1 H2 Hh Hl Hp Hc E. pose proof al_fit as Haf. destruct l as [|es'|al'|al' q|a|a q|a|r]; cbn [tstep] in E; cbn in Hl, Hp.
  - assert (exists e1 es1, es = e1 :: es1) as (e1 & es1 & Ees) by (destruct es; [done|by eauto]).
    rewrite (proj2 (String.eqb_neq _ _) Htask), H1, Hsvc, Ees, <-Ees in E. by injection E as <- <-.
  - assert (exists e1 al1, al = e1 :: al1) as (e1 & al1 & Eal) by (destruct al; [done|by eauto]).
    subst es'. rewrite H2, allowedEntries_spec, Hal, Eal, <- Eal in E by done. rewrite totalServiceWeight_fit in E by done.
    pose proof (weight_sum_pos al). destruct (Z.leb_spec (weight_sum al) 0); [lia|]. by injection E as <- <-.
  - destruct (loadOrStore _ _ _) as [[p rr] c]. by injection E as <- <-.
  - subst al'. destruct (add_cursor task q s Hh Hp) as (Hv & _). specialize (Hc eq_refl). destruct (addOne q (cells s)) as [v c]. cbn [fst] in Hv. rewrite Hv in E.
    rewrite wrap64_add_sub in E by (unfold in_int64, int64_min, int64_max in *; lia).
    rewrite totalServiceWeight_fit, select_pool in E by (done || lia). fold (slotAddr (Z.to_nat (cursorVal s task))) in E. by injection E as <- <-.
  - destruct (loadOrStore _ _ _) as [[p qc] c]. by injection E as <- <-.
  - destruct (addOne _ _) as [v c]. by injection E as <- <-.
  - by injection E as <- <-.
  - by injection E as <- <-.
Qed.

Lemma tstep_counted l s l' s' key : tstep task ip l s = (l', s') ->
  countedAs task key l' = match l with HasCounter a _ => bool_decide (counterKey task a = key) | _ => countedAs task key l end.
Proof.
  intros E. destruct l as [|es'|al'|al' q|a|a q|a|r]; cbn [tstep] in E.
  - destruct (String.eqb task ""); [by injection E as <- <-|]. destruct (sh_services s !! task) as [[|]|]; by injection E as <- <-.
  - destruct (allowedEntries _ _ _); [|by injection E as <- <-]. destruct (_ <=? _); by injection E as <- <-.
  - destruct (loadOrStore _ _ _) as [[p rr] c]. by injection E as <- <-.
  - destruct (addOne _ _) as [v c]. destruct (selectWeightedAddress _ _); by injection E as <- <-.
  - destruct (loadOrStore _ _ _) as [[p qc] c]. by injection E as <- <-.
  - destruct (addOne _ _) as [v c]. by injection E as <- <-.
  - by injection E as <- <-.
  - by injection E as <- <-.
Qed.

Lemma ptr_ok_grows s s' l : sh_roundRobin s ⊆ sh_roundRobin s' -> sh_counters s ⊆ sh_counters s' -> ptr_ok task s l -> ptr_ok task s' l.
Proof. intros Hr Hq. destruct l; cbn; try done; intros H; by eapply lookup_weaken. Qed.

Lemma tick_inv n ls s i l l' s' : Z.of_nat (c0 + n) <= int64_max -> conc_inv n ls s ->
  ls !! i = Some l -> tstep task ip l s = (l', s') -> conc_inv n (<[i := l']> ls) s'.
Proof.
  intros Hmax [H1 H2 H3 H4 H5 H6 (k & Hc & Hd) H8 H9] El E.
  assert (Hloc : local_ok l) by (by apply (proj1 (Forall_lookup _ _) H5 i)).
  assert (Hptr : ptr_ok task s l) by (by apply (proj1 (Forall_lookup _ _) H6 i)).
  assert (Hk : (k <= n)%nat /\ (answer l = None -> k < n)%nat).
  { apply Permutation_length in Hd. rewrite length_fmap, length_seq in Hd. pose proof (omap_length answer ls). split; [lia|].
    intros Ha. pose proof (omap_length_lt answer ls i l El Ha). lia. }
  destruct (tstep_effect task ip l s l' s' H3 Hptr E) as [F1 F2 F3 F4 F5 F6 F7 F8 F9].
  assert (Hlocal : local_ok l' /\ (omap answer (<[i := l']> ls) ≡ₚ slotAddr <$> seq c0 (match l with HasIndex _ _ => S k | _ => k end)) /\
    cursorVal s' task = Z.of_nat (c0 + match l with HasIndex _ _ => S k | _ => k end) /\ returned l' = match l with Counted _ | Returned _ => true | _ => false end).
  { destruct (answers_step i ls l l' El) as [D1 D2].
    assert (Hr : answer l = None -> 0 <= cursorVal s task < int64_max) by (rewrite Hc; intros Ha%Hk; lia).
    destruct (tstep_local l s l' s' H1 H2 H3 Hloc Hptr Hr E) as (L1 & L2 & L3). split_and!; [done| | |done].
    - destruct l as [| | |al' q| | | |]; try (by rewrite D1). rewrite (D2 (slotAddr (c0 + k))), Hd, seq_S, fmap_app; [done|done|].
      subst l'. by rewrite Hc, Nat2Z.id.
    - rewrite F7, Hc. destruct l as [| | |al' q| | | |]; try done. specialize (Hr eq_refl). rewrite wrap64_id; [lia|]. unfold in_int64, int64_min in *. lia. }
  destruct Hlocal as (L1 & L2 & L3 & L4). split; [by rewrite F5|by rewrite F6|done|by rewrite length_insert| | |by eexists| |].
  - by apply Forall_insert.
  - apply Forall_insert; [|done]. eapply Forall_impl; [exact H6|]. intros x. by apply ptr_ok_grows.
  - intros key. pose proof (tstep_counted l s l' s' key E) as Hcd. rewrite F8, (count_step _ i ls l l' El) by (by destruct l; rewrite Hcd). rewrite H8.
    destruct l as [| | | |a|a q|a|[a|e]]; cbn [countedAs] in *; rewrite Hcd; try (f_equal; lia).
    + destruct (decide (key = counterKey task a)) as [Hkey|Hkey]; [rewrite (bool_decide_eq_true_2 _ (eq_sym Hkey))|rewrite bool_decide_eq_false_2 by congruence]; [rewrite wrap64_add_l|]; f_equal; lia.
    + case_bool_decide; f_equal; lia.
    + case_bool_decide; f_equal; lia.
  - rewrite F9, (count_step _ i ls l l' El) by (by destruct l). rewrite H9, L4. destruct l; cbn [returned]; rewrite ?wrap64_add_l; f_equal; lia.
Qed.

Lemma conc_run_inv n x y : Z.of_nat (c0 + n) <= int64_max -> rtc (conc_step task ip) x y -> conc_inv n x.1 x.2 -> conc_inv n y.1 y.2.
Proof.
  intros Hmax Hr. induction Hr as [|x y z Hxy _ IH]; [done|]. intros Hx. apply IH.
  destruct Hxy as [i l ls s l' s' El E]. simpl in *. by eapply tick_inv.
Qed.

Lemma all_answered ls : Forall local_ok ls -> Forall (fun l => returned l = true) ls ->
  ls = (fun a => Returned (Ok a)) <$> omap answer ls /\ count returned ls = length ls /\
  forall key, count (countedAs task key) ls = length (List.filter (fun a => bool_decide (counterKey task a = key)) (omap answer ls)).
Proof.
  intros Hl Hr. induction ls as [|l ls IH]; [done|]. apply Forall_cons in Hl as [Hl Hls]. apply Forall_cons in Hr as [Hr Hrs].
  destruct (IH Hls Hrs) as (E1 & E2 & E3). destruct l as [| | | | | | |[a|e]]; try done. rewrite omap_cons. unfold count in *. cbn [answer List.filter returned length countedAs].
  rewrite fmap_cons. split_and!; [by f_equal|by rewrite E2|]. intros key. specialize (E3 key). case_bool_decide; cbn [length]; by rewrite E3.
Qed.
End Fair.

(** C3: weighted round robin is exact under concurrency.  Let any number of
    queries of one requestor run at once, as many as the capacities of its
    permitted services add up to, their atomic steps interleaved in any way,
    whether the task has a cursor already or the calls race to create it, and
    while the cursor stays below 2^63.  When all have returned, none has
    failed and the answers are the pool in which every permitted service
    occurs as often as its capacity.  No count is lost: the cursor and the
    total have grown by the number of calls, and every counter of a service,
    the ones created meanwhile included, by the number of answers that were
    counted under its key (modulo 2^64 for the last two). *)
Theorem concurrent_fairness task ip es s ls s' :
  let al := List.filter (permitted (sh_firewall s) ip) es in
  task <> ""%string -> sh_services s !! task = Some es -> weights_fit es -> al <> [] ->
  heap_ok s -> in_int64 (sh_total s) -> (forall key, in_int64 (counterVal s key)) -> 0 <= cursorVal s task -> cursorVal s task + weight_sum al <= int64_max ->
  rtc (conc_step task ip) (replicate (Z.to_nat (weight_sum al)) Called, s) (ls, s') ->
  Forall (fun l => returned l = true) ls ->
  exists answers, ls = (fun a => Returned (Ok a)) <$> answers /\ answers ≡ₚ expand al /\
    cursorVal s' task = cursorVal s task + weight_sum al /\
    sh_total s' = wrap64 (sh_total s + weight_sum al) /\
    forall key, counterVal s' key = wrap64 (counterVal s key + Z.of_nat (length (List.filter (fun a => bool_decide (counterKey task a = key)) answers))).
Proof.
  intros al Ht Hs Hf Hne Hh Htot Hcnt Hc0 Hmax Hrun Hret. pose proof (weight_sum_pos al Hne) as Hp.
  assert (Hes : es <> []) by (intros ->; by apply Hne).
  assert (H0 : conc_inv task es al (Z.to_nat (cursorVal s task)) s (Z.to_nat (weight_sum al)) (replicate (Z.to_nat (weight_sum al)) Called) s).
  { generalize (Z.to_nat (weight_sum al)). intros n. assert (Hz : forall f, f Called = false -> count f (replicate n Called) = 0%nat).
    { intros f Hfc. clear -Hfc. unfold count. induction n as [|n IH]; [done|]. cbn. by rewrite Hfc. }
    split; [done..| | | | | |].
    - apply length_replicate.
    - by apply Forall_replicate.
    - by apply Forall_replicate.
    - exists 0%nat. rewrite Nat.add_0_r, Z2Nat.id by done. split; [done|]. clear. by induction n.
    - intros key. rewrite Hz by done. rewrite Z.add_0_r. symmetry. by apply wrap64_id.
    - rewrite Hz by done. rewrite Z.add_0_r. symmetry. by apply wrap64_id. }
  assert (Hn : Z.of_nat (Z.to_nat (cursorVal s task) + Z.to_nat (weight_sum al)) <= int64_max) by lia.
  pose proof (conc_run_inv task ip es al (Z.to_nat (cursorVal s task)) s Ht Hs Hes eq_refl Hne Hf _ _ _ Hn Hrun H0) as Hi. simpl in Hi.
  destruct Hi as [_ _ _ Hlen Hloc _ (k & Hk & Hd) Hcounts Htotal]. destruct (all_answered task es al ls Hloc Hret) as (Els & Hcount & Hkeys).
  assert (Ek : k = length (expand al)).
  { pose proof (expand_length al). apply Permutation_length in Hd. rewrite length_fmap, length_seq in Hd.
    apply (f_equal length) in Els. rewrite length_fmap in Els. lia. }
  exists (omap answer ls). split_and!; [done| | | |intros key; by rewrite Hcounts, Hkeys].
  - rewrite Hd, Ek. apply cyclic_read. intros E. pose proof (expand_length al) as Hl. rewrite E in Hl. simpl in Hl. lia.
  - rewrite Hk, Ek. pose proof (expand_length al). lia.
  - rewrite Htotal, Hcount, Hlen. f_equal. lia.
Qed.

(** ** Running alone *)

Fixpoint runAlone (n : nat) (task : string) (ip : IP) (l : pc) (s : Shared) : pc * Shared :=
  match n with
  | O => (l, s)
  | S n => let '(l, s) := tstep task ip l s in runAlone n task ip l s
  end.

Lemma runAlone_returned n task ip r s : runAlone n task ip (Returned r) s = (Returned r, s).
Proof. induction n; [done|]. simpl. done. Qed.

(** The last three steps: count the query *)
Lemma finish_alone task ip a s : heap_ok s ->
  exists s', runAlone 3 task ip (Chosen a) s = (Returned (Ok a), s') /\ heap_ok s' /\
    flat s' = let key := counterKey task a in
      mkMem (sh_services s) (readAll (sh_roundRobin s) (cells s))
            (AddOne key (LoadOrStore key (readAll (sh_counters s) (cells s)))).2 (wrap64 (sh_total s + 1)) (sh_firewall s).
Proof.
  intros Hh. cbn [runAlone tstep]. destruct (loadOrStore (counterKey task a) _ _) as [[p qc] c] eqn:E.
  destruct (load_qc _ _ _ _ _ Hh E) as (Hh1 & Hk & Hq & Hr). simpl in Hh1. cbn [sh_services sh_roundRobin sh_counters cells sh_total sh_firewall].
  unfold addOne. eexists. split; [reflexivity|]. split; [by apply (heap_ok_write _ p _ _ _ _ Hh1)|].
  unfold flat. simpl. fold (readAll qc (<[p := wrap64 (default 0 (c !! p) + 1)]> c)) (readAll (sh_roundRobin s) (<[p := wrap64 (default 0 (c !! p) + 1)]> c)).
  rewrite (readAll_set qc c (counterKey task a) p), Hq; [|done|intros k' Ek; by eapply (ho_qc_inj _ Hh1)].
  rewrite readAll_fresh, Hr by (intros k q Eq ->; by eapply (ho_disj _ Hh1)). f_equal. unfold AddOne. simpl. f_equal. do 3 f_equal.
  destruct (ho_qc _ Hh1 _ _ Hk) as [v Ev]. simpl in Ev. rewrite <- Hq. unfold readAll. rewrite lookup_fmap, Hk. simpl. by rewrite Ev.
Qed.

Lemma flat_eq s : flat s = mkMem (sh_services s) (readAll (sh_roundRobin s) (cells s)) (readAll (sh_counters s) (cells s)) (sh_total s) (sh_firewall s).
Proof. done. Qed.

(** A query run without interference is the call of the registry.  From
    any state whose counters have cells of their own, seven atomic steps end
    the call with the answer and the registry that
    [GetServiceForRequestor] gives on the registry the state stands for, on
    every branch. *)
Theorem alone_is_the_call task ip s : heap_ok s ->
  exists s', runAlone 7 (TrimSpace task) ip Called s = (Returned (GetServiceForRequestor task ip (flat s)).1, s') /\
    flat s' = (GetServiceForRequestor task ip (flat s)).2 /\ heap_ok s'.
Proof.
  intros Hh. rewrite (flat_eq s). unfold GetServiceForRequestor. cbn [services firewall roundRobinIndex queryCounters totalQueries].
  set (t := TrimSpace task).
  change (runAlone 7 t ip Called s) with (let '(l, s) := tstep t ip Called s in runAlone 6 t ip l s). cbn [tstep].
  destruct (String.eqb t ""); [by exists s; rewrite runAlone_returned|].
  destruct (sh_services s !! t) as [[|e es]|]; [by exists s; rewrite runAlone_returned| |by exists s; rewrite runAlone_returned].
  set (es' := e :: es). change (runAlone 6 t ip (Copied es') s) with (let '(l, s) := tstep t ip (Copied es') s in runAlone 5 t ip l s). cbn [tstep].
  destruct (allowedEntries (sh_firewall s) ip es') as [al|]; [|by exists s; rewrite runAlone_returned].
  destruct (totalServiceWeight al <=? 0); [by exists s; rewrite runAlone_returned|].
  change (runAlone 5 t ip (Filtered al) s) with (let '(l, s) := tstep t ip (Filtered al) s in runAlone 4 t ip l s). cbn [tstep].
  destruct (loadOrStore t (sh_roundRobin s) (cells s)) as [[p rr] c] eqn:E. destruct (load_rr _ _ _ _ _ Hh E) as (Hh1 & Hk & Hr & Hq). simpl in Hh1.
  set (s1 := mkShared _ _ _ _ _ _) in *.
  change (runAlone 4 t ip (HasIndex al p) s1) with (let '(l, s) := tstep t ip (HasIndex al p) s1 in runAlone 3 t ip l s). cbn [tstep].
  destruct (addOne p (cells s1)) as [idx c'] eqn:Ea.
  assert (Hadd : AddOne t (LoadOrStore t (readAll (sh_roundRobin s) (cells s))) = (idx, readAll rr c') /\ readAll (sh_counters s) c' = readAll (sh_counters s) (cells s)).
  { unfold addOne in Ea. simpl in Ea. destruct (ho_rr _ Hh1 _ _ Hk) as [v Ev]. simpl in Ev. rewrite Ev in Ea. injection Ea as <- <-. rewrite <- Hr. split.
    - unfold AddOne. rewrite (readAll_set rr c t p); [|done|intros k' Ek; exact (ho_rr_inj _ Hh1 _ _ p Ek Hk)].
      unfold readAll at 1 2. rewrite lookup_fmap, Hk. simpl. by rewrite Ev.
    - rewrite readAll_fresh; [done|]. intros k q Eq ->. exact (ho_disj _ Hh1 _ _ p Hk Eq). }
  destruct Hadd as [Hadd Hq']. rewrite Hadd. set (s2 := mkShared _ _ _ _ _ _).
  assert (Hh2 : heap_ok s2) by (unfold addOne in Ea; injection Ea as <- <-; by apply (heap_ok_write s1)).
  destruct (selectWeightedAddress al _) as [a|].
  - destruct (finish_alone t ip a s2 Hh2) as (s' & -> & Hh' & Hf'). exists s'. split_and!; [done| |done].
    rewrite Hf'. simpl. by rewrite Hq'.
  - exists s2. rewrite runAlone_returned, flat_eq. simpl. by rewrite Hq'.
Qed.

(** The steps a call still needs at most *)
Definition rank (l : pc) : nat :=
  match l with
  | Called => 7 | Copied _ => 6 | Filtered _ => 5 | HasIndex _ _ => 4
  | Chosen _ => 3 | HasCounter _ _ => 2 | Counted _ => 1 | Returned _ => 0
  end.

Lemma tstep_rank task ip l s : (rank (tstep task ip l s).1 <= pred (rank l))%nat.
Proof.
  destruct l as [|es|al|al p|a|a p|a|r]; cbn [tstep rank pred].
  - destruct (String.eqb task ""); [cbn; lia|]. destruct (sh_services s !! task) as [[|e es]|]; cbn; lia.
  - destruct (allowedEntries _ _ _); [|cbn; lia]. destruct (_ <=? _); cbn; lia.
  - destruct (loadOrStore _ _ _) as [[p m] c]. done.
  - destruct (addOne _ _) as [v c]. destruct (selectWeightedAddress _ _); cbn; lia.
  - destruct (loadOrStore _ _ _) as [[p m] c]. done.
  - destruct (addOne _ _) as [v c]. done.
  - done.
  - done.
Qed.

(** Queries are wait-free.  A call returns within seven of its own steps
    whatever the other goroutines do to the registry between them: the states
    it finds are any seven at all. *)
Theorem query_wait_free task ip (found : list Shared) : length found = 7%nat ->
  exists r, foldl (fun l s => (tstep task ip l s).1) Called found = Returned r.
Proof.
  intros Hl. assert (Hr : forall l, (rank (foldl (fun l s => (tstep task ip l s).1) l found) <= rank l - length found)%nat).
  { clear Hl. induction found as [|s ss IH]; intros l; simpl; [lia|]. pose proof (tstep_rank task ip l s). pose proof (IH (tstep task ip l s).1). lia. }
  specialize (Hr Called). rewrite Hl in Hr. destruct (foldl _ _ _); cbn [rank] in Hr; try lia. by eexists.
Qed.

(** ** Witnesses: two services, one of capacity 2, and three queries at once *)

Definition demo_shared : Shared :=
  mkShared {["t"%string := [mkEntry "a" 0 0 2; mkEntry "b" 0 0 1]%string]} {["t"%string := 0%nat]} ∅ {[0%nat := 1]} 5 None.

Lemma demo_heap_ok : heap_ok demo_shared.
Proof.
  split; simpl.
  - intros k q [_ <-]%lookup_singleton_Some. by eexists.
  - intros k q E. by rewrite lookup_empty in E.
  - intros k1 k2 q [<- _]%lookup_singleton_Some [<- _]%lookup_singleton_Some. done.
  - intros k1 k2 q E. by rewrite lookup_empty in E.
  - intros k1 k2 q _ E. by rewrite lookup_empty in E.
Qed.

Lemma alone_is_the_call_witness :
  exists s', runAlone 7 (TrimSpace " t ") [] Called demo_shared = (Returned (Ok "a"%string), s') /\ totalQueries (flat s') = 6.
Proof.
  destruct (alone_is_the_call " t " [] demo_shared demo_heap_ok) as (s' & E & Hf & _). exists s'. rewrite Hf, E. split; by vm_compute.
Defined.

Lemma query_wait_free_witness : exists r, foldl (fun l s => (tstep "t" [] l s).1) Called (replicate 7 demo_shared) = Returned r /\ r = Ok "a"%string.
Proof. destruct (query_wait_free "t" [] (replicate 7 demo_shared) eq_refl) as [r E]. exists r. split; [done|]. by vm_compute in E; injection E as <-. Defined.

(** Run the calls by a schedule of indices *)
Fixpoint schedule (task : string) (ip : IP) (ticks : list nat) (x : list pc * Shared) : list pc * Shared :=
  match ticks with
  | [] => x
  | i :: ticks =>
      match x.1 !! i with
      | Some l => let '(l', s') := tstep task ip l x.2 in schedule task ip ticks (<[i := l']> x.1, s')
      | None => schedule task ip ticks x
      end
  end.

Lemma schedule_run task ip ticks x : rtc (conc_step task ip) x (schedule task ip ticks x).
Proof.
  revert x. induction ticks as [|i ticks IH]; intros [ls s]; [done|]. simpl. destruct (ls !! i) as [l|] eqn:El; [|apply IH].
  destruct (tstep task ip l s) as [l' s'] eqn:E. eapply rtc_l; [by econstructor|apply IH].
Qed.

Definition demo_schedule : list nat := [0; 1; 1; 0; 2; 1; 2; 1; 0; 2; 2; 0; 1; 2; 1; 0; 1; 0; 2; 2; 0]%nat.

(** The same services before any query: no cursor, no counter *)
Definition first_shared : Shared :=
  mkShared {["t"%string := [mkEntry "a" 0 0 2; mkEntry "b" 0 0 1]%string]} ∅ ∅ ∅ 5 None.

Lemma first_heap_ok : heap_ok first_shared.
Proof. split; simpl; intros *; rewrite lookup_empty; done. Qed.

Lemma concurrent_fairness_witness :
  exists answers, (schedule "t" [] demo_schedule (replicate 3 Called, first_shared)).1 = (fun a => Returned (Ok a)) <$> answers /\
    answers ≡ₚ ["a"; "a"; "b"]%string.
Proof.
  destruct (schedule "t" [] demo_schedule (replicate 3 Called, first_shared)) as [ls s'] eqn:E.
  destruct (concurrent_fairness "t" [] [mkEntry "a" 0 0 2; mkEntry "b" 0 0 1]%string first_shared ls s') as (answers & Hls & Hp & _).
  - done.
  - done.
  - by vm_compute.
  - done.
  - apply first_heap_ok.
  - unfold in_int64, int64_min, int64_max. simpl. lia.
  - intros key. replace (counterVal first_shared key) with 0 by (unfold counterVal, readAll; rewrite lookup_fmap; cbn; by rewrite lookup_empty). apply in_int64_0.
  - by vm_compute.
  - by vm_compute.
  - change (Z.to_nat _) with 3%nat. rewrite <- E. apply schedule_run.
  - replace ls with (schedule "t" [] demo_schedule (replicate 3 Called, first_shared)).1 by (by rewrite E). vm_compute. by repeat constructor.
  - exists answers. split; [done|]. etrans; [exact Hp|]. by vm_compute.
Defined.
