(* ===== verification/Store.v ===== *)
(** * pkg/store/store.go: the persistence interface

    A [Store] is a type class over the store's whole state (the database
    included).  A call that fails may or may not have taken effect: the
    acknowledgement of a write can be lost after the write.  [StoreLaws] is
    what the store-backed registry relies on; [Postgres.v] discharges it. *)

From Stdlib Require Import Ascii String.
From S2P Require Import Prelude.
From stdpp Require Import list.
From S2P Require Import Registry.
Local Open Scope Z_scope.

Abbreviation Services := (gmap string (list ServiceEntry)).

Class Store (S : Type) := {
  st_Register : string -> ServiceEntry -> S -> result StoreError unit * S;
  st_IncrementQueryCount : string -> string -> S -> result StoreError unit * S;
  st_ListServices : S -> result StoreError Services * S;
  st_ListTaskServices : string -> S -> result StoreError (list ServiceEntry) * S;
  st_ListTopTasksByQueryCount : Z -> S -> result StoreError (list string) * S;
  st_ListServicesForTasks : list string -> S -> result StoreError Services * S;
  st_Cleanup : Z -> Z -> S -> result StoreError Z * S }.

(** [normalizedCapacity], which the registry repeats inline *)
Definition normalizedCapacity (capacity : Z) : Z := if capacity <=? 0 then 1 else capacity.

Lemma normalizedCapacity_pos c : 1 <= normalizedCapacity c.
Proof. unfold normalizedCapacity. destruct (Z.leb_spec c 0); lia. Qed.

Lemma normalizedCapacity_idemp c : normalizedCapacity (normalizedCapacity c) = normalizedCapacity c.
Proof.
  pose proof (normalizedCapacity_pos c). unfold normalizedCapacity at 1.
  by rewrite (proj2 (Z.leb_gt _ _)) by lia.
Qed.

(** The active service of a task at an address, if any *)
Class StoreView (S : Type) := st_active : S -> string -> string -> option ServiceEntry.

(** A list of entries lists exactly a view. *)
Definition lists (es : list ServiceEntry) (view : string -> option ServiceEntry) : Prop :=
  NoDup (Address <$> es) /\ forall e, e ∈ es <-> view (Address e) = Some e.

Class StoreLaws (S : Type) `{!Store S, !StoreView S} := {
  (** the store's own invariant, and that every call keeps it *)
  st_inv : S -> Prop;
  st_inv_Register : forall t e s, st_inv s -> in_int64 (QueryCount e) -> st_inv (st_Register t e s).2;
  st_inv_Increment : forall t a s, st_inv s -> st_inv (st_IncrementQueryCount t a s).2;
  st_inv_Cleanup : forall now timeout s, st_inv s -> st_inv (st_Cleanup now timeout s).2;
  st_inv_ListServices : forall s, st_inv s -> st_inv (st_ListServices s).2;
  st_inv_ListTask : forall t s, st_inv s -> st_inv (st_ListTaskServices t s).2;
  st_inv_ListTop : forall n s, st_inv s -> st_inv (st_ListTopTasksByQueryCount n s).2;
  st_inv_ListForTasks : forall ts s, st_inv s -> st_inv (st_ListServicesForTasks ts s).2;
  st_active_ok : forall s t a e, st_inv s -> st_active s t a = Some e ->
    1 <= Capacity e <= int64_max /\ in_int64 (QueryCount e);
  st_active_address : forall s t a e, st_active s t a = Some e -> Address e = a;
  (** the precision the store keeps a time with *)
  st_time : Z -> Z;
  (** an acknowledged registration is visible, with its capacity and heartbeat *)
  st_Register_ok : forall t e s s', st_Register t e s = (Ok tt, s') ->
    exists e', st_active s' t (Address e) = Some e' /\ Capacity e' = normalizedCapacity (Capacity e) /\ LastHeartbeat e' = st_time (LastHeartbeat e);
  (** acknowledged or not, a registration touches no other service *)
  st_Register_frame : forall t e s t' a, (t', a) <> (t, Address e) ->
    st_active (st_Register t e s).2 t' a = st_active s t' a;
  (** one that is not acknowledged has left its own service as it was, or
      registered it *)
  st_Register_any : forall t e s, st_active (st_Register t e s).2 t (Address e) = st_active s t (Address e) \/
    exists e', st_active (st_Register t e s).2 t (Address e) = Some e' /\ Capacity e' = normalizedCapacity (Capacity e) /\
      LastHeartbeat e' = st_time (LastHeartbeat e);
  st_ListServices_pure : forall s, st_active (st_ListServices s).2 = st_active s;
  st_ListServices_ok : forall s m s', st_ListServices s = (Ok m, s') ->
    forall t, lists (default [] (m !! t)) (st_active s t) /\ m !! t <> Some [];
  st_ListTaskServices_pure : forall t s, st_active (st_ListTaskServices t s).2 = st_active s;
  st_ListTaskServices_ok : forall t s es s', st_ListTaskServices t s = (Ok es, s') -> lists es (st_active s t);
  st_ListTop_pure : forall n s, st_active (st_ListTopTasksByQueryCount n s).2 = st_active s;
  st_ListTop_ok : forall n s ts s', st_ListTopTasksByQueryCount n s = (Ok ts, s') ->
    NoDup ts /\ Z.of_nat (length ts) <= Z.max 0 n /\ forall t, t ∈ ts -> exists a, is_Some (st_active s t a);
  st_ListForTasks_pure : forall ts s, st_active (st_ListServicesForTasks ts s).2 = st_active s;
  st_ListForTasks_ok : forall ts s m s', st_ListServicesForTasks ts s = (Ok m, s') ->
    forall t, t ∈ ts -> lists (default [] (m !! t)) (st_active s t) }.
