(* ===== verification/Postgres.v ===== *)
(** * pkg/store/postgres/postgres.go: the PostgreSQL store

    The table [services] is a finite map on its unique index (task, address);
    each SQL statement is the function on that map it denotes.  What depends
    on the database is the class [Database]: what a timestamp column keeps of
    a time, and the collation [ORDER BY] uses.  Each statement consumes one
    element of the fault schedule: it runs, is lost before it runs, or runs
    and its acknowledgement is lost. *)

From Stdlib Require Import Ascii String.
From S2P Require Import Prelude.
From stdpp Require Import list sorting.
From S2P Require Import Registry Store.
Local Open Scope Z_scope.

Class Database := {
  dbtime : Z -> Z;
  collation : relation string;
  collation_dec :: RelDecision collation;
  collation_total :: Total collation;
  collation_trans :: Transitive collation;
  collation_antisym :: AntiSymm eq collation }.

Record Row := mkRow {
  last_heartbeat : Z; query_count : Z; capacity : Z; is_active : bool; updated_at : Z }.

Inductive fault := Runs | Lost | AckLost.

Record PostgresStore := mkPG {
  table : gmap (string * string) Row;
  roundRobinIndex : gmap string Z;
  clock : Z;
  faults : list fault }.

Definition set_table (f : gmap (string * string) Row -> gmap (string * string) Row) (ps : PostgresStore) : PostgresStore :=
  mkPG (f (table ps)) (roundRobinIndex ps) (clock ps) (faults ps).

Definition set_rr (task : string) (v : Z) (ps : PostgresStore) : PostgresStore :=
  mkPG (table ps) (<[task := v]> (roundRobinIndex ps)) (clock ps) (faults ps).

(** One statement: a query result and the table it leaves, under the fault
    schedule.  [None] is an error raised by the database itself. *)
Definition statement {A} (f : PostgresStore -> option (A * gmap (string * string) Row)) (ps : PostgresStore)
  : result StoreError A * PostgresStore :=
  let rest := mkPG (table ps) (roundRobinIndex ps) (clock ps) (tail (faults ps)) in
  match f ps, hd Runs (faults ps) with
  | _, Lost | None, _ => (Err StoreFailed, rest)
  | Some (_, tbl), AckLost => (Err StoreFailed, set_table (fun _ => tbl) rest)
  | Some (a, tbl), Runs => (Ok a, set_table (fun _ => tbl) rest)
  end.

Definition select {A} (f : PostgresStore -> A) : PostgresStore -> result StoreError A * PostgresStore :=
  statement (fun ps => Some (f ps, table ps)).

(** The range of an INTEGER column *)
Definition int32_ok (z : Z) : bool := (- 2 ^ 31 <=? z) && (z <=? 2 ^ 31 - 1).

Definition fetched (k : string * string) (r : Row) : ServiceEntry :=
  mkEntry k.2 (last_heartbeat r) (query_count r) (normalizedCapacity (capacity r)).

Section Postgres.
Context `{Database}.

(** ** Writes *)

Definition upsertRow (now : Z) (task : string) (entry : ServiceEntry) (tbl : gmap (string * string) Row) : gmap (string * string) Row :=
  let k := (task, Address entry) in
  let qc :=
    if 0 <? QueryCount entry then QueryCount entry
    else match tbl !! k with
         | Some r => if is_active r then query_count r else 0
         | None => 0
         end in
  <[k := mkRow (dbtime (LastHeartbeat entry)) qc (normalizedCapacity (Capacity entry)) true now]> tbl.

Definition Register (task : string) (entry : ServiceEntry) : PostgresStore -> result StoreError unit * PostgresStore :=
  statement (fun ps =>
    if int32_ok (normalizedCapacity (Capacity entry))
    then Some (tt, upsertRow (clock ps) task entry (table ps)) else None).

Definition bump (now : Z) (r : Row) : Row :=
  mkRow (last_heartbeat r) (query_count r + 1) (capacity r) (is_active r) now.

(** [UPDATE ... SET query_count = query_count + 1 WHERE task, address [AND is_active]]:
    the number of rows updated; a BIGINT overflow is an error *)
Definition bumpRow (only_active : bool) (task addr : string) (ps : PostgresStore) : option (Z * gmap (string * string) Row) :=
  match table ps !! (task, addr) with
  | Some r =>
      if only_active && negb (is_active r) then Some (0, table ps)
      else if query_count r =? int64_max then None
      else Some (1, <[(task, addr) := bump (clock ps) r]> (table ps))
  | None => Some (0, table ps)
  end.

Definition IncrementQueryCount (task addr : string) (ps : PostgresStore) : result StoreError unit * PostgresStore :=
  match statement (bumpRow true task addr) ps with
  | (Err e, ps) => (Err e, ps)
  | (Ok rows, ps) => if rows =? 0 then (Err StoreNotFound, ps) else (Ok tt, ps)
  end.

(** ** Reads *)

Definition by_address (x y : ServiceEntry) : Prop := collation (Address x) (Address y).
#[global] Instance by_address_dec : RelDecision by_address := fun x y => collation_dec (Address x) (Address y).

(** Active rows of one task, [ORDER BY address ASC] *)
Definition taskRows (active : bool) (task : string) (tbl : gmap (string * string) Row) : list ServiceEntry :=
  (fun kr => fetched kr.1 kr.2) <$>
    List.filter (fun kr => String.eqb kr.1.1 task && Bool.eqb (is_active kr.2) active) (map_to_list tbl).

Definition ListTaskServices (task : string) : PostgresStore -> result StoreError (list ServiceEntry) * PostgresStore :=
  select (fun ps => merge_sort by_address (taskRows true task (table ps))).

(** Rows as (task, entry), [ORDER BY task, address ASC] *)
Definition by_task_address (x y : string * ServiceEntry) : Prop :=
  x.1 <> y.1 /\ collation x.1 y.1 \/ x.1 = y.1 /\ collation (Address x.2) (Address y.2).
#[global] Instance by_task_address_dec : RelDecision by_task_address.
Proof. intros x y. unfold by_task_address. apply _. Defined.

Definition allRows (p : Row -> bool) (tbl : gmap (string * string) Row) : list (string * ServiceEntry) :=
  (fun kr => (kr.1.1, fetched kr.1 kr.2)) <$> List.filter (fun kr => p kr.2) (map_to_list tbl).

(** [result[task] = append(result[task], e)] *)
Definition group (rows : list (string * ServiceEntry)) : Services :=
  foldl (fun m te => <[te.1 := default [] (m !! te.1) ++ [te.2]]> m) ∅ rows.

Definition ListServices : PostgresStore -> result StoreError Services * PostgresStore :=
  select (fun ps => group (merge_sort by_task_address (allRows is_active (table ps)))).

Definition ListServicesForTasks (tasks : list string) (ps : PostgresStore) : result StoreError Services * PostgresStore :=
  if decide (length tasks = 0%nat) then (Ok ∅, ps)
  else select (fun ps => group (merge_sort by_task_address
         (List.filter (fun te => bool_decide (te.1 ∈ tasks)) (allRows is_active (table ps))))) ps.

(** [SUM(query_count)] of a task's active rows *)
Definition taskSum (tbl : gmap (string * string) Row) (task : string) : Z :=
  foldr (fun e s => QueryCount e + s) 0 (taskRows true task tbl).

Definition by_queries (tbl : gmap (string * string) Row) (x y : string) : Prop :=
  taskSum tbl y < taskSum tbl x \/ taskSum tbl x = taskSum tbl y /\ collation x y.
#[global] Instance by_queries_dec tbl : RelDecision (by_queries tbl).
Proof. intros x y. unfold by_queries. apply _. Defined.

Definition activeTasks (tbl : gmap (string * string) Row) : list string :=
  remove_dups ((allRows is_active tbl).*1).

Definition ListTopTasksByQueryCount (limit : Z) (ps : PostgresStore) : result StoreError (list string) * PostgresStore :=
  if limit <=? 0 then (Ok [], ps)
  else select (fun ps => take (Z.to_nat limit) (merge_sort (by_queries (table ps)) (activeTasks (table ps)))) ps.

(** ** Selection in the store itself *)

Definition totalStoreWeight (entries : list ServiceEntry) : Z :=
  foldl (fun total e => wrap64 (total + normalizedCapacity (Capacity e))) 0 entries.

Fixpoint selectWeightedEntryIndex (i : nat) (running : Z) (entries : list ServiceEntry) (slot : Z) : option nat :=
  match entries with
  | [] => None
  | e :: es =>
      let running := wrap64 (running + normalizedCapacity (Capacity e)) in
      if slot <? running then Some i else selectWeightedEntryIndex (S i) running es slot
  end.

Definition GetService (task : string) (ps : PostgresStore) : result StoreError ServiceEntry * PostgresStore :=
  match ListTaskServices task ps with
  | (Err e, ps) => (Err e, ps)
  | (Ok entries, ps) =>
      if decide (length entries = 0%nat) then (Err StoreNotFound, ps)
      else
        let totalWeight := totalStoreWeight entries in
        if totalWeight <=? 0 then (Err StoreNotFound, ps)
        else
          let slot := Z.rem (default 0 (roundRobinIndex ps !! task)) totalWeight in
          let ps := set_rr task (Z.rem (wrap64 (slot + 1)) totalWeight) ps in
          match selectWeightedEntryIndex 0 0 entries slot ≫= (entries !!.) with
          | None => (Err StoreNotFound, ps)
          | Some selected =>
              match statement (bumpRow false task (Address selected)) ps with
              | (Err e, ps) => (Err e, ps)
              | (Ok _, ps) =>
                  (Ok (mkEntry (Address selected) (LastHeartbeat selected)
                               (wrap64 (QueryCount selected + 1)) (Capacity selected)), ps)
              end
          end
  end.

(** ** Expiry and history *)

Definition expireRow (now cutoff : Z) (r : Row) : Row :=
  if (last_heartbeat r <? cutoff) && is_active r
  then mkRow (last_heartbeat r) (query_count r) (capacity r) false now else r.

Definition Cleanup (now timeout : Z) : PostgresStore -> result StoreError Z * PostgresStore :=
  statement (fun ps =>
    let cutoff := dbtime (now - timeout) in
    Some (Z.of_nat (length (List.filter (fun kr => (last_heartbeat kr.2 <? cutoff) && is_active kr.2) (map_to_list (table ps)))),
          expireRow (clock ps) cutoff <$> table ps)).

(** [ORDER BY updated_at DESC, task, address ASC] *)
Definition by_updated (x y : Z * (string * ServiceEntry)) : Prop :=
  y.1 < x.1 \/ x.1 = y.1 /\ by_task_address x.2 y.2.
#[global] Instance by_updated_dec : RelDecision by_updated.
Proof. intros x y. unfold by_updated. apply _. Defined.

Definition ListInactiveServices : PostgresStore -> result StoreError Services * PostgresStore :=
  select (fun ps => group (snd <$> merge_sort by_updated
    ((fun kr => (updated_at kr.2, (kr.1.1, fetched kr.1 kr.2))) <$>
       List.filter (fun kr => negb (is_active kr.2)) (map_to_list (table ps))))).

(** [ORDER BY is_active DESC, last_heartbeat DESC]; rows that tie come in an
    order the statement leaves open, here the table's. *)
Definition by_activity (x y : bool * ServiceEntry) : Prop :=
  x.1 = true /\ y.1 = false \/ x.1 = y.1 /\ LastHeartbeat y.2 <= LastHeartbeat x.2.
#[global] Instance by_activity_dec : RelDecision by_activity.
Proof. intros x y. unfold by_activity. apply _. Defined.

Definition GetServiceHistory (task : string) : PostgresStore -> result StoreError (list ServiceEntry) * PostgresStore :=
  select (fun ps => snd <$> merge_sort by_activity
    ((fun kr => (is_active kr.2, fetched kr.1 kr.2)) <$>
       List.filter (fun kr => String.eqb kr.1.1 task) (map_to_list (table ps)))).

(** ** The store interface *)

#[global] Instance PGStore : Store PostgresStore := {
  st_Register := Register;
  st_IncrementQueryCount := IncrementQueryCount;
  st_ListServices := ListServices;
  st_ListTaskServices := ListTaskServices;
  st_ListTopTasksByQueryCount := ListTopTasksByQueryCount;
  st_ListServicesForTasks := ListServicesForTasks;
  st_Cleanup := Cleanup }.

#[global] Instance PGView : StoreView PostgresStore := fun ps t a =>
  match table ps !! (t, a) with
  | Some r => if is_active r then Some (fetched (t, a) r) else None
  | None => None
  end.

End Postgres.

(** ** Reads list exactly the active rows *)

Section PostgresFacts.
Context `{Database}.

Lemma lists_perm es es' view : es ≡ₚ es' -> lists es view -> lists es' view.
Proof. intros Hp [Hn Hl]. split; [by rewrite <- Hp|]. intros e. by rewrite <- Hp. Qed.

Lemma elem_taskRows active t tbl e :
  e ∈ taskRows active t tbl <->
  exists r, tbl !! (t, Address e) = Some r /\ is_active r = active /\ fetched (t, Address e) r = e.
Proof.
  unfold taskRows. rewrite list_elem_of_fmap. split.
  - intros ([[t' a] r] & -> & Hin). apply list_elem_of_In, filter_In in Hin as [Hin Hf].
    apply list_elem_of_In, elem_of_map_to_list in Hin. simpl in Hf. apply andb_true_iff in Hf as [Ht Ha].
    apply String.eqb_eq in Ht as ->. apply eqb_prop in Ha. simpl. eauto.
  - intros (r & Hr & Ha & He). exists ((t, Address e), r). split; [done|].
    apply list_elem_of_In, filter_In. split; [by apply list_elem_of_In, elem_of_map_to_list|].
    simpl. by rewrite String.eqb_refl, Ha, eqb_reflx.
Qed.

Lemma NoDup_taskRows active t tbl : NoDup (Address <$> taskRows active t tbl).
Proof.
  unfold taskRows. rewrite <- list_fmap_compose.
  assert (Hk : NoDup (fst <$> map_to_list tbl)) by apply NoDup_fst_map_to_list.
  revert Hk. generalize (map_to_list tbl). intros l.
  induction l as [|[[t' a] r] l IH]; simpl; [constructor|]. intros [Hni Hnd]%NoDup_cons.
  destruct (String.eqb_spec t' t) as [->|]; simpl; [|auto]. destruct (Bool.eqb _ _); simpl; [|auto].
  apply NoDup_cons. split; [|auto]. intros ([[t2 a2] r2] & Ea & Hin)%list_elem_of_fmap. simpl in Ea. subst a2.
  apply list_elem_of_In, filter_In in Hin as [Hin Hf]. simpl in Hf. apply andb_true_iff in Hf as [->%String.eqb_eq _].
  apply Hni. apply list_elem_of_fmap. exists ((t, a), r2). split; [done|]. by apply list_elem_of_In.
Qed.

Lemma taskRows_lists t ps : lists (taskRows true t (table ps)) (st_active ps t).
Proof.
  split; [apply NoDup_taskRows|]. intros e. rewrite elem_taskRows. unfold st_active, PGView.
  destruct (table ps !! (t, Address e)) as [r|].
  - split.
    + intros (r' & [= <-] & -> & He). by rewrite He.
    + destruct (is_active r) eqn:E; [|done]. intros [= He]. eauto.
  - split; [|done]. by intros (r' & ? & _).
Qed.

Lemma taskRows_allRows t tbl :
  snd <$> List.filter (fun te => String.eqb te.1 t) (allRows is_active tbl) = taskRows true t tbl.
Proof.
  unfold allRows, taskRows. generalize (map_to_list tbl). intros l.
  induction l as [|[[t' a] r] l IH]; [done|]. simpl.
  destruct (is_active r); simpl; destruct (String.eqb t' t); simpl; try done; by f_equal.
Qed.

Lemma group_lookup rows t :
  group rows !! t = match snd <$> List.filter (fun te => String.eqb te.1 t) rows with [] => None | es => Some es end.
Proof.
  unfold group. induction rows as [|[t' e] rows IH] using rev_ind; [done|].
  rewrite foldl_snoc, List.filter_app, fmap_app. simpl. destruct (String.eqb_spec t' t) as [->|Hne].
  - rewrite lookup_insert_eq, IH. by destruct (snd <$> _).
  - rewrite lookup_insert_ne, IH, app_nil_r by done. done.
Qed.

Lemma filter_Permutation {A} (p : A -> bool) l l' : l ≡ₚ l' -> List.filter p l ≡ₚ List.filter p l'.
Proof. induction 1; simpl; repeat case_match; try constructor; auto. by etrans. Qed.

Lemma group_lists p t ps rows :
  p t = true -> rows ≡ₚ List.filter (fun te => p te.1) (allRows is_active (table ps)) ->
  lists (default [] (group rows !! t)) (st_active ps t).
Proof.
  intros Hp Hr. eapply (lists_perm (taskRows true t (table ps))); [|apply taskRows_lists].
  rewrite <- taskRows_allRows, group_lookup.
  assert (E : snd <$> List.filter (fun te => String.eqb te.1 t) rows
              ≡ₚ snd <$> List.filter (fun te : string * ServiceEntry => String.eqb te.1 t) (allRows is_active (table ps))).
  { apply fmap_Permutation. rewrite (filter_Permutation _ _ _ Hr). apply reflexive_eq. clear Hr.
    induction (allRows is_active (table ps)) as [|[t' e] l IH]; [done|]. simpl.
    destruct (String.eqb_spec t' t) as [->|].
    - rewrite Hp. simpl. rewrite String.eqb_refl. by f_equal.
    - destruct (p t'); simpl; [|done]. by rewrite (proj2 (String.eqb_neq _ _)). }
  rewrite <- E. by destruct (snd <$> _).
Qed.

Lemma filter_true {A} (l : list A) : List.filter (fun _ => true) l = l.
Proof. induction l; simpl; congruence. Qed.

Lemma select_inv {A} (f : PostgresStore -> A) ps a ps' :
  select f ps = (Ok a, ps') -> a = f ps /\ table ps' = table ps.
Proof. unfold select, statement. destruct (hd Runs (faults ps)); by intros [= <- <-]. Qed.

Lemma select_table {A} (f : PostgresStore -> A) ps : table (select f ps).2 = table ps.
Proof. unfold select, statement. by destruct (hd Runs (faults ps)). Qed.

Lemma st_active_table ps ps' : table ps' = table ps -> st_active ps' = st_active ps.
Proof. unfold st_active, PGView. by intros ->. Qed.

Lemma elem_activeTasks tbl t : t ∈ activeTasks tbl <-> exists a r, tbl !! (t, a) = Some r /\ is_active r = true.
Proof.
  unfold activeTasks, allRows. rewrite elem_of_remove_dups, <- list_fmap_compose, list_elem_of_fmap. split.
  - intros ([[t' a] r] & -> & Hin). apply list_elem_of_In, filter_In in Hin as [Hin Hf].
    apply list_elem_of_In, elem_of_map_to_list in Hin. simpl in *. eauto.
  - intros (a & r & Hr & Ha). exists ((t, a), r). split; [done|].
    apply list_elem_of_In, filter_In. split; [by apply list_elem_of_In, elem_of_map_to_list|done].
Qed.

Lemma top_tasks_inv n ps ts ps' : ListTopTasksByQueryCount n ps = (Ok ts, ps') ->
  ts = take (Z.to_nat n) (merge_sort (by_queries (table ps)) (activeTasks (table ps))) /\ table ps' = table ps.
Proof.
  unfold ListTopTasksByQueryCount. destruct (Z.leb_spec n 0).
  - intros [= <- <-]. by replace (Z.to_nat n) with 0%nat by lia.
  - intros E. by apply select_inv in E.
Qed.

(** ** Writes *)

(** A registration that runs writes the row; one that is lost does nothing. *)
Lemma Register_cases t e ps :
  (table (Register t e ps).2 = table ps \/ table (Register t e ps).2 = upsertRow (clock ps) t e (table ps)) /\
  ((Register t e ps).1 = Ok tt -> table (Register t e ps).2 = upsertRow (clock ps) t e (table ps)).
Proof.
  unfold Register, statement. destruct (int32_ok _), (hd Runs (faults ps)); simpl; split; auto; done.
Qed.

Lemma upsertRow_active now t e tbl t' a :
  (t', a) = (t, Address e) -> exists r, upsertRow now t e tbl !! (t', a) = Some r /\ is_active r = true /\
    capacity r = normalizedCapacity (Capacity e).
Proof. intros ->. unfold upsertRow. rewrite lookup_insert_eq. eexists. split; [done|]. done. Qed.

Lemma statement_table {A} f ps :
  table (statement (A := A) f ps).2 = table ps \/
  exists a tbl, f ps = Some (a, tbl) /\ table (statement f ps).2 = tbl.
Proof. unfold statement. destruct (f ps) as [[a tbl]|], (hd Runs (faults ps)); simpl; eauto. Qed.

Lemma bumpRow_table b t a ps n tbl : bumpRow b t a ps = Some (n, tbl) ->
  tbl = table ps \/ exists r, table ps !! (t, a) = Some r /\ tbl = <[(t, a) := bump (clock ps) r]> (table ps).
Proof.
  unfold bumpRow. destruct (table ps !! (t, a)) as [r|]; [|intros [= _ <-]; by left].
  case_match; [intros [= _ <-]; by left|]. case_match; [done|]. intros [= _ <-]. right. eauto.
Qed.

(** Column types: capacities are INTEGER, counts BIGINT. *)
Definition row_ok (r : Row) : Prop := int32_ok (capacity r) = true /\ in_int64 (query_count r).
Definition pg_inv (ps : PostgresStore) : Prop := map_Forall (fun _ r => row_ok r) (table ps).

Lemma Register_inv t e ps : pg_inv ps -> in_int64 (QueryCount e) -> pg_inv (Register t e ps).2.
Proof.
  intros Hp Hq. unfold pg_inv, Register.
  match goal with |- context [statement ?f ps] => destruct (statement_table f ps) as [-> |(a & tbl & E & ->)]; [done|] end.
  destruct (int32_ok _) eqn:Hc; [|done]. injection E as _ <-. unfold upsertRow.
  apply map_Forall_insert_2; [|done]. split; [done|]. simpl. destruct (0 <? QueryCount e); [done|].
  destruct (table ps !! (t, Address e)) as [r|] eqn:Er; [|apply in_int64_0].
  destruct (is_active r); [|apply in_int64_0]. by apply Hp in Er as [_ ?].
Qed.

Lemma IncrementQueryCount_inv t a ps : pg_inv ps -> pg_inv (IncrementQueryCount t a ps).2.
Proof.
  intros Hp. unfold IncrementQueryCount.
  assert (Hs : pg_inv (statement (bumpRow true t a) ps).2).
  { unfold pg_inv. destruct (statement_table (bumpRow true t a) ps) as [-> |(n & tbl & E & ->)]; [done|].
    unfold bumpRow in E. destruct (table ps !! (t, a)) as [r|] eqn:Er; [|by injection E as _ <-].
    case_match; [by injection E as _ <-|]. destruct (Z.eqb_spec (query_count r) int64_max); [done|].
    injection E as _ <-. apply map_Forall_insert_2; [|done]. apply Hp in Er as [Hc Hq]. split; [done|].
    unfold in_int64 in *. simpl. lia. }
  destruct (statement _ ps) as [[n|] ps']; [destruct (n =? 0)|]; done.
Qed.

Lemma Cleanup_inv now timeout ps : pg_inv ps -> pg_inv (Cleanup now timeout ps).2.
Proof.
  intros Hp. unfold pg_inv, Cleanup.
  match goal with |- context [statement ?f ps] => destruct (statement_table f ps) as [-> |(a & tbl & E & ->)]; [done|] end.
  injection E as _ <-. apply map_Forall_fmap. intros k r Hr. apply Hp in Hr as [? ?]. unfold expireRow, compose.
  by destruct (_ && _).
Qed.

(** ** The laws of the store class *)

Lemma pg_active_ok : forall (s : PostgresStore) t a e, pg_inv s -> st_active s t a = Some e -> 1 <= Capacity e <= int64_max /\ in_int64 (QueryCount e).
Proof.
  intros s t a e Hs. unfold st_active, PGView. destruct (table s !! (t, a)) as [r|] eqn:E; [|done].
  destruct (is_active r); [|done]. intros [= <-]. apply Hs in E as [Hc Hq]. split; [|done].
  unfold int32_ok in Hc. simpl. unfold normalizedCapacity, int64_max.
  apply andb_true_iff in Hc as [_ Hc]. apply Z.leb_le in Hc. destruct (Z.leb_spec (capacity r) 0); lia.
Qed.

Lemma upsertRow_view now t e tbl : exists r, upsertRow now t e tbl !! (t, Address e) = Some r /\ is_active r = true /\
  Capacity (fetched (t, Address e) r) = normalizedCapacity (Capacity e) /\ LastHeartbeat (fetched (t, Address e) r) = dbtime (LastHeartbeat e).
Proof. unfold upsertRow. rewrite lookup_insert_eq. eexists. split_and!; [done|done|apply normalizedCapacity_idemp|done]. Qed.

Lemma pg_Register_ok : forall t e (s s' : PostgresStore), st_Register t e s = (Ok tt, s') ->
  exists e', st_active s' t (Address e) = Some e' /\ Capacity e' = normalizedCapacity (Capacity e) /\ LastHeartbeat e' = dbtime (LastHeartbeat e).
Proof.
  intros t e s s' E. change (Register t e s = (Ok tt, s')) in E.
  destruct (Register_cases t e s) as [_ Hok]. rewrite E in Hok. specialize (Hok eq_refl). simpl in Hok.
  destruct (upsertRow_view (clock s) t e (table s)) as (r & Hr & Ha & Hc).
  exists (fetched (t, Address e) r). unfold st_active, PGView. by rewrite Hok, Hr, Ha.
Qed.

Lemma pg_Register_any : forall t e (s : PostgresStore), st_active (st_Register t e s).2 t (Address e) = st_active s t (Address e) \/
  exists e', st_active (st_Register t e s).2 t (Address e) = Some e' /\ Capacity e' = normalizedCapacity (Capacity e) /\
    LastHeartbeat e' = dbtime (LastHeartbeat e).
Proof.
  intros t e s. unfold st_active, PGView. change (st_Register t e s) with (Register t e s).
  destruct (proj1 (Register_cases t e s)) as [-> | ->]; [by left|right].
  destruct (upsertRow_view (clock s) t e (table s)) as (r & -> & -> & Hc). eauto.
Qed.

Lemma pg_ListTop_ok : forall n (s : PostgresStore) ts s', st_ListTopTasksByQueryCount n s = (Ok ts, s') ->
  NoDup ts /\ Z.of_nat (length ts) <= Z.max 0 n /\ forall t, t ∈ ts -> exists a, is_Some (st_active s t a).
Proof.
  intros n s ts s' E. apply top_tasks_inv in E as [-> _]. split; [|split].
  + eapply sublist_NoDup; [|apply sublist_take]. rewrite merge_sort_Permutation. apply NoDup_remove_dups.
  + rewrite length_take. lia.
  + intros t Ht. assert (t ∈ activeTasks (table s)) as (a & r & Hr & Ha)%elem_activeTasks.
    { rewrite <- merge_sort_Permutation. eapply elem_of_sublist; [exact Ht|apply sublist_take]. }
    exists a. unfold st_active, PGView. rewrite Hr, Ha. eauto.
Qed.

Lemma pg_ListForTasks_ok : forall ts (s : PostgresStore) m s', st_ListServicesForTasks ts s = (Ok m, s') ->
  forall t, t ∈ ts -> lists (default [] (m !! t)) (st_active s t).
Proof.
  intros ts s m s' E t Ht. change (ListServicesForTasks ts s = (Ok m, s')) in E. unfold ListServicesForTasks in E.
  case_decide as Hl; [by apply length_zero_iff_nil in Hl; subst; set_solver|].
  apply select_inv in E as [-> _]. apply (group_lists (fun t => bool_decide (t ∈ ts))); [by apply bool_decide_eq_true|].
  by rewrite merge_sort_Permutation.
Qed.

#[global] Instance PGLaws : StoreLaws PostgresStore.
Proof.
  refine (Build_StoreLaws PostgresStore _ _ pg_inv _ _ _ _ _ _ _ _ _ dbtime _ _ _ _ _ _ _ _ _ _ _).
  - apply Register_inv.
  - apply IncrementQueryCount_inv.
  - apply Cleanup_inv.
  - intros s Hs. unfold pg_inv. simpl. unfold ListServices. by rewrite select_table.
  - intros t s Hs. unfold pg_inv. simpl. unfold ListTaskServices. by rewrite select_table.
  - intros n s Hs. simpl. unfold ListTopTasksByQueryCount. case_match; [done|]. unfold pg_inv. by rewrite select_table.
  - intros n s Hs. simpl. unfold ListServicesForTasks. case_match; [done|]. unfold pg_inv. by rewrite select_table.
  - exact pg_active_ok.
  - intros s t a e. unfold st_active, PGView. destruct (table s !! (t, a)) as [r|]; [|done].
    destruct (is_active r); [|done]. by intros [= <-].
  - exact pg_Register_ok.
  - intros t e s t' a Hne. unfold st_active, PGView. change (st_Register t e s) with (Register t e s).
    destruct (proj1 (Register_cases t e s)) as [-> | ->]; [done|]. unfold upsertRow. by rewrite lookup_insert_ne.
  - exact pg_Register_any.
  - intros s. apply st_active_table, select_table.
  - intros s m s' E t. apply select_inv in E as [-> _]. split.
    + apply (group_lists (fun _ => true)); [done|]. by rewrite merge_sort_Permutation, filter_true.
    + rewrite group_lookup. by case_match.
  - intros t s. apply st_active_table, select_table.
  - intros t s es s' E. apply select_inv in E as [-> _].
    eapply lists_perm; [symmetry; apply merge_sort_Permutation|apply taskRows_lists].
  - intros n s. apply st_active_table. simpl. unfold ListTopTasksByQueryCount. case_match; [done|]. apply select_table.
  - exact pg_ListTop_ok.
  - intros ts s. apply st_active_table. simpl. unfold ListServicesForTasks. case_match; [done|]. apply select_table.
  - exact pg_ListForTasks_ok.
Defined.

(** ** Histories *)

Inductive pg_step : PostgresStore -> PostgresStore -> Prop :=
| pg_register t e ps : pg_step ps (Register t e ps).2
| pg_increment t a ps : pg_step ps (IncrementQueryCount t a ps).2
| pg_get t ps : pg_step ps (GetService t ps).2
| pg_list ps : pg_step ps (ListServices ps).2
| pg_list_task t ps : pg_step ps (ListTaskServices t ps).2
| pg_top n ps : pg_step ps (ListTopTasksByQueryCount n ps).2
| pg_for_tasks ts ps : pg_step ps (ListServicesForTasks ts ps).2
| pg_cleanup now timeout ps : pg_step ps (Cleanup now timeout ps).2
| pg_inactive ps : pg_step ps (ListInactiveServices ps).2
| pg_history t ps : pg_step ps (GetServiceHistory t ps).2
| pg_tick c fs ps : pg_step ps (mkPG (table ps) (roundRobinIndex ps) c fs).

Lemma bump_statement_dom b t a ps : dom (table (statement (bumpRow b t a) ps).2) = dom (table ps).
Proof.
  destruct (statement_table (bumpRow b t a) ps) as [-> |(n & tbl & E & ->)]; [done|].
  apply bumpRow_table in E as [-> |(r & Hr & ->)]; [done|]. apply elem_of_dom_2 in Hr. set_solver.
Qed.

Lemma GetService_dom t ps : dom (table (GetService t ps).2) = dom (table ps).
Proof.
  unfold GetService. pose proof (select_table (fun ps => merge_sort by_address (taskRows true t (table ps))) ps) as Ht.
  fold (ListTaskServices t) in Ht. destruct (ListTaskServices t ps) as [[es|e] ps1]; simpl in *; [|by rewrite Ht].
  repeat (case_match; simpl; [by rewrite Ht|]). rewrite <- Ht.
  destruct (selectWeightedEntryIndex _ _ _ _ ≫= _) as [e|]; [|done].
  match goal with |- context [statement ?f ?ps] => pose proof (bump_statement_dom false t (Address e) ps) as Hb end.
  destruct (statement _ _) as [[]]; simpl in *; done.
Qed.

(** Rows are never deleted.  Whatever calls are made and whatever faults
    occur, every (task, address) ever stored stays in the table: expiry only
    marks it inactive. *)
Theorem pg_rows_persist ps ps' : rtc pg_step ps ps' -> dom (table ps) ⊆ dom (table ps').
Proof.
  induction 1 as [|ps1 ps2 ps3 Hs _ IH]; [done|]. etrans; [|exact IH]. clear IH. destruct Hs.
  - destruct (proj1 (Register_cases t e ps)) as [-> | ->]; [done|]. unfold upsertRow. set_solver.
  - unfold IncrementQueryCount. pose proof (bump_statement_dom true t a ps) as Hb.
    destruct (statement _ _) as [[n|] ps1]; simpl in *; [destruct (n =? 0)|]; simpl; by rewrite Hb.
  - by rewrite GetService_dom.
  - unfold ListServices. by rewrite select_table.
  - unfold ListTaskServices. by rewrite select_table.
  - unfold ListTopTasksByQueryCount. case_match; [done|]. by rewrite select_table.
  - unfold ListServicesForTasks. case_match; [done|]. by rewrite select_table.
  - destruct (statement_table (fun ps => Some (Z.of_nat (length (List.filter
      (fun kr => (last_heartbeat kr.2 <? dbtime (now - timeout)) && is_active kr.2) (map_to_list (table ps)))),
      expireRow (clock ps) (dbtime (now - timeout)) <$> table ps)) ps) as [E|(n & tbl & E1 & E2)].
    + unfold Cleanup. cbv zeta. by rewrite E.
    + unfold Cleanup. cbv zeta. rewrite E2. injection E1 as _ <-. by rewrite dom_fmap_L.
  - unfold ListInactiveServices. by rewrite select_table.
  - unfold GetServiceHistory. by rewrite select_table.
  - done.
Qed.

(** ** The most queried tasks *)

#[local] Instance by_queries_trans tbl : Transitive (by_queries tbl).
Proof.
  intros x y z [H1|[H1 H2]] [H3|[H3 H4]]; unfold by_queries; [left; lia..|]. right. split; [lia|by etrans].
Qed.

#[local] Instance by_queries_total tbl : Total (by_queries tbl).
Proof.
  intros x y. unfold by_queries. destruct (Z.lt_trichotomy (taskSum tbl x) (taskSum tbl y)) as [?|[?|?]]; [by right; left| |by left; left].
  destruct (total collation x y); [left|right]; right; done.
Qed.

(** The cache is filled with the most queried tasks.  The listed tasks
    are distinct and active, there are as many as the limit and the table
    allow, and no active task left out has more queries than a listed one. *)
Theorem pg_top_tasks n ps ts ps' : 0 < n -> ListTopTasksByQueryCount n ps = (Ok ts, ps') ->
  NoDup ts /\ ts ⊆ activeTasks (table ps) /\
  length ts = (Z.to_nat n `min` length (activeTasks (table ps)))%nat /\
  forall t u, t ∈ ts -> u ∈ activeTasks (table ps) -> u ∉ ts -> taskSum (table ps) u <= taskSum (table ps) t.
Proof.
  intros Hn [-> _]%top_tasks_inv. set (R := by_queries (table ps)). set (l := merge_sort R (activeTasks (table ps))).
  assert (Hp : l ≡ₚ activeTasks (table ps)) by apply merge_sort_Permutation.
  assert (Hs : StronglySorted R l) by (apply (StronglySorted_merge_sort R)).
  split; [|split; [|split]].
  - eapply sublist_NoDup; [|apply sublist_take]. rewrite Hp. apply NoDup_remove_dups.
  - intros t Ht. rewrite <- Hp. eapply elem_of_sublist; [exact Ht|apply sublist_take].
  - rewrite length_take. by rewrite Hp.
  - intros t u Ht Hu Hnu. rewrite <- Hp, <- (take_drop (Z.to_nat n) l), elem_of_app in Hu.
    destruct Hu as [Hu|Hu]; [done|]. rewrite <- (take_drop (Z.to_nat n) l) in Hs.
    apply StronglySorted_app in Hs as (Hc & _ & _). destruct (Hc t u Ht Hu) as [?|[? _]]; lia.
Qed.

End PostgresFacts.

(** ** Witnesses: byte-wise collation and microsecond timestamps *)

#[export] Instance C_locale : Database :=
  { dbtime := fun t => t / 1000 * 1000; collation := String.le }.

Definition demo_pg : PostgresStore :=
  mkPG (list_to_map [(("b", "x:1"), mkRow 7000 4 1 true 0); (("a", "x:1"), mkRow 7000 1 1 true 0);
                     (("a", "y:1"), mkRow 9000 2 0 true 0); (("c", "z:1"), mkRow 9000 8 1 false 0)]%string)
       ∅ 10 [].

Lemma pg_rows_persist_witness : ("c", "z:1")%string ∈ dom (table (Cleanup 20000 5000 (Register "d" (mkEntry "q:1" 1 0 1) demo_pg).2).2).
Proof.
  apply (pg_rows_persist demo_pg).
  - eapply rtc_l; [apply pg_register|]. eapply rtc_l; [apply pg_cleanup|]. apply rtc_refl.
  - apply elem_of_dom. eexists. vm_compute. reflexivity.
Defined.

Lemma pg_top_tasks_witness :
  taskSum (table demo_pg) "a" <= taskSum (table demo_pg) "b" /\
  (ListTopTasksByQueryCount 1 demo_pg).1 = Ok ["b"]%string.
Proof.
  split; [|vm_compute; reflexivity].
  destruct (pg_top_tasks 1 demo_pg ["b"%string] demo_pg) as (_ & _ & _ & H); [lia|vm_compute; reflexivity|].
  apply H.
  - by apply list_elem_of_singleton.
  - vm_compute. repeat constructor.
  - by intros E%list_elem_of_singleton.
Defined.
