(* ===== verification/StoreBacked.v ===== *)
(** * pkg/registry/store_backed.go: the registry cached in front of a store

    Generic in the store.  The cache is a [MemoryRegistry]; a Go map is
    ranged over in the order [rng i] picks, where [i] numbers the loops of a
    call. *)

From Stdlib Require Import Ascii String.
From S2P Require Import Prelude.
From stdpp Require Import list.
From S2P Require Import GoStrings NetIP NetIPFacts Firewall Registry Store Memory.
Local Open Scope Z_scope.

Record StoreBackedRegistry (S : Type) := mkSB {
  store : S;
  memCache : MemoryRegistry;
  lastCacheSync : Z;
  cacheSyncPeriod : Z;
  cacheMaxSize : Z;
  cacheMissCounts : gmap string Z;
  fallbackCursor : gmap string Z;
  admitAfterMiss : Z;
  pendingStoreSync : gset string }.
Arguments mkSB {S}. Arguments store {S}. Arguments memCache {S}. Arguments lastCacheSync {S}.
Arguments cacheSyncPeriod {S}. Arguments cacheMaxSize {S}. Arguments cacheMissCounts {S}.
Arguments fallbackCursor {S}. Arguments admitAfterMiss {S}. Arguments pendingStoreSync {S}.

Section StoreBacked.
Context {S : Type} `{Store S}.
Variable rng : nat -> Services -> list (string * list ServiceEntry).

Abbreviation SB := (StoreBackedRegistry S).

Definition set_store (s : S) (sr : SB) : SB :=
  mkSB s (memCache sr) (lastCacheSync sr) (cacheSyncPeriod sr) (cacheMaxSize sr) (cacheMissCounts sr)
       (fallbackCursor sr) (admitAfterMiss sr) (pendingStoreSync sr).
Definition set_cache (m : MemoryRegistry) (sr : SB) : SB :=
  mkSB (store sr) m (lastCacheSync sr) (cacheSyncPeriod sr) (cacheMaxSize sr) (cacheMissCounts sr)
       (fallbackCursor sr) (admitAfterMiss sr) (pendingStoreSync sr).
Definition set_synced (now : Z) (sr : SB) : SB :=
  mkSB (store sr) (memCache sr) now (cacheSyncPeriod sr) (cacheMaxSize sr) (cacheMissCounts sr)
       (fallbackCursor sr) (admitAfterMiss sr) (pendingStoreSync sr).
Definition set_misses (c : gmap string Z) (sr : SB) : SB :=
  mkSB (store sr) (memCache sr) (lastCacheSync sr) (cacheSyncPeriod sr) (cacheMaxSize sr) c
       (fallbackCursor sr) (admitAfterMiss sr) (pendingStoreSync sr).
Definition set_fallback (c : gmap string Z) (sr : SB) : SB :=
  mkSB (store sr) (memCache sr) (lastCacheSync sr) (cacheSyncPeriod sr) (cacheMaxSize sr) (cacheMissCounts sr)
       c (admitAfterMiss sr) (pendingStoreSync sr).
Definition set_pending (p : gset string) (sr : SB) : SB :=
  mkSB (store sr) (memCache sr) (lastCacheSync sr) (cacheSyncPeriod sr) (cacheMaxSize sr) (cacheMissCounts sr)
       (fallbackCursor sr) (admitAfterMiss sr) p.

(** ** Pending registrations *)

Definition pendingStoreKey (task addr : string) : string := (task ++ ":" ++ addr)%string.

Definition markPendingStoreSync (task addr : string) (sr : SB) : SB :=
  set_pending ({[pendingStoreKey task addr]} ∪ pendingStoreSync sr) sr.
Definition clearPendingStoreSync (task addr : string) (sr : SB) : SB :=
  set_pending (pendingStoreSync sr ∖ {[pendingStoreKey task addr]}) sr.
Definition hasPendingStoreSync (task addr : string) (sr : SB) : bool :=
  bool_decide (pendingStoreKey task addr ∈ pendingStoreSync sr).

(** [for task, entries := range services { for _, entry := range entries { ... } }] *)
Definition forEntries {X} (f : string -> ServiceEntry -> X -> X) (order : list (string * list ServiceEntry)) (x : X) : X :=
  foldl (fun x te => foldl (fun x e => f te.1 e x) x te.2) x order.

Definition syncPendingEntry (task : string) (entry : ServiceEntry) (sr : SB) : SB :=
  if hasPendingStoreSync task (Address entry) sr then
    match st_Register task entry (store sr) with
    | (Err _, s) => set_store s sr
    | (Ok _, s) => clearPendingStoreSync task (Address entry) (set_store s sr)
    end
  else sr.

Definition syncPendingRegistrations (sr : SB) : SB :=
  forEntries syncPendingEntry (rng 1 (ListServices (memCache sr))) sr.

Definition syncCountEntry (task : string) (entry : ServiceEntry) (sr : SB) : SB :=
  if 0 <? QueryCount entry then
    match st_Register task entry (store sr) with
    | (Err _, s) => set_store s sr
    | (Ok _, s) =>
        let sr := set_store s sr in
        if hasPendingStoreSync task (Address entry) sr then clearPendingStoreSync task (Address entry) sr else sr
    end
  else sr.

Definition syncQueryCountsToDB (sr : SB) : SB :=
  forEntries syncCountEntry (rng 0 (ListServices (memCache sr))) sr.

(** ** The cache *)

Definition populateCacheEntry (task addr : string) (queryCount lastHeartbeat capacity : Z) (m : MemoryRegistry) : MemoryRegistry :=
  let capacity := normalizedCapacity capacity in
  let m := upsert (heartbeatCap lastHeartbeat capacity) (mkEntry addr lastHeartbeat 0 capacity) task addr m in
  mkMem (services m) (roundRobinIndex m) (<[counterKey task addr := queryCount]> (queryCounters m)) (totalQueries m) (firewall m).

Definition populate (task : string) (e : ServiceEntry) (m : MemoryRegistry) : MemoryRegistry :=
  populateCacheEntry task (Address e) (QueryCount e) (LastHeartbeat e) (Capacity e) m.

Definition preservePendingEntry (sr : SB) (task : string) (e : ServiceEntry) (m : MemoryRegistry) : MemoryRegistry :=
  if hasPendingStoreSync task (Address e) sr then populate task e m else m.

Definition preservePendingEntries (sr : SB) (from to : MemoryRegistry) : MemoryRegistry :=
  forEntries (preservePendingEntry sr) (rng 3 (ListServices from)) to.

Definition copyRoundRobinState (from to : MemoryRegistry) : MemoryRegistry :=
  let copied := filter (fun kv => is_Some (services to !! kv.1)) (roundRobinIndex from) in
  mkMem (services to) (copied ∪ roundRobinIndex to) (queryCounters to) (totalQueries to) (firewall to).

(** The part of [WarmCacheFromDB] that reads the store into a fresh cache *)
Definition loadFromStore (newCache : MemoryRegistry) (sr : SB) : result StoreError MemoryRegistry * SB :=
  if cacheMaxSize sr <=? 0 then
    match st_ListServices (store sr) with
    | (Err e, s) => (Err e, set_store s sr)
    | (Ok svcs, s) => (Ok (forEntries populate (rng 2 svcs) newCache), set_store s sr)
    end
  else
    match st_ListTopTasksByQueryCount (cacheMaxSize sr) (store sr) with
    | (Err e, s) => (Err e, set_store s sr)
    | (Ok topTasks, s) =>
        match st_ListServicesForTasks topTasks s with
        | (Err e, s) => (Err e, set_store s sr)
        | (Ok servicesByTask, s) =>
            (Ok (forEntries populate ((fun task => (task, default [] (servicesByTask !! task))) <$> topTasks) newCache),
             set_store s sr)
        end
    end.

Definition WarmCacheFromDB (now : Z) (sr : SB) : result StoreError unit * SB :=
  let sr := syncQueryCountsToDB sr in
  let oldCache := memCache sr in
  let sr := syncPendingRegistrations sr in
  let newCache := SetFirewall (firewall oldCache) NewMemoryRegistry in
  match loadFromStore newCache sr with
  | (Err e, sr) => (Err e, sr)
  | (Ok newCache, sr) =>
      let newCache := preservePendingEntries sr oldCache newCache in
      let newCache := copyRoundRobinState oldCache newCache in
      (Ok tt, set_synced now (set_cache newCache sr))
  end.

(** ** The registry operations *)

Definition NewStoreBackedRegistry (now : Z) (s : S) (maxSize : Z) : SB :=
  mkSB s NewMemoryRegistry now 30000000000 maxSize ∅ ∅ 1 ∅.

Definition SetCacheAdmissionMissThreshold (threshold : Z) (sr : SB) : SB :=
  mkSB (store sr) (memCache sr) (lastCacheSync sr) (cacheSyncPeriod sr) (cacheMaxSize sr) (cacheMissCounts sr)
       (fallbackCursor sr) (if threshold <=? 1 then 1 else threshold) (pendingStoreSync sr).

(** [now] and [now'] are the two readings of the clock. *)
Definition RegisterWithCapacity (now now' : Z) (task addr : string) (capacity : Z) (sr : SB) : SB :=
  let task := TrimSpace task in
  let addr := TrimSpace addr in
  if String.eqb task "" || String.eqb addr "" then sr
  else
    let capacity := if capacity <=? 0 then 1 else capacity in
    let sr := set_cache (Memory.RegisterWithCapacity now task addr capacity (memCache sr)) sr in
    match st_Register task (mkEntry addr now' 0 capacity) (store sr) with
    | (Err _, s) => markPendingStoreSync task addr (set_store s sr)
    | (Ok _, s) => clearPendingStoreSync task addr (set_store s sr)
    end.

Definition Register (now now' : Z) (task addr : string) (sr : SB) : SB := RegisterWithCapacity now now' task addr 1 sr.

Definition shouldAdmitTaskOnMiss (task : string) (sr : SB) : bool * SB :=
  let threshold := admitAfterMiss sr in
  if threshold <=? 1 then (true, sr)
  else
    let '(missCount, c) := AddOne task (LoadOrStore task (cacheMissCounts sr)) in
    (threshold <=? missCount, set_misses c sr).

Definition storeEntryAllowed (fw : option Firewall) (requestorIP : IP) (entry : ServiceEntry) : bool :=
  match fw, requestorIP with
  | None, _ | _, [] => true
  | Some fw, _ =>
      match ParseIP (hostPart (Address entry)) with
      | [] => false
      | destIP => IsAllowed fw requestorIP destIP
      end
  end.

Fixpoint filterStoreEntries (fw : option Firewall) (requestorIP : IP) (entries allowed : list ServiceEntry) : list ServiceEntry :=
  match entries with
  | [] => allowed
  | entry :: entries =>
      filterStoreEntries fw requestorIP entries
        (if storeEntryAllowed fw requestorIP entry then allowed ++ [mkEntry (Address entry) 0 0 (Capacity entry)] else allowed)
  end.

Definition selectFromStoreEntries (task : string) (entries : list ServiceEntry) (requestorIP : IP) (sr : SB)
  : result RegError string * SB :=
  let fw := firewall (memCache sr) in
  let allowed := filterStoreEntries fw requestorIP entries [] in
  if decide (length allowed = 0%nat) then
    (Err (match fw, requestorIP with None, _ | _, [] => ErrNotFound | _, _ => ErrNoAllowedService end), sr)
  else
    let totalWeight := totalServiceWeight allowed in
    if totalWeight <=? 0 then (Err ErrNotFound, sr)
    else
      let '(idx, c) := AddOne task (LoadOrStore task (fallbackCursor sr)) in
      let sr := set_fallback c sr in
      let slot := Z.rem (wrap64 (idx - 1)) totalWeight in
      match selectWeightedAddress allowed slot with
      | None => (Err ErrNotFound, sr)
      | Some selectedAddr => (Ok selectedAddr, sr)
      end.

Definition GetServiceForRequestor (task : string) (requestorIP : IP) (sr : SB) : result RegError string * SB :=
  let task := TrimSpace task in
  if String.eqb task "" then (Err ErrInvalidTaskName, sr)
  else
    match Memory.GetServiceForRequestor task requestorIP (memCache sr) with
    | (Ok addr, m) => (Ok addr, set_cache m sr)
    | (Err _, m) =>
        let sr := set_cache m sr in
        match st_ListTaskServices task (store sr) with
        | (Err e, s) => (Err (ErrStore e), set_store s sr)
        | (Ok entries, s) =>
            let sr := set_store s sr in
            if decide (length entries = 0%nat) then (Err ErrNotFound, sr)
            else
              let '(admitted, sr) := shouldAdmitTaskOnMiss task sr in
              if admitted then
                let sr := set_cache (foldl (fun m e => populate task e m) (memCache sr) entries) sr in
                let sr := set_misses (delete task (cacheMissCounts sr)) sr in
                let '(r, m) := Memory.GetServiceForRequestor task requestorIP (memCache sr) in
                (r, set_cache m sr)
              else
                match selectFromStoreEntries task entries requestorIP sr with
                | (Err e, sr) => (Err e, sr)
                | (Ok selectedAddr, sr) =>
                    match st_IncrementQueryCount task selectedAddr (store sr) with
                    | (Err e, s) => (Err (ErrStore e), set_store s sr)
                    | (Ok _, s) => (Ok selectedAddr, set_store s sr)
                    end
                end
        end
    end.

Definition GetService (task : string) (sr : SB) : result RegError string * SB := GetServiceForRequestor task [] sr.

Definition SetFirewall (fw : option Firewall) (sr : SB) : SB := set_cache (Memory.SetFirewall fw (memCache sr)) sr.

Definition Cleanup (now now' timeout : Z) (sr : SB) : Z * SB :=
  let '(m, cacheRemoved) := Memory.Cleanup (rng 0 (services (memCache sr))) now timeout (memCache sr) in
  let sr := set_cache m sr in
  match st_Cleanup now' timeout (store sr) with
  | (Ok dbFlagged, s) => (wrap64 (cacheRemoved + dbFlagged), set_store s sr)
  | (Err _, s) => (cacheRemoved, set_store s sr)
  end.

Definition ListServices (now now' : Z) (sr : SB) : Services * SB :=
  let sr := if cacheSyncPeriod sr <? time_sub now (lastCacheSync sr) then (WarmCacheFromDB now' sr).2 else sr in
  (Memory.ListServices (memCache sr), sr).

Definition GetStats (sr : SB) : Stats := Memory.GetStats (memCache sr).

End StoreBacked.
