(* ===== verification/StoreBackedFacts.v ===== *)
(** * Facts about the store-backed registry

    What warming the cache does to registrations the store has not yet
    acknowledged, what the fresh cache holds, read-your-writes under store
    failures, and the firewall on both selection paths. *)

From Stdlib Require Import Ascii String.
From S2P Require Import Prelude.
From stdpp Require Import list.
From S2P Require Import GoStrings NetIP NetIPFacts Firewall Registry Store Postgres Memory StoreBacked.
Local Open Scope Z_scope.

(** ** Loops over services as loops over (task, entry) pairs *)

Definition flatten (order : list (string * list ServiceEntry)) : list (string * ServiceEntry) :=
  order ≫= fun te => pair te.1 <$> te.2.

Lemma forEntries_flatten {X} (f : string -> ServiceEntry -> X -> X) order x :
  forEntries f order x = foldl (fun x te => f te.1 te.2 x) x (flatten order).
Proof.
  unfold forEntries. revert x. induction order as [|[t es] order IH]; intros x; [done|].
  cbn [foldl]. rewrite IH. change (flatten ((t, es) :: order)) with ((pair t <$> es) ++ flatten order).
  rewrite foldl_app. f_equal. cbn [fst snd]. clear. revert x. induction es as [|e es IH]; intros x; [done|]. apply IH.
Qed.

Lemma elem_flatten order t e : (t, e) ∈ flatten order <-> exists es, (t, es) ∈ order /\ e ∈ es.
Proof.
  unfold flatten. rewrite list_elem_of_bind. split.
  - intros ([t' es] & Hin & Ho). apply list_elem_of_fmap in Hin as (e' & [= -> ->] & ?). eauto.
  - intros (es & Ho & He). exists (t, es). split; [|done]. by apply list_elem_of_fmap_2.
Qed.

(** A loop keeps what each of its steps keeps. *)
Lemma foldl_inv {A X} (P : X -> Prop) (f : X -> A -> X) l x :
  (forall x y, y ∈ l -> P x -> P (f x y)) -> P x -> P (foldl f x l).
Proof.
  revert x. induction l as [|y l IH]; intros x Hf Hx; simpl; [done|]. apply IH; [|apply Hf; [left|done]].
  intros x' y' Hy. apply Hf. by right.
Qed.

(** ** What a cache lists *)

Lemma ListServices_lookup m t : Memory.ListServices m !! t = listTask (queryCounters m) t <$> services m !! t.
Proof. unfold Memory.ListServices. rewrite map_lookup_imap. by destruct (services m !! t). Qed.

Lemma withCount_same qc t e :
  Address (withCount qc t e) = Address e /\ LastHeartbeat (withCount qc t e) = LastHeartbeat e /\
  Capacity (withCount qc t e) = Capacity e.
Proof. unfold withCount. by destruct (qc !! _). Qed.

Lemma findEntry_NoDup es e : NoDup (Address <$> es) -> e ∈ es ->
  findEntry es (Address e) = Some (LastHeartbeat e, Capacity e).
Proof.
  induction es as [|e' es IH]; simpl; [set_solver|]. intros [Hni Hnd]%NoDup_cons [->|Hin]%elem_of_cons.
  - by rewrite String.eqb_refl.
  - destruct (String.eqb_spec (Address e') (Address e)) as [E|]; [|auto].
    exfalso. apply Hni. rewrite E. by apply list_elem_of_fmap_2.
Qed.

Section listed.
Context (rng : nat -> Services -> list (string * list ServiceEntry)).
Context (Hrng : forall i m, rng i m ≡ₚ map_to_list m).

Lemma elem_listed i m t e : mem_wf m ->
  (t, e) ∈ flatten (rng i (Memory.ListServices m)) ->
  mem_view m t (Address e) = Some (LastHeartbeat e, Capacity e) /\ entry_wf e.
Proof using Hrng.
  intros Hm (es & Ho & He)%elem_flatten. rewrite Hrng in Ho. apply elem_of_map_to_list in Ho.
  rewrite ListServices_lookup in Ho. apply fmap_Some in Ho as (es0 & Hes & ->).
  unfold listTask in He. apply list_elem_of_fmap in He as (e0 & -> & He0).
  destruct (wf_tasks m Hm _ _ Hes) as (_ & Hnd & Hfa). rewrite Forall_forall in Hfa.
  destruct (withCount_same (queryCounters m) t e0) as (E1 & E2 & E3). split.
  - unfold mem_view. rewrite Hes, E1, E2, E3. simpl. by apply findEntry_NoDup.
  - destruct (Hfa e0 He0) as [Hc Hq]. split; [by rewrite E3|]. unfold withCount.
    destruct (queryCounters m !! _) eqn:En; [|done]. by apply (wf_counter_range m Hm) in En.
Qed.

Lemma listed_view i m t a hc : mem_view m t a = Some hc ->
  exists e, (t, e) ∈ flatten (rng i (Memory.ListServices m)) /\ Address e = a /\ (LastHeartbeat e, Capacity e) = hc.
Proof using Hrng.
  unfold mem_view. destruct (services m !! t) as [es|] eqn:Hes; [|done]. simpl. intros Hf.
  assert (exists e, e ∈ es /\ Address e = a /\ (LastHeartbeat e, Capacity e) = hc) as (e & He & Ha & Hhc).
  { clear Hes. induction es as [|e es IH]; simpl in Hf; [done|].
    destruct (String.eqb_spec (Address e) a); [injection Hf as <-; exists e; set_solver|].
    destruct (IH Hf) as (e' & ? & ? & ?). exists e'. set_solver. }
  destruct (withCount_same (queryCounters m) t e) as (E1 & E2 & E3).
  exists (withCount (queryCounters m) t e). rewrite E1, E2, E3. split; [|done].
  apply elem_flatten. exists (listTask (queryCounters m) t es). split.
  - rewrite Hrng. apply elem_of_map_to_list. by rewrite ListServices_lookup, Hes.
  - by apply list_elem_of_fmap_2.
Qed.

End listed.

(** ** Filling a cache *)

Lemma populate_view t e m t' a' :
  mem_view (populate t e m) t' a' =
    if decide ((t', a') = (t, Address e)) then Some (LastHeartbeat e, normalizedCapacity (Capacity e))
    else mem_view m t' a'.
Proof.
  unfold populate, populateCacheEntry.
  change (mem_view (mkMem (services ?m) _ _ _ _) t' a') with (mem_view m t' a').
  unfold mem_view at 1. cbn [services].
  fold (mem_view (upsert (heartbeatCap (LastHeartbeat e) (normalizedCapacity (Capacity e)))
    (mkEntry (Address e) (LastHeartbeat e) 0 (normalizedCapacity (Capacity e))) t (Address e) m) t' a').
  rewrite upsert_view by done. destruct (decide _); [|done]. by destruct (List.find _ _).
Qed.

Lemma normalizedCapacity_id c : 1 <= c -> normalizedCapacity c = c.
Proof. intros Hc. unfold normalizedCapacity. by rewrite (proj2 (Z.leb_gt _ _)) by lia. Qed.

Lemma populate_wf t e m : mem_wf m -> entry_wf e -> mem_wf (populate t e m).
Proof.
  intros Hm [Hc Hq]. unfold populate, populateCacheEntry. rewrite normalizedCapacity_id by lia.
  assert (Hw : mem_wf (upsert (heartbeatCap (LastHeartbeat e) (Capacity e))
                         (mkEntry (Address e) (LastHeartbeat e) 0 (Capacity e)) t (Address e) m)).
  { apply upsert_wf; [done| |done| |done]; [by intros e' [_ ?]|split; [done|apply in_int64_0]]. }
  destruct Hw as [W1 W2 W3 W4 W5]. constructor; simpl; try done. by apply map_Forall_insert_2.
Qed.

Lemma populate_firewall t e m : firewall (populate t e m) = firewall m.
Proof. unfold populate, populateCacheEntry, upsert. simpl. by destruct (updateEntry _ _ _). Qed.

Definition populate_all (l : list (string * ServiceEntry)) (m : MemoryRegistry) : MemoryRegistry :=
  foldl (fun m te => populate te.1 te.2 m) m l.

Lemma populate_all_wf l m : mem_wf m -> Forall (fun te => entry_wf te.2) l -> mem_wf (populate_all l m).
Proof.
  intros Hm Hl. rewrite Forall_forall in Hl. apply (foldl_inv mem_wf); [|done].
  intros m' [t e] Hin Hm'. apply populate_wf; [done|]. by apply (Hl (t, e)).
Qed.

Lemma populate_all_firewall l m : firewall (populate_all l m) = firewall m.
Proof. apply (foldl_inv (fun m' => firewall m' = firewall m)); [|done]. intros m' [t e] _ <-. apply populate_firewall. Qed.

(** The services a list of (task, entry) pairs writes are its last ones. *)
Lemma populate_all_out l m t a : (forall e, (t, e) ∈ l -> Address e <> a) ->
  mem_view (populate_all l m) t a = mem_view m t a.
Proof.
  intros Hl. apply (foldl_inv (fun m' => mem_view m' t a = mem_view m t a)); [|done].
  intros m' [t' e] Hin <-. simpl. rewrite populate_view, decide_False; [done|]. intros [= -> ->]. by eapply Hl.
Qed.

Lemma populate_all_in l m t e : (t, e) ∈ l ->
  (forall e', (t, e') ∈ l -> Address e' = Address e ->
     (LastHeartbeat e', Capacity e') = (LastHeartbeat e, Capacity e)) ->
  mem_view (populate_all l m) t (Address e) = Some (LastHeartbeat e, normalizedCapacity (Capacity e)).
Proof.
  induction l as [|[t' e'] l IH] using rev_ind; [set_solver|]. intros Hin Hu.
  unfold populate_all. rewrite foldl_snoc. cbn [fst snd]. rewrite populate_view. case_decide as E.
  - injection E as -> E. assert (Hx : (LastHeartbeat e', Capacity e') = (LastHeartbeat e, Capacity e)).
    { apply Hu; [set_solver|done]. }
    by injection Hx as -> ->.
  - apply IH; [|set_solver]. apply elem_of_app in Hin as [Hin|Hin%list_elem_of_singleton]; [done|]. by injection Hin as -> ->.
Qed.

(** ** Keys *)

Fixpoint no_colon (s : string) : bool :=
  match s with EmptyString => true | String c s => negb (Ascii.eqb c ":"%char) && no_colon s end.

Lemma counterKey_inj t1 a1 t2 a2 : no_colon t1 = true -> no_colon t2 = true ->
  counterKey t1 a1 = counterKey t2 a2 -> (t1, a1) = (t2, a2).
Proof.
  unfold counterKey. revert t2. induction t1 as [|c1 t1 IH]; intros [|c2 t2]; simpl; intros H1 H2 E.
  - injection E as E. change (a1 = a2) in E. by subst.
  - injection E as <- _. done.
  - injection E as -> _. done.
  - injection E as -> E. apply andb_true_iff in H1 as [_ H1], H2 as [_ H2].
    specialize (IH t2 H1 H2 E). congruence.
Qed.

(** No other cached service has the key of this one. *)
Definition unclashed (m : MemoryRegistry) (t a : string) : Prop :=
  forall t' a', is_Some (mem_view m t' a') -> counterKey t' a' = counterKey t a -> (t', a') = (t, a).

(** It is enough that the task names of the cache are free of the separator. *)
Lemma plain_unclashed m t a : (forall t a, is_Some (mem_view m t a) -> no_colon t = true) -> is_Some (mem_view m t a) -> unclashed m t a.
Proof. intros Hp Hv t' a' Hv' Hk. apply counterKey_inj in Hk; [done| |]; eauto. Qed.

Definition hb_cap (e : ServiceEntry) : Z * Z := (LastHeartbeat e, Capacity e).

Section WriteBack.
Context {S : Type} `{StoreLaws S}.
Abbreviation SB := (StoreBackedRegistry S).

(** ** Writing back to the store *)

(** What the write-back loops leave alone *)
Definition same_frame (sr sr' : SB) : Prop :=
  memCache sr' = memCache sr /\ cacheMaxSize sr' = cacheMaxSize sr /\ lastCacheSync sr' = lastCacheSync sr /\
  cacheSyncPeriod sr' = cacheSyncPeriod sr /\ admitAfterMiss sr' = admitAfterMiss sr /\
  pendingStoreSync sr' ⊆ pendingStoreSync sr /\ (st_inv (store sr) -> st_inv (store sr')).

(** The store's row is the one of this heartbeat and capacity. *)
Definition taken (hc : Z * Z) (s : S) (t a : string) : Prop :=
  exists e, st_active s t a = Some e /\ LastHeartbeat e = st_time hc.1 /\ Capacity e = hc.2.

(** A registration is safe when it is still marked pending or the store has
    taken it. *)
Definition safe (t a : string) (hc : Z * Z) (sr : SB) : Prop :=
  counterKey t a ∈ pendingStoreSync sr \/ taken hc (store sr) t a.

Definition write_back (f : string -> ServiceEntry -> SB -> SB) : Prop :=
  forall t e sr, in_int64 (QueryCount e) -> 1 <= Capacity e ->
    same_frame sr (f t e sr) /\
    forall t' a hc, (counterKey t (Address e) = counterKey t' a -> (t, Address e) = (t', a) /\ hc = hb_cap e) ->
      safe t' a hc sr -> safe t' a hc (f t e sr).

(** Registering an entry keeps what the store has taken. *)
Lemma taken_register t e hc s t' a : 1 <= Capacity e -> ((t, Address e) = (t', a) -> hc = hb_cap e) ->
  taken hc s t' a -> taken hc (st_Register t e s).2 t' a.
Proof.
  intros Hc Heq Ht. destruct (decide ((t', a) = (t, Address e))) as [[= -> ->]|Hne].
  - destruct (st_Register_any t e s) as [E|(e' & E & Hcap & Hhb)]; [by unfold taken; rewrite E|].
    rewrite (Heq eq_refl). exists e'. rewrite normalizedCapacity_id in Hcap by done. done.
  - unfold taken. by rewrite st_Register_frame.
Qed.

Lemma safe_after_ok t e t' a hc (sr sr' : SB) s : 1 <= Capacity e ->
  st_Register t e (store sr) = (Ok tt, s) -> store sr' = s ->
  pendingStoreSync sr ∖ {[counterKey t (Address e)]} ⊆ pendingStoreSync sr' ->
  (counterKey t (Address e) = counterKey t' a -> (t, Address e) = (t', a) /\ hc = hb_cap e) ->
  safe t' a hc sr -> safe t' a hc sr'.
Proof.
  intros Hc E Hs Hp Hinj [Hpend|Hst]; unfold safe; rewrite Hs.
  - destruct (decide (counterKey t (Address e) = counterKey t' a)) as [Hk|Hk]; [|left; set_solver].
    right. apply Hinj in Hk as [[= <- <-] ->]. destruct (st_Register_ok _ _ _ _ E) as (e' & Ha & Hcap & Hhb).
    rewrite normalizedCapacity_id in Hcap by done. by exists e'.
  - right. pose proof (taken_register t e hc (store sr) t' a Hc) as Hk. rewrite E in Hk. apply Hk; [|done].
    intros [= <- <-]. by apply Hinj.
Qed.

Lemma safe_after_err t e t' a hc (sr : SB) : 1 <= Capacity e ->
  (counterKey t (Address e) = counterKey t' a -> (t, Address e) = (t', a) /\ hc = hb_cap e) ->
  safe t' a hc sr -> safe t' a hc (set_store (st_Register t e (store sr)).2 sr).
Proof. intros Hc Hinj [Hp|Hs]; [by left|]. right. apply taken_register; [done| |done]. intros [= <- <-]. by apply Hinj. Qed.

Lemma syncPending_write_back : write_back syncPendingEntry.
Proof.
  intros t e sr Hq Hc. unfold syncPendingEntry.
  pose proof (fun Hi => st_inv_Register t e (store sr) Hi Hq) as Hinv.
  destruct (hasPendingStoreSync t (Address e) sr); [|split; [|done]; by repeat split].
  destruct (st_Register t e (store sr)) as [[[]|er] s] eqn:E; simpl in *.
  - split; [split_and!; simpl; try done; set_solver|]. intros t' a hc Hinj Hs.
    eapply safe_after_ok; [exact Hc|exact E|done| |done|done]. simpl. done.
  - split; [by split_and!|]. intros t' a hc Hinj Hs. apply (safe_after_err t e t' a) in Hs; [by rewrite E in Hs|done|done].
Qed.

Lemma syncCount_write_back : write_back syncCountEntry.
Proof.
  intros t e sr Hq Hc. unfold syncCountEntry.
  pose proof (fun Hi => st_inv_Register t e (store sr) Hi Hq) as Hinv.
  destruct (0 <? QueryCount e); [|split; [|done]; by repeat split].
  destruct (st_Register t e (store sr)) as [[[]|er] s] eqn:E; simpl in *.
  - destruct (hasPendingStoreSync _ _ _); (split; [split_and!; simpl; try done; set_solver|]);
      intros t' a hc Hinj Hs; (eapply safe_after_ok; [exact Hc|exact E|done| |done|done]); simpl; set_solver.
  - split; [by split_and!|]. intros t' a hc Hinj Hs. apply (safe_after_err t e t' a) in Hs; [by rewrite E in Hs|done|done].
Qed.

Lemma same_frame_trans (a b c : SB) : same_frame a b -> same_frame b c -> same_frame a c.
Proof.
  intros (A1 & A2 & A3 & A4 & A5 & A6 & A7) (B1 & B2 & B3 & B4 & B5 & B6 & B7).
  split_and!; try congruence; [set_solver|auto].
Qed.

End WriteBack.

Section Warm.
Context {S : Type} `{StoreLaws S}.
Context (rng : nat -> Services -> list (string * list ServiceEntry)).
Context (Hrng : forall i m, rng i m ≡ₚ map_to_list m).
Abbreviation SB := (StoreBackedRegistry S).

(** A write-back loop over the cache keeps its frame and every safe service. *)
Lemma write_back_loop f i (sr : SB) m : write_back f -> mem_wf m -> memCache sr = m ->
  let sr' := forEntries f (rng i (Memory.ListServices m)) sr in
  same_frame sr sr' /\
  (forall t a hc, unclashed m t a -> mem_view m t a = Some hc -> safe t a hc sr -> safe t a hc sr').
Proof.
  intros Hf Hm Hc. rewrite forEntries_flatten. split.
  - apply (foldl_inv (same_frame sr)); [|by split_and!]. intros sr' [t e] Hin Hfr.
    eapply same_frame_trans; [exact Hfr|]. apply (elem_listed rng Hrng) in Hin as [_ [[? _] ?]]; [|done]. by apply Hf.
  - intros t a hc Hpl Hv Hs. apply (foldl_inv (safe t a hc)); [|done]. intros sr' [t' e] Hin Hs'.
    apply (elem_listed rng Hrng) in Hin as [Hv' [[Hc' _] Hq]]; [|done]. apply Hf; [done|done| |done].
    intros Hk. pose proof (Hpl t' (Address e) ltac:(eauto) Hk) as Heq. split; [done|]. injection Heq as -> Ha.
    unfold hb_cap. rewrite Ha in Hv'. rewrite Hv in Hv'. by injection Hv' as ->.
Qed.

Lemma write_backs (sr : SB) : mem_wf (memCache sr) ->
  let sr' := syncPendingRegistrations rng (syncQueryCountsToDB rng sr) in
  same_frame sr sr' /\
  (forall t a hc, unclashed (memCache sr) t a -> mem_view (memCache sr) t a = Some hc -> safe t a hc sr -> safe t a hc sr').
Proof.
  intros Hm. unfold syncQueryCountsToDB, syncPendingRegistrations.
  destruct (write_back_loop syncCountEntry 0 sr _ syncCount_write_back Hm eq_refl) as [F1 S1].
  set (sr1 := forEntries syncCountEntry _ sr) in *. pose proof (proj1 F1) as Hc1.
  destruct (write_back_loop syncPendingEntry 1 sr1 (memCache sr) syncPending_write_back Hm Hc1) as [F2 S2].
  rewrite Hc1. split; [by eapply same_frame_trans|]. intros t a hc Hp Hv Hs. by apply S2, S1.
Qed.

(** ** Reading the store *)

Definition in_lim (lim : option (list string)) (t : string) : Prop :=
  match lim with None => True | Some ts => t ∈ ts end.

#[global] Instance in_lim_dec lim t : Decision (in_lim lim t).
Proof. destruct lim; simpl; apply _. Defined.

Definition lim_ok (maxSize : Z) (lim : option (list string)) : Prop :=
  match lim with
  | None => maxSize <= 0
  | Some ts => 0 < maxSize /\ NoDup ts /\ Z.of_nat (length ts) <= maxSize
  end.

Lemma loadFromStore_spec m0 (sr sr' : SB) m : loadFromStore rng m0 sr = (Ok m, sr') ->
  exists lim l, m = populate_all l m0 /\ lim_ok (cacheMaxSize sr) lim /\
    sr' = set_store (store sr') sr /\ st_active (store sr') = st_active (store sr) /\
    (st_inv (store sr) -> st_inv (store sr')) /\
    forall t e, (t, e) ∈ l <-> in_lim lim t /\ st_active (store sr) t (Address e) = Some e.
Proof.
  unfold loadFromStore. destruct (Z.leb_spec (cacheMaxSize sr) 0) as [Hz|Hz].
  - pose proof (st_ListServices_pure (store sr)) as Hpure. pose proof (st_inv_ListServices (store sr)) as Hinv.
    destruct (st_ListServices (store sr)) as [[svcs|] s] eqn:E; [|done]. simpl in *. intros [= <- <-].
    exists None, (flatten (rng 2 svcs)). rewrite forEntries_flatten. split_and!; try done.
    intros t e. rewrite elem_flatten. destruct (st_ListServices_ok _ _ _ E t) as [[_ Hl] _]. rewrite <- Hl.
    setoid_rewrite (Hrng 2 svcs). setoid_rewrite elem_of_map_to_list. simpl. split.
    + intros (es & -> & ?). done.
    + intros [_ He]. destruct (svcs !! t) as [es|]; [eauto|]. simpl in He. set_solver.
  - pose proof (st_ListTop_pure (cacheMaxSize sr) (store sr)) as Hpure.
    pose proof (st_inv_ListTop (cacheMaxSize sr) (store sr)) as Hinv.
    destruct (st_ListTopTasksByQueryCount _ (store sr)) as [[ts|] s] eqn:E; [|done]. simpl in *.
    pose proof (st_ListForTasks_pure ts s) as Hpure2. pose proof (st_inv_ListForTasks ts s) as Hinv2.
    destruct (st_ListServicesForTasks ts s) as [[svcs|] s2] eqn:E2; [|done]. simpl in *. intros [= <- <-].
    exists (Some ts). eexists. rewrite forEntries_flatten. split; [done|].
    destruct (st_ListTop_ok _ _ _ _ E) as (Hnd & Hlen & _). split; [by split_and!; try done; lia|].
    split; [done|]. split; [simpl; congruence|]. split; [simpl; auto|].
    intros t e. rewrite elem_flatten. setoid_rewrite list_elem_of_fmap. split.
    + intros (es & (t' & [= -> ->] & Ht') & He). split; [done|].
      destruct (st_ListForTasks_ok _ _ _ _ E2 t' Ht') as [_ Hl]. rewrite <- Hpure. by apply Hl.
    + intros [Ht Ha]. eexists. split; [exists t; by split|].
      destruct (st_ListForTasks_ok _ _ _ _ E2 t Ht) as [_ Hl]. apply Hl. by rewrite Hpure.
Qed.

(** ** The fresh cache *)

Lemma preserve_populate (sr : SB) l m :
  foldl (fun m te => preservePendingEntry sr te.1 te.2 m) m l
  = populate_all (List.filter (fun te => hasPendingStoreSync te.1 (Address te.2) sr) l) m.
Proof.
  revert m. induction l as [|[t e] l IH]; intros m; [done|]. cbn [foldl fst snd List.filter].
  rewrite IH. unfold preservePendingEntry. by destruct (hasPendingStoreSync t (Address e) sr).
Qed.

Lemma elem_filter_pending (sr : SB) l te :
  te ∈ List.filter (fun te => hasPendingStoreSync te.1 (Address te.2) sr) l <->
  te ∈ l /\ counterKey te.1 (Address te.2) ∈ pendingStoreSync sr.
Proof. rewrite !list_elem_of_In, filter_In. unfold hasPendingStoreSync. by rewrite bool_decide_eq_true. Qed.

(** Preserving keeps the old cache's values of pending services and leaves
    the other services of the target alone. *)
Lemma preserve_view (sr : SB) from to t a : mem_wf from ->
  mem_view (preservePendingEntries rng sr from to) t a =
    if decide (counterKey t a ∈ pendingStoreSync sr /\ is_Some (mem_view from t a))
    then mem_view from t a else mem_view to t a.
Proof.
  intros Hm. unfold preservePendingEntries. rewrite forEntries_flatten, preserve_populate.
  set (l := List.filter _ _). case_decide as Hd.
  - destruct Hd as [Hp [[hb c] Hv]]. destruct (listed_view rng Hrng 3 _ _ _ _ Hv) as (e & Hin & <- & Hhc).
    pose proof (elem_listed rng Hrng 3 _ _ _ Hm Hin) as [_ [Hcap _]].
    rewrite (populate_all_in l to t e).
    + rewrite Hv. injection Hhc as <- <-. by rewrite normalizedCapacity_id by lia.
    + by apply elem_filter_pending.
    + intros e' [Hin' _]%elem_filter_pending Ha. apply (elem_listed rng Hrng) in Hin' as [Hv' _]; [|done].
      rewrite Ha, Hv in Hv'. injection Hv' as <- <-. by injection Hhc as <- <-.
  - apply populate_all_out. intros e [Hin Hp]%elem_filter_pending Ha. apply Hd. simpl in *. subst a. split; [done|].
    apply (elem_listed rng Hrng) in Hin as [Hv _]; [|done]. eauto.
Qed.

Lemma copyRoundRobin_wf from to : mem_wf from -> mem_wf to -> mem_wf (copyRoundRobinState from to).
Proof.
  intros [A1 A2 A3 A4 A5] [B1 B2 B3 B4 B5]. unfold copyRoundRobinState. constructor; simpl; try done.
  - rewrite dom_union_L, B2. apply set_eq. intros t. rewrite elem_of_union. split; [|by right].
    intros [Hd|?]; [|done]. apply elem_of_dom in Hd as [c [_ Hs]%map_lookup_filter_Some]. by apply elem_of_dom.
  - apply map_Forall_union_2; [|done]. intros t c [Hc _]%map_lookup_filter_Some. by eapply A3.
Qed.

Lemma copyRoundRobin_cursor from to t :
  is_Some (services to !! t) -> is_Some (roundRobinIndex from !! t) ->
  cursor (copyRoundRobinState from to) t = cursor from t.
Proof.
  intros Hs [c Hc]. unfold cursor, copyRoundRobinState. simpl.
  rewrite (lookup_union_Some_l _ _ _ c); [by rewrite Hc|]. by apply map_lookup_filter_Some.
Qed.

Definition warm_post (sr sr' : SB) (lim : option (list string)) : Prop :=
  lim_ok (cacheMaxSize sr) lim /\
  (forall t a, mem_view (memCache sr') t a =
     if decide (counterKey t a ∈ pendingStoreSync sr' /\ is_Some (mem_view (memCache sr) t a))
     then mem_view (memCache sr) t a
     else if decide (in_lim lim t) then hb_cap <$> st_active (store sr') t a else None) /\
  (forall t a hc, unclashed (memCache sr) t a -> mem_view (memCache sr) t a = Some hc -> safe t a hc sr -> safe t a hc sr') /\
  mem_wf (memCache sr') /\ st_inv (store sr') /\ firewall (memCache sr') = firewall (memCache sr) /\
  (forall t, is_Some (services (memCache sr') !! t) -> is_Some (services (memCache sr) !! t) ->
     cursor (memCache sr') t = cursor (memCache sr) t).

(** The loaded part of the fresh cache, before the pending services *)
Lemma loaded_view l fw lim (view : string -> string -> option ServiceEntry) t a :
  (forall t a e, view t a = Some e -> Address e = a /\ 1 <= Capacity e) ->
  (forall t e, (t, e) ∈ l <-> in_lim lim t /\ view t (Address e) = Some e) ->
  mem_view (populate_all l (Memory.SetFirewall fw NewMemoryRegistry)) t a
  = if decide (in_lim lim t) then hb_cap <$> view t a else None.
Proof.
  intros Hva Hl. destruct (decide (in_lim lim t)) as [Hlim|Hlim].
  - destruct (view t a) as [e|] eqn:E.
    + destruct (Hva _ _ _ E) as [<- Hc]. rewrite (populate_all_in l _ t e).
      * simpl. unfold hb_cap. by rewrite normalizedCapacity_id.
      * by apply Hl.
      * intros e' [_ He']%Hl Ha. rewrite Ha in He'. congruence.
    + rewrite populate_all_out; [done|]. intros e [_ He]%Hl <-. congruence.
  - rewrite populate_all_out; [done|]. intros e [? _]%Hl. done.
Qed.

Lemma warm_ok now (sr sr' : SB) : WarmCacheFromDB rng now sr = (Ok tt, sr') ->
  mem_wf (memCache sr) -> st_inv (store sr) -> exists lim, warm_post sr sr' lim.
Proof.
  unfold WarmCacheFromDB. intros E Hm Hi. destruct (write_backs sr Hm) as [Hfr Hsafe].
  set (sr1 := syncQueryCountsToDB rng sr) in *. set (sr2 := syncPendingRegistrations rng sr1) in *.
  assert (Hc1 : memCache sr1 = memCache sr).
  { by apply (write_back_loop syncCountEntry 0 sr _ syncCount_write_back Hm eq_refl). }
  rewrite Hc1 in E. destruct Hfr as (F1 & F2 & _ & _ & _ & F6 & F7).
  destruct (loadFromStore rng _ sr2) as [[m|] sr3] eqn:El; [|done]. injection E as <-.
  apply loadFromStore_spec in El as (lim & l & -> & Hlim & Hsr3 & Hact & Hinv & Hl).
  assert (Hi2 : st_inv (store sr2)) by auto. set (base := Memory.SetFirewall _ NewMemoryRegistry).
  assert (Hact2 : forall t a e, st_active (store sr2) t a = Some e -> Address e = a /\ 1 <= Capacity e).
  { intros t a e He. split; [by eapply st_active_address|]. by apply (st_active_ok _ _ _ _ Hi2) in He as [[? _] _]. }
  assert (Hwb : mem_wf (populate_all l base)).
  { apply populate_all_wf; [by apply SetFirewall_wf, new_wf|].
    apply Forall_forall. intros [t e] [_ He]%Hl. simpl. by apply (st_active_ok _ _ _ _ Hi2) in He. }
  assert (Hwp : mem_wf (preservePendingEntries rng sr3 (memCache sr) (populate_all l base))).
  { unfold preservePendingEntries. rewrite forEntries_flatten, preserve_populate. apply populate_all_wf; [done|].
    apply Forall_forall. intros [t e] [Hin _]%elem_filter_pending. by apply (elem_listed rng Hrng) in Hin as [_ ?]. }
  exists lim. unfold warm_post. rewrite F2 in Hlim. cbn [memCache set_synced set_cache store pendingStoreSync].
  split_and!; [done| | |by apply copyRoundRobin_wf|auto| |].
  - intros t a. change (mem_view (copyRoundRobinState ?x ?y) t a) with (mem_view y t a).
    rewrite preserve_view by done. rewrite Hact. case_decide; [done|]. by apply loaded_view.
  - intros t a hc Hp Hv Hs. specialize (Hsafe t a hc Hp Hv Hs). unfold safe, taken in *. simpl. rewrite Hact.
    by rewrite Hsr3.
  - unfold copyRoundRobinState, preservePendingEntries. simpl. rewrite forEntries_flatten, preserve_populate.
    by rewrite !populate_all_firewall.
  - intros t Hs Hs'. apply copyRoundRobin_cursor; [done|]. apply elem_of_dom. rewrite (wf_cursors _ Hm). by apply elem_of_dom.
Qed.

(** A failed warm leaves the cache as it was. *)
Lemma warm_err now (sr sr' : SB) e : WarmCacheFromDB rng now sr = (Err e, sr') ->
  mem_wf (memCache sr) -> same_frame sr sr' /\
  (forall t a hc, unclashed (memCache sr) t a -> mem_view (memCache sr) t a = Some hc -> safe t a hc sr -> safe t a hc sr').
Proof.
  unfold WarmCacheFromDB. intros E Hm. destruct (write_backs sr Hm) as [Hfr Hsafe].
  set (sr1 := syncQueryCountsToDB rng sr) in *. set (sr2 := syncPendingRegistrations rng sr1) in *.
  assert (Hsame : exists s, sr' = set_store s sr2 /\ st_active s = st_active (store sr2) /\ (st_inv (store sr2) -> st_inv s)).
  { destruct (loadFromStore rng _ sr2) as [[m|] sr3] eqn:El; [done|]. injection E as _ <-.
    unfold loadFromStore in El. destruct (cacheMaxSize sr2 <=? 0).
    - pose proof (st_ListServices_pure (store sr2)) as P1. pose proof (st_inv_ListServices (store sr2)) as P2.
      destruct (st_ListServices (store sr2)) as [[|] s]; [done|]. injection El as _ <-. eauto.
    - pose proof (st_ListTop_pure (cacheMaxSize sr2) (store sr2)) as P1. pose proof (st_inv_ListTop (cacheMaxSize sr2) (store sr2)) as P2.
      destruct (st_ListTopTasksByQueryCount _ (store sr2)) as [[ts|] s]; [|injection El as _ <-; eauto].
      pose proof (st_ListForTasks_pure ts s) as P3. pose proof (st_inv_ListForTasks ts s) as P4.
      destruct (st_ListServicesForTasks ts s) as [[|] s2]; [done|]. injection El as _ <-. simpl in *.
      exists s2. split; [done|]. split; [congruence|auto]. }
  destruct Hsame as (s & -> & Hact & Hinv). destruct Hfr as (F1 & F2 & F3 & F4 & F5 & F6 & F7). split.
  - split_and!; simpl; auto.
  - intros t a hc Hp Hv Hs. specialize (Hsafe t a hc Hp Hv Hs). unfold safe, taken in *. simpl. by rewrite Hact.
Qed.

End Warm.

(** ** Histories *)

Definition range_ok (rng : nat -> Services -> list (string * list ServiceEntry)) : Prop :=
  forall i m, rng i m ≡ₚ map_to_list m.

Section Histories.
Context {S : Type} `{StoreLaws S}.
Abbreviation SB := (StoreBackedRegistry S).

(** Everything that can happen to a registry; [sb_external] is another
    server writing to the shared store. *)
Inductive sb_reachable : SB -> Prop :=
| sb_new now s maxSize : st_inv s -> sb_reachable (NewStoreBackedRegistry now s maxSize)
| sb_register now now' task addr cap sr : in_int64 cap -> sb_reachable sr ->
    sb_reachable (RegisterWithCapacity now now' task addr cap sr)
| sb_query task ip sr : sb_reachable sr -> sb_reachable (GetServiceForRequestor task ip sr).2
| sb_warm rng now sr : range_ok rng -> sb_reachable sr -> sb_reachable (WarmCacheFromDB rng now sr).2
| sb_list rng now now' sr : range_ok rng -> sb_reachable sr -> sb_reachable (ListServices rng now now' sr).2
| sb_cleanup rng now now' timeout sr : range_ok rng -> sb_reachable sr ->
    sb_reachable (Cleanup rng now now' timeout sr).2
| sb_firewall fw sr : sb_reachable sr -> sb_reachable (SetFirewall fw sr)
| sb_threshold n sr : sb_reachable sr -> sb_reachable (SetCacheAdmissionMissThreshold n sr)
| sb_external s sr : st_inv s -> sb_reachable sr -> sb_reachable (set_store s sr).

Definition sb_inv (sr : SB) : Prop := mem_wf (memCache sr) /\ st_inv (store sr).

Lemma register_inv now now' task addr cap (sr : SB) :
  in_int64 cap -> sb_inv sr -> sb_inv (RegisterWithCapacity now now' task addr cap sr).
Proof.
  intros Hc [Hm Hs]. unfold RegisterWithCapacity. destruct (_ || _); [done|]. cbn [store set_cache].
  match goal with |- context [st_Register ?t ?e ?s] =>
    pose proof (st_inv_Register t e s Hs ltac:(apply in_int64_0)) as Hs'; destruct (st_Register t e s) as [[]] end.
  all: split; [|done]; apply RegisterWithCapacity_wf; [|done].
  all: destruct (Z.leb_spec cap 0); [unfold in_int64, int64_min, int64_max; lia|done].
Qed.

Lemma populate_listed_inv t es (view : string -> option ServiceEntry) m :
  lists es view -> (forall a e, view a = Some e -> entry_wf e) -> mem_wf m ->
  mem_wf (foldl (fun m e => populate t e m) m es).
Proof.
  intros [_ Hl] Hv Hm. apply (foldl_inv mem_wf); [|done]. intros m' e He Hm'.
  apply populate_wf; [done|]. by eapply Hv, Hl.
Qed.

Lemma selectFromStoreEntries_frame t es ip (sr : SB) :
  memCache (selectFromStoreEntries t es ip sr).2 = memCache sr /\ store (selectFromStoreEntries t es ip sr).2 = store sr.
Proof.
  unfold selectFromStoreEntries. case_decide; [done|]. case_match; [done|]. rewrite AddOne_spec. by case_match.
Qed.

Lemma shouldAdmit_frame t (sr : SB) :
  memCache (shouldAdmitTaskOnMiss t sr).2 = memCache sr /\ store (shouldAdmitTaskOnMiss t sr).2 = store sr.
Proof. unfold shouldAdmitTaskOnMiss. case_match; [done|]. by rewrite AddOne_spec. Qed.

Lemma query_inv task ip (sr : SB) : sb_inv sr -> sb_inv (GetServiceForRequestor task ip sr).2.
Proof.
  intros [Hm Hs]. unfold GetServiceForRequestor. case_match; [done|]. set (t := TrimSpace task).
  destruct (query_frame t ip (memCache sr)) as (_ & _ & Hw). specialize (Hw Hm).
  destruct (Memory.GetServiceForRequestor t ip (memCache sr)) as [[a|er] m] eqn:Eq; [done|]. simpl in Hw. cbn [store set_cache].
  pose proof (st_inv_ListTask t (store sr) Hs) as Hs1.
  destruct (st_ListTaskServices t (store sr)) as [[es|] s] eqn:El; simpl in Hs1; [|by split].
  case_decide; [by split|]. pose proof (shouldAdmit_frame t (set_store s (set_cache m sr))) as [F1 F2].
  destruct (shouldAdmitTaskOnMiss t _) as [[] sr1]; cbn [fst snd memCache set_store set_cache store] in *.
  - cbn [memCache set_cache set_misses]. rewrite F1.
    set (m2 := foldl _ m es). assert (Hp : mem_wf m2).
    { eapply populate_listed_inv; [by eapply st_ListTaskServices_ok| |done].
      intros a e He. by apply (st_active_ok _ _ _ _ Hs) in He. }
    pose proof (proj2 (proj2 (query_frame t ip m2)) Hp) as Hq.
    destruct (Memory.GetServiceForRequestor t ip m2) as [r m3]. split; [exact Hq|]. cbn. by rewrite F2.
  - pose proof (selectFromStoreEntries_frame t es ip sr1) as [G1 G2].
    destruct (selectFromStoreEntries t es ip sr1) as [[a|e] sr2]; simpl in *; [|split; simpl; congruence].
    pose proof (st_inv_Increment t a (store sr2)) as Hi. rewrite G2, F2 in Hi. specialize (Hi Hs1).
    rewrite G2, F2. destruct (st_IncrementQueryCount t a s) as [[]]; split; simpl in *; congruence.
Qed.

Lemma warm_inv rng now (sr : SB) : range_ok rng -> sb_inv sr -> sb_inv (WarmCacheFromDB rng now sr).2.
Proof.
  intros Hr [Hm Hs]. destruct (WarmCacheFromDB rng now sr) as [[[]|e] sr'] eqn:E.
  - destruct (warm_ok rng Hr now sr sr' E Hm Hs) as (lim & _ & _ & _ & ? & ? & _). done.
  - destruct (warm_err rng Hr now sr sr' e E Hm) as [(F1 & _ & _ & _ & _ & _ & F7) _]. split; simpl; [by rewrite F1|auto].
Qed.

Lemma reachable_sb_inv sr : sb_reachable sr -> sb_inv sr.
Proof.
  induction 1 as [now s maxSize Hs|now now' task addr cap sr Hc _ IH|task ip sr _ IH|rng now sr Hr _ IH|rng now now' sr Hr _ IH
                 |rng now now' timeout sr Hr _ IH|fw sr _ IH|n sr _ IH|s sr Hs _ IH].
  - split; [apply new_wf|done].
  - by apply register_inv.
  - by apply query_inv.
  - by apply warm_inv.
  - unfold ListServices. case_match; [by apply warm_inv|done].
  - destruct IH as [Hm Hs]. unfold Cleanup.
    pose proof (Cleanup_wf (rng 0%nat (services (memCache sr))) now timeout (memCache sr)) as Hw.
    destruct (Memory.Cleanup _ _ _ _) as [m n]. cbn [store set_cache].
    pose proof (st_inv_Cleanup now' timeout (store sr) Hs) as Hs'.
    destruct (st_Cleanup now' timeout (store sr)) as [[]]; (split; [|done]); apply Hw; auto; apply Hr.
  - destruct IH. split; [by apply SetFirewall_wf|done].
  - by destruct IH.
  - by destruct IH.
Qed.

(** C25: warming the cache never loses a registration the store has not
    acknowledged, as long as no other cached service has the same
    "task:address" key; task names without a colon are enough for that
    ([plain_unclashed]), and without it the registration can be lost
    ([pending_key_clash]).  Whatever the store answers, and whether or not
    the warm succeeds, a cached service marked pending is afterwards either
    still cached with the same heartbeat and capacity and still marked, or
    active in the store with the capacity and, to the store's precision, the
    heartbeat of this very registration. *)
Theorem warm_keeps_pending rng now sr t a hc :
  range_ok rng -> sb_reachable sr -> unclashed (memCache sr) t a ->
  mem_view (memCache sr) t a = Some hc -> hasPendingStoreSync t a sr = true ->
  let sr' := (WarmCacheFromDB rng now sr).2 in
  hasPendingStoreSync t a sr' = true /\ mem_view (memCache sr') t a = Some hc \/
  exists e, st_active (store sr') t a = Some e /\ LastHeartbeat e = st_time hc.1 /\ Capacity e = hc.2.
Proof.
  intros Hr [Hm Hs]%reachable_sb_inv Hp Hv Hpend. unfold hasPendingStoreSync in *. rewrite bool_decide_eq_true in *.
  destruct (WarmCacheFromDB rng now sr) as [[[]|e] sr'] eqn:E; simpl.
  - destruct (warm_ok rng Hr now sr sr' E Hm Hs) as (lim & _ & Hview & Hsafe & _).
    destruct (Hsafe t a hc Hp Hv ltac:(by left)) as [Hpend'|?]; [left|by right].
    rewrite Hview, decide_True; [done|]. split; [done|eauto].
  - destruct (warm_err rng Hr now sr sr' e E Hm) as [(F1 & _) Hsafe]. rewrite F1.
    destruct (Hsafe t a hc Hp Hv ltac:(by left)); auto.
Qed.

(** What a successful warm puts in the cache.  A service still pending
    keeps the old cache's values; every other cached service is an active
    service of the store, all of them when the cache is unlimited and those
    of at most [cacheMaxSize] distinct tasks otherwise; the round-robin
    cursor of every task that stays cached is preserved. *)
Theorem warm_contents rng now sr sr' :
  range_ok rng -> sb_reachable sr -> WarmCacheFromDB rng now sr = (Ok tt, sr') ->
  (exists lim, lim_ok (cacheMaxSize sr) lim /\
   forall t a, mem_view (memCache sr') t a =
     if decide (counterKey t a ∈ pendingStoreSync sr' /\ is_Some (mem_view (memCache sr) t a))
     then mem_view (memCache sr) t a
     else if decide (in_lim lim t) then hb_cap <$> st_active (store sr') t a else None) /\
  (forall t, is_Some (services (memCache sr') !! t) -> is_Some (services (memCache sr) !! t) ->
     cursor (memCache sr') t = cursor (memCache sr) t).
Proof.
  intros Hr [Hm Hs]%reachable_sb_inv E. destruct (warm_ok rng Hr now sr sr' E Hm Hs) as (lim & P1 & P2 & _ & _ & _ & _ & P3).
  split; [by exists lim|done].
Qed.

(** Read your writes, whatever the store does.  After a registration of
    a non-blank task and address, a requestor that may reach that address
    gets an answer for the task, even when every store call fails. *)
Theorem register_then_query now now' task addr cap ip sr es :
  sb_reachable sr -> in_int64 cap -> TrimSpace task <> ""%string -> TrimSpace addr <> ""%string ->
  let sr' := RegisterWithCapacity now now' task addr cap sr in
  services (memCache sr') !! TrimSpace task = Some es -> weights_fit es ->
  (forall e, Address e = TrimSpace addr -> permitted (firewall (memCache sr')) ip e = true) ->
  exists a, (GetServiceForRequestor task ip sr').1 = Ok a /\ is_Some (mem_view (memCache sr') (TrimSpace task) a).
Proof.
  intros Hinv Hc Ht Ha sr' Hes Hf Hperm. apply reachable_sb_inv in Hinv.
  destruct (register_inv now now' task addr cap sr Hc Hinv) as [Hm _]. fold sr' in Hm.
  assert (Hin : TrimSpace addr ∈ Address <$> es).
  { assert (Hc' : memCache sr' = Memory.RegisterWithCapacity now (TrimSpace task) (TrimSpace addr)
        (if cap <=? 0 then 1 else cap) (memCache sr)).
    { unfold sr', RegisterWithCapacity. rewrite (proj2 (blank_spec _ _)) by done. by destruct (st_Register _ _ _) as [[]]. }
    apply findEntry_elem. assert (Hv : mem_view (memCache sr') (TrimSpace task) (TrimSpace addr) = findEntry es (TrimSpace addr)).
    { unfold mem_view. by rewrite Hes. }
    rewrite <- Hv, Hc'. unfold Memory.RegisterWithCapacity. rewrite !TrimSpace_idemp, (proj2 (blank_spec _ _)) by done.
    rewrite upsert_view by done. rewrite decide_True by done. destruct (List.find _ _); eauto. }
  apply list_elem_of_fmap in Hin as (e & He & Hin).
  pose proof (query_known (TrimSpace task) ip (memCache sr') es Hm) as Hq. rewrite !TrimSpace_idemp in Hq.
  specialize (Hq Ht Hes Hf). destruct (List.filter _ es) as [|e' al] eqn:El.
  { exfalso. assert (In e []) as []. rewrite <- El. apply filter_In. split; [by apply list_elem_of_In|by apply Hperm]. }
  destruct Hq as (a & Hsel & Hq). exists a. split.
  - unfold GetServiceForRequestor. rewrite (proj2 (String.eqb_neq _ _) Ht), Hq. done.
  - apply selectLoop_In in Hsel as (e2 & He2 & <-). unfold mem_view. rewrite Hes. simpl. apply findEntry_elem, list_elem_of_fmap_2.
    rewrite <- El in He2. apply list_elem_of_In, filter_In in He2 as [? _]. by apply list_elem_of_In.
Qed.

Lemma filterStoreEntries_filter fw ip es acc :
  filterStoreEntries fw ip es acc
  = acc ++ ((fun e => mkEntry (Address e) 0 0 (Capacity e)) <$> List.filter (storeEntryAllowed fw ip) es).
Proof.
  revert acc. induction es as [|e es IH]; intros acc; simpl; [by rewrite app_nil_r|].
  rewrite IH. destruct (storeEntryAllowed fw ip e); [by rewrite <- app_assoc|done].
Qed.

Lemma selectFromStoreEntries_safe t es ip (sr sr' : SB) a fw :
  selectFromStoreEntries t es ip sr = (Ok a, sr') -> firewall (memCache sr) = Some fw -> ip <> [] ->
  ParseIP (hostPart a) <> [] /\ IsAllowed fw ip (ParseIP (hostPart a)) = true.
Proof.
  unfold selectFromStoreEntries. intros E Hfw Hip. rewrite Hfw in E. case_decide; [done|]. case_match; [done|].
  rewrite AddOne_spec in E. cbv beta iota zeta in E.
  destruct (selectWeightedAddress _ _) as [a'|] eqn:Hsel; [|done]. injection E as <- _.
  apply selectLoop_In in Hsel as (e' & He' & <-). rewrite filterStoreEntries_filter in He'. simpl in He'.
  apply list_elem_of_fmap in He' as (e & -> & He). apply list_elem_of_In, filter_In in He as [_ Hp]. simpl.
  unfold storeEntryAllowed in Hp. destruct ip as [|b ip]; [done|].
  destruct (ParseIP (hostPart (Address e))); done.
Qed.

(** The firewall holds on every path of a query: from the cache, from the
    cache after admitting the task, and straight from the store.  With a
    firewall and a known requestor, an address is only ever handed out when
    the IP read from it is one the firewall allows. *)
Theorem store_backed_firewall task ip sr a fw sr' :
  GetServiceForRequestor task ip sr = (Ok a, sr') -> firewall (memCache sr) = Some fw -> ip <> [] ->
  exists d, (d = destinationIPFromAddress a \/ d = ParseIP (hostPart a)) /\ d <> [] /\ IsAllowed fw ip d = true.
Proof.
  unfold GetServiceForRequestor. intros E Hfw Hip. case_match; [done|]. set (t := TrimSpace task) in *.
  destruct (query_frame t ip (memCache sr)) as (_ & Hfr & _).
  destruct (Memory.GetServiceForRequestor t ip (memCache sr)) as [[a0|er] m] eqn:Eq.
  { injection E as <- _. destruct (query_safe _ _ _ _ _ _ Eq Hfw Hip). eauto. }
  cbn [store set_cache fst snd] in *. destruct (st_ListTaskServices t (store sr)) as [[es|] s]; [|done].
  case_decide; [done|]. pose proof (shouldAdmit_frame t (set_store s (set_cache m sr))) as [F1 _].
  destruct (shouldAdmitTaskOnMiss t _) as [[] sr1]; cbn [fst snd memCache set_store set_cache set_misses store] in *.
  - match type of E with context [Memory.GetServiceForRequestor t ip ?m2] =>
      destruct (Memory.GetServiceForRequestor t ip m2) as [r m3] eqn:Eq2 end.
    injection E as -> _.
    apply (query_safe _ _ _ _ _ fw) in Eq2 as [? ?]; [eauto| |done].
    rewrite F1. transitivity (firewall m); [|congruence].
    apply (foldl_inv (fun m' => firewall m' = firewall m)); [|done]. intros m' e _ <-. apply populate_firewall.
  - destruct (selectFromStoreEntries t es ip sr1) as [[a1|] sr2] eqn:Es; [|done].
    destruct (st_IncrementQueryCount t a1 (store sr2)) as [[]]; [|done]. injection E as <- _.
    apply (selectFromStoreEntries_safe _ _ _ _ _ _ fw) in Es as [? ?]; [eauto| |done]. congruence.
Qed.

End Histories.

(** ** Witnesses and concrete behaviour over the PostgreSQL store *)

Definition demo_rng : nat -> Services -> list (string * list ServiceEntry) := fun _ m => map_to_list m.

Lemma demo_rng_ok : range_ok demo_rng.
Proof. by intros i m. Qed.

Definition pg_empty (fs : list fault) : PostgresStore := mkPG ∅ ∅ 0 fs.

Lemma pg_empty_inv fs : st_inv (pg_empty fs).
Proof. apply map_Forall_empty. Qed.

(** A registry whose first registration the store lost *)
Definition demo_sb : StoreBackedRegistry PostgresStore :=
  RegisterWithCapacity 5 6 "echo" "10.0.0.1:80" 3 (NewStoreBackedRegistry 0 (pg_empty [Lost; AckLost; Lost]) 2).

Lemma demo_sb_reachable : sb_reachable demo_sb.
Proof. apply sb_register; [unfold in_int64, int64_min, int64_max; lia|]. apply sb_new, pg_empty_inv. Qed.

Lemma demo_sb_plain t a : is_Some (mem_view (memCache demo_sb) t a) -> no_colon t = true.
Proof.
  intros Hs. unfold mem_view in Hs. change (services (memCache demo_sb)) with
    ({["echo"%string := [mkEntry "10.0.0.1:80" 5 0 3]]} : gmap string (list ServiceEntry)) in Hs.
  destruct (decide (t = "echo"%string)) as [->|Ht]; [done|]. rewrite lookup_singleton_ne in Hs by done. by destruct Hs.
Qed.

Lemma warm_keeps_pending_witness :
  let sr' := (WarmCacheFromDB demo_rng 9 demo_sb).2 in
  (hasPendingStoreSync "echo" "10.0.0.1:80" sr' = true /\ mem_view (memCache sr') "echo" "10.0.0.1:80" = Some (5, 3)) \/
  exists e, st_active (store sr') "echo" "10.0.0.1:80" = Some e /\ LastHeartbeat e = st_time 5 /\ Capacity e = 3.
Proof.
  apply (warm_keeps_pending demo_rng 9 demo_sb "echo" "10.0.0.1:80" (5, 3)); [apply demo_rng_ok|apply demo_sb_reachable| |vm_compute; reflexivity..].
  apply plain_unclashed; [apply demo_sb_plain|vm_compute; eauto].
Defined.

Definition demo_sb2 : StoreBackedRegistry PostgresStore :=
  RegisterWithCapacity 5 6 "echo" "10.0.0.1:80" 3 (NewStoreBackedRegistry 0 (pg_empty []) 2).

Lemma warm_contents_witness :
  cursor (memCache (WarmCacheFromDB demo_rng 9 (GetServiceForRequestor "echo" [] demo_sb2).2).2) "echo" = 1.
Proof.
  destruct (warm_contents demo_rng 9 (GetServiceForRequestor "echo" [] demo_sb2).2
    (WarmCacheFromDB demo_rng 9 (GetServiceForRequestor "echo" [] demo_sb2).2).2) as [_ Hc].
  - apply demo_rng_ok.
  - apply sb_query, sb_register; [unfold in_int64, int64_min, int64_max; lia|]. apply sb_new, pg_empty_inv.
  - vm_compute. reflexivity.
  - rewrite Hc; [vm_compute; reflexivity|vm_compute; eauto..].
Defined.

Lemma register_then_query_witness :
  exists a, (GetServiceForRequestor "echo" [] demo_sb).1 = Ok a /\ is_Some (mem_view (memCache demo_sb) "echo" a).
Proof.
  apply (register_then_query 5 6 "echo" "10.0.0.1:80" 3 [] (NewStoreBackedRegistry 0 (pg_empty [Lost; AckLost; Lost]) 2)
           [mkEntry "10.0.0.1:80" 5 0 3]).
  - apply sb_new, pg_empty_inv.
  - unfold in_int64, int64_min, int64_max. lia.
  - discriminate.
  - discriminate.
  - vm_compute. reflexivity.
  - vm_compute. discriminate.
  - intros e _. reflexivity.
Defined.

Definition demo_firewall : Firewall :=
  {| rules := [mkRule [] (ParseCIDR "192.168.0.0/16") [] (ParseCIDR "10.0.0.0/24")] |}.

Lemma store_backed_firewall_witness :
  exists d, (d = destinationIPFromAddress "10.0.0.1:80" \/ d = ParseIP (hostPart "10.0.0.1:80")) /\ d <> [] /\
    IsAllowed demo_firewall (ParseIP "192.168.7.7") d = true.
Proof.
  apply (store_backed_firewall "echo" (ParseIP "192.168.7.7") (SetFirewall (Some demo_firewall) demo_sb2) "10.0.0.1:80"
    demo_firewall (GetServiceForRequestor "echo" (ParseIP "192.168.7.7") (SetFirewall (Some demo_firewall) demo_sb2)).2).
  - vm_compute. reflexivity.
  - reflexivity.
  - discriminate.
Defined.

(** A registry in front of a store that already holds one service, with an
    admission threshold of two misses *)
Definition cold_sb (addr : string) : StoreBackedRegistry PostgresStore :=
  SetCacheAdmissionMissThreshold 2 (SetFirewall (Some demo_firewall)
    (NewStoreBackedRegistry 0 (mkPG {[("echo"%string, addr) := mkRow 5 0 1 true 0]} ∅ 0 []) 2)).

(** The two selection paths read an address differently.  A service
    registered as a URL is refused while its task is served from the store
    and allowed, for the same requestor and rules, once the task is cached. *)
Theorem url_refused_until_cached :
  let ip := ParseIP "192.168.7.7" in
  let '(r1, sr1) := GetServiceForRequestor "echo" ip (cold_sb "http://10.0.0.1:80") in
  let '(r2, _) := GetServiceForRequestor "echo" ip sr1 in
  sb_reachable (cold_sb "http://10.0.0.1:80") /\
  r1 = Err ErrNoAllowedService /\ r2 = Ok "http://10.0.0.1:80"%string.
Proof.
  assert (Hr : sb_reachable (cold_sb "http://10.0.0.1:80")).
  { apply sb_threshold, sb_firewall, sb_new. intros k r. simpl. intros [_ <-]%lookup_singleton_Some. by vm_compute. }
  revert Hr. generalize (sb_reachable (cold_sb "http://10.0.0.1:80")). intros P HP.
  vm_compute. by split_and!.
Qed.

(** Two services whose pending keys coincide: the store loses the first
    registration and accepts the second. *)
Definition clash_sb : StoreBackedRegistry PostgresStore :=
  RegisterWithCapacity 2 2 "a" "b:c" 1
    (RegisterWithCapacity 1 1 "a:b" "c" 1 (NewStoreBackedRegistry 0 (pg_empty [Lost]) 0)).

(** Pending marks are keyed by "task:address", which does not determine
    the pair.  The mark of a registration the store lost is cleared by the
    successful registration of another service with the same key, and the
    next warm drops the first service from the cache: it is then nowhere. *)
Theorem pending_key_clash :
  let sr' := (WarmCacheFromDB demo_rng 9 clash_sb).2 in
  sb_reachable clash_sb /\
  is_Some (mem_view (memCache clash_sb) "a:b" "c") /\
  mem_view (memCache sr') "a:b" "c" = None /\ st_active (store sr') "a:b" "c" = None.
Proof.
  split.
  - apply sb_register; [unfold in_int64, int64_min, int64_max; lia|].
    apply sb_register; [unfold in_int64, int64_min, int64_max; lia|]. apply sb_new, pg_empty_inv.
  - split; [vm_compute; eauto|]. split; vm_compute; reflexivity.
Qed.
