(* ===== verification/GoJSON.v ===== *)
(** * The part of Go's [encoding/json] the service uses

    Values, the printer behind [json.Marshal] and [Encoder.Encode] (compact
    form, HTML characters escaped, invalid UTF-8 replaced), the parser behind
    [json.Unmarshal] and [Decoder.Decode], and the rules that move a value
    into a Go struct field.  The texts of Go's error messages are not
    modelled: a failed parse is [None]. *)

From Stdlib Require Import Ascii String.
From Stdlib Require Import DecimalString DecimalZ DecimalPos DecimalFacts.
From S2P Require Import Prelude.
From stdpp Require Import list.
From S2P Require Import GoStrings NetIP GoURL.
Local Open Scope Z_scope.

#[local] Arguments String.append : simpl nomatch.

Inductive json :=
| JNull
| JBool (b : bool)
| JNum (lit : string)
| JStr (s : string)
| JArr (vs : list json)
| JObj (fs : list (string * json)).

(** ** UTF-8 *)

Definition code (c : ascii) : Z := Z.of_nat (nat_of_ascii c).
Definition chr (z : Z) : ascii := ascii_of_nat (Z.to_nat z).
Definition within (lo hi : Z) (c : ascii) : bool := (lo <=? code c) && (code c <=? hi).
Definition is_cont (c : ascii) : bool := within 128 191 c.

(** The multi-byte rune at the head of a string, and what follows it *)
Definition rune2 (a : ascii) (s : string) : option (string * string) :=
  match s with
  | String b r => if within 194 223 a && is_cont b then Some (String a (String b ""), r) else None
  | _ => None
  end.
Definition rune3 (a : ascii) (s : string) : option (string * string) :=
  match s with
  | String b (String c r) =>
      let lo := if code a =? 224 then 160 else 128 in
      let hi := if code a =? 237 then 159 else 191 in
      if within 224 239 a && within lo hi b && is_cont c
      then Some (String a (String b (String c "")), r) else None
  | _ => None
  end.
Definition rune4 (a : ascii) (s : string) : option (string * string) :=
  match s with
  | String b (String c (String d r)) =>
      let lo := if code a =? 240 then 144 else 128 in
      let hi := if code a =? 244 then 143 else 191 in
      if within 240 244 a && within lo hi b && is_cont c && is_cont d
      then Some (String a (String b (String c (String d ""))), r) else None
  | _ => None
  end.
Definition rune (a : ascii) (s : string) : option (string * string) :=
  match rune2 a s with
  | Some x => Some x
  | None => match rune3 a s with Some x => Some x | None => rune4 a s end
  end.

Fixpoint valid_utf8_loop (fuel : nat) (s : string) : bool :=
  match fuel with
  | O => true
  | S fuel =>
      match s with
      | EmptyString => true
      | String a r =>
          if code a <? 128 then valid_utf8_loop fuel r
          else match rune a r with Some (_, r) => valid_utf8_loop fuel r | None => false end
      end
  end.
Definition valid_utf8 (s : string) : bool := valid_utf8_loop (String.length s) s.

(** [utf8.AppendRune] *)
Definition utf8_encode (v : Z) : string :=
  if v <? 128 then String (chr v) ""
  else if v <? 2048 then String (chr (192 + v / 64)) (String (chr (128 + v mod 64)) "")
  else if v <? 65536 then
    String (chr (224 + v / 4096)) (String (chr (128 + v / 64 mod 64)) (String (chr (128 + v mod 64)) ""))
  else String (chr (240 + v / 262144)) (String (chr (128 + v / 4096 mod 64))
         (String (chr (128 + v / 64 mod 64)) (String (chr (128 + v mod 64)) ""))).

Definition rune_error : string := utf8_encode 65533.

(** ** Printing *)

Definition quote : ascii := chr 34.
Definition backslash : ascii := chr 92.

(** [appendString] with HTML escaping, one byte below 0x80 *)
Definition esc (c : ascii) : string :=
  let n := code c in
  if (n =? 34) || (n =? 92) then String backslash (String c "")
  else if n =? 8 then String backslash "b"
  else if n =? 12 then String backslash "f"
  else if n =? 10 then String backslash "n"
  else if n =? 13 then String backslash "r"
  else if n =? 9 then String backslash "t"
  else if (n <? 32) || (n =? 60) || (n =? 62) || (n =? 38)
  then String backslash ("u00" ++ String (hex_digit (n / 16)) (String (hex_digit (n mod 16)) ""))%string
  else String c "".

Definition line_sep : string := utf8_encode 8232.
Definition para_sep : string := utf8_encode 8233.

Fixpoint enc_body (fuel : nat) (s : string) : string :=
  match fuel with
  | O => ""
  | S fuel =>
      match s with
      | EmptyString => ""
      | String a r =>
          if code a <? 128 then (esc a ++ enc_body fuel r)%string
          else match rune a r with
               | Some (chunk, r) =>
                   ((if String.eqb chunk line_sep then String backslash "u2028"
                     else if String.eqb chunk para_sep then String backslash "u2029"
                     else chunk) ++ enc_body fuel r)%string
               | None => (String backslash "ufffd" ++ enc_body fuel r)%string
               end
      end
  end.

Definition enc_string (s : string) : string :=
  String quote (enc_body (String.length s) s ++ String quote "")%string.

Fixpoint print (j : json) : string :=
  match j with
  | JNull => "null"
  | JBool b => if b then "true" else "false"
  | JNum lit => lit
  | JStr s => enc_string s
  | JArr vs => ("[" ++ join "," (map print vs) ++ "]")%string
  | JObj fs => ("{" ++ join "," (map (fun kv => enc_string kv.1 ++ ":" ++ print kv.2)%string fs) ++ "}")%string
  end.

(** ** Parsing *)

Fixpoint skip_ws (s : string) : string :=
  match s with
  | String c r => if (code c =? 32) || (code c =? 9) || (code c =? 10) || (code c =? 13) then skip_ws r else s
  | EmptyString => EmptyString
  end.

Definition hex4_val (a b c d : ascii) : option Z :=
  match hex_val a, hex_val b, hex_val c, hex_val d with
  | Some w, Some x, Some y, Some z => Some (((w * 16 + x) * 16 + y) * 16 + z)
  | _, _, _, _ => None
  end.

(** [\uXXXX] with its surrogate pairs: the rune and what follows *)
Definition unicode_escape (a b c d : ascii) (r : string) : option (Z * string) :=
  match hex4_val a b c d with
  | None => None
  | Some v =>
      if (55296 <=? v) && (v <? 57344) then
        match r with
        | String b1 (String u (String a' (String b' (String c' (String d' r'))))) =>
            match hex4_val a' b' c' d' with
            | Some w =>
                if Ascii.eqb b1 backslash && Ascii.eqb u "u"%char && (v <? 56320) && (56320 <=? w) && (w <? 57344)
                then Some ((v - 55296) * 1024 + (w - 56320) + 65536, r')
                else Some (65533, r)
            | None => Some (65533, r)
            end
        | _ => Some (65533, r)
        end
      else Some (v, r)
  end.

Definition simple_escape (c : ascii) : option ascii :=
  let n := code c in
  if (n =? 34) || (n =? 92) || (n =? 47) then Some c
  else if n =? 98 then Some (chr 8)
  else if n =? 102 then Some (chr 12)
  else if n =? 110 then Some (chr 10)
  else if n =? 114 then Some (chr 13)
  else if n =? 116 then Some (chr 9)
  else None.

(** The rest of a string literal after its opening quote *)
Fixpoint dec_body (fuel : nat) (s : string) : option (string * string) :=
  match fuel with
  | O => None
  | S fuel =>
      match s with
      | EmptyString => None
      | String a r =>
          if code a =? 34 then Some (""%string, r)
          else if code a =? 92 then
            match r with
            | String e r =>
                if code e =? 117 then
                  match r with
                  | String h1 (String h2 (String h3 (String h4 r))) =>
                      match unicode_escape h1 h2 h3 h4 r with
                      | Some (v, r) => (fun x => (utf8_encode v ++ x.1, x.2)%string) <$> dec_body fuel r
                      | None => None
                      end
                  | _ => None
                  end
                else match simple_escape e with
                     | Some c => (fun x => (String c x.1, x.2)) <$> dec_body fuel r
                     | None => None
                     end
            | EmptyString => None
            end
          else if code a <? 32 then None
          else if code a <? 128 then (fun x => (String a x.1, x.2)) <$> dec_body fuel r
          else match rune a r with
               | Some (chunk, r) => (fun x => (chunk ++ x.1, x.2)%string) <$> dec_body fuel r
               | None => (fun x => (rune_error ++ x.1, x.2)%string) <$> dec_body fuel r
               end
      end
  end.

Definition dec_string (s : string) : option (string * string) := dec_body (String.length s) s.

Fixpoint digits (s : string) : string * string :=
  match s with
  | String c r => if is_digit c then let '(d, r) := digits r in (String c d, r) else (""%string, s)
  | EmptyString => (""%string, ""%string)
  end.

Definition digits1 (s : string) : option (string * string) :=
  match digits s with (""%string, _) => None | x => Some x end.

(** A number literal: its text and what follows *)
Definition num_int (s : string) : option (string * string) :=
  match s with
  | String "0" r => Some ("0"%string, r)
  | _ => digits1 s
  end.
Definition num_frac (s : string) : option (string * string) :=
  match s with
  | String "." r => (fun x => (String "." x.1, x.2)) <$> digits1 r
  | _ => Some (""%string, s)
  end.
Definition num_exp (s : string) : option (string * string) :=
  match s with
  | String c r =>
      if Ascii.eqb c "e"%char || Ascii.eqb c "E"%char then
        match r with
        | String g r' =>
            if Ascii.eqb g "+"%char || Ascii.eqb g "-"%char
            then (fun x => (String c (String g x.1), x.2)) <$> digits1 r'
            else (fun x => (String c x.1, x.2)) <$> digits1 r
        | EmptyString => None
        end
      else Some (""%string, s)
  | EmptyString => Some (""%string, s)
  end.
Definition dec_number (s : string) : option (string * string) :=
  let '(sign, s) := match s with String "-" r => ("-"%string, r) | _ => (""%string, s) end in
  match num_int s with
  | None => None
  | Some (i, s) =>
      match num_frac s with
      | None => None
      | Some (f, s) =>
          match num_exp s with
          | None => None
          | Some (e, s) => Some ((sign ++ i ++ f ++ e)%string, s)
          end
      end
  end.

(** Nesting deeper than [maxNestingDepth] is an error. *)
Definition max_depth : N := 10000.

Fixpoint parse_value (fuel : nat) (depth : N) (s : string) : option (json * string) :=
  match fuel with
  | O => None
  | S fuel =>
      match skip_ws s with
      | EmptyString => None
      | String c r as s =>
          if code c =? 123 then
            if N.ltb depth max_depth then
              match strip_prefix "}" (skip_ws r) with
              | Some r => Some (JObj [], r)
              | None => (fun x => (JObj x.1, x.2)) <$> parse_members fuel (depth + 1) r
              end
            else None
          else if code c =? 91 then
            if N.ltb depth max_depth then
              match strip_prefix "]" (skip_ws r) with
              | Some r => Some (JArr [], r)
              | None => (fun x => (JArr x.1, x.2)) <$> parse_elements fuel (depth + 1) r
              end
            else None
          else if code c =? 34 then (fun x => (JStr x.1, x.2)) <$> dec_string r
          else if (code c =? 45) || is_digit c then (fun x => (JNum x.1, x.2)) <$> dec_number s
          else match strip_prefix "true" s with
               | Some r => Some (JBool true, r)
               | None =>
                   match strip_prefix "false" s with
                   | Some r => Some (JBool false, r)
                   | None => (fun r => (JNull, r)) <$> strip_prefix "null" s
                   end
               end
      end
  end
with parse_elements (fuel : nat) (depth : N) (s : string) : option (list json * string) :=
  match fuel with
  | O => None
  | S fuel =>
      match parse_value fuel depth s with
      | None => None
      | Some (v, r) =>
          match skip_ws r with
          | String "," r => (fun x => (v :: x.1, x.2)) <$> parse_elements fuel depth r
          | String "]" r => Some ([v], r)
          | _ => None
          end
      end
  end
with parse_members (fuel : nat) (depth : N) (s : string) : option (list (string * json) * string) :=
  match fuel with
  | O => None
  | S fuel =>
      match skip_ws s with
      | String q r =>
          if code q =? 34 then
            match dec_string r with
            | None => None
            | Some (k, r) =>
                match skip_ws r with
                | String ":" r =>
                    match parse_value fuel depth r with
                    | None => None
                    | Some (v, r) =>
                        match skip_ws r with
                        | String "," r => (fun x => ((k, v) :: x.1, x.2)) <$> parse_members fuel depth r
                        | String "}" r => Some ([(k, v)], r)
                        | _ => None
                        end
                    end
                | _ => None
                end
            end
          else None
      | EmptyString => None
      end
  end.

Definition fuel_for (s : string) : nat := S (2 * String.length s).

(** [json.Unmarshal]: one value and nothing after it but white space *)
Definition parse (s : string) : option json :=
  match parse_value (fuel_for s) 0 s with
  | Some (j, r) => if String.eqb (skip_ws r) "" then Some j else None
  | None => None
  end.

(** [Decoder.Decode]: the first value of a stream *)
Definition parse_first (s : string) : option json := fst <$> parse_value (fuel_for s) 0 s.

(** ** Values into struct fields *)

(** Field names match up to Unicode simple folding: case, and the two
    non-ASCII letters that fold to ASCII ones (long s and the Kelvin sign). *)
Definition fold_name (s : string) : string :=
  replace_map [ (str_of [197; 191]%nat, "S"%string); (str_of [226; 132; 170]%nat, "K"%string) ] ascii_upper (S (String.length s)) s.

(** The values given to a field, in order *)
Definition field (name : string) (fs : list (string * json)) : list json :=
  snd <$> List.filter (fun kv => String.eqb (fold_name kv.1) (fold_name name)) fs.

(** A field of type [string]: [null] is ignored, the last value wins *)
Fixpoint as_string (acc : string) (vs : list json) : option string :=
  match vs with
  | [] => Some acc
  | JNull :: vs => as_string acc vs
  | JStr s :: vs => as_string s vs
  | _ :: _ => None
  end.

(** [strconv.ParseInt(lit, 10, 64)] on a number literal *)
Definition int_of_lit (lit : string) : option Z :=
  match NilZero.int_of_string lit with
  | Some d => let z := Z.of_int d in if (int64_min <=? z) && (z <=? int64_max) then Some z else None
  | None => None
  end.

Definition lit_of_int (z : Z) : string := NilZero.string_of_int (Z.to_int z).

Fixpoint as_int (acc : Z) (vs : list json) : option Z :=
  match vs with
  | [] => Some acc
  | JNull :: vs => as_int acc vs
  | JNum lit :: vs => match int_of_lit lit with Some z => as_int z vs | None => None end
  | _ :: _ => None
  end.

(** A field of type [[]string]; a [null] element is the empty string *)
Fixpoint strings_of (vs : list json) : option (list string) :=
  match vs with
  | [] => Some []
  | JStr s :: vs => (fun l => s :: l) <$> strings_of vs
  | JNull :: vs => (fun l => ""%string :: l) <$> strings_of vs
  | _ :: _ => None
  end.
Fixpoint as_strings (acc : list string) (vs : list json) : option (list string) :=
  match vs with
  | [] => Some acc
  | JNull :: vs => as_strings [] vs
  | JArr l :: vs => match strings_of l with Some l => as_strings l vs | None => None end
  | _ :: _ => None
  end.

(** The members a struct is filled from: [null] fills nothing *)
Definition struct_fields (j : json) : option (list (string * json)) :=
  match j with
  | JNull => Some []
  | JObj fs => Some fs
  | _ => None
  end.

(** ** Strings survive printing and parsing *)

Lemma code_range c : 0 <= code c < 256.
Proof. unfold code. pose proof (nat_ascii_bounded c). lia. Qed.

(** Every byte below 0x80 is read back from its escape. *)
Lemma dec_esc c rest fuel : code c < 128 ->
  dec_body (S fuel) (esc c ++ rest) = (fun x => (String c x.1, x.2)) <$> dec_body fuel rest.
Proof.
  intros Hc. destruct c as [b0 b1 b2 b3 b4 b5 b6 b7].
  destruct b7; [exfalso; revert Hc; destruct b0, b1, b2, b3, b4, b5, b6; vm_compute; discriminate|].
  destruct b0, b1, b2, b3, b4, b5, b6; reflexivity.
Qed.

Lemma rune_app a r chunk r' : rune a r = Some (chunk, r') ->
  exists c', chunk = String a c' /\ r = (c' ++ r')%string /\ c' <> ""%string /\ 128 <= code a /\
    forall X, rune a (c' ++ X) = Some (chunk, X).
Proof.
  unfold rune. assert (Hw : forall lo hi, 128 <= lo -> within lo hi a = true -> 128 <= code a).
  { intros lo hi Hlo. unfold within. rewrite andb_true_iff, Z.leb_le. lia. }
  destruct r as [|b r]; [done|]. unfold rune2.
  destruct (within 194 223 a && is_cont b) eqn:E2.
  { intros [= <- <-]. apply andb_true_iff in E2 as [E2 ?]. exists (String b ""). split_and!; try done; [by eapply Hw; [|exact E2]|].
    intros X. simpl. by rewrite E2, H. }
  destruct r as [|c r]; [done|]. unfold rune3.
  destruct (within 224 239 a && within _ _ b && is_cont c) eqn:E3.
  { intros [= <- <-]. pose proof E3 as E3'. apply andb_true_iff in E3 as [[E3 ?]%andb_true_iff ?].
    exists (String b (String c "")). split_and!; try done; [by eapply Hw; [|exact E3]|].
    intros X. simpl. by rewrite E2, E3'. }
  destruct r as [|d r]; [done|]. unfold rune4.
  destruct (within 240 244 a && within _ _ b && is_cont c && is_cont d) eqn:E4; [|done].
  intros [= <- <-]. pose proof E4 as E4'. apply andb_true_iff in E4 as [[[E4 ?]%andb_true_iff ?]%andb_true_iff ?].
  exists (String b (String c (String d ""))). split_and!; try done; [by eapply Hw; [|exact E4]|].
  intros X. simpl. by rewrite E2, E3, E4'.
Qed.

(** The separators U+2028 and U+2029 are escaped, other runes copied. *)
Lemma dec_chunk a c' X fuel : 128 <= code a ->
  (forall Y, rune a (c' ++ Y) = Some (String a c', Y)) ->
  dec_body (S fuel) ((if String.eqb (String a c') line_sep then String backslash "u2028"
                     else if String.eqb (String a c') para_sep then String backslash "u2029"
                     else String a c') ++ X)
  = (fun x => (String a c' ++ x.1, x.2)%string) <$> dec_body fuel X.
Proof.
  intros Ha Hr. destruct (String.eqb_spec (String a c') line_sep) as [->|_]; [reflexivity|].
  destruct (String.eqb_spec (String a c') para_sep) as [->|_]; [reflexivity|].
  cbn [String.append dec_body]. rewrite (proj2 (Z.eqb_neq _ _)), (proj2 (Z.eqb_neq _ _)) by lia.
  rewrite (proj2 (Z.ltb_ge _ _)), (proj2 (Z.ltb_ge _ _)) by lia. by rewrite Hr.
Qed.

Lemma enc_body_spec n s : (String.length s <= n)%nat -> valid_utf8_loop n s = true ->
  (String.length s <= String.length (enc_body n s))%nat /\
  forall rest f, (String.length s < f)%nat -> dec_body f (enc_body n s ++ String quote rest) = Some (s, rest).
Proof.
  revert s. induction n as [|n IH]; intros s Hl Hv.
  - destruct s; [|simpl in Hl; lia]. split; [done|]. intros rest [|f] Hf; [lia|done].
  - destruct s as [|a r]; [split; [done|]; intros rest [|f] Hf; [lia|done]|].
    cbn [String.length] in *. cbn [valid_utf8_loop] in Hv. cbn [enc_body].
    destruct (Z.ltb_spec (code a) 128) as [Ha|Ha].
    + destruct (IH r) as [IH1 IH2]; [lia|done|]. rewrite str_length_app.
      assert (1 <= String.length (esc a))%nat by (unfold esc; repeat case_match; simpl; lia).
      split; [lia|]. intros rest [|f] Hf; [lia|]. rewrite str_app_assoc, dec_esc by done.
      rewrite IH2 by lia. done.
    + destruct (rune a r) as [[chunk r']|] eqn:Er; [|done].
      apply rune_app in Er as (c' & -> & -> & Hne & _ & Hr). rewrite str_length_app in *.
      destruct (IH r') as [IH1 IH2]; [destruct c'; simpl in *; lia|done|]. split.
      * rewrite str_length_app. destruct (String.eqb_spec (String a c') line_sep) as [E|_].
        { apply (f_equal String.length) in E. cbn in E. cbn. lia. }
        destruct (String.eqb_spec (String a c') para_sep) as [E|_]; [apply (f_equal String.length) in E; cbn in E; cbn; lia|].
        cbn. lia.
      * intros rest [|f] Hf; [lia|]. rewrite str_app_assoc, dec_chunk by done.
        rewrite IH2 by (destruct c'; simpl in *; lia). simpl. done.
Qed.

Lemma dec_enc_string s rest : valid_utf8 s = true ->
  exists t, enc_string s = String quote t /\ dec_string (t ++ rest) = Some (s, rest).
Proof.
  intros Hv. destruct (enc_body_spec (String.length s) s (le_n _) Hv) as [H1 H2].
  eexists. split; [done|]. unfold dec_string. rewrite str_app_assoc. simpl. apply H2.
  rewrite str_length_app. simpl. lia.
Qed.

(** ** Numbers *)

(** What may follow a value: the end, a delimiter or a newline *)
Definition delim (s : string) : Prop :=
  match s with EmptyString => True | String c _ => c = ","%char \/ c = "]"%char \/ c = "}"%char \/ c = chr 10 end.

Lemma digits_app s rest d r : delim rest -> digits s = (d, r) -> digits (s ++ rest) = (d, (r ++ rest)%string).
Proof.
  intros Hd. revert d r. induction s as [|c s IH]; intros d r; cbn.
  - intros [= <- <-]. destruct rest as [|c rest]; [done|]. by destruct Hd as [->|[->|[->| ->]]].
  - destruct (is_digit c); [|by intros [= <- <-]]. destruct (digits s) as [d' r'].
    intros [= <- <-]. by rewrite (IH d' r').
Qed.

Lemma digits1_app s rest d r : delim rest -> digits1 s = Some (d, r) -> digits1 (s ++ rest) = Some (d, (r ++ rest)%string).
Proof.
  intros Hd. unfold digits1. destruct (digits s) as [d' r'] eqn:E. rewrite (digits_app _ _ _ _ Hd E).
  destruct d'; [done|]. by intros [= <- <-].
Qed.

Lemma num_int_app s rest d r : delim rest -> num_int s = Some (d, r) -> num_int (s ++ rest) = Some (d, (r ++ rest)%string).
Proof.
  intros Hd. destruct s as [|c s]; [done|].
  assert (Hcase : (exists c' s', String c s = String "0" s' /\ c' = c) \/ forall X, num_int (String c X) = digits1 (String c X)).
  { destruct (Ascii.eqb_spec c "0"%char) as [->|Hc]; [eauto|]. right. intros X.
    destruct c as [[] [] [] [] [] [] [] []]; try reflexivity; done. }
  destruct Hcase as [(c' & s' & [= -> ->] & _)|Hcase]; [by intros [= <- <-]|].
  change (String c s ++ rest)%string with (String c (s ++ rest)). rewrite !Hcase.
  intros E. by apply (digits1_app (String c s)).
Qed.

Lemma num_frac_app s rest d r : delim rest -> num_frac s = Some (d, r) -> num_frac (s ++ rest) = Some (d, (r ++ rest)%string).
Proof.
  intros Hd. destruct s as [|c s].
  - intros [= <- <-]. destruct rest as [|c rest]; [done|]. by destruct Hd as [->|[->|[->| ->]]].
  - change (String c s ++ rest)%string with (String c (s ++ rest)).
    destruct (Ascii.eqb_spec c "."%char) as [->|Hc].
    + cbn. intros ([d' r'] & E & [= -> ->])%fmap_Some. by rewrite (digits1_app _ _ _ _ Hd E).
    + destruct c as [[] [] [] [] [] [] [] []]; try (intros [= <- <-]; reflexivity); done.
Qed.

Lemma num_exp_app s rest d r : delim rest -> num_exp s = Some (d, r) -> num_exp (s ++ rest) = Some (d, (r ++ rest)%string).
Proof.
  intros Hd. destruct s as [|c s].
  - intros [= <- <-]. destruct rest as [|c rest]; [done|]. by destruct Hd as [->|[->|[->| ->]]].
  - cbn. destruct (_ || _); [|by intros [= <- <-]]. destruct s as [|g s]; [done|]. cbn. destruct (_ || _).
    + intros ([d' r'] & E & [= -> ->])%fmap_Some. by rewrite (digits1_app _ _ _ _ Hd E).
    + intros ([d' r'] & E & [= -> ->])%fmap_Some.
      change (String g (s ++ rest)) with (String g s ++ rest)%string. by rewrite (digits1_app _ _ _ _ Hd E).
Qed.

(** A literal that is a whole number is read back before any delimiter. *)
Definition num_ok (lit : string) : Prop := dec_number lit = Some (lit, ""%string).

Lemma dec_number_app lit rest : delim rest -> num_ok lit -> dec_number (lit ++ rest) = Some (lit, rest).
Proof.
  intros Hd. unfold num_ok, dec_number.
  assert (Hsign : exists sg s1, match lit with String "-" r => ("-"%string, r) | _ => (""%string, lit) end = (sg, s1) /\
    lit = (sg ++ s1)%string /\ (lit <> ""%string ->
    match (lit ++ rest)%string with String "-" r => ("-"%string, r) | _ => (""%string, (lit ++ rest)%string) end
      = (sg, (s1 ++ rest)%string))).
  { destruct lit as [|c l]; [by exists ""%string, ""%string|].
    destruct c as [[] [] [] [] [] [] [] []]; do 2 eexists;
      (split; [reflexivity|split; [reflexivity|intros _; reflexivity]]). }
  destruct Hsign as (sg & s1 & E1 & Elit & E2). rewrite E1.
  destruct (num_int s1) as [[i s2]|] eqn:Ei; [|done].
  destruct (num_frac s2) as [[f s3]|] eqn:Ef; [|done].
  destruct (num_exp s3) as [[e s4]|] eqn:Ee; [|done]. intros [= Hl ->].
  rewrite E2 by (intros ->; by destruct sg, s1).
  rewrite (num_int_app _ _ _ _ Hd Ei), (num_frac_app _ _ _ _ Hd Ef), (num_exp_app _ _ _ _ Hd Ee). cbn. by rewrite Hl.
Qed.

Lemma digits_uint d : digits (NilEmpty.string_of_uint d) = (NilEmpty.string_of_uint d, ""%string).
Proof. induction d as [|d IH|d IH|d IH|d IH|d IH|d IH|d IH|d IH|d IH|d IH]; cbn; [done|by rewrite IH..]. Qed.

Lemma nzhead_not_D0 d d' : Decimal.nzhead d <> Decimal.D0 d'.
Proof. induction d; simpl; try done; by intros [=]. Qed.

Lemma num_int_uint d : Decimal.unorm d = d ->
  num_int (NilZero.string_of_uint d) = Some (NilZero.string_of_uint d, ""%string).
Proof.
  intros Hn. destruct d as [|d|d|d|d|d|d|d|d|d|d]; [done| |..].
  2-10: cbn; unfold digits1; cbn; by rewrite digits_uint.
  - unfold Decimal.unorm in Hn. simpl in Hn. destruct (Decimal.nzhead d) eqn:E; try done.
    + by injection Hn as <-.
    + exfalso. by eapply nzhead_not_D0.
Qed.

Lemma lit_of_int_ok z : num_ok (lit_of_int z).
Proof.
  unfold num_ok, lit_of_int. pose proof (DecimalZ.to_of (Z.to_int z)) as Hn. rewrite DecimalZ.of_to in Hn.
  destruct (Z.to_int z) as [d|d] eqn:E.
  - cbn in Hn. injection Hn as Hn. cbn [NilZero.string_of_int].
    pose proof (num_int_uint d (eq_sym Hn)) as Hi. unfold dec_number.
    replace (match NilZero.string_of_uint d with String "-" r => ("-"%string, r) | _ => (""%string, NilZero.string_of_uint d) end)
      with (""%string, NilZero.string_of_uint d) by (by destruct d).
    rewrite Hi. cbn. by rewrite str_app_nil_r.
  - cbn [NilZero.string_of_int]. cbn in Hn. destruct (Decimal.nzhead d) as [|d'|d'|d'|d'|d'|d'|d'|d'|d'|d'] eqn:En; try done; injection Hn as Hn.
    all: assert (Hi : num_int (NilZero.string_of_uint d) = Some (NilZero.string_of_uint d, ""%string))
           by (apply num_int_uint; unfold Decimal.unorm; by rewrite En).
    all: unfold dec_number; rewrite Hi; cbn; by rewrite str_app_nil_r.
Qed.

Lemma int_of_lit_of_int z : in_int64 z -> int_of_lit (lit_of_int z) = Some z.
Proof.
  intros [H1 H2]. unfold int_of_lit, lit_of_int.
  assert (Hz : exists d, NilZero.int_of_string (NilZero.string_of_int (Z.to_int z)) = Some d /\ Z.of_int d = z).
  { exists (Z.to_int z). split; [|apply DecimalZ.of_to].
    pose proof (DecimalZ.to_of (Z.to_int z)) as Hn. rewrite DecimalZ.of_to in Hn.
    apply NilZero.isi; intros E; rewrite E in Hn; done. }
  destruct Hz as (d & -> & ->). rewrite (proj2 (Z.leb_le _ _)), (proj2 (Z.leb_le _ _)) by done. done.
Qed.

(** ** Values survive printing and parsing *)

Section json_ind.
Variable P : json -> Prop.
Hypothesis P_null : P JNull.
Hypothesis P_bool : forall b, P (JBool b).
Hypothesis P_num : forall l, P (JNum l).
Hypothesis P_str : forall s, P (JStr s).
Hypothesis P_arr : forall vs, Forall P vs -> P (JArr vs).
Hypothesis P_obj : forall fs, Forall (fun kv => P kv.2) fs -> P (JObj fs).

Fixpoint json_ind' (j : json) : P j :=
  match j with
  | JNull => P_null
  | JBool b => P_bool b
  | JNum l => P_num l
  | JStr s => P_str s
  | JArr vs => P_arr vs ((fix go vs := match vs return Forall P vs with
                                       | [] => Forall_nil_2 _
                                       | v :: vs => Forall_cons_2 _ _ _ (json_ind' v) (go vs) end) vs)
  | JObj fs => P_obj fs ((fix go fs := match fs return Forall (fun kv => P kv.2) fs with
                                       | [] => Forall_nil_2 _
                                       | kv :: fs => Forall_cons_2 (fun kv => P kv.2) _ _ (json_ind' kv.2) (go fs) end) fs)
  end.
End json_ind.

(** Strings are valid UTF-8, number literals are numbers. *)
Fixpoint json_ok (j : json) : Prop :=
  match j with
  | JNull | JBool _ => True
  | JNum lit => num_ok lit
  | JStr s => valid_utf8 s = true
  | JArr vs => fold_right (fun v acc => json_ok v /\ acc) True vs
  | JObj fs => fold_right (fun kv acc => (valid_utf8 kv.1 = true /\ json_ok kv.2) /\ acc) True fs
  end.

(** Fuel and nesting a value needs *)
Fixpoint jfuel (j : json) : nat :=
  match j with
  | JArr vs => S (fold_right (fun v acc => S (jfuel v + acc)) 0 vs)%nat
  | JObj fs => S (fold_right (fun kv acc => S (jfuel kv.2 + acc)) 0 fs)%nat
  | _ => 1%nat
  end.
Fixpoint jdepth (j : json) : N :=
  match j with
  | JArr vs => (1 + fold_right (fun v acc => N.max (jdepth v) acc) 0 vs)%N
  | JObj fs => (1 + fold_right (fun kv acc => N.max (jdepth kv.2) acc) 0 fs)%N
  | _ => 0%N
  end.

Definition parses (j : json) : Prop :=
  forall fuel depth rest, json_ok j -> (jfuel j <= fuel)%nat -> (depth + jdepth j <= max_depth)%N -> delim rest ->
    parse_value fuel depth (print j ++ rest) = Some (j, rest).

(** The first byte of a printed value: never white space or a closing bracket *)
Definition starts_value (s : string) : Prop :=
  match s with
  | EmptyString => False
  | String c _ => skip_ws s = s /\ c <> "]"%char /\ c <> "}"%char
  end.

Lemma num_ok_head lit : num_ok lit -> exists c r, lit = String c r /\ ((code c =? 45) || is_digit c) = true.
Proof.
  unfold num_ok, dec_number. destruct lit as [|c r]; [done|]. intros H. exists c, r. split; [done|].
  destruct c as [[] [] [] [] [] [] [] []]; first [reflexivity|discriminate H].
Qed.

Lemma print_starts j rest : json_ok j -> starts_value (print j ++ rest).
Proof.
  destruct j as [|[]|lit|s|vs|fs]; try done. intros (c & r & -> & Hc)%num_ok_head.
  cbn. destruct c as [[] [] [] [] [] [] [] []]; first [discriminate Hc|done].
Qed.

Lemma strip_other c c' s : c <> c' -> strip_prefix (String c' "") (String c s) = None.
Proof. intros Hc. cbn. by rewrite (proj2 (Ascii.eqb_neq _ _)). Qed.

Lemma parses_num lit : parses (JNum lit).
Proof.
  intros [|fuel] depth rest Hok Hf _ Hd; [cbn in Hf; lia|]. cbn [print json_ok] in *.
  pose proof (dec_number_app _ _ Hd Hok) as Hn. apply num_ok_head in Hok as (c & r & -> & Hc).
  change (String c r ++ rest)%string with (String c (r ++ rest)) in *. cbn [parse_value].
  assert (Hs : skip_ws (String c (r ++ rest)) = String c (r ++ rest) /\ (code c =? 123) = false /\
    (code c =? 91) = false /\ (code c =? 34) = false).
  { destruct c as [[] [] [] [] [] [] [] []]; first [discriminate Hc|done]. }
  destruct Hs as (-> & -> & -> & ->). rewrite Hc, Hn. done.
Qed.

Lemma parses_str s : parses (JStr s).
Proof.
  intros [|fuel] depth rest Hok Hf _ Hd; [cbn in Hf; lia|]. cbn [print json_ok] in *.
  destruct (dec_enc_string s rest Hok) as (t & -> & Ht).
  cbn [parse_value String.append skip_ws]. change (code quote) with 34. cbn [Z.eqb Pos.eqb orb]. by rewrite Ht.
Qed.

(** What the elements of a list need together *)
Definition elems_fuel (vs : list json) : nat := fold_right (fun v acc => S (jfuel v + acc)) 0%nat vs.
Definition elems_depth (vs : list json) : N := fold_right (fun v acc => N.max (jdepth v) acc) 0%N vs.

Lemma parse_elements_print vs v fuel depth rest :
  Forall parses (v :: vs) -> json_ok (JArr (v :: vs)) -> (elems_fuel (v :: vs) <= fuel)%nat ->
  (depth + elems_depth (v :: vs) <= max_depth)%N ->
  parse_elements fuel depth (join "," (map print (v :: vs)) ++ "]" ++ rest) = Some (v :: vs, rest).
Proof.
  revert v fuel. induction vs as [|w vs IH]; intros v fuel [Hv Hvs]%Forall_cons [Hok Hoks] Hf Hd.
  - destruct fuel as [|fuel]; [cbn in Hf; lia|]. cbn [map join parse_elements elems_fuel elems_depth fold_right] in *.
    rewrite Hv; [done|done|lia|lia|]. right. by left.
  - destruct fuel as [|fuel]; [cbn in Hf; lia|].
    cbn [elems_fuel elems_depth fold_right] in *. fold (elems_fuel vs) in *. fold (elems_depth vs) in *.
    change (join "," (map print (v :: w :: vs))) with (print v ++ "," ++ join "," (map print (w :: vs)))%string.
    rewrite !str_app_assoc. cbn [parse_elements]. rewrite Hv; [|done|lia|lia|by left].
    change (skip_ws ("," ++ ?x)%string) with (String "," x). cbv iota beta.
    rewrite IH; [done|done|done|cbn [elems_fuel fold_right]; fold (elems_fuel vs); lia|].
    cbn [elems_depth fold_right]. fold (elems_depth vs). lia.
Qed.

Definition members_fuel (fs : list (string * json)) : nat := fold_right (fun kv acc => S (jfuel kv.2 + acc)) 0%nat fs.
Definition members_depth (fs : list (string * json)) : N := fold_right (fun kv acc => N.max (jdepth kv.2) acc) 0%N fs.
Definition print_member (kv : string * json) : string := (enc_string kv.1 ++ ":" ++ print kv.2)%string.

Lemma parse_member_print kv fuel depth rest :
  parses kv.2 -> valid_utf8 kv.1 = true -> json_ok kv.2 -> (jfuel kv.2 <= fuel)%nat ->
  (depth + jdepth kv.2 <= max_depth)%N -> delim rest ->
  parse_members (S fuel) depth (print_member kv ++ rest)
  = match skip_ws rest with
    | String "," r => (fun x => (kv :: x.1, x.2)) <$> parse_members fuel depth r
    | String "}" r => Some ([kv], r)
    | _ => None
    end.
Proof.
  intros Hv Hk Hok Hf Hd Hr. destruct kv as [k v]. unfold print_member. cbn [fst snd] in *. rewrite !str_app_assoc.
  destruct (dec_enc_string k (":" ++ print v ++ rest)%string Hk) as (t & -> & Ht).
  cbn [parse_members]. change (skip_ws (String quote t ++ ?x)%string) with (String quote (t ++ x)). cbv iota beta.
  change (code quote =? 34) with true. cbv iota. rewrite Ht.
  change (skip_ws (":" ++ ?x)%string) with (String ":" x). cbv iota beta. by rewrite Hv.
Qed.

Lemma parse_members_print fs kv fuel depth rest :
  Forall (fun kv => parses kv.2) (kv :: fs) -> json_ok (JObj (kv :: fs)) -> (members_fuel (kv :: fs) <= fuel)%nat ->
  (depth + members_depth (kv :: fs) <= max_depth)%N ->
  parse_members fuel depth (join "," (map print_member (kv :: fs)) ++ "}" ++ rest) = Some (kv :: fs, rest).
Proof.
  revert kv fuel. induction fs as [|kw fs IH]; intros kv fuel [Hv Hvs]%Forall_cons [[Hk Hok] Hoks] Hf Hd.
  - destruct fuel as [|fuel]; [cbn in Hf; lia|]. cbn [map join members_fuel members_depth fold_right] in *.
    rewrite parse_member_print; [done|done|done|done|lia|lia|]. by right; right; left.
  - destruct fuel as [|fuel]; [cbn in Hf; lia|].
    cbn [members_fuel members_depth fold_right] in *. fold (members_fuel fs) in *. fold (members_depth fs) in *.
    change (join "," (map print_member (kv :: kw :: fs))) with
      (print_member kv ++ "," ++ join "," (map print_member (kw :: fs)))%string.
    rewrite !str_app_assoc. rewrite parse_member_print; [|done|done|done|lia|lia|by left].
    change (skip_ws ("," ++ ?x)%string) with (String "," x). cbv iota beta.
    rewrite IH; [done|done|done|cbn [members_fuel fold_right]; fold (members_fuel fs); lia|].
    cbn [members_depth fold_right]. fold (members_depth fs). lia.
Qed.

Lemma elements_start v vs rest : json_ok v -> starts_value (join "," (map print (v :: vs)) ++ rest).
Proof.
  intros Hok. destruct vs as [|w vs]; [by apply print_starts|].
  change (join "," (map print (v :: w :: vs))) with (print v ++ "," ++ join "," (map print (w :: vs)))%string.
  rewrite !str_app_assoc. by apply print_starts.
Qed.

Lemma members_start kv fs rest : starts_value (join "," (map print_member (kv :: fs)) ++ rest).
Proof. by destruct fs. Qed.

Lemma parses_arr vs : Forall parses vs -> parses (JArr vs).
Proof.
  intros IH [|fuel] depth rest Hok Hf Hd Hr; [cbn in Hf; lia|]. cbn [jfuel jdepth print] in *. rewrite !str_app_assoc.
  change ("[" ++ ?x)%string with (String "[" x). cbn [parse_value].
  change (skip_ws (String "[" ?x)) with (String "[" x). cbv iota beta.
  change (code "[" =? 123) with false. change (code "[" =? 91) with true. cbv iota. rewrite (proj2 (N.ltb_lt _ _)) by lia.
  destruct vs as [|v vs]; [done|].
  assert (Hp := parse_elements_print vs v fuel (depth + 1) rest IH Hok ltac:(unfold elems_fuel; lia) ltac:(unfold elems_depth; lia)).
  pose proof (elements_start v vs ("]" ++ rest)%string (proj1 Hok)) as Hs.
  destruct (join "," (map print (v :: vs)) ++ "]" ++ rest)%string as [|c s]; [done|].
  destruct Hs as (-> & Hc & _). rewrite strip_other by done. by rewrite Hp.
Qed.

Lemma parses_obj fs : Forall (fun kv => parses kv.2) fs -> parses (JObj fs).
Proof.
  intros IH [|fuel] depth rest Hok Hf Hd Hr; [cbn in Hf; lia|]. cbn [jfuel jdepth print] in *.
  change (map (fun kv => enc_string kv.1 ++ ":" ++ print kv.2)%string fs) with (map print_member fs).
  rewrite !str_app_assoc. change ("{" ++ ?x)%string with (String "{" x). cbn [parse_value].
  change (skip_ws (String "{" ?x)) with (String "{" x). cbv iota beta.
  change (code "{" =? 123) with true. cbv iota. rewrite (proj2 (N.ltb_lt _ _)) by lia.
  destruct fs as [|kv fs]; [done|].
  assert (Hp := parse_members_print fs kv fuel (depth + 1) rest IH Hok ltac:(unfold members_fuel; lia) ltac:(unfold members_depth; lia)).
  pose proof (members_start kv fs ("}" ++ rest)%string) as Hs.
  destruct (join "," (map print_member (kv :: fs)) ++ "}" ++ rest)%string as [|c s]; [done|].
  destruct Hs as (-> & _ & Hc). rewrite strip_other by done. by rewrite Hp.
Qed.

Lemma print_parses j : parses j.
Proof.
  induction j as [|b|l|s|vs IH|fs IH] using json_ind'.
  - intros [|fuel] depth rest _ Hf _ _; [cbn in Hf; lia|]. reflexivity.
  - intros [|fuel] depth rest _ Hf _ _; [cbn in Hf; lia|]. by destruct b.
  - apply parses_num.
  - apply parses_str.
  - apply parses_arr, IH.
  - apply parses_obj, IH.
Qed.

(** *** The fuel of [parse] is enough *)

Lemma join_length (l : list string) : (sum_list_with String.length l <= String.length (join "," l))%nat.
Proof.
  induction l as [|x [|y l] IH]; [done|simpl; lia|].
  change (join "," (x :: y :: l)) with (x ++ "," ++ join "," (y :: l))%string.
  rewrite !str_length_app. cbn [sum_list_with] in *. change (String.length ",") with 1%nat. lia.
Qed.

Lemma print_fuel j : json_ok j -> (1 <= String.length (print j) /\ jfuel j < 2 * String.length (print j))%nat.
Proof.
  induction j as [|[]|l|s|vs IH|fs IH] using json_ind'; intros Hok; try (cbn; lia).
  - apply num_ok_head in Hok as (c & r & -> & _). cbn. lia.
  - cbn [print jfuel]. rewrite !str_length_app. pose proof (join_length (map print vs)) as Hj.
    assert (elems_fuel vs <= 2 * sum_list_with String.length (map print vs))%nat; [|unfold elems_fuel in *; cbn; lia].
    clear Hj. induction vs as [|v vs IHv]; [done|]. apply Forall_cons in IH as [Hv Hvs]. destruct Hok as [Hok Hoks].
    specialize (IHv Hvs Hoks). specialize (Hv Hok). cbn [elems_fuel fold_right map sum_list_with]. fold (elems_fuel vs). lia.
  - cbn [print jfuel]. change (map (fun kv => enc_string kv.1 ++ ":" ++ print kv.2)%string fs) with (map print_member fs).
    rewrite !str_length_app. pose proof (join_length (map print_member fs)) as Hj.
    assert (members_fuel fs <= 2 * sum_list_with String.length (map print_member fs))%nat; [|unfold members_fuel in *; cbn; lia].
    clear Hj. induction fs as [|kv fs IHv]; [done|]. apply Forall_cons in IH as [Hv Hvs]. destruct Hok as [[_ Hok] Hoks].
    specialize (IHv Hvs Hoks). specialize (Hv Hok). cbn [members_fuel fold_right map sum_list_with]. fold (members_fuel fs).
    unfold print_member at 1. rewrite !str_length_app. lia.
Qed.

(** JSON round trip.  Every value with valid UTF-8 strings, well-formed
    number literals and nesting within the limit is read back exactly from
    its printed form, both as a whole document and as the first value of a
    stream that goes on with a delimiter. *)
Lemma json_roundtrip j rest :
  json_ok j -> (jdepth j <= max_depth)%N -> delim rest ->
  parse (print j) = Some j /\ parse_first (print j ++ rest) = Some j.
Proof.
  intros Hok Hd Hr. pose proof (print_fuel j Hok) as [_ Hf]. unfold parse, parse_first, fuel_for. split.
  - rewrite <- (str_app_nil_r (print j)) at 2. rewrite print_parses; [done|done|lia|lia|done].
  - rewrite print_parses; [done|done|rewrite str_length_app; lia|lia|done].
Qed.

(** ** Structs read back *)

Lemma parse_print j : json_ok j -> (jdepth j <= max_depth)%N -> parse (print j) = Some j.
Proof. intros Hok Hd. by destruct (json_roundtrip j "" Hok Hd I). Qed.

Lemma parse_print_ws j ws : json_ok j -> (jdepth j <= max_depth)%N -> delim ws -> skip_ws ws = ""%string ->
  parse (print j ++ ws)%string = Some j.
Proof.
  intros Hok Hd Hw Hs. pose proof (print_fuel j Hok) as [_ Hf]. unfold parse, fuel_for.
  rewrite print_parses; [by rewrite Hs|done|rewrite str_length_app; lia|lia|done].
Qed.

(** Looking a field up by its name, the names evaluated *)
Lemma field_cons name k v fs :
  field name ((k, v) :: fs) = if String.eqb (fold_name k) (fold_name name) then v :: field name fs else field name fs.
Proof. unfold field. simpl. by destruct (String.eqb _ _). Qed.

Ltac field_step :=
  rewrite field_cons;
  match goal with
  | |- context [String.eqb (fold_name ?a) (fold_name ?b)] =>
      let e := eval vm_compute in (String.eqb (fold_name a) (fold_name b)) in
      replace (String.eqb (fold_name a) (fold_name b)) with e by (vm_compute; reflexivity); cbv iota
  end.
Ltac fields := repeat field_step; change (field _ []) with (@nil json); cbn [as_string as_int as_strings].

Lemma strings_json_ok l : Forall (fun a => valid_utf8 a = true) l ->
  fold_right (fun v acc => json_ok v /\ acc) True (JStr <$> l) /\
  (fold_right (fun v acc => N.max (jdepth v) acc) 0 (JStr <$> l) = 0)%N /\ strings_of (JStr <$> l) = Some l.
Proof.
  induction 1 as [|a l Ha _ (IH1 & IH2 & IH3)]; [done|]. cbn. rewrite IH2, IH3. done.
Qed.

(** ** Printed values fit on a line *)

Fixpoint no_ctl (s : string) : bool :=
  match s with EmptyString => true | String c s => (32 <=? code c) && no_ctl s end.

Lemma no_ctl_app a b : no_ctl (a ++ b)%string = no_ctl a && no_ctl b.
Proof. induction a as [|c a IH]; cbn; [done|]. rewrite IH. by destruct (32 <=? code c). Qed.

Lemma esc_no_ctl c : no_ctl (esc c) = true.
Proof. destruct c as [[] [] [] [] [] [] [] []]; reflexivity. Qed.

Lemma rune_no_ctl a r chunk r' : rune a r = Some (chunk, r') -> no_ctl chunk = true.
Proof.
  assert (Hw : forall lo hi c, 128 <= lo -> within lo hi c = true -> (32 <=? code c) = true).
  { intros lo hi c Hlo. unfold within. rewrite andb_true_iff, !Z.leb_le. lia. }
  unfold rune, rune2, rune3, rune4. intros E. repeat (case_match; try done); simplify_eq; cbn;
    repeat match goal with H : _ && _ = true |- _ => apply andb_true_iff in H as [? ?] end;
    rewrite ?andb_true_iff; unfold is_cont in *; split_and!; try done;
    (eapply Hw; [|eassumption]; try lia; case_match; lia).
Qed.

Lemma enc_body_no_ctl n s : no_ctl (enc_body n s) = true.
Proof.
  revert s. induction n as [|n IH]; intros [|a r]; cbn [enc_body]; try done.
  destruct (code a <? 128); [by rewrite no_ctl_app, esc_no_ctl, IH|].
  destruct (rune a r) as [[chunk r']|] eqn:E; rewrite no_ctl_app, IH, andb_true_r; [|done].
  repeat case_match; try done. by eapply rune_no_ctl.
Qed.

Lemma enc_string_no_ctl s : no_ctl (enc_string s) = true.
Proof. unfold enc_string. cbn. by rewrite no_ctl_app, enc_body_no_ctl. Qed.

Lemma join_no_ctl l : Forall (fun s => no_ctl s = true) l -> no_ctl (join "," l) = true.
Proof.
  induction l as [|x [|y l] IH]; [done|by intros [? _]%Forall_cons|]. intros [Hx Hl]%Forall_cons.
  change (join "," (x :: y :: l)) with (x ++ "," ++ join "," (y :: l))%string.
  by rewrite !no_ctl_app, Hx, IH.
Qed.

(** Number literals free of control bytes *)
Fixpoint lits_plain (j : json) : Prop :=
  match j with
  | JNum lit => no_ctl lit = true
  | JArr vs => fold_right (fun v acc => lits_plain v /\ acc) True vs
  | JObj fs => fold_right (fun kv acc => lits_plain kv.2 /\ acc) True fs
  | _ => True
  end.

Lemma print_no_ctl j : lits_plain j -> no_ctl (print j) = true.
Proof.
  induction j as [|[]|l|s|vs IH|fs IH] using json_ind'; intros Hp; try done.
  - apply enc_string_no_ctl.
  - cbn [print]. rewrite !no_ctl_app, join_no_ctl; [done|]. clear -IH Hp.
    induction IH as [|v vs Hv _ IHv]; constructor; destruct Hp; auto.
  - cbn [print]. rewrite !no_ctl_app, join_no_ctl; [done|]. clear -IH Hp.
    induction IH as [|kv fs Hv _ IHv]; constructor; destruct Hp; [|auto].
    by rewrite !no_ctl_app, enc_string_no_ctl, Hv.
Qed.

Lemma uint_no_ctl d : no_ctl (NilEmpty.string_of_uint d) = true.
Proof. induction d; cbn; done. Qed.

Lemma lit_of_int_no_ctl z : no_ctl (lit_of_int z) = true.
Proof.
  unfold lit_of_int. destruct (Z.to_int z) as [d|d]; cbn [NilZero.string_of_int].
  - pose proof (uint_no_ctl d). by destruct d.
  - pose proof (uint_no_ctl d). by destruct d.
Qed.
