(* ===== verification/Utf8.v ===== *)
(** * Valid UTF-8 as a sequence of runes

    An inductive view of [valid_utf8], and that what Go's string functions and
    its JSON decoder make of valid strings is valid. *)

From Stdlib Require Import Ascii String.
From Stdlib Require Import DecimalString.
From S2P Require Import Prelude.
From stdpp Require Import list.
From S2P Require Import GoStrings NetIP NetIPFacts GoURL GoJSON.
Local Open Scope Z_scope.

#[local] Arguments String.append : simpl nomatch.

(** One rune: an ASCII byte, or a lead byte with its continuation bytes *)
Definition is_rune (c : string) : Prop :=
  match c with
  | EmptyString => False
  | String a r => code a < 128 /\ r = ""%string \/ 128 <= code a /\ rune a r = Some (c, ""%string)
  end.

Inductive Utf8 : string -> Prop :=
| Utf8_nil : Utf8 ""
| Utf8_cons c s : is_rune c -> Utf8 s -> Utf8 (c ++ s).

#[local] Hint Constructors Utf8 : core.

Lemma rune_is_rune a r chunk r' : rune a r = Some (chunk, r') -> is_rune chunk /\ String a r = (chunk ++ r')%string.
Proof.
  intros E. destruct (rune_app a r chunk r' E) as (c' & -> & -> & _ & Ha & Hr). split; [|done]. right. split; [done|].
  pose proof (Hr ""%string) as H. by rewrite str_app_nil_r in H.
Qed.

Lemma is_rune_app c s : is_rune c -> exists a r, (c ++ s)%string = String a r /\
  (code a < 128 /\ r = s \/ 128 <= code a /\ rune a r = Some (c, s)).
Proof.
  destruct c as [|a r]; [done|]. intros [[Ha ->]|[Ha Hr]]; exists a; eexists; (split; [done|]); [by left|right]. split; [done|].
  destruct (rune_app _ _ _ _ Hr) as (c' & [= <-] & _ & _ & _ & Hx). apply Hx.
Qed.

Lemma is_rune_nonempty c : is_rune c -> (0 < String.length c)%nat.
Proof. destruct c; [done|]. simpl. lia. Qed.

Lemma valid_loop_iff n s : (String.length s <= n)%nat -> valid_utf8_loop n s = true <-> Utf8 s.
Proof.
  revert s. induction n as [|n IH]; intros s Hl.
  { destruct s; simpl in Hl; [|lia]. split; [by constructor|done]. }
  destruct s as [|a r]; [split; [by constructor|done]|]. simpl in Hl. cbn [valid_utf8_loop]. split.
  - destruct (Z.ltb_spec (code a) 128) as [Ha|Ha].
    + intros H%IH; [|lia]. apply (Utf8_cons (String a "")); [by left|done].
    + destruct (rune a r) as [[chunk r']|] eqn:E; [|done]. destruct (rune_is_rune _ _ _ _ E) as [Hc Es]. intros H%IH.
      * rewrite Es. by constructor.
      * pose proof (is_rune_nonempty _ Hc). apply (f_equal String.length) in Es. rewrite str_length_app in Es. simpl in Es. lia.
  - intros H. inversion H as [|c s' Hc Hs' Es]. destruct (is_rune_app c s' Hc) as (a' & r' & E' & Hcase). rewrite Es in E'. injection E' as -> ->.
    pose proof (is_rune_nonempty _ Hc). assert (String.length s' <= n)%nat.
    { apply (f_equal String.length) in Es. rewrite str_length_app in Es. simpl in Es. lia. }
    destruct Hcase as [[Ha ->]|[Ha Hr]].
    + rewrite (proj2 (Z.ltb_lt _ _)) by lia. by apply IH.
    + rewrite (proj2 (Z.ltb_ge _ _)), Hr by lia. by apply IH.
Qed.

Lemma valid_utf8_iff s : valid_utf8 s = true <-> Utf8 s.
Proof. by apply valid_loop_iff. Qed.

Lemma Utf8_app a b : Utf8 a -> Utf8 b -> Utf8 (a ++ b).
Proof. induction 1 as [|c s Hc _ IH]; intros Hb; [done|]. rewrite str_app_assoc. by auto. Qed.

Lemma valid_app a b : valid_utf8 a = true -> valid_utf8 b = true -> valid_utf8 (a ++ b) = true.
Proof. rewrite !valid_utf8_iff. apply Utf8_app. Qed.

(** ASCII *)
Fixpoint plain (s : string) : bool := match s with EmptyString => true | String a s => (code a <? 128) && plain s end.

Lemma plain_Utf8 s : plain s = true -> Utf8 s.
Proof.
  induction s as [|a s IH]; [done|]. cbn [plain]. rewrite andb_true_iff, Z.ltb_lt. intros [Ha Hs].
  apply (Utf8_cons (String a "")); [by left|auto].
Qed.

Lemma plain_app a b : plain (a ++ b) = plain a && plain b.
Proof. induction a as [|x a IH]; [done|]. cbn [String.append plain]. by rewrite IH, andb_assoc. Qed.

Lemma plain_uint d : plain (NilEmpty.string_of_uint d) = true.
Proof. induction d; cbn [NilEmpty.string_of_uint plain]; by rewrite ?IHd. Qed.

Lemma plain_lit z : plain (lit_of_int z) = true.
Proof.
  unfold lit_of_int. destruct (Z.to_int z) as [d|d]; cbn [NilZero.string_of_int].
  - pose proof (plain_uint d). by destruct d.
  - pose proof (plain_uint d). by destruct d.
Qed.

(** The bytes of a printed integer *)
Definition digits_ok (p : ascii -> bool) : bool := forallb (fun d => p (dec_digit d)) [0; 1; 2; 3; 4; 5; 6; 7; 8; 9].

Lemma lit_of_int_all p z : digits_ok p && p "-"%char = true -> all_bytes p (lit_of_int z) = true.
Proof.
  intros [Hd Hm]%andb_true_iff. unfold digits_ok in Hd. cbn [forallb] in Hd. rewrite !andb_true_iff in Hd.
  destruct Hd as (H0 & H1 & H2 & H3 & H4 & H5 & H6 & H7 & H8 & H9 & _).
  assert (Hu : forall u, all_bytes p (NilEmpty.string_of_uint u) = true)
    by (intros u; induction u; [done|..]; cbn [NilEmpty.string_of_uint all_bytes]; rewrite IHu, andb_true_r; assumption).
  assert (Hz : forall u, all_bytes p (NilZero.string_of_uint u) = true)
    by (intros u; destruct u; [cbn [NilZero.string_of_uint all_bytes]; by rewrite andb_true_r|..]; exact (Hu _)).
  unfold lit_of_int, NilZero.string_of_int. destruct (Z.to_int z); [apply Hz|]. cbn [all_bytes]. by rewrite Hm, Hz.
Qed.

(** ** Trimming *)

Lemma is_rune_unique c1 s1 c2 s2 : is_rune c1 -> is_rune c2 -> (c1 ++ s1 = c2 ++ s2)%string -> c1 = c2 /\ s1 = s2.
Proof.
  intros H1 H2 E. destruct (is_rune_app c1 s1 H1) as (a & r & E1 & C1), (is_rune_app c2 s2 H2) as (a' & r' & E2 & C2).
  rewrite <- E, E1 in E2. injection E2 as <- <-. destruct C1 as [[Ha ->]|[Ha Hr]], C2 as [[Ha' ->]|[Ha' Hr']]; try lia.
  - split; [|done]. rewrite E1 in E. destruct c1 as [|x c1]; [done|]. destruct H1 as [[_ ->]|[? _]]; [|injection E1 as -> _; lia].
    destruct c2 as [|y c2]; [done|]. destruct H2 as [[_ ->]|[? _]]; [|injection E as -> _; lia].
    injection E1 as ->. by injection E as ->.
  - rewrite Hr in Hr'. by injection Hr' as -> ->.
Qed.

Lemma Utf8_drop p r : is_rune p -> Utf8 (p ++ r) -> Utf8 r.
Proof.
  intros Hp H. inversion H as [E|c s Hc Hs E]; [destruct p; done|]. by destruct (is_rune_unique _ _ _ _ Hc Hp E) as [-> ->].
Qed.

(** The bytes after the first are continuation bytes; the first is not one. *)
Fixpoint all_cont (s : string) : bool := match s with EmptyString => true | String a s => is_cont a && all_cont s end.

Lemma rune_cont a r : rune a r = Some (String a r, ""%string) -> all_cont r = true /\ 192 <= code a.
Proof.
  assert (Hw : forall lo hi x, within lo hi x = true -> 128 <= lo -> hi <= 191 -> is_cont x = true).
  { intros lo hi x. unfold is_cont, within. rewrite !andb_true_iff, !Z.leb_le. lia. }
  assert (Ha : forall lo hi, within lo hi a = true -> 192 <= lo -> 192 <= code a).
  { intros lo hi. unfold within. rewrite andb_true_iff, !Z.leb_le. lia. }
  unfold rune. destruct (rune2 a r) as [x|] eqn:E2; [|destruct (rune3 a r) as [x|] eqn:E3].
  - intros [= ->]. unfold rune2 in E2. destruct r as [|b r]; [done|]. destruct (_ && _) eqn:E; [|done]. simplify_eq/=.
    apply andb_true_iff in E as [E1 E]. rewrite E. split; [done|by eapply Ha].
  - intros [= ->]. unfold rune3 in E3. destruct r as [|b [|c r]]; [done..|]. destruct (_ && _) eqn:E; [|done]. simplify_eq/=.
    apply andb_true_iff in E as [[E1 Eb]%andb_true_iff E]. rewrite E, (Hw _ _ _ Eb); [split; [done|by eapply Ha]|repeat case_match; lia..].
  - unfold rune4. destruct r as [|b [|c [|d r]]]; [done..|]. destruct (_ && _) eqn:E; [|done]. intros ?. simplify_eq/=.
    apply andb_true_iff in E as [[[E1 Eb]%andb_true_iff Ec]%andb_true_iff E].
    rewrite E, Ec, (Hw _ _ _ Eb); [split; [done|by eapply Ha]|repeat case_match; lia..].
Qed.

Lemma is_rune_bytes a r : is_rune (String a r) -> all_cont r = true /\ is_cont a = false.
Proof.
  unfold is_cont, within. intros [[Ha ->]|[_ Hr]].
  - split; [done|]. apply andb_false_iff. left. apply Z.leb_gt. lia.
  - destruct (rune_cont a r Hr) as [Hc Ha]. split; [done|]. apply andb_false_iff. right. apply Z.leb_gt. lia.
Qed.

Lemma str_split_cases x p c s : (x ++ p = c ++ s)%string ->
  (exists x', x = (c ++ x')%string /\ s = (x' ++ p)%string) \/ (exists c2, c2 <> ""%string /\ c = (x ++ c2)%string /\ p = (c2 ++ s)%string).
Proof.
  revert c. induction x as [|a x IH]; intros c E; simpl in E.
  - destruct c as [|b c]; [left; by exists ""%string|]. right. by exists (String b c).
  - destruct c as [|b c]; [left; by exists (String a x)|]. injection E as -> E. destruct (IH c E) as [(x' & -> & ->)|(c2 & ? & -> & ->)]; [left|right]; eauto.
Qed.

Lemma all_cont_app x y : all_cont (x ++ y) = all_cont x && all_cont y.
Proof. induction x as [|a x IH]; [done|]. cbn [String.append all_cont]. by rewrite IH, andb_assoc. Qed.

Lemma Utf8_take x p : is_rune p -> Utf8 (x ++ p) -> Utf8 x.
Proof.
  intros Hp. remember (String.length x) as n eqn:Hn. revert x Hn. induction (lt_wf n) as [n _ IH]. intros x -> H.
  destruct x as [|a x]; [done|]. inversion H as [|c s Hc Hs E]. destruct (str_split_cases (String a x) p c s (eq_sym E)) as [(x' & Ex & ->)|(c2 & Hne & -> & ->)].
  - rewrite Ex. constructor; [done|]. apply (IH (String.length x')); [|done|done]. rewrite Ex, str_length_app. pose proof (is_rune_nonempty _ Hc). lia.
  - exfalso. destruct c2 as [|b c2]; [done|]. apply is_rune_bytes in Hc as [Hc _]. apply is_rune_bytes in Hp as [_ Hb].
    rewrite all_cont_app in Hc. simpl in Hc. apply andb_true_iff in Hc as [_ Hc]. by rewrite Hb in Hc.
Qed.

Lemma spaces_are_runes : Forall is_rune space_encodings.
Proof.
  unfold space_encodings. repeat (apply Forall_cons; split; [first [left; split; [vm_compute; reflexivity|reflexivity]
    | right; split; [vm_compute; discriminate|vm_compute; reflexivity]]|]). constructor.
Qed.

Lemma Utf8_trim_left n s : Utf8 s -> Utf8 (strip_all space_encodings n s).
Proof.
  revert s. induction n as [|n IH]; intros s Hs; [done|]. cbn [strip_all]. destruct (strip_any space_encodings s) as [r|] eqn:E; [|done].
  apply strip_any_Some in E as (p & Hp & ->). apply IH. eapply Utf8_drop; [|exact Hs]. by eapply Forall_forall; [apply spaces_are_runes|].
Qed.

Lemma Utf8_trim_right n s : Utf8 (str_rev s) -> Utf8 (str_rev (strip_all (str_rev <$> space_encodings) n s)).
Proof.
  revert s. induction n as [|n IH]; intros s Hs; [done|]. cbn [strip_all]. destruct (strip_any (str_rev <$> space_encodings) s) as [r|] eqn:E; [|done].
  apply strip_any_Some in E as (p & Hp & ->). apply list_elem_of_fmap in Hp as (q & -> & Hq). apply IH.
  rewrite str_rev_app, str_rev_involutive in Hs. eapply Utf8_take; [|exact Hs]. by eapply Forall_forall; [apply spaces_are_runes|].
Qed.

Lemma Utf8_TrimSpace s : Utf8 s -> Utf8 (TrimSpace s).
Proof. intros Hs. unfold TrimSpace, trim_right. apply Utf8_trim_right. rewrite str_rev_involutive. by apply Utf8_trim_left. Qed.

Lemma valid_TrimSpace s : valid_utf8 s = true -> valid_utf8 (TrimSpace s) = true.
Proof. rewrite !valid_utf8_iff. apply Utf8_TrimSpace. Qed.

(** ** What the JSON decoder produces *)

Definition scalar (v : Z) : Prop := 0 <= v < 55296 \/ 57344 <= v < 1114112.

Lemma code_chr z : 0 <= z < 256 -> code (chr z) = z.
Proof. intros Hz. unfold code, chr. rewrite nat_ascii_embedding; lia. Qed.

Lemma within_chr lo hi z : 0 <= z < 256 -> lo <= z <= hi -> within lo hi (chr z) = true.
Proof. intros Hz Hr. unfold within. rewrite code_chr by done. apply andb_true_iff. rewrite !Z.leb_le. lia. Qed.

Lemma within_chr_false lo hi z : 0 <= z < 256 -> (z < lo \/ hi < z) -> within lo hi (chr z) = false.
Proof. intros Hz Hr. unfold within. rewrite code_chr by done. apply andb_false_iff. rewrite !Z.leb_gt. lia. Qed.

Ltac div_lia := Z.div_mod_to_equations; lia.

Lemma encode_rune v : scalar v -> is_rune (utf8_encode v).
Proof.
  intros Hv. unfold scalar in Hv. unfold utf8_encode. destruct (Z.ltb_spec v 128).
  { left. rewrite code_chr by lia. split; [lia|done]. }
  destruct (Z.ltb_spec v 2048); [|destruct (Z.ltb_spec v 65536)]; right; (split; [rewrite code_chr by div_lia; div_lia|]); unfold rune, rune2, is_cont.
  - rewrite !within_chr by div_lia. done.
  - rewrite (within_chr_false 194 223) by div_lia. cbn [andb]. unfold rune3, is_cont. rewrite code_chr by div_lia.
    rewrite (within_chr 224 239) by div_lia. rewrite (within_chr _ _ (128 + v / 64 mod 64)) by (repeat case_match; div_lia).
    rewrite within_chr by div_lia. done.
  - rewrite (within_chr_false 194 223) by div_lia. cbn [andb]. unfold rune3. rewrite (within_chr_false 224 239) by div_lia. cbn [andb].
    unfold rune4, is_cont. rewrite code_chr by div_lia. rewrite (within_chr 240 244) by div_lia.
    rewrite (within_chr _ _ (128 + v / 4096 mod 64)) by (repeat case_match; div_lia). rewrite !within_chr by div_lia. done.
Qed.

Lemma hex_val_bound c v : hex_val c = Some v -> 0 <= v < 16.
Proof. unfold hex_val. repeat case_match; intros [= <-]; rewrite ?andb_true_iff, ?Z.leb_le in *; lia. Qed.

Lemma hex4_range a b c d v : hex4_val a b c d = Some v -> 0 <= v < 65536.
Proof.
  unfold hex4_val. repeat case_match; try done. intros [= <-].
  repeat match goal with H : hex_val _ = Some _ |- _ => apply hex_val_bound in H end. lia.
Qed.

Lemma unicode_escape_scalar a b c d r v r' : unicode_escape a b c d r = Some (v, r') -> scalar v.
Proof.
  unfold unicode_escape, scalar. destruct (hex4_val a b c d) as [x|] eqn:Ex; [|done]. apply hex4_range in Ex.
  destruct ((55296 <=? x) && (x <? 57344)) eqn:E.
  - apply andb_true_iff in E as [E1%Z.leb_le E2%Z.ltb_lt]. destruct r as [|b1 [|u [|a' [|b' [|c' [|d' r]]]]]]; try (intros [= <- _]; lia).
    destruct (hex4_val a' b' c' d') as [w|]; [|intros [= <- _]; lia]. destruct (_ && (w <? 57344)) eqn:Ew; intros [= <- _]; [|lia].
    rewrite !andb_true_iff, !Z.leb_le, !Z.ltb_lt in Ew. lia.
  - intros [= <- _]. apply andb_false_iff in E. rewrite Z.leb_gt, Z.ltb_ge in E. lia.
Qed.

Lemma dec_body_Utf8 n s x r : dec_body n s = Some (x, r) -> Utf8 x.
Proof.
  revert s x r. induction n as [|n IH]; intros s x r; [done|]. cbn [dec_body]. destruct s as [|a s]; [done|].
  assert (Hput : forall c s', Utf8 c -> (fun x => ((c ++ x.1)%string, x.2)) <$> dec_body n s' = Some (x, r) -> Utf8 x).
  { intros c s' Hc. destruct (dec_body n s') as [[y r']|] eqn:E; [|done]. intros [= <- _]. apply Utf8_app; [done|by eapply IH]. }
  destruct (code a =? 34); [intros [= <- _]; constructor|]. destruct (code a =? 92).
  { destruct s as [|e s]; [done|]. destruct (code e =? 117).
    - destruct s as [|h1 [|h2 [|h3 [|h4 s]]]]; [done..|]. destruct (unicode_escape h1 h2 h3 h4 s) as [[v r']|] eqn:Ev; [|done].
      apply Hput. rewrite <- str_app_nil_r. constructor; [|constructor]. by eapply encode_rune, unicode_escape_scalar.
    - destruct (simple_escape e) as [c|] eqn:Ee; [|done]. apply (Hput (String c "")). apply plain_Utf8. unfold simple_escape in Ee.
      assert (code c < 128) as Hc.
      { repeat case_match; simplify_eq; try (rewrite code_chr by lia; lia). rewrite !orb_true_iff, !Z.eqb_eq in *. lia. }
      simpl. rewrite (proj2 (Z.ltb_lt _ _)) by done. done. }
  destruct (code a <? 32); [done|]. destruct (Z.ltb_spec (code a) 128).
  - apply (Hput (String a "")). apply plain_Utf8. simpl. by rewrite (proj2 (Z.ltb_lt _ _)).
  - destruct (rune a s) as [[chunk s']|] eqn:Er.
    + apply Hput. rewrite <- str_app_nil_r. constructor; [|constructor]. by apply rune_is_rune in Er as [? _].
    + apply Hput. rewrite <- str_app_nil_r. constructor; [|constructor]. apply encode_rune. unfold scalar. lia.
Qed.

(** Every string of a value *)
Fixpoint jstrings (j : json) : Prop :=
  match j with
  | JStr s => Utf8 s
  | JArr vs => fold_right (fun v acc => jstrings v /\ acc) True vs
  | JObj fs => fold_right (fun kv acc => jstrings kv.2 /\ acc) True fs
  | _ => True
  end.

Lemma parse_strings n :
  (forall d s j r, parse_value n d s = Some (j, r) -> jstrings j) /\
  (forall d s l r, parse_elements n d s = Some (l, r) -> jstrings (JArr l)) /\
  (forall d s l r, parse_members n d s = Some (l, r) -> jstrings (JObj l)).
Proof.
  induction n as [|n (IHv & IHe & IHm)]; [done|]. split_and!.
  - intros d s j r. cbn [parse_value]. destruct (skip_ws s) as [|c s']; [done|]. destruct (code c =? 123).
    { destruct (N.ltb d max_depth); [|done]. destruct (strip_prefix "}" _); [by intros [= <- _]|].
      destruct (parse_members n _ s') as [[l r']|] eqn:E; [|done]. intros [= <- _]. by eapply IHm. }
    destruct (code c =? 91).
    { destruct (N.ltb d max_depth); [|done]. destruct (strip_prefix "]" _); [by intros [= <- _]|].
      destruct (parse_elements n _ s') as [[l r']|] eqn:E; [|done]. intros [= <- _]. by eapply IHe. }
    destruct (code c =? 34).
    { destruct (dec_string s') as [[x r']|] eqn:E; [|done]. intros [= <- _]. by eapply dec_body_Utf8. }
    destruct (_ || _); [destruct (dec_number _) as [[x r']|]; [|done]; by intros [= <- _]|].
    destruct (strip_prefix "true" _); [by intros [= <- _]|]. destruct (strip_prefix "false" _); [by intros [= <- _]|].
    destruct (strip_prefix "null" _); [|done]. by intros [= <- _].
  - intros d s l r. cbn [parse_elements]. destruct (parse_value n d s) as [[v r1]|] eqn:Ev; [|done]. apply IHv in Ev.
    destruct (skip_ws r1) as [|c r2]; [done|].
    assert (Hmore : (fun x => (v :: x.1, x.2)) <$> parse_elements n d r2 = Some (l, r) -> jstrings (JArr l)).
    { destruct (parse_elements n d r2) as [[l' r']|] eqn:E; [|done]. intros [= <- _]. split; [done|by eapply IHe]. }
    assert (Hlast : Some ([v], r2) = Some (l, r) -> jstrings (JArr l)) by (by intros [= <- _]).
    repeat case_match; try done; by auto.
  - intros d s l r. cbn [parse_members]. destruct (skip_ws s) as [|q s']; [done|]. destruct (code q =? 34); [|done].
    destruct (dec_string s') as [[k r0]|]; [|done]. destruct (skip_ws r0) as [|c0 r0']; [done|].
    assert (Hrest : match parse_value n d r0' with
      | None => None
      | Some (v, r) => match skip_ws r with
          | String "," r => (fun x => ((k, v) :: x.1, x.2)) <$> parse_members n d r
          | String "}" r => Some ([(k, v)], r) | _ => None end end = Some (l, r) -> jstrings (JObj l)).
    { destruct (parse_value n d r0') as [[v r1]|] eqn:Ev; [|done]. apply IHv in Ev. destruct (skip_ws r1) as [|c r2]; [done|].
      assert (Hmore : (fun x => ((k, v) :: x.1, x.2)) <$> parse_members n d r2 = Some (l, r) -> jstrings (JObj l)).
      { destruct (parse_members n d r2) as [[l' r']|] eqn:E; [|done]. intros [= <- _]. split; [done|by eapply IHm]. }
      assert (Hlast : Some ([(k, v)], r2) = Some (l, r) -> jstrings (JObj l)) by (by intros [= <- _]).
      repeat case_match; try done; by auto. }
    repeat case_match; try done; by auto.
Qed.

Lemma parse_first_strings s j : parse_first s = Some j -> jstrings j.
Proof.
  unfold parse_first. destruct (parse_value (fuel_for s) 0 s) as [[v r]|] eqn:E; [|done]. intros [= <-]. by eapply parse_strings.
Qed.

(** Fields of a struct *)
Lemma field_strings name fs : jstrings (JObj fs) -> Forall jstrings (field name fs).
Proof.
  intros H. unfold field. induction fs as [|[k v] fs IH]; [constructor|]. destruct H as [Hv H]. simpl.
  destruct (String.eqb _ _); [constructor; [done|]|]; by apply IH.
Qed.

Lemma as_string_Utf8 acc vs x : Utf8 acc -> Forall jstrings vs -> as_string acc vs = Some x -> Utf8 x.
Proof.
  intros Ha Hv. revert acc Ha. induction Hv as [|v vs Hv _ IH]; intros acc Ha; [by intros [= <-]|].
  destruct v; try done; simpl; by apply IH.
Qed.

Lemma field_Utf8 name fs x : jstrings (JObj fs) -> as_string "" (field name fs) = Some x -> valid_utf8 x = true.
Proof. intros Hf E. apply valid_utf8_iff. eapply as_string_Utf8; [constructor|by apply field_strings|exact E]. Qed.

Lemma struct_strings j fs : jstrings j -> struct_fields j = Some fs -> jstrings (JObj fs).
Proof. destruct j; try done; intros H [= <-]; done. Qed.

(** ** Numbers in decimal *)

Lemma plain_digit z : (code (dec_digit (z mod 10)) <? 128) = true.
Proof.
  pose proof (Z.mod_pos_bound z 10 ltac:(lia)). apply Z.ltb_lt. change (dec_digit (z mod 10)) with (chr (48 + z mod 10)). rewrite code_chr; lia.
Qed.
