(* ===== verification/GoBase64.v ===== *)
(** * [encoding/base64]: [StdEncoding]

    The gate encodes a ciphertext with it and the payment authority decodes
    it.  A string is a sequence of bytes; three of them are a 24-bit number,
    of which each symbol of the alphabet carries six bits. *)

From Stdlib Require Import ZArith Lia Ascii String.
From S2P Require Import Prelude.
From stdpp Require Import list.
From S2P Require Import GoStrings GoURL GoJSON Utf8.
Local Open Scope Z_scope.
Local Open Scope string_scope.

#[local] Arguments String.append : simpl nomatch.

Definition alphabet : string := "ABCDEFGHIJKLMNOPQRSTUVWXYZabcdefghijklmnopqrstuvwxyz0123456789+/".

(** The symbol of the low six bits *)
Definition sym (v : Z) : ascii := default "A"%char (String.get (Z.to_nat (Z.land v 63)) alphabet).

(** [decodeMap] *)
Definition symVal (c : ascii) : option Z :=
  if within 65 90 c then Some (code c - 65)
  else if within 97 122 c then Some (code c - 71)
  else if within 48 57 c then Some (code c + 4)
  else if Ascii.eqb c "+" then Some 62
  else if Ascii.eqb c "/" then Some 63
  else None.

Definition pack3 (a b c : Z) : Z := Z.lor (Z.lor (Z.shiftl a 16) (Z.shiftl b 8)) c.
Definition pack4 (x y z w : Z) : Z := Z.lor (Z.lor (Z.lor (Z.shiftl x 18) (Z.shiftl y 12)) (Z.shiftl z 6)) w.

(** [EncodeToString] *)
Fixpoint base64Encode (s : string) : string :=
  match s with
  | String a (String b (String c s)) =>
      let v := pack3 (code a) (code b) (code c) in
      String (sym (Z.shiftr v 18)) (String (sym (Z.shiftr v 12)) (String (sym (Z.shiftr v 6)) (String (sym v) (base64Encode s))))
  | String a (String b EmptyString) =>
      let v := pack3 (code a) (code b) 0 in
      String (sym (Z.shiftr v 18)) (String (sym (Z.shiftr v 12)) (String (sym (Z.shiftr v 6)) "="))
  | String a EmptyString =>
      let v := pack3 (code a) 0 0 in String (sym (Z.shiftr v 18)) (String (sym (Z.shiftr v 12)) "==")
  | EmptyString => ""
  end.

Definition isBreak (c : ascii) : bool := Ascii.eqb c (chr 10) || Ascii.eqb c (chr 13).

(** The decoder skips line breaks wherever they are. *)
Fixpoint dropBreaks (s : string) : string :=
  match s with
  | EmptyString => ""
  | String c s => if isBreak c then dropBreaks s else String c (dropBreaks s)
  end.

Definition byteOf (v : Z) : ascii := chr (Z.land v 255).

(** Groups of four symbols; padding ends the input.  The bits a padded group
    has too many are ignored. *)
Fixpoint decodeQuanta (s : string) : option string :=
  match s with
  | EmptyString => Some ""
  | String a (String b (String c (String d s))) =>
      x ← symVal a; y ← symVal b;
      if Ascii.eqb c "=" then
        if Ascii.eqb d "=" && String.eqb s "" then Some (String (byteOf (Z.shiftr (pack4 x y 0 0) 16)) "") else None
      else
        z ← symVal c;
        if Ascii.eqb d "=" then
          if String.eqb s "" then
            let v := pack4 x y z 0 in Some (String (byteOf (Z.shiftr v 16)) (String (byteOf (Z.shiftr v 8)) ""))
          else None
        else
          w ← symVal d; rest ← decodeQuanta s;
          let v := pack4 x y z w in
          Some (String (byteOf (Z.shiftr v 16)) (String (byteOf (Z.shiftr v 8)) (String (byteOf v) rest)))
  | _ => None
  end.

(** [DecodeString] *)
Definition base64Decode (s : string) : option string := decodeQuanta (dropBreaks s).

Example encode_ex : base64Encode "Man!" = "TWFuIQ==".
Proof. vm_compute. reflexivity. Qed.
Example decode_ex : base64Decode (String (chr 10) ("TWFu" ++ String (chr 13) "IQ==")) = Some "Man!".
Proof. vm_compute. reflexivity. Qed.
Example decode_bad : base64Decode "TWFuIQ" = None /\ base64Decode "TW=uIQ==" = None /\ base64Decode "TQ==TQ==" = None.
Proof. vm_compute. done. Qed.

(** ** The round trip *)

Lemma lor_shiftl x y n : 0 <= n -> 0 <= y < 2 ^ n -> Z.lor (Z.shiftl x n) y = x * 2 ^ n + y.
Proof.
  intros Hn Hy. rewrite <-Z.shiftl_mul_pow2 by done.
  assert (Hd : Z.land (Z.shiftl x n) y = 0); [|by rewrite Z.add_nocarry_lxor, Z.lxor_lor].
  apply Z.bits_inj'; intros k Hk. rewrite Z.land_spec, Z.bits_0. destruct (Z.lt_ge_cases k n); [by rewrite Z.shiftl_spec_low|].
  destruct (Z.eq_dec y 0) as [->|]; [by rewrite Z.bits_0, andb_false_r|].
  rewrite (Z.bits_above_log2 y); [apply andb_false_r|lia|apply Z.lt_le_trans with n; [apply Z.log2_lt_pow2; lia|done]].
Qed.

Lemma pack3_sum a b c : 0 <= b < 256 -> 0 <= c < 256 -> pack3 a b c = a * 65536 + b * 256 + c.
Proof.
  intros Hb Hc. unfold pack3. change 16 with (8 + 8). rewrite <-Z.shiftl_shiftl, <-Z.shiftl_lor by lia.
  rewrite !lor_shiftl by lia. lia.
Qed.

Lemma pack4_sum x y z w : 0 <= y < 64 -> 0 <= z < 64 -> 0 <= w < 64 -> pack4 x y z w = x * 262144 + y * 4096 + z * 64 + w.
Proof.
  intros Hy Hz Hw. unfold pack4. change 18 with (6 + 6 + 6). change 12 with (6 + 6).
  rewrite <-!Z.shiftl_shiftl, <-!Z.shiftl_lor, !lor_shiftl by lia. lia.
Qed.

(** Visible ASCII *)
Definition graphic (c : ascii) : bool := within 33 126 c.

(** What reading a symbol needs of it: its value, and that it is neither
    padding nor a line break. *)
Lemma symVal_sym v : symVal (sym v) = Some (v mod 64) /\ Ascii.eqb (sym v) "=" = false /\ isBreak (sym v) = false /\ graphic (sym v) = true.
Proof.
  unfold sym. change 63 with (Z.ones 6). rewrite Z.land_ones by lia. change (2 ^ 6) with 64.
  pose proof (Z.mod_pos_bound v 64 ltac:(lia)) as Hv. set (u := v mod 64) in *. clearbody u.
  assert (Hall : forall n, (n < 64)%nat -> let c := default "A"%char (String.get n alphabet) in
    symVal c = Some (Z.of_nat n) /\ Ascii.eqb c "=" = false /\ isBreak c = false /\ graphic c = true).
  { do 64 (intros [|n]; [intros _; vm_compute; done|revert n; intros n Hn; apply Nat.succ_lt_mono in Hn; revert n Hn]). lia. }
  destruct (Hall (Z.to_nat u) ltac:(lia)) as (H1 & H2). by rewrite Z2Nat.id in H1 by lia.
Qed.

(** The quantum: four symbols of three bytes give the bytes back. *)
Lemma quantum a b c : 0 <= a < 256 -> 0 <= b < 256 -> 0 <= c < 256 ->
  let v := pack3 a b c in
  let u := pack4 (Z.shiftr v 18 mod 64) (Z.shiftr v 12 mod 64) (Z.shiftr v 6 mod 64) (v mod 64) in
  u = v /\ Z.land (Z.shiftr v 16) 255 = a /\ Z.land (Z.shiftr v 8) 255 = b /\ Z.land v 255 = c /\
  (b = 0 -> c = 0 -> Z.shiftr v 6 mod 64 = 0) /\ (c = 0 -> v mod 64 = 0).
Proof.
  intros Ha Hb Hc v u. assert (Ev : v = a * 65536 + b * 256 + c) by (by apply pack3_sum).
  assert (Eu : u = v) by (unfold u; rewrite pack4_sum, !Z.shiftr_div_pow2 by (try apply Z.mod_pos_bound; lia); Z.to_euclidean_division_equations; lia).
  change 255 with (Z.ones 8). rewrite !Z.land_ones, !Z.shiftr_div_pow2 by lia. split; [exact Eu|]. clear Eu u.
  split_and!; intros; Z.to_euclidean_division_equations; lia.
Qed.

Lemma byteOf_code v c : Z.land v 255 = code c -> byteOf v = c.
Proof. intros E. unfold byteOf, chr, code in *. rewrite E, Nat2Z.id. apply ascii_nat_embedding. Qed.

Lemma string_ind3 (P : string -> Prop) : P "" -> (forall a, P (String a "")) -> (forall a b, P (String a (String b ""))) ->
  (forall a b c s, P s -> P (String a (String b (String c s)))) -> forall s, P s.
Proof.
  intros H0 H1 H2 H3 s. enough (P s /\ (forall a, P (String a s)) /\ forall a b, P (String a (String b s))) by tauto.
  induction s as [|c s (IH1 & IH2 & IH3)]; [done|]. split_and!; auto.
Qed.

(** The encoding has no line breaks. *)
Lemma encode_unbroken s : dropBreaks (base64Encode s) = base64Encode s.
Proof.
  induction s as [|a|a b|a b c s IH] using string_ind3; [done|..]; cbn [base64Encode dropBreaks]; cbv zeta;
    repeat (rewrite (proj1 (proj2 (proj2 (symVal_sym _)))); cbv iota); [done|done|by rewrite IH].
Qed.

Lemma base64_roundtrip s : base64Decode (base64Encode s) = Some s.
Proof.
  unfold base64Decode. rewrite encode_unbroken. pose proof (fun v => proj1 (symVal_sym v)) as Hv. pose proof (fun v => proj1 (proj2 (symVal_sym v))) as Hp.
  induction s as [|a|a b|a b c s IH] using string_ind3; [done|..]; cbn [base64Encode decodeQuanta]; rewrite !Hv; cbn [mbind option_bind].
  - destruct (quantum (code a) 0 0) as (E & Ha & _ & _ & Hz & Hw); [apply code_range|lia..|]. rewrite Hz, Hw in E by done.
    cbn [Ascii.eqb Bool.eqb andb String.eqb]. rewrite E. by rewrite (byteOf_code _ a).
  - destruct (quantum (code a) (code b) 0) as (E & Ha & Hb & _ & _ & Hw); [apply code_range|apply code_range|lia|]. rewrite Hw in E by done.
    rewrite Hp. cbn [Ascii.eqb Bool.eqb andb String.eqb]. by rewrite E, (byteOf_code _ a), (byteOf_code _ b).
  - destruct (quantum (code a) (code b) (code c)) as (E & Ha & Hb & Hc & _); [apply code_range..|]. rewrite !Hp, IH. cbn [mbind option_bind].
    by rewrite E, (byteOf_code _ a), (byteOf_code _ b), (byteOf_code _ c).
Qed.

(** ** Graphic text

    What JSON, UTF-8 and trimming leave as it is *)

Lemma graphic_plain s : all_bytes graphic s = true -> plain s = true.
Proof.
  induction s as [|c s IH]; [done|]. cbn [all_bytes plain]. unfold graphic, within. rewrite !andb_true_iff, !Z.leb_le, Z.ltb_lt.
  intros [Hc Hs]. split; [lia|by apply IH].
Qed.

Lemma graphic_utf8 s : all_bytes graphic s = true -> valid_utf8 s = true.
Proof. intros Hs. by apply valid_utf8_iff, plain_Utf8, graphic_plain. Qed.

Lemma all_bytes_rev p s : all_bytes p (str_rev s) = all_bytes p s.
Proof.
  induction s as [|c s IH]; [done|]. rewrite (str_rev_app (String c "") s : str_rev (String c s) = _), all_bytes_app, IH.
  cbn. rewrite andb_true_r. apply andb_comm.
Qed.

Lemma graphic_no_space c s : graphic c = true -> strip_any space_encodings (String c s) = None /\ strip_any (str_rev <$> space_encodings) (String c s) = None.
Proof.
  unfold graphic, within. intros [E1%Z.leb_le E2%Z.leb_le]%andb_true_iff.
  destruct c as [[] [] [] [] [] [] [] []]; (exfalso; vm_compute in E1, E2; congruence) || (split; reflexivity).
Qed.

Lemma TrimSpace_graphic s : all_bytes graphic s = true -> TrimSpace s = s.
Proof.
  intros Hs. assert (Hl : strip_any space_encodings s = None).
  { destruct s as [|c s]; [done|]. apply andb_true_iff in Hs as [Hc _]. exact (proj1 (graphic_no_space c s Hc)). }
  unfold TrimSpace. rewrite trim_left_id by done. unfold trim_right. rewrite strip_all_None; [apply str_rev_involutive|].
  rewrite <-(all_bytes_rev graphic s) in Hs. destruct (str_rev s) as [|c r]; [done|]. apply andb_true_iff in Hs as [Hc _]. exact (proj2 (graphic_no_space c r Hc)).
Qed.

Lemma base64_graphic s : all_bytes graphic (base64Encode s) = true.
Proof.
  induction s as [|a|a b|a b c s IH] using string_ind3; [done|..]; cbn [base64Encode all_bytes]; cbv zeta; rewrite !(proj2 (proj2 (proj2 (symVal_sym _)))); [done..|by rewrite IH].
Qed.
