(* ===== verification/GoTime.v ===== *)
(** * Go's time.Format and time.Parse at time.RFC3339Nano

    An instant is its nanoseconds since the Unix epoch, as everywhere in this
    development.  [Format] prints it in UTC; [Parse] accepts what Go's parser
    accepts for this layout, its leniencies included (an hour of one digit, a
    comma before the fraction, digits beyond the ninth, offsets up to 24:60).
    The calendar is the proleptic Gregorian one. *)

From Stdlib Require Import Ascii String.
From S2P Require Import Prelude.
From S2P Require Import GoStrings NetIP NetIPFacts GoJSON Utf8.
Local Open Scope Z_scope.

#[local] Arguments String.append : simpl nomatch.

(** ** The calendar *)

Record Date := mkDate { year : Z; month : Z; day : Z }.

Definition isLeap (y : Z) : bool := (y mod 4 =? 0) && (negb (y mod 100 =? 0) || (y mod 400 =? 0)).

Definition daysIn (m y : Z) : Z :=
  if m =? 2 then (if isLeap y then 29 else 28)
  else if (m =? 4) || (m =? 6) || (m =? 9) || (m =? 11) then 30 else 31.

(** Days since 1970-01-01.  The year is taken to start in March, so that the
    leap day is its last. *)
Definition daysOfDate (d : Date) : Z :=
  let y := if month d <=? 2 then year d - 1 else year d in
  let yoe := y mod 400 in
  let mp := if month d <=? 2 then month d + 9 else month d - 3 in
  y / 400 * 146097 + (365 * yoe + yoe / 4 - yoe / 100 + ((153 * mp + 2) / 5 + day d - 1)) - 719468.

(** The day and the month of a day of a year that starts in March *)
Definition monthDay (doy : Z) : Z * Z :=
  let mp := (5 * doy + 2) / 153 in
  (if mp <? 10 then mp + 3 else mp - 9, doy - (153 * mp + 2) / 5 + 1).

(** 400, 100, 4 and 1 years at a time *)
Definition dateOfDays (days : Z) : Date :=
  let z := days + 719468 in
  let doe := z mod 146097 in
  let c := Z.min 3 (doe / 36524) in
  let r := doe - 36524 * c in
  let q := r / 1461 in
  let r := r - 1461 * q in
  let k := Z.min 3 (r / 365) in
  let '(m, d) := monthDay (r - 365 * k) in
  let y := z / 146097 * 400 + 100 * c + 4 * q + k in
  mkDate (if m <=? 2 then y + 1 else y) m d.

(** ** Format *)

Definition second : Z := 1000000000.

(** [n] decimal digits of [z], leading zeros kept *)
Fixpoint digitsOf (n : nat) (z : Z) : string :=
  match n with
  | O => ""
  | S n => (digitsOf n (z / 10) ++ String (dec_digit (z mod 10)) "")%string
  end.

(** The fraction of a second without its trailing zeros *)
Fixpoint fracOf (n : nat) (z : Z) : string :=
  match n with
  | O => ""
  | S n => if z mod 10 =? 0 then fracOf n (z / 10) else digitsOf (S n) z
  end.

Definition formatFrac (nsec : Z) : string := if nsec =? 0 then "" else ("." ++ fracOf 9 nsec)%string.

(** For years of four digits *)
Definition Format (t : Z) : string :=
  let secs := t / second in
  let d := dateOfDays (secs / 86400) in
  let s := secs mod 86400 in
  (digitsOf 4 (year d) ++ "-" ++ digitsOf 2 (month d) ++ "-" ++ digitsOf 2 (day d) ++ "T" ++
   digitsOf 2 (s / 3600) ++ ":" ++ digitsOf 2 (s / 60 mod 60) ++ ":" ++ digitsOf 2 (s mod 60) ++
   formatFrac (t mod second) ++ "Z")%string.

(** ** Parse *)

(** [getnum]: one or two digits, two when [fixed] *)
Definition getnum (fixed : bool) (s : string) : option (Z * string) :=
  match s with
  | String a s =>
      match dec_val a with
      | None => None
      | Some x =>
          match s with
          | String b s' =>
              match dec_val b with
              | Some y => Some (10 * x + y, s')
              | None => if fixed then None else Some (x, s)
              end
          | EmptyString => if fixed then None else Some (x, s)
          end
      end
  | EmptyString => None
  end.

Fixpoint getdigits (n : nat) (acc : Z) (s : string) : option (Z * string) :=
  match n with
  | O => Some (acc, s)
  | S n =>
      match s with
      | String a s => match dec_val a with Some x => getdigits n (10 * acc + x) s | None => None end
      | EmptyString => None
      end
  end.

Definition skipByte (c : ascii) (s : string) : option string :=
  match s with
  | String a s => if Ascii.eqb a c then Some s else None
  | EmptyString => None
  end.

(** The digits of a fraction: those beyond the ninth are skipped. *)
Fixpoint getfrac (n : nat) (acc : Z) (s : string) : Z * string :=
  match s with
  | String a s' =>
      match dec_val a with
      | Some x => match n with O => getfrac O acc s' | S n => getfrac n (10 * acc + x) s' end
      | None => (acc * 10 ^ Z.of_nat n, s)
      end
  | EmptyString => (acc * 10 ^ Z.of_nat n, s)
  end.

Definition parseFrac (s : string) : Z * string :=
  match s with
  | String p (String a _ as s') =>
      if (Ascii.eqb p "." || Ascii.eqb p ",") && bool_decide (is_Some (dec_val a)) then getfrac 9 0 s' else (0, s)
  | _ => (0, s)
  end.

(** The offset from UTC in seconds *)
Definition parseZone (s : string) : option (Z * string) :=
  match s with
  | String a s' =>
      if Ascii.eqb a "Z" then Some (0, s')
      else
        '(hr, s1) ← getnum true s';
        s2 ← skipByte ":" s1;
        '(mm, s3) ← getnum true s2;
        if (24 <? hr) || (60 <? mm) then None
        else if Ascii.eqb a "+" then Some ((hr * 60 + mm) * 60, s3)
        else if Ascii.eqb a "-" then Some (- ((hr * 60 + mm) * 60), s3)
        else None
  | EmptyString => None
  end.

Definition Parse (s : string) : option Z :=
  '(y, s) ← getdigits 4 0 s; s ← skipByte "-" s;
  '(m, s) ← getnum true s; s ← skipByte "-" s;
  '(d, s) ← getnum true s; s ← skipByte "T" s;
  '(hh, s) ← getnum false s; s ← skipByte ":" s;
  '(mi, s) ← getnum true s; s ← skipByte ":" s;
  '(ss, s) ← getnum true s;
  let '(nsec, s) := parseFrac s in
  '(off, s) ← parseZone s;
  if negb (String.eqb s "") then None
  else if (m <=? 0) || (12 <? m) || (d <? 1) || (daysIn m y <? d) || (24 <=? hh) || (60 <=? mi) || (60 <=? ss) then None
  else Some ((daysOfDate (mkDate y m d) * 86400 + hh * 3600 + mi * 60 + ss - off) * second + nsec).

(** ** The calendar is exact *)

(** What the day of a March year gives back, checked day by day *)
Definition monthDay_check (doy : Z) : bool :=
  let '(m, d) := monthDay doy in
  (1 <=? m) && (m <=? 12) && (1 <=? d) && (d <=? (if m =? 2 then (if doy =? 365 then 29 else 28) else daysIn m 0)) &&
  ((153 * (if m <=? 2 then m + 9 else m - 3) + 2) / 5 + d - 1 =? doy).

Lemma monthDay_spec doy m d : 0 <= doy <= 365 -> monthDay doy = (m, d) ->
  1 <= m <= 12 /\ 1 <= d /\ d <= (if m =? 2 then (if doy =? 365 then 29 else 28) else daysIn m 0) /\
  (153 * (if m <=? 2 then m + 9 else m - 3) + 2) / 5 + d - 1 = doy.
Proof.
  intros Hd E. assert (Hc : forallb monthDay_check (seqZ 0 366) = true) by (vm_compute; reflexivity).
  rewrite forallb_forall in Hc. specialize (Hc doy). unfold monthDay_check in Hc. rewrite E in Hc.
  assert (Hin : List.In doy (seqZ 0 366)) by (apply list_elem_of_In, elem_of_seqZ; lia).
  specialize (Hc Hin). rewrite !andb_true_iff, !Z.leb_le, Z.eqb_eq in Hc. lia.
Qed.

(** The years of an era *)
Lemma era_split doe : 0 <= doe < 146097 ->
  let c := Z.min 3 (doe / 36524) in let r := doe - 36524 * c in
  let q := r / 1461 in let r := r - 1461 * q in let k := Z.min 3 (r / 365) in
  0 <= c <= 3 /\ 0 <= q <= 24 /\ 0 <= k <= 3 /\ 0 <= r - 365 * k <= 365 /\ (r - 365 * k = 365 -> k = 3 /\ (q = 24 -> c = 3)).
Proof. intros Hd c r q r' k. subst c r q r' k. Z.div_mod_to_equations. lia. Qed.

Lemma year_of_era y c q k n : 0 <= c <= 3 -> 0 <= q <= 24 -> 0 <= k <= 3 -> y = n * 400 + 100 * c + 4 * q + k ->
  y / 400 = n /\ y mod 400 = 100 * c + 4 * q + k /\ (100 * c + 4 * q + k) / 4 = 25 * c + q /\ (100 * c + 4 * q + k) / 100 = c.
Proof. intros. subst y. Z.div_mod_to_equations. lia. Qed.

Lemma leap_year c q n : 0 <= c <= 3 -> 0 <= q <= 24 -> (q = 24 -> c = 3) -> isLeap (n * 400 + 100 * c + 4 * q + 3 + 1) = true.
Proof.
  intros Hc Hq H24. unfold isLeap. apply andb_true_iff. split; [apply Z.eqb_eq; Z.div_mod_to_equations; lia|].
  apply orb_true_iff. destruct (Z.eqb_spec ((n * 400 + 100 * c + 4 * q + 3 + 1) mod 100) 0) as [E|E]; [right|by left].
  apply Z.eqb_eq. Z.div_mod_to_equations. lia.
Qed.

Lemma date_days days : let d := dateOfDays days in
  daysOfDate d = days /\ 1 <= month d <= 12 /\ 1 <= day d <= daysIn (month d) (year d).
Proof.
  unfold dateOfDays. set (z := days + 719468). pose proof (Z.mod_pos_bound z 146097 ltac:(lia)) as Hdoe.
  pose proof (Z.div_mod z 146097 ltac:(lia)) as Hz. destruct (era_split _ Hdoe) as (Hc & Hq & Hk & Hr & H365).
  set (doe := z mod 146097) in *. set (c := Z.min 3 (doe / 36524)) in *. set (q := (doe - 36524 * c) / 1461) in *.
  set (k := Z.min 3 ((doe - 36524 * c - 1461 * q) / 365)) in *. set (r := doe - 36524 * c - 1461 * q - 365 * k) in *.
  destruct (monthDay r) as [m d] eqn:Em. destruct (monthDay_spec r m d Hr Em) as (Hm & Hd1 & Hd2 & Hdoy).
  set (n := z / 146097) in *. destruct (year_of_era _ c q k n Hc Hq Hk eq_refl) as (Y1 & Y2 & Y3 & Y4).
  set (y := n * 400 + 100 * c + 4 * q + k) in *. cbn [year month day]. split; [|split; [lia|split; [lia|]]].
  - unfold daysOfDate. cbn [year month day].
    replace (if m <=? 2 then (if m <=? 2 then y + 1 else y) - 1 else (if m <=? 2 then y + 1 else y)) with y by (destruct (m <=? 2); lia).
    rewrite Y1, Y2, Y3, Y4. lia.
  - unfold daysIn in *. destruct (Z.eqb_spec m 2) as [->|Hne]; [|destruct (_ || _); lia]. change (2 <=? 2) with true. cbv iota.
    destruct (Z.eqb_spec r 365) as [E|E]; [|destruct (isLeap _); lia].
    destruct (H365 E) as [Ek H24]. unfold y. rewrite Ek, leap_year by done. lia.
Qed.

(** ** Printing and parsing agree *)

Lemma dec_val_mod z : dec_val (dec_digit (z mod 10)) = Some (z mod 10).
Proof. apply dec_val_digit, Z.mod_pos_bound. lia. Qed.

Lemma digits_bound n z : 0 <= z < 10 ^ Z.of_nat (S n) -> 0 <= z / 10 < 10 ^ Z.of_nat n.
Proof.
  rewrite Nat2Z.inj_succ, Z.pow_succ_r by lia. intros Hz. split; [apply Z.div_pos; lia|]. apply Z.div_lt_upper_bound; lia.
Qed.

Lemma digits_value acc n z : 10 * (acc * 10 ^ Z.of_nat n + z / 10) + z mod 10 = acc * 10 ^ Z.of_nat (S n) + z.
Proof. rewrite Nat2Z.inj_succ, Z.pow_succ_r by lia. pose proof (Z.div_mod z 10 ltac:(lia)). lia. Qed.

Lemma getdigits_print k n acc z rest : 0 <= z < 10 ^ Z.of_nat k ->
  getdigits (k + n) acc (digitsOf k z ++ rest) = getdigits n (acc * 10 ^ Z.of_nat k + z) rest.
Proof.
  revert n acc z rest. induction k as [|k IH]; intros n acc z rest Hz.
  - simpl in *. f_equal. lia.
  - cbn [digitsOf]. rewrite str_app_assoc. change (S k + n)%nat with (S (k + n)). rewrite plus_n_Sm, IH by (by apply digits_bound).
    cbn [getdigits String.append]. by rewrite dec_val_mod, digits_value.
Qed.

Lemma getfrac_print k n acc z rest : 0 <= z < 10 ^ Z.of_nat k ->
  getfrac (k + n) acc (digitsOf k z ++ rest) = getfrac n (acc * 10 ^ Z.of_nat k + z) rest.
Proof.
  revert n acc z rest. induction k as [|k IH]; intros n acc z rest Hz.
  - simpl in *. f_equal. lia.
  - cbn [digitsOf]. rewrite str_app_assoc. change (S k + n)%nat with (S (k + n)). rewrite plus_n_Sm, IH by (by apply digits_bound).
    cbn [getfrac String.append]. by rewrite dec_val_mod, digits_value.
Qed.

Lemma getnum_print fixed z rest : 0 <= z < 100 -> getnum fixed (digitsOf 2 z ++ rest) = Some (z, rest).
Proof.
  intros Hz. cbn [digitsOf String.append getnum]. rewrite !dec_val_mod. do 2 f_equal.
  rewrite (Z.mod_small (z / 10)) by (Z.div_mod_to_equations; lia). Z.div_mod_to_equations. lia.
Qed.

(** The fraction printed is that of some number of digits. *)
Lemma fracOf_spec n z : 0 < z < 10 ^ Z.of_nat n ->
  exists k i, (S k + i = n)%nat /\ fracOf n z = digitsOf (S k) (z / 10 ^ Z.of_nat i) /\
    z / 10 ^ Z.of_nat i * 10 ^ Z.of_nat i = z /\ 0 <= z / 10 ^ Z.of_nat i < 10 ^ Z.of_nat (S k).
Proof.
  revert z. induction n as [|n IH]; intros z Hz; [simpl in Hz; lia|]. cbn [fracOf]. destruct (Z.eqb_spec (z mod 10) 0) as [E|E].
  - pose proof (Z.div_mod z 10 ltac:(lia)) as Hd. pose proof (digits_bound n z ltac:(lia)) as Hb.
    destruct (IH (z / 10) ltac:(lia)) as (k & i & Hn & Hp & Hv & Hr). exists k, (S i).
    assert (Hdd : z / 10 ^ Z.of_nat (S i) = z / 10 / 10 ^ Z.of_nat i).
    { rewrite Nat2Z.inj_succ, Z.pow_succ_r, Z.div_div by lia. done. }
    rewrite Hdd. split_and!; [lia|done| |lia..]. rewrite Nat2Z.inj_succ, Z.pow_succ_r by lia. lia.
  - exists n, 0%nat. rewrite Z.div_1_r. split_and!; [lia|done|lia..].
Qed.

Lemma digitsOf_head k z : exists c s, digitsOf (S k) z = String c s /\ is_Some (dec_val c).
Proof.
  revert z. induction k as [|k IH]; intros z.
  - simpl. eexists _, _. split; [done|]. rewrite dec_val_mod. eauto.
  - destruct (IH (z / 10)) as (c & s & E & Hc). cbn [digitsOf] in *. rewrite E. simpl. eauto.
Qed.

Lemma parseFrac_print nsec : 0 <= nsec < second -> parseFrac (formatFrac nsec ++ "Z") = (nsec, "Z"%string).
Proof.
  intros Hn. unfold formatFrac. destruct (Z.eqb_spec nsec 0) as [->|Hne]; [done|].
  destruct (fracOf_spec 9 nsec) as (k & i & Hki & Hp & Hv & Hr); [unfold second in Hn; simpl; lia|].
  destruct (digitsOf_head k (nsec / 10 ^ Z.of_nat i)) as (c & s & E & Hc). rewrite Hp.
  change (("." ++ ?x) ++ "Z")%string with (String "." (x ++ "Z")). unfold parseFrac.
  assert (Hf : getfrac 9 0 (digitsOf (S k) (nsec / 10 ^ Z.of_nat i) ++ "Z") = (nsec, "Z"%string)).
  { rewrite <- Hki, getfrac_print by done. cbn [getfrac]. change (dec_val "Z") with (@None Z). f_equal. lia. }
  rewrite E in *. cbn [String.append] in *. rewrite bool_decide_true by done. done.
Qed.

Lemma skipByte_same c x : skipByte c (String c "" ++ x) = Some x.
Proof. simpl. by rewrite Ascii.eqb_refl. Qed.

(** The instants of the years 0 to 9999 *)
Definition four_digit_year (t : Z) : Prop := 0 <= year (dateOfDays (t / second / 86400)) <= 9999.

Lemma Parse_Format t : four_digit_year t -> Parse (Format t) = Some t.
Proof.
  intros Hy. unfold Format, Parse. set (secs := t / second) in *. destruct (date_days (secs / 86400)) as (Hdays & Hm & Hd).
  unfold four_digit_year in Hy. fold secs in Hy.
  destruct (dateOfDays (secs / 86400)) as [y m d]. cbn [year month day] in *.
  assert (Hs : 0 <= secs mod 86400 < 86400) by (apply Z.mod_pos_bound; lia). set (s := secs mod 86400) in *.
  assert (Hn : 0 <= t mod second < second) by (apply Z.mod_pos_bound; unfold second; lia).
  assert (Hh : 0 <= s / 3600 < 24) by (Z.div_mod_to_equations; lia).
  pose proof (Z.mod_pos_bound (s / 60) 60 ltac:(lia)) as Hmi. pose proof (Z.mod_pos_bound s 60 ltac:(lia)) as Hss.
  assert (Hd31 : daysIn m y <= 31) by (unfold daysIn; repeat case_match; lia).
  rewrite (getdigits_print 4 0) by (simpl; lia). cbn [getdigits mbind option_bind]. change (0 * 10 ^ Z.of_nat 4 + y) with y.
  repeat (rewrite skipByte_same; cbn [mbind option_bind]; rewrite getnum_print by lia; cbn [mbind option_bind]).
  rewrite parseFrac_print by done. change (parseZone "Z") with (Some (0, ""%string)). cbn [mbind option_bind String.eqb negb].
  rewrite Hdays. repeat (rewrite (proj2 (Z.leb_gt _ _)) by lia). repeat (rewrite (proj2 (Z.ltb_ge _ _)) by lia). cbn [orb]. f_equal.
  pose proof (Z.div_mod t second ltac:(done)) as Ht. fold secs in Ht. pose proof (Z.div_mod secs 86400 ltac:(lia)) as Hsec. fold s in Hsec.
  assert (s = s / 3600 * 3600 + s / 60 mod 60 * 60 + s mod 60) by (Z.div_mod_to_equations; lia). lia.
Qed.

(** ** What is printed is ASCII and has no space at its ends *)

Lemma plain_digitsOf n z : plain (digitsOf n z) = true.
Proof. revert z. induction n as [|n IH]; intros z; [done|]. cbn [digitsOf]. rewrite plain_app, IH. cbn [plain]. by rewrite plain_digit. Qed.

Lemma plain_fracOf n z : plain (fracOf n z) = true.
Proof.
  revert z. induction n as [|n IH]; intros z; [done|]. cbn [fracOf]. destruct (z mod 10 =? 0); [apply IH|apply plain_digitsOf].
Qed.

Lemma plain_Format t : plain (Format t) = true.
Proof.
  unfold Format, formatFrac. rewrite !plain_app, !plain_digitsOf. destruct (_ =? 0); [done|]. by rewrite plain_app, plain_fracOf.
Qed.

Lemma digit_no_space c s : is_Some (dec_val c) -> strip_any space_encodings (String c s) = None.
Proof.
  intros [d Hd]. unfold dec_val in Hd. destruct (_ && _) eqn:E; [|done]. apply andb_true_iff in E as [E1%Z.leb_le E2%Z.leb_le].
  destruct c as [[] [] [] [] [] [] [] []]; (exfalso; vm_compute in E1, E2; congruence) || reflexivity.
Qed.

Lemma TrimSpace_Format t : TrimSpace (Format t) = Format t.
Proof.
  unfold Format. set (secs := t / second). destruct (dateOfDays (secs / 86400)) as [y m d]. cbn [year month day].
  destruct (digitsOf_head 3 y) as (c & s & E & Hc). rewrite E.
  match goal with |- TrimSpace (String c s ++ ?x) = _ => set (x0 := x) end.
  assert (exists x1, (String c s ++ x0)%string = String c (x1 ++ "Z")) as [x1 ->].
  { exists (s ++ "-" ++ digitsOf 2 m ++ "-" ++ digitsOf 2 d ++ "T" ++ digitsOf 2 (secs mod 86400 / 3600) ++ ":" ++
      digitsOf 2 (secs mod 86400 / 60 mod 60) ++ ":" ++ digitsOf 2 (secs mod 86400 mod 60) ++ formatFrac (t mod second))%string.
    subst x0. cbn [String.append]. f_equal. by rewrite !str_app_assoc. }
  unfold TrimSpace. rewrite trim_left_id by (by apply digit_no_space). unfold trim_right.
  change (String c (x1 ++ "Z")) with (String c "" ++ (x1 ++ "Z"))%string. rewrite !str_rev_app, str_app_assoc.
  change (str_rev "Z") with "Z"%string. rewrite strip_all_None by (vm_compute; reflexivity).
  change "Z"%string with (str_rev "Z"). rewrite <- !str_rev_app, str_rev_involutive. by rewrite str_app_assoc.
Qed.

(** Instants survive the wire.  What [Format] prints at RFC3339Nano of an
    instant in the years 0 to 9999 parses to the same nanosecond, so two
    instants that print alike are the same. *)
Theorem time_roundtrip t t' : four_digit_year t -> four_digit_year t' ->
  Parse (Format t) = Some t /\ (Format t = Format t' -> t = t').
Proof.
  intros Ht Ht'. pose proof (Parse_Format t Ht) as E. split; [done|]. intros Ef. rewrite Ef, Parse_Format in E by done. by injection E.
Qed.

(** A tap in the last nanoseconds of a leap day *)
Lemma time_roundtrip_witness : Parse "2024-02-29T23:59:59.9999999Z" = Some 1709251199999999900.
Proof.
  change "2024-02-29T23:59:59.9999999Z"%string with (Format 1709251199999999900).
  destruct (time_roundtrip 1709251199999999900 0) as [H _]; [unfold four_digit_year; vm_compute; split; discriminate..|exact H].
Defined.
