(* ===== verification/GoScan.v ===== *)
(** * Reading numbers, durations and paths

    What the command line programs use of [strconv], [fmt.Sscanf],
    [time.ParseDuration] and [path/filepath].  A parse error is [None]; the
    code never looks at its text.  The fraction of a duration is a [float64]
    computation in Go and is one here ([SpecFloat] at precision 53). *)

From Stdlib Require Import Ascii String SpecFloat.
From S2P Require Import Prelude.
From stdpp Require Import list.
From S2P Require Import GoStrings NetIP GoURL.
Local Open Scope Z_scope.

Definition byte_val (c : ascii) : Z := Z.of_nat (nat_of_ascii c).

(** ** strconv *)

Definition ParseBool (s : string) : option bool :=
  if bool_decide (s ∈ ["1"; "t"; "T"; "true"; "TRUE"; "True"]%string) then Some true
  else if bool_decide (s ∈ ["0"; "f"; "F"; "false"; "FALSE"; "False"]%string) then Some false
  else None.

(** [c | ('x' - 'X')] *)
Definition lower (c : ascii) : Z := Z.lor (byte_val c) 32.

Definition digitOf (c : ascii) : option Z :=
  if is_digit c then Some (byte_val c - 48)
  else if (97 <=? lower c) && (lower c <=? 122) then Some (lower c - 97 + 10)
  else None.

(** The loop of [ParseUint]; the flag tells whether an underscore was seen.
    Values past 64 bits are a range error. *)
Fixpoint uintLoop (base0 : bool) (base : Z) (s : string) (n : Z) (underscores : bool) : option (Z * bool) :=
  match s with
  | EmptyString => Some (n, underscores)
  | String c s =>
      if base0 && Ascii.eqb c "_" then uintLoop base0 base s n true
      else
        match digitOf c with
        | None => None
        | Some d =>
            if base <=? d then None
            else if 2 ^ 64 <=? n * base + d then None
            else uintLoop base0 base s (n * base + d) underscores
        end
  end.

Definition prefixBase (s : string) : Z * string :=
  match s with
  | String "0" (String c r) =>
      if String.eqb r "" then (8, String c r)
      else if lower c =? 98 then (2, r)
      else if lower c =? 111 then (8, r)
      else if lower c =? 120 then (16, r)
      else (8, String c r)
  | String "0" EmptyString => (8, ""%string)
  | _ => (10, s)
  end.

(** [underscoreOK]: [saw] is the kind of the last character. *)
Fixpoint underscoreLoop (hex : bool) (saw : ascii) (s : string) : bool :=
  match s with
  | EmptyString => negb (Ascii.eqb saw "_")
  | String c s =>
      if is_digit c || (hex && (97 <=? lower c) && (lower c <=? 102)) then underscoreLoop hex "0" s
      else if Ascii.eqb c "_" then Ascii.eqb saw "0" && underscoreLoop hex "_" s
      else negb (Ascii.eqb saw "_") && underscoreLoop hex "!" s
  end.

Definition underscoreOK (s : string) : bool :=
  match s with
  | String "0" (String c r) =>
      if (lower c =? 98) || (lower c =? 111) || (lower c =? 120)
      then underscoreLoop (lower c =? 120) "0" r
      else underscoreLoop false "^" s
  | _ => underscoreLoop false "^" s
  end.

Definition ParseUint (base0 : bool) (s : string) : option Z :=
  if String.eqb s "" then None
  else
    let '(base, digits) := if base0 then prefixBase s else (10, s) in
    match uintLoop base0 base digits 0 false with
    | None => None
    | Some (n, underscores) => if underscores && negb (underscoreOK s) then None else Some n
    end.

Definition signOf (s : string) : bool * string :=
  match s with
  | String "+" r => (false, r)
  | String "-" r => (true, r)
  | _ => (false, s)
  end.

(** [strconv.ParseInt(s, base, 64)] with base 0 ([base0]) or base 10 *)
Definition ParseInt (base0 : bool) (s : string) : option Z :=
  let '(neg, r) := signOf s in
  match ParseUint base0 r with
  | None => None
  | Some un =>
      if neg then if 2 ^ 63 <? un then None else Some (- un)
      else if 2 ^ 63 <=? un then None else Some un
  end.

(** ** [fmt.Sscanf(s, "%d", &v)]

    For a string with no leading white space: a sign, digits, and the rest
    of the string is left unread. *)

Fixpoint digitRun (s : string) : string :=
  match s with
  | String c s => if is_digit c then String c (digitRun s) else EmptyString
  | EmptyString => EmptyString
  end.

Definition Sscanf_d (s : string) : option Z :=
  let '(neg, r) := signOf s in
  match digitRun r with
  | EmptyString => None
  | ds => ParseInt false (if neg then String "-" ds else ds)
  end.

(** ** [time.ParseDuration] *)

(** [leadingInt] *)
Fixpoint leadingInt (s : string) (x : Z) : option (Z * string) :=
  match s with
  | EmptyString => Some (x, ""%string)
  | String c r =>
      if is_digit c then
        if 922337203685477580 <? x then None
        else
          let x := x * 10 + (byte_val c - 48) in
          if 2 ^ 63 <? x then None else leadingInt r x
      else Some (x, s)
  end.

(** [leadingFraction]: the digits read and the power of ten that scales
    them; digits that would overflow are skipped. *)
Fixpoint leadingFraction (s : string) (x scale : Z) (overflow : bool) : Z * Z * string :=
  match s with
  | EmptyString => (x, scale, ""%string)
  | String c r =>
      if is_digit c then
        if overflow || (922337203685477580 <? x) then leadingFraction r x scale true
        else
          let y := x * 10 + (byte_val c - 48) in
          if 2 ^ 63 <? y then leadingFraction r x scale true
          else leadingFraction r y (scale * 10) false
      else (x, scale, s)
  end.

Fixpoint unitRun (s : string) : string * string :=
  match s with
  | EmptyString => (""%string, ""%string)
  | String c r =>
      if Ascii.eqb c "." || is_digit c then (""%string, s)
      else let '(u, r) := unitRun r in (String c u, r)
  end.

(** [unitMap]; the two spellings of the micro sign are U+00B5 and U+03BC. *)
Definition unitMap (u : string) : option Z :=
  if String.eqb u "ns" then Some 1
  else if bool_decide (u ∈ ["us"; str_of [194; 181; 115]%nat; str_of [206; 188; 115]%nat]%string) then Some 1000
  else if String.eqb u "ms" then Some 1000000
  else if String.eqb u "s" then Some 1000000000
  else if String.eqb u "m" then Some 60000000000
  else if String.eqb u "h" then Some 3600000000000
  else None.

Definition float64 (z : Z) : spec_float := binary_normalize 53 1024 z 0 false.

(** [uint64(x)] of a float that is not negative *)
Definition trunc64 (x : spec_float) : Z :=
  match x with
  | S754_finite false m e => Z.shiftl (Zpos m) e
  | _ => 0
  end.

(** [uint64(float64(f) * (float64(unit) / scale))] *)
Definition fractionOf (f unit scale : Z) : Z :=
  trunc64 (SFmul 53 1024 (float64 f) (SFdiv 53 1024 (float64 unit) (float64 scale))).

(** One round of the loop: a number with its unit *)
Definition durationTerm (s : string) : option (Z * string) :=
  match s with
  | EmptyString => None
  | String c _ =>
      if negb (Ascii.eqb c "." || is_digit c) then None
      else
        match leadingInt s 0 with
        | None => None
        | Some (v, s1) =>
            let pre := negb (String.eqb s s1) in
            let '(f, scale, s2, post) :=
              match s1 with
              | String "." r =>
                  let '(f, scale, s2) := leadingFraction r 0 1 false in
                  (f, scale, s2, negb (String.eqb r s2))
              | _ => (0, 1, s1, false)
              end in
            if negb pre && negb post then None
            else
              let '(u, s3) := unitRun s2 in
              if String.eqb u "" then None
              else
                match unitMap u with
                | None => None
                | Some unit =>
                    if 2 ^ 63 / unit <? v then None
                    else
                      let v := if 0 <? f then v * unit + fractionOf f unit scale else v * unit in
                      if (0 <? f) && (2 ^ 63 <? v) then None else Some (v, s3)
                end
        end
  end.

(** The loop; the sum is a [uint64]. *)
Fixpoint durationLoop (fuel : nat) (s : string) (d : Z) : option Z :=
  match s with
  | EmptyString => Some d
  | _ =>
      match fuel with
      | O => None
      | S fuel =>
          match durationTerm s with
          | None => None
          | Some (v, s) =>
              let d := (d + v) mod 2 ^ 64 in
              if 2 ^ 63 <? d then None else durationLoop fuel s d
          end
      end
  end.

Definition ParseDuration (s : string) : option Z :=
  let '(neg, s) := signOf s in
  if String.eqb s "0" then Some 0
  else if String.eqb s "" then None
  else
    match durationLoop (String.length s) s 0 with
    | None => None
    | Some d => if neg then Some (wrap64 (- wrap64 d)) else if 2 ^ 63 - 1 <? d then None else Some d
    end.

Example durations :
  ParseDuration <$> ["10s"; "1.5h"; "1m30s"; "-.5ms"; "0"; "5"; "1.1.s"; "2562047h47m16.854775807s";
                     "9223372036854775808ns"; "0.3333333333333333333h"]%string
  = [Some 10000000000; Some 5400000000000; Some 90000000000; Some (-500000); Some 0; None; None;
     Some 9223372036854775807; None; Some 1200000000000].
Proof. vm_compute. reflexivity. Qed.

Example integers :
  ParseInt true <$> ["0x1_F"; "-0b11"; "017"; "1__0"; "0"; "9223372036854775808"; "-9223372036854775808"]%string
  = [Some 31; Some (-3); Some 15; None; Some 0; None; Some (-9223372036854775808)].
Proof. vm_compute. reflexivity. Qed.

Example scanned : Sscanf_d <$> ["8080x"; "+7"; "-3"; "x"; "- 3"; "9223372036854775808"]%string
  = [Some 8080; Some 7; Some (-3); None; None; None].
Proof. vm_compute. reflexivity. Qed.

(** ** [filepath.Clean] and [filepath.Join] on a Unix system *)

Fixpoint splitSlash (cur : string) (s : string) : list string :=
  match s with
  | EmptyString => [str_rev cur]
  | String c s => if Ascii.eqb c "/" then str_rev cur :: splitSlash "" s else splitSlash (String c cur) s
  end.

(** The elements of the cleaned path so far, the last one first *)
Definition cleanStep (rooted : bool) (out : list string) (x : string) : list string :=
  if String.eqb x "" || String.eqb x "." then out
  else if String.eqb x ".." then
    match out with
    | y :: out' => if String.eqb y ".." then ".."%string :: out else out'
    | [] => if rooted then [] else [".."%string]
    end
  else x :: out.

Definition Clean (path : string) : string :=
  let rooted := HasPrefix path "/" in
  let out := rev (foldl (cleanStep rooted) [] (splitSlash "" path)) in
  let body := String.concat "/" out in
  if rooted then ("/" ++ body)%string else if String.eqb body "" then "."%string else body.

(** [filepath.Join(a, b)] of two elements that are not empty *)
Definition Join (a b : string) : string := Clean (a ++ "/" ++ b)%string.

Example cleaned : (fun a => Join a "x") <$> ["."; "/"; "a/../b//"; "../c/./"; "/../d"; "a/../.."]%string
  = ["x"; "/x"; "b/x"; "../c/x"; "/d/x"; "../x"]%string.
Proof. vm_compute. reflexivity. Qed.

(** ** Facts *)

Lemma leadingInt_rest s x v r : leadingInt s x = Some (v, r) -> (String.length r <= String.length s)%nat.
Proof.
  revert x. induction s as [|c s IH]; simpl; intros x E; [by simplify_eq|].
  repeat case_match; simplify_eq; simpl; [|lia]. apply IH in E. lia.
Qed.

Lemma leadingFraction_rest s x sc o v sc' r :
  leadingFraction s x sc o = (v, sc', r) -> (String.length r <= String.length s)%nat.
Proof.
  revert x sc o. induction s as [|c s IH]; simpl; intros x sc o E; [by simplify_eq|].
  repeat case_match; simplify_eq; simpl; try lia; apply IH in E; lia.
Qed.

Lemma unitRun_rest s u r : unitRun s = (u, r) -> u <> ""%string -> (String.length r < String.length s)%nat.
Proof.
  intros E Hu. assert (String.length s = String.length u + String.length r)%nat as ->; [|destruct u; simpl; [done|lia]].
  clear Hu. revert u r E. induction s as [|c s IH]; simpl; intros u r E; [by simplify_eq|].
  case_match; [by simplify_eq|]. destruct (unitRun s) as [u' r'] eqn:Es. simplify_eq. simpl. by erewrite IH.
Qed.

(** A round of the loop consumes something, so the fuel of [ParseDuration] is enough. *)
Lemma durationTerm_rest s v r : durationTerm s = Some (v, r) -> (String.length r < String.length s)%nat.
Proof.
  unfold durationTerm. destruct s as [|c s0]; [done|]. set (s := String c s0).
  destruct (negb _); [done|]. destruct (leadingInt s 0) as [[n s1]|] eqn:E1; [|done].
  apply leadingInt_rest in E1. intros E.
  assert (Hgen : forall f sc s2 (post : bool), (String.length s2 <= String.length s1)%nat ->
    (if negb (negb (String.eqb s s1)) && negb post then None
     else let '(u, s3) := unitRun s2 in
          if String.eqb u "" then None
          else match unitMap u with
               | None => None
               | Some unit =>
                   if 2 ^ 63 / unit <? n then None
                   else let v := if 0 <? f then n * unit + fractionOf f unit sc else n * unit in
                        if (0 <? f) && (2 ^ 63 <? v) then None else Some (v, s3)
               end) = Some (v, r) -> (String.length r < String.length s)%nat).
  { intros f sc s2 post Hl E'. destruct (_ && _); [done|]. destruct (unitRun s2) as [u s3] eqn:Eu.
    destruct (String.eqb_spec u ""); [done|]. apply unitRun_rest in Eu; [|done].
    destruct (unitMap u); [|done]. destruct (_ <? n); [done|]. cbv zeta in E'.
    destruct (_ && _); [done|]. injection E' as _ <-. lia. }
  destruct s1 as [|c1 r1]; [by eapply Hgen in E|].
  destruct (Ascii.ascii_dec c1 ".") as [->|Hc].
  - cbv iota beta in E. destruct (leadingFraction r1 0 1 false) as [[f sc] s2] eqn:Ef.
    apply leadingFraction_rest in Ef. eapply Hgen in E; [done|]. simpl in *. lia.
  - assert (E' : exists f sc post, match String c1 r1 with
        | String "." r => let '(f, scale, s2) := leadingFraction r 0 1 false in (f, scale, s2, negb (String.eqb r s2))
        | _ => (0, 1, String c1 r1, false) end = (f, sc, String c1 r1, post)).
    { destruct c1 as [[] [] [] [] [] [] [] []]; try (do 3 eexists; reflexivity). by contradict Hc. }
    destruct E' as (f & sc & post & E'). rewrite E' in E. by eapply Hgen in E.
Qed.

Lemma durationLoop_fuel n m s d : (String.length s <= n)%nat -> (String.length s <= m)%nat ->
  durationLoop n s d = durationLoop m s d.
Proof.
  revert m s d. induction n as [|n IH]; intros m s d Hn Hm; destruct s as [|c s]; try (by destruct m); [simpl in *; lia|].
  destruct m as [|m]; [simpl in *; lia|]. cbn [durationLoop].
  destruct (durationTerm (String c s)) as [[v r]|] eqn:E; [|done]. apply durationTerm_rest in E.
  case_match; [done|]. apply IH; simpl in *; lia.
Qed.

Lemma durationLoop_range n s d v : durationLoop n s d = Some v -> 0 <= d <= 2 ^ 63 -> 0 <= v <= 2 ^ 63.
Proof.
  revert s d. induction n as [|n IH]; intros [|c s] d; cbn [durationLoop]; [by intros [= ->]|done|by intros [= ->]|].
  destruct (durationTerm _) as [[w r]|]; [|done]. cbv zeta.
  destruct (Z.ltb_spec (2 ^ 63) ((d + w) mod 2 ^ 64)); [done|]. intros E _. apply IH in E; [done|].
  pose proof (Z.mod_pos_bound (d + w) (2 ^ 64)). lia.
Qed.

Lemma ParseDuration_range s d : ParseDuration s = Some d -> in_int64 d.
Proof.
  unfold ParseDuration. destruct (signOf s) as [neg r]. case_match; [intros [= <-]; apply in_int64_0|].
  case_match; [done|]. destruct (durationLoop _ r 0) as [v|] eqn:E; [|done].
  apply durationLoop_range in E; [|lia]. destruct neg; [intros [= <-]; apply wrap64_range|].
  destruct (Z.ltb_spec (2 ^ 63 - 1) v); [done|]. intros [= <-]. unfold in_int64, int64_min, int64_max. lia.
Qed.

Lemma uintLoop_range b base s n u v u' : uintLoop b base s n u = Some (v, u') -> 1 <= base -> 0 <= n < 2 ^ 64 -> 0 <= v < 2 ^ 64.
Proof.
  revert n u. induction s as [|c s IH]; simpl; intros n u E Hb Hn; [by simplify_eq|].
  case_match; [by eapply IH|]. unfold digitOf in E.
  assert (forall d, 0 <= d -> (if base <=? d then None else if 2 ^ 64 <=? n * base + d then None
            else uintLoop b base s (n * base + d) u) = Some (v, u') -> 0 <= v < 2 ^ 64) as Hd.
  { intros d Hd E'. case_match; [done|]. destruct (Z.leb_spec (2 ^ 64) (n * base + d)); [done|].
    apply IH in E'; [done|done|]. split; [|done]. apply Z.add_nonneg_nonneg; [apply Z.mul_nonneg_nonneg|]; lia. }
  unfold is_digit, in_range in *.
  assert (Hl : forall x, (if (97 <=? lower c) && (lower c <=? 122) then Some (lower c - 97 + 10) else None) = Some x -> 0 <= x).
  { intros x. destruct (Z.leb_spec 97 (lower c)); cbn [andb]; [|done].
    destruct (lower c <=? 122); [|done]. intros Ex. assert (x = lower c - 97 + 10) as -> by congruence. lia. }
  destruct (Nat.leb_spec 48 (nat_of_ascii c)); cbn [andb] in E; [destruct (nat_of_ascii c <=? 57)%nat; cbn [andb] in E|].
  - refine (Hd _ _ E). unfold byte_val. lia.
  - destruct (if _ && _ then _ else _) as [x|] eqn:Ex; [|done]. refine (Hd _ (Hl _ eq_refl) E).
  - destruct (if _ && _ then _ else _) as [x|] eqn:Ex; [|done]. refine (Hd _ (Hl _ eq_refl) E).
Qed.

Lemma prefixBase_pos s : 1 <= (prefixBase s).1.
Proof. unfold prefixBase. repeat (case_match; simpl; try lia). Qed.

Lemma ParseUint_range b s n : ParseUint b s = Some n -> 0 <= n < 2 ^ 64.
Proof.
  unfold ParseUint. destruct (String.eqb s ""); [done|].
  destruct (if b then prefixBase s else (10, s)) as [base ds] eqn:Eb.
  assert (1 <= base).
  { destruct b; [|injection Eb as <- _; lia]. change base with (base, ds).1. rewrite <-Eb. apply prefixBase_pos. }
  destruct (uintLoop b base ds 0 false) as [[v u]|] eqn:E; [|done]. apply uintLoop_range in E; [|done|lia].
  destruct (_ && _); [done|]. by intros [= <-].
Qed.

Lemma ParseInt_range b s v : ParseInt b s = Some v -> in_int64 v.
Proof.
  unfold ParseInt. destruct (signOf s) as [neg r]. destruct (ParseUint b r) as [n|] eqn:E; [|done].
  apply ParseUint_range in E. unfold in_int64, int64_min, int64_max.
  destruct neg; [destruct (Z.ltb_spec (2 ^ 63) n)|destruct (Z.leb_spec (2 ^ 63) n)]; try done; intros [= <-]; lia.
Qed.

Lemma Sscanf_d_range s v : Sscanf_d s = Some v -> in_int64 v.
Proof. unfold Sscanf_d. destruct (signOf s) as [neg r]. destruct (digitRun r); [done|]. apply ParseInt_range. Qed.

Lemma IndexByte_split s c i : IndexByte s c = Some i -> s = (str_take i s ++ String c (str_drop (S i) s))%string.
Proof.
  revert i. induction s as [|a s IH]; simpl; [done|]. destruct (Ascii.eqb_spec a c) as [->|]; [by intros i [= <-]|].
  intros i. destruct (IndexByte s c) as [j|] eqn:E; [|done]. intros [= <-]. change (str_take (S j) (String a s)) with (String a (str_take j s)).
  change (str_drop (S (S j)) (String a s)) with (str_drop (S j) s). rewrite (IH j eq_refl) at 1. done.
Qed.
