(* ===== verification/GoAny.v ===== *)
(** * JSON values of type [any], CSV files and query strings

    What the ticket programs use of [encoding/json] for values of type [any]
    (decoding drops repeated keys, encoding sorts them and prints numbers as
    [float64]), of [fmt]'s [%v], of [encoding/csv]'s writer and of
    [net/url]'s query strings. *)

From Stdlib Require Import Ascii String.
From S2P Require Import Prelude.
From stdpp Require Import list sorting.
From S2P Require Import GoStrings NetIP GoURL GoJSON.
Local Open Scope Z_scope.

#[local] Arguments String.append : simpl nomatch.

(** ** Objects as maps *)

(** [m\[k\]] of a decoded [map\[string\]any]: the last value of a repeated key *)
Definition lookupKey (k : string) (fs : list (string * json)) : option json :=
  last (snd <$> List.filter (fun kv => String.eqb kv.1 k) fs).

(** The pairs of the map: one per key, with its last value *)
Fixpoint dedup (fs : list (string * json)) : list (string * json) :=
  match fs with
  | [] => []
  | kv :: fs => if existsb (fun kv' => String.eqb kv'.1 kv.1) fs then dedup fs else kv :: dedup fs
  end.

Definition key_le (x y : string * json) : Prop := String.leb x.1 y.1 = true.
#[export] Instance key_le_dec : RelDecision key_le := fun x y => decide (String.leb x.1 y.1 = true).

Section Numbers.
(** The shortest text of the [float64] nearest a literal, as [encoding/json]
    and as [%v] print it, for literals other than small integers; and [%v] of
    arrays and objects *)
Variable float_json float_v : string -> string.
Variable composite_v : json -> string.

(** A plain integer literal below 2^53 in magnitude, which a [float64] holds exactly *)
Definition small_int (lit : string) : option Z :=
  match int_of_lit lit with
  | Some n => if (Z.abs n <? 2 ^ 53) && String.eqb lit (lit_of_int n) then Some n else None
  | None => None
  end.

(** [json.Marshal] of the result of [json.Unmarshal] into an [any] *)
Fixpoint remarshal (j : json) : json :=
  match j with
  | JNum lit => JNum (match small_int lit with Some _ => lit | None => float_json lit end)
  | JArr vs => JArr (remarshal <$> vs)
  | JObj fs => JObj (merge_sort key_le (dedup ((fun kv => (kv.1, remarshal kv.2)) <$> fs)))
  | _ => j
  end.

(** [fmt.Sprintf("%v", x)] of an integral [float64]: from 10^6 on it is in
    scientific notation. *)
Fixpoint dropZeros (rev_digits : string) : string :=
  match rev_digits with
  | String "0" r => dropZeros r
  | _ => rev_digits
  end.

Definition sprintFloat (n : Z) : string :=
  let a := Z.abs n in
  let sign := if n <? 0 then "-"%string else ""%string in
  if a <? 1000000 then (sign ++ lit_of_int a)%string
  else
    let ds := lit_of_int a in
    let exp := Z.of_nat (String.length ds) - 1 in
    let mant := match str_rev (dropZeros (str_rev ds)) with
                | String d EmptyString => String d ""
                | String d rest => String d (String "." rest)
                | EmptyString => ""%string
                end in
    (sign ++ mant ++ "e+" ++ (if (exp <? 10)%Z then "0" else "") ++ lit_of_int exp)%string.

Definition sprintV (x : option json) : string :=
  match x with
  | None | Some JNull => "<nil>"
  | Some (JBool b) => if b then "true" else "false"
  | Some (JStr s) => s
  | Some (JNum lit) => match small_int lit with Some n => sprintFloat n | None => float_v lit end
  | Some j => composite_v j
  end.
End Numbers.

Example sprint_floats : sprintFloat <$> [0; 7; 999999; 1000000; 1234567; 120000000000; -2500000]
  = ["0"; "7"; "999999"; "1e+06"; "1.234567e+06"; "1.2e+11"; "-2.5e+06"]%string.
Proof. vm_compute. reflexivity. Qed.

(** ** [csv.Writer] *)

Definition csvSpecial (c : ascii) : bool :=
  Ascii.eqb c "010" || Ascii.eqb c "013" || Ascii.eqb c (chr 34) || Ascii.eqb c ",".

Definition fieldNeedsQuotes (field : string) : bool :=
  if String.eqb field "" then false
  else String.eqb field "\." || negb (all_bytes (fun c => negb (csvSpecial c)) field)
       || match strip_any space_encodings field with Some _ => true | None => false end.

Fixpoint csvQuoted (field : string) : string :=
  match field with
  | EmptyString => EmptyString
  | String c r => if Ascii.eqb c (chr 34) then String (chr 34) (String (chr 34) (csvQuoted r)) else String c (csvQuoted r)
  end.

Definition csvField (field : string) : string :=
  if fieldNeedsQuotes field then (String (chr 34) (csvQuoted field) ++ String (chr 34) "")%string else field.

Definition csvRecord (fields : list string) : string := (join "," (csvField <$> fields) ++ str1 10)%string.

Definition csvFile (records : list (list string)) : string := join "" (csvRecord <$> records).

(** ** Query strings *)

Fixpoint queryUnescape (fuel : nat) (s : string) : option string :=
  match fuel with
  | O => Some ""%string
  | S fuel =>
      match s with
      | EmptyString => Some ""%string
      | String "%" (String a (String b r)) =>
          match hex_val a, hex_val b with
          | Some x, Some y => String (ascii_of_nat (Z.to_nat (x * 16 + y))) <$> queryUnescape fuel r
          | _, _ => None
          end
      | String "%" _ => None
      | String "+" r => String " " <$> queryUnescape fuel r
      | String c r => String c <$> queryUnescape fuel r
      end
  end.
Definition QueryUnescape (s : string) : option string := queryUnescape (String.length s) s.

Fixpoint splitByte (c : ascii) (cur s : string) : list string :=
  match s with
  | EmptyString => [str_rev cur]
  | String a s => if Ascii.eqb a c then str_rev cur :: splitByte c "" s else splitByte c (String a cur) s
  end.

(** A pair of the query string; [None] where [ParseQuery] skips it *)
Definition queryPair (s : string) : option (string * string) :=
  if has_byte s ";" || String.eqb s "" then None
  else
    let '(k, v) := Cut s "=" in
    match QueryUnescape k, QueryUnescape v with
    | Some k, Some v => Some (k, v)
    | _, _ => None
    end.

Definition ParseQuery (rawQuery : string) : list (string * string) := omap queryPair (splitByte "&" "" rawQuery).

(** [r.URL.Query().Get(key)] *)
Definition queryGet (rawQuery key : string) : string :=
  default ""%string (snd <$> List.find (fun kv => String.eqb kv.1 key) (ParseQuery rawQuery)).

Example query_demo : (queryGet "a=1&since=2024-01-01T00:00:00+01:00&x=%41" "since", queryGet "a=1;b&x=%41&x=2" "x")
  = ("2024-01-01T00:00:00 01:00", "A")%string.
Proof. vm_compute. reflexivity. Qed.

(** ** Equal up to the order of keys

    What a JSONB column and a pass through [map\[string\]any] keep of a value
    without repeated keys. *)

Inductive jsame : json -> json -> Prop :=
| js_null : jsame JNull JNull
| js_bool b : jsame (JBool b) (JBool b)
| js_num l : jsame (JNum l) (JNum l)
| js_str s : jsame (JStr s) (JStr s)
| js_arr vs ws : Forall2 jsame vs ws -> jsame (JArr vs) (JArr ws)
| js_obj fs gs hs : NoDup fs.*1 -> Forall2 (fun kv kv' => kv.1 = kv'.1 /\ jsame kv.2 kv'.2) fs gs -> gs ≡ₚ hs ->
    jsame (JObj fs) (JObj hs).

Lemma same_keys (R : json -> json -> Prop) fs gs :
  Forall2 (fun kv kv' : string * json => kv.1 = kv'.1 /\ R kv.2 kv'.2) fs gs -> fs.*1 = gs.*1.
Proof. induction 1 as [|kv kv' fs gs [E _] _ IH]; [done|]. by rewrite !fmap_cons, E, IH. Qed.

Lemma lookupKey_elem fs k v : NoDup fs.*1 -> lookupKey k fs = Some v <-> (k, v) ∈ fs.
Proof.
  unfold lookupKey. intros Hnd. induction fs as [|[k' v'] fs IH]; [split; [done|by intros ?%elem_of_nil]|].
  rewrite fmap_cons in Hnd. apply NoDup_cons in Hnd as [Hni Hnd]. cbn [List.filter fst]. cbn [fst] in Hni.
  assert (Hnone : k = k' -> List.filter (fun kv => String.eqb kv.1 k) fs = []).
  { intros ->. clear - Hni. induction fs as [|[k v] fs IH]; [done|]. cbn [List.filter fst].
    rewrite fmap_cons in Hni. apply not_elem_of_cons in Hni as [Hne Hni]. cbn [fst] in Hne.
    rewrite (proj2 (String.eqb_neq k k')) by congruence. by apply IH. }
  destruct (String.eqb_spec k' k) as [->|Hne].
  - rewrite Hnone by done. simpl. rewrite elem_of_cons. split; [intros [= ->]; by left|].
    intros [[= ->]|Hin]; [done|]. destruct Hni. apply list_elem_of_fmap. by exists (k, v).
  - rewrite IH by done. rewrite elem_of_cons. split; [by right|]. intros [[= -> _]|?]; done.
Qed.

Lemma jsame_lookup fs hs k : jsame (JObj fs) (JObj hs) ->
  match lookupKey k fs with
  | Some v => exists w, lookupKey k hs = Some w /\ jsame v w
  | None => lookupKey k hs = None
  end.
Proof.
  inversion 1 as [| | | | |fs' gs hs' Hnd Hall Hperm]; subst.
  assert (Hndh : NoDup hs.*1) by (rewrite <-Hperm, <-(same_keys _ _ _ Hall); done).
  destruct (lookupKey k fs) as [v|] eqn:E.
  - apply lookupKey_elem in E; [|done]. apply list_elem_of_lookup in E as [i Hi].
    destruct (Forall2_lookup_l _ _ _ _ _ Hall Hi) as ([k' w] & Hg & Hk & Hw). simpl in Hk, Hw. subst k'.
    exists w. split; [|done]. apply lookupKey_elem; [done|]. rewrite <-Hperm. by eapply list_elem_of_lookup_2.
  - destruct (lookupKey k hs) as [w|] eqn:E'; [|done]. apply lookupKey_elem in E'; [|done]. rewrite <-Hperm in E'.
    apply list_elem_of_lookup in E' as [i Hi]. destruct (Forall2_lookup_r _ _ _ _ _ Hall Hi) as ([k' v] & Hg & Hk & Hw).
    simpl in Hk. subst k'. apply list_elem_of_lookup_2, lookupKey_elem in Hg; [|done]. congruence.
Qed.

Lemma jsame_trans a b c : jsame a b -> jsame b c -> jsame a c.
Proof.
  revert b c. induction a as [|x|x|x|vs IH|fs IH] using json_ind'; intros b c Hab Hbc; try by inversion Hab; subst.
  - inversion Hab as [| | | |vs' us H1|]; subst. inversion Hbc as [| | | |us' ws H2|]; subst. constructor.
    clear Hab Hbc. revert us ws H1 H2.
    induction IH as [|v vs Hv _ IHvs]; intros us ws H1 H2; inversion H1; subst; inversion H2; subst; constructor; eauto.
  - inversion Hab as [| | | | |fs' us us' Hnd H1 Hp1]; subst. inversion Hbc as [| | | | |us'' ws ws' Hnd2 H2 Hp2]; subst.
    destruct (Permutation_Forall2 (symmetry Hp1) H2) as (ws2 & Hp & Hall).
    apply (js_obj fs ws2); [done| |by rewrite <-Hp].
    clear - IH H1 Hall. revert us ws2 H1 Hall.
    induction IH as [|kv fs Hv _ IHfs]; intros us ws H1 H2; inversion H1; subst; inversion H2; subst; constructor; eauto.
    destruct_and!. split; [congruence|eauto].
Qed.

(** *** Well-formedness along [jsame] *)

Lemma json_ok_arr vs : json_ok (JArr vs) <-> Forall json_ok vs.
Proof. simpl. induction vs as [|v vs IH]; simpl; [by split|]. rewrite Forall_cons_iff. by rewrite IH. Qed.

Lemma json_ok_obj fs : json_ok (JObj fs) <-> Forall (fun kv => valid_utf8 kv.1 = true /\ json_ok kv.2) fs.
Proof. simpl. induction fs as [|kv fs IH]; simpl; [by split|]. rewrite Forall_cons_iff. by rewrite IH. Qed.

Lemma jsame_ok a b : jsame a b -> json_ok a -> json_ok b.
Proof.
  revert b. induction a as [|x|x|x|vs IH|fs IH] using json_ind'; intros b Hab; try by inversion Hab; subst.
  - inversion Hab as [| | | |vs' us H1|]; subst. rewrite !json_ok_arr. clear Hab. revert us H1.
    induction IH as [|v vs Hv _ IHvs]; intros us H1 Hok; inversion H1; subst; [done|].
    apply Forall_cons_iff in Hok as [? ?]. constructor; eauto.
  - inversion Hab as [| | | | |fs' us us' Hnd H1 Hp1]; subst. rewrite !json_ok_obj. intros Hok. rewrite <-Hp1. clear - IH H1 Hok.
    revert us H1. induction IH as [|kv fs Hv _ IHfs]; intros us H1; inversion H1; subst; [done|].
    apply Forall_cons_iff in Hok as [[Hk ?] ?]. destruct_and!. constructor; [|eauto]. split; [congruence|eauto].
Qed.

Definition max_depth_of {A} (f : A -> N) (l : list A) : N := fold_right (fun x acc => N.max (f x) acc) 0%N l.

Lemma max_depth_perm {A} (f : A -> N) l l' : l ≡ₚ l' -> max_depth_of f l = max_depth_of f l'.
Proof. induction 1; simpl; try lia. Qed.

Lemma jsame_depth a b : jsame a b -> jdepth b = jdepth a.
Proof.
  revert b. induction a as [|x|x|x|vs IH|fs IH] using json_ind'; intros b Hab; try by inversion Hab; subst.
  - inversion Hab as [| | | |vs' us H1|]; subst. simpl. f_equal. clear Hab. revert us H1.
    induction IH as [|v vs Hv _ IHvs]; intros us H1; inversion H1; subst; [done|]. simpl. by rewrite (Hv y), (IHvs l').
  - inversion Hab as [| | | | |fs' us us' Hnd H1 Hp1]; subst. simpl. f_equal. clear - IH H1 Hp1.
    apply (max_depth_perm (fun kv => jdepth kv.2)) in Hp1. unfold max_depth_of in Hp1. rewrite <-Hp1. clear Hp1.
    revert us H1. induction IH as [|kv fs Hv _ IHfs]; intros us H1; inversion H1; subst; [done|]. destruct_and!.
    simpl. by rewrite (Hv y.2), (IHfs l').
Qed.

(** *** A pass through [any] *)

(** No repeated keys, and every number a small integer *)
Fixpoint plain_any (j : json) : Prop :=
  match j with
  | JNum lit => is_Some (small_int lit)
  | JArr vs => fold_right (fun v acc => plain_any v /\ acc) True vs
  | JObj fs => NoDup fs.*1 /\ fold_right (fun kv acc => plain_any kv.2 /\ acc) True fs
  | _ => True
  end.

Lemma plain_arr vs : plain_any (JArr vs) <-> Forall plain_any vs.
Proof. simpl. induction vs as [|v vs IH]; simpl; [by split|]. rewrite Forall_cons_iff. by rewrite IH. Qed.

Lemma plain_obj fs : plain_any (JObj fs) <-> NoDup fs.*1 /\ Forall (fun kv => plain_any kv.2) fs.
Proof.
  simpl. apply and_iff_compat_l. induction fs as [|kv fs IH]; simpl; [by split|]. rewrite Forall_cons_iff. by rewrite IH.
Qed.

Lemma jsame_plain a b : jsame a b -> plain_any a -> plain_any b.
Proof.
  revert b. induction a as [|x|x|x|vs IH|fs IH] using json_ind'; intros b Hab; try by inversion Hab; subst.
  - inversion Hab as [| | | |vs' us H1|]; subst. rewrite !plain_arr. clear Hab. revert us H1.
    induction IH as [|v vs Hv _ IHvs]; intros us H1 Hok; inversion H1; subst; [done|].
    apply Forall_cons_iff in Hok as [? ?]. constructor; eauto.
  - inversion Hab as [| | | | |fs' us us' Hnd H1 Hp1]; subst. rewrite !plain_obj. intros [_ Hok].
    split; [by rewrite <-Hp1, <-(same_keys _ _ _ H1)|]. rewrite <-Hp1. clear - IH H1 Hok.
    revert us H1. induction IH as [|kv fs Hv _ IHfs]; intros us H1; inversion H1; subst; [done|].
    apply Forall_cons_iff in Hok as [? ?]. destruct_and!. constructor; eauto.
Qed.

Lemma dedup_NoDup fs : NoDup fs.*1 -> dedup fs = fs.
Proof.
  induction fs as [|kv fs IH]; [done|]. rewrite fmap_cons. intros [Hni Hnd]%NoDup_cons. simpl.
  replace (existsb _ fs) with false; [by rewrite IH|]. symmetry. apply not_true_is_false.
  intros (kv' & Hin%list_elem_of_In & He%String.eqb_eq)%existsb_exists. apply Hni, list_elem_of_fmap. by exists kv'.
Qed.

Lemma remarshal_same fj j : plain_any j -> jsame j (remarshal fj j).
Proof.
  induction j as [|x|x|x|vs IH|fs IH] using json_ind'; try by constructor.
  - intros [n Hn]. simpl in *. rewrite Hn. constructor.
  - rewrite plain_arr. intros Hp. simpl. constructor. induction IH as [|v vs Hv _ IHvs]; [done|].
    apply Forall_cons_iff in Hp as [? ?]. rewrite fmap_cons. constructor; auto.
  - rewrite plain_obj. intros [Hnd Hp]. simpl.
    assert (Hk : ((fun kv => (kv.1, remarshal fj kv.2)) <$> fs).*1 = fs.*1) by (by rewrite <-list_fmap_compose).
    rewrite dedup_NoDup by (by rewrite Hk). eapply js_obj; [done| |symmetry; apply merge_sort_Permutation].
    clear Hnd Hk. induction IH as [|kv fs Hv _ IHfs]; [done|]. apply Forall_cons_iff in Hp as [? ?].
    rewrite fmap_cons. constructor; auto.
Qed.
