(* ===== verification/GoFlag.v ===== *)
(** * Go's flag package and its line reader, as the commands use them

    A flag is a value of a type of the command's own, which says of each
    whether it is boolean and how a value sets it.  A prompt reads the answers
    of an interactive user from what is left of the standard input. *)

From Stdlib Require Import Ascii String.
From S2P Require Import Prelude.
From stdpp Require Import list.
From S2P Require Import GoStrings.

(** [flag.Parse] exits the process on each of these. *)
Inductive FlagError := BadFlagSyntax | FlagNotDefined | HelpRequested | NeedsArgument | InvalidValue.

Inductive Arg :=
| NotAFlag                                          (** parsing stops *)
| BadArg
| FlagArg (name : string) (value : option string).

(** The name of a flag and the value after its first "=", which cannot be
    the first byte. *)
Definition classifyArg (s : string) : Arg :=
  let named (name : string) :=
    match name with
    | EmptyString => BadArg
    | String c r =>
        if Ascii.eqb c "-" || Ascii.eqb c "=" then BadArg
        else match IndexByte r "=" with
             | Some i => FlagArg (String c (str_take i r)) (Some (str_drop (S i) r))
             | None => FlagArg name None
             end
    end in
  match s with
  | String "-" (String "-" EmptyString) => NotAFlag
  | String "-" (String "-" name) => named name
  | String "-" (String c r) => named (String c r)
  | _ => NotAFlag
  end.

Section Parse.
Context {F V : Type} (isBool : F -> bool) (setFlag : F -> string -> V -> option V) (declared : list (string * F)).

Fixpoint lookupFlag (name : string) (fs : list (string * F)) : option F :=
  match fs with
  | [] => None
  | (n, f) :: fs => if String.eqb name n then Some f else lookupFlag name fs
  end.

(** [flag.Parse] over the declared flags *)
Fixpoint parseArgs (args : list string) (v : V) : result FlagError V :=
  match args with
  | [] => Ok v
  | s :: rest =>
      match classifyArg s with
      | NotAFlag => Ok v
      | BadArg => Err BadFlagSyntax
      | FlagArg name value =>
          match lookupFlag name declared with
          | None => Err (if String.eqb name "help" || String.eqb name "h" then HelpRequested else FlagNotDefined)
          | Some f =>
              if isBool f then
                match setFlag f (default "true"%string value) v with
                | None => Err InvalidValue
                | Some v => parseArgs rest v
                end
              else
                match value, rest with
                | Some value, _ =>
                    match setFlag f value v with None => Err InvalidValue | Some v => parseArgs rest v end
                | None, value :: rest =>
                    match setFlag f value v with None => Err InvalidValue | Some v => parseArgs rest v end
                | None, [] => Err NeedsArgument
                end
          end
      end
  end.

Lemma lookupFlag_elem n fs f : lookupFlag n fs = Some f -> (n, f) ∈ fs.
Proof using Type.
  induction fs as [|[n' f'] fs IH]; cbn [lookupFlag]; [done|].
  destruct (String.eqb_spec n n') as [->|]; [intros [= ->]; by left|]. intros H. right. by apply IH.
Qed.

(** [flag.Parse] is a sequence of settings, each for a flag of the command line. *)
Lemma parseArgs_steps (R : relation V) `{!PreOrder R} args v v' :
  (forall s n val f x w w', s ∈ args -> classifyArg s = FlagArg n val -> lookupFlag n declared = Some f ->
    setFlag f x w = Some w' -> R w w') ->
  parseArgs args v = Ok v' -> R v v'.
Proof.
  revert v. induction args as [args IH] using (well_founded_induction (well_founded_ltof _ length)).
  intros v Hstep E. destruct args as [|s rest]; cbn [parseArgs] in E; [injection E as <-; reflexivity|].
  destruct (classifyArg s) as [| |n val] eqn:Ec; [injection E as <-; reflexivity|done|].
  destruct (lookupFlag n declared) as [f|] eqn:El; [|done].
  assert (Hgo : forall x w rest', rest' `suffix_of` rest -> setFlag f x v = Some w -> parseArgs rest' w = Ok v' -> R v v').
  { intros x w rest' Hs Hw E'. transitivity w; [eapply Hstep; [apply list_elem_of_here|done..]|].
    refine (IH rest' _ w _ E').
    - apply suffix_length in Hs. unfold ltof. simpl. lia.
    - intros s' n' val' f' x' u u' Hs'. apply Hstep, list_elem_of_further. by eapply elem_of_suffix. }
  destruct (isBool f).
  2: destruct val as [val|]; [|destruct rest as [|val rest]; [done|]].
  all: match type of E with match ?m with _ => _ end = _ => destruct m as [w|] eqn:Ew; [|done] end.
  all: eapply Hgo; [|done..]; try done; by eexists [_].
Qed.

End Parse.

(** ** Reading answers *)

Definition newline : ascii := "010".

(** [reader.ReadString('\n')], whose error is ignored: at the end of the
    input it gives what is left.  The second component is the unread input. *)
Definition readString (inp : string) : string * string :=
  match IndexByte inp newline with
  | Some i => (str_take (S i) inp, str_drop (S i) inp)
  | None => (inp, ""%string)
  end.

(** A line of input *)
Definition line (s : string) : string := (s ++ str1 10)%string.

Lemma line_index s rest : IndexByte s newline = None -> IndexByte (line s ++ rest) newline = Some (String.length s).
Proof.
  induction s as [|c s IH]; [by intros _|]. cbn [IndexByte line String.append String.length].
  destruct (Ascii.eqb c newline) eqn:Ec; [done|]. intros Hs. change (line (String c s) ++ rest)%string with (String c (line s ++ rest)).
  cbn [IndexByte]. rewrite Ec, IH; [done|]. by destruct (IndexByte s newline).
Qed.

Lemma line_take s rest : str_take (S (String.length s)) (line s ++ rest) = line s.
Proof. induction s as [|c s IH]; [done|]. change (line (String c s)) with (String c (line s)). cbn [String.append String.length str_take]. by rewrite <-IH at 2. Qed.

Lemma line_drop s rest : str_drop (S (String.length s)) (line s ++ rest) = rest.
Proof. induction s as [|c s IH]; [done|]. exact IH. Qed.

Lemma readString_line s rest : IndexByte s newline = None -> readString (line s ++ rest)%string = (line s, rest).
Proof. intros Hs. unfold readString. by rewrite line_index, line_take, line_drop. Qed.

(** Reading ends: what is left is shorter until it is empty. *)
Lemma readString_shorter inp : inp <> ""%string -> String.length (readString inp).2 < String.length inp.
Proof.
  intros Hne. unfold readString. destruct (IndexByte inp newline) as [i|]; cbn [snd].
  - destruct inp as [|c s]; [done|]. cbn [str_drop String.length]. clear. revert i. induction s as [|c' s IH]; intros [|i]; simpl; try lia.
    specialize (IH i). lia.
  - destruct inp; [done|]. simpl. lia.
Qed.
