(* ===== verification/Transport.v ===== *)
(** * pkg/transport: messages, the shared handler, the TCP and UDP servers

    Models src/pkg/transport/messages.go, tcp_server.go and udp_server.go
    over any [Registry].  A connection is the bytes read from it and the
    outcome of each write; the accept loop is a step relation. *)

From Stdlib Require Import Ascii String.
From S2P Require Import Prelude.
From stdpp Require Import list.
From S2P Require Import GoStrings NetIP NetIPFacts GoURL GoJSON Firewall Registry Store Memory StoreBacked.
Local Open Scope Z_scope.

#[local] Arguments String.append : simpl nomatch.

(** ** Messages *)

Record CentralizedMessage := mkMsg { Command : string; Task : string; msgAddress : string; msgCapacity : Z }.
Record CentralizedResponse := mkResp {
  Status : string; respAddress : string; respError : string; Addresses : list string }.

(** [omitempty] fields *)
Definition omit_string (name s : string) : list (string * json) := if String.eqb s "" then [] else [(name, JStr s)].
Definition omit_int (name : string) (z : Z) : list (string * json) := if z =? 0 then [] else [(name, JNum (lit_of_int z))].
Definition omit_strings (name : string) (l : list string) : list (string * json) :=
  match l with [] => [] | _ => [(name, JArr (JStr <$> l))] end.

Definition message_json (m : CentralizedMessage) : json :=
  JObj ([("cmd", JStr (Command m)); ("task", JStr (Task m))]%string
        ++ omit_string "address" (msgAddress m) ++ omit_int "capacity" (msgCapacity m)).

Definition response_json (r : CentralizedResponse) : json :=
  JObj ([("status", JStr (Status r))]%string ++ omit_string "address" (respAddress r)
        ++ omit_string "error" (respError r) ++ omit_strings "addresses" (Addresses r)).

Definition message_of_json (j : json) : option CentralizedMessage :=
  fs ← struct_fields j;
  c ← as_string "" (field "cmd" fs); t ← as_string "" (field "task" fs);
  a ← as_string "" (field "address" fs); n ← as_int 0 (field "capacity" fs);
  Some (mkMsg c t a n).

Definition response_of_json (j : json) : option CentralizedResponse :=
  fs ← struct_fields j;
  s ← as_string "" (field "status" fs); a ← as_string "" (field "address" fs);
  e ← as_string "" (field "error" fs); l ← as_strings [] (field "addresses" fs);
  Some (mkResp s a e l).

Definition MarshalMessage (m : CentralizedMessage) : string := print (message_json m).
Definition MarshalResponse (r : CentralizedResponse) : string := print (response_json r).
Definition UnmarshalMessage (s : string) : option CentralizedMessage := parse s ≫= message_of_json.
Definition UnmarshalResponse (s : string) : option CentralizedResponse := parse s ≫= response_of_json.

Definition ok_resp : CentralizedResponse := mkResp "OK" "" "" [].
Definition ok_addr (a : string) : CentralizedResponse := mkResp "OK" a "" [].
Definition status_resp (s : string) : CentralizedResponse := mkResp s "" "" [].
Definition err_resp (e : string) : CentralizedResponse := mkResp "ERR" "" e [].

(** The text of a registry error *)
Definition error_text (e : RegError) : string :=
  match e with
  | ErrNotFound => "service not found"
  | ErrNoAllowedService => "no service allowed by firewall"
  | ErrInvalidTaskName => "invalid task name"
  | ErrInvalidAddress => "invalid service address"
  | ErrStore StoreNotFound => "service not found"
  | ErrStore StoreFailed => "store call failed"
  end.

(** ** The shared handler

    The result is the response, the registry afterwards and the events
    reported to [onEvent].  [now] is the clock when the registry reads it. *)

Section Handler.
Context {R : Type} `{Registry R}.

Definition handleRegister (now : Z) (msg : CentralizedMessage) (remote : string) (reg : R)
  : CentralizedResponse * R * list string :=
  let task := TrimSpace (Task msg) in
  let addr := TrimSpace (msgAddress msg) in
  if String.eqb task "" || String.eqb addr "" then (err_resp "task and address required", reg, [])
  else
    let capacity := if msgCapacity msg <=? 0 then 1 else msgCapacity msg in
    let reg := match reg_capacityAware with
               | Some register => register now task addr capacity reg
               | None => reg_Register now task addr reg
               end in
    (ok_resp, reg, [("REGISTER " ++ task ++ " -> " ++ addr ++ " cap=" ++ lit_of_int capacity ++ " from " ++ remote)%string]).

Definition handleQuery (now : Z) (msg : CentralizedMessage) (requestorIP : IP) (remote : string) (reg : R)
  : CentralizedResponse * R * list string :=
  let task := TrimSpace (Task msg) in
  if String.eqb task "" then (err_resp "task required", reg, [])
  else
    let '(r, reg) := reg_GetServiceForRequestor now task requestorIP reg in
    let addrStr := match r with Ok a => a | Err _ => ""%string end in
    let resp :=
      match r with
      | Ok _ => if String.eqb addrStr "" then status_resp "NOTFOUND" else ok_addr addrStr
      | Err e =>
          if bool_decide (e = ErrNoAllowedService) then status_resp "FORBIDDEN"
          else if bool_decide (e = ErrNotFound) || String.eqb addrStr "" then status_resp "NOTFOUND"
          else err_resp (error_text e)
      end in
    (resp, reg, [("QUERY " ++ task ++ " from " ++ remote)%string]).

Definition HandleMessage (now : Z) (msg : CentralizedMessage) (requestorIP : IP) (remote : string) (reg : R)
  : CentralizedResponse * R * list string :=
  if String.eqb (Command msg) "REGISTER" then handleRegister now msg remote reg
  else if String.eqb (Command msg) "QUERY" then handleQuery now msg requestorIP remote reg
  else (err_resp ("unknown command: " ++ Command msg), reg, []).

(** ** Connections and datagrams

    [json_error s] is the text of the error [json.Unmarshal] gives for [s];
    [write_ok i] says whether the [i]-th write of the connection succeeds;
    [clock i] is the time of the [i]-th request. *)

Variable json_error : string -> string.

Definition respond (now : Z) (data : string) (requestorIP : IP) (remote : string) (reg : R)
  : CentralizedResponse * R * list string :=
  match UnmarshalMessage data with
  | None => (err_resp ("invalid JSON: " ++ json_error data), reg, [])
  | Some msg => HandleMessage now msg requestorIP remote reg
  end.

(** The scan loop of [handleTCPConn]: the bytes written, the registry left.
    A line too long for the scanner, or a failed write, ends the connection. *)
Fixpoint tcpLoop (write_ok : nat -> bool) (clock : nat -> Z) (i : nat) (ls : list (string * nat)) (requestorIP : IP)
    (remote : string) (reg : R) : list CentralizedResponse * R * list string :=
  match ls with
  | [] => ([], reg, [])
  | (line, raw) :: ls =>
      if too_long raw then ([], reg, ["tcp scan error: bufio.Scanner: token too long"%string])
      else
        let '(resp, reg, ev) := respond (clock i) line requestorIP remote reg in
        if write_ok i then
          let '(out, reg, ev') := tcpLoop write_ok clock (S i) ls requestorIP remote reg in
          (resp :: out, reg, ev ++ ev')
        else ([], reg, ev ++ ["tcp encode error"%string])
  end.

Definition handleTCPConn (write_ok : nat -> bool) (clock : nat -> Z) (input : string) (requestorIP : IP)
    (remote : string) (reg : R) : list CentralizedResponse * R * list string :=
  tcpLoop write_ok clock 0 (zip (scan_lines "" input) (raw_lengths 0 input)) requestorIP remote reg.

(** [Encoder.Encode] ends each value with a newline. *)
Definition wire (out : list CentralizedResponse) : string :=
  foldr (fun r s => (MarshalResponse r ++ String LF s)%string) ""%string out.

(** The receive buffer of the UDP server cuts a datagram at 4096 bytes. *)
Definition udp_buffer : nat := 4096.

Definition handleUDPRequest (write_ok : bool) (now : Z) (datagram : string) (remoteIP : IP) (remote : string) (reg : R)
  : option string * R * list string :=
  let '(resp, reg, ev) := respond now (str_take udp_buffer datagram) remoteIP remote reg in
  if write_ok then (Some (MarshalResponse resp), reg, ev) else (None, reg, ev ++ ["udp write error"%string]).

End Handler.

(** ** The registries the server runs on *)

#[export] Instance MemoryReg : Registry MemoryRegistry := {
  reg_Register := Memory.Register;
  reg_capacityAware := Some Memory.RegisterWithCapacity;
  reg_GetServiceForRequestor := fun _ => Memory.GetServiceForRequestor }.

#[export] Instance StoreBackedReg {S} `{Store S} : Registry (StoreBackedRegistry S) := {
  reg_Register := fun now => StoreBacked.Register now now;
  reg_capacityAware := Some (fun now => StoreBacked.RegisterWithCapacity now now);
  reg_GetServiceForRequestor := fun _ => StoreBacked.GetServiceForRequestor }.

(** ** The accept loops

    One server: connections are numbered; [pending] is the connection
    accepted and waiting for a permit, [active] the set the shutdown
    goroutine closes, [handlers] the handlers holding a permit, [closed] the
    connections closed by anyone.  A handler ends in two steps: it closes and
    untracks its connection, then releases its permit. *)

Record Server := mkServer {
  maxConcurrent : Z;
  pending : option nat;
  active : gset nat;
  handlers : gset nat;
  closed : gset nat;
  cancelled : bool;        (** the context is done and the listener closed *)
  swept : bool;            (** the shutdown goroutine has closed [active] *)
  returned : bool }.

Definition limit (requested default : Z) : Z := if requested <=? 0 then default else requested.

Definition newServer (requested default : Z) : Server := mkServer (limit requested default) None ∅ ∅ ∅ false false false.

Inductive server_step (s : Server) : Server -> Prop :=
| srv_accept c : pending s = None -> returned s = false ->
    c ∉ active s -> c ∉ handlers s -> c ∉ closed s -> cancelled s = false ->
    server_step s (mkServer (maxConcurrent s) (Some c) (active s) (handlers s) (closed s) (cancelled s) (swept s) false)
| srv_track c : pending s = Some c -> c ∉ active s ->
    server_step s (mkServer (maxConcurrent s) (Some c) ({[c]} ∪ active s) (handlers s) (closed s) (cancelled s) (swept s) false)
| srv_admit c : pending s = Some c -> c ∈ active s -> Z.of_nat (size (handlers s)) < maxConcurrent s ->
    server_step s (mkServer (maxConcurrent s) None (active s) ({[c]} ∪ handlers s) (closed s) (cancelled s) (swept s) false)
| srv_reject c : pending s = Some c -> c ∈ active s ->
    server_step s (mkServer (maxConcurrent s) None (active s ∖ {[c]}) (handlers s) ({[c]} ∪ closed s) (cancelled s) (swept s) false)
| srv_untrack c : c ∈ handlers s -> c ∈ active s ->
    server_step s (mkServer (maxConcurrent s) (pending s) (active s ∖ {[c]}) (handlers s) ({[c]} ∪ closed s)
                     (cancelled s) (swept s) (returned s))
| srv_release c : c ∈ handlers s -> c ∉ active s ->
    server_step s (mkServer (maxConcurrent s) (pending s) (active s) (handlers s ∖ {[c]}) (closed s)
                     (cancelled s) (swept s) (returned s))
| srv_cancel : cancelled s = false ->
    server_step s (mkServer (maxConcurrent s) (pending s) (active s) (handlers s) (closed s) true (swept s) (returned s))
| srv_sweep : cancelled s = true -> swept s = false ->
    server_step s (mkServer (maxConcurrent s) (pending s) (active s) (handlers s) (active s ∪ closed s) true true (returned s))
| srv_return : cancelled s = true -> pending s = None -> handlers s = ∅ ->
    server_step s (mkServer (maxConcurrent s) None (active s) ∅ (closed s) true (swept s) true).

(** ** Messages survive the wire *)

Definition msg_utf8 (m : CentralizedMessage) : Prop :=
  valid_utf8 (Command m) = true /\ valid_utf8 (Task m) = true /\ valid_utf8 (msgAddress m) = true /\
  in_int64 (msgCapacity m).

Definition resp_utf8 (r : CentralizedResponse) : Prop :=
  valid_utf8 (Status r) = true /\ valid_utf8 (respAddress r) = true /\ valid_utf8 (respError r) = true /\
  Forall (fun a => valid_utf8 a = true) (Addresses r).

Lemma message_json_ok m : msg_utf8 m -> json_ok (message_json m) /\ (jdepth (message_json m) <= max_depth)%N.
Proof.
  intros (H1 & H2 & H3 & H4). unfold message_json, omit_string, omit_int.
  destruct (String.eqb (msgAddress m) ""), (msgCapacity m =? 0);
    (split; [cbn [app json_ok fold_right fst snd]; split_and!; try done; apply lit_of_int_ok|done]).
Qed.

Lemma message_of_to m : msg_utf8 m -> message_of_json (message_json m) = Some m.
Proof.
  intros (_ & _ & _ & H4). unfold message_json, omit_string, omit_int. destruct m as [c t a n]. cbn [Command Task msgAddress msgCapacity] in *.
  pose proof (int_of_lit_of_int n H4) as Hn.
  unfold message_of_json. cbn [struct_fields mbind option_bind].
  destruct (String.eqb_spec a "") as [->|], (Z.eqb_spec n 0) as [->|]; cbn [app]; fields; rewrite ?Hn; reflexivity.
Qed.

Lemma message_wire m : msg_utf8 m -> UnmarshalMessage (MarshalMessage m) = Some m.
Proof.
  intros Hm. destruct (message_json_ok m Hm). unfold UnmarshalMessage, MarshalMessage.
  rewrite parse_print by done. by apply message_of_to.
Qed.

Lemma response_json_ok r : resp_utf8 r -> json_ok (response_json r) /\ (jdepth (response_json r) <= max_depth)%N.
Proof.
  intros (H1 & H2 & H3 & H4). destruct (strings_json_ok _ H4) as (L1 & L2 & _).
  unfold response_json, omit_string, omit_strings. destruct (Addresses r) as [|x l].
  - destruct (String.eqb (respAddress r) ""), (String.eqb (respError r) ""); (split; [cbn; by split_and!|done]).
  - destruct (String.eqb (respAddress r) ""), (String.eqb (respError r) "");
      (split; [cbn [app json_ok fold_right fst snd]; by split_and!|]);
      cbn [app jdepth fold_right fst snd]; rewrite L2; vm_compute; discriminate.
Qed.

Lemma response_of_to r : resp_utf8 r -> response_of_json (response_json r) = Some r.
Proof.
  intros (_ & _ & _ & H4). destruct (strings_json_ok _ H4) as (_ & _ & L3).
  destruct r as [s a e l]. unfold response_json, omit_string, omit_strings. cbn [Status respAddress respError Addresses] in *.
  unfold response_of_json. cbn [struct_fields mbind option_bind].
  destruct (String.eqb_spec a "") as [->|], (String.eqb_spec e "") as [->|], l as [|x l]; cbn [app]; fields; rewrite ?L3; reflexivity.
Qed.

Lemma response_wire r : resp_utf8 r -> UnmarshalResponse (MarshalResponse r) = Some r.
Proof.
  intros Hr. destruct (response_json_ok r Hr). unfold UnmarshalResponse, MarshalResponse.
  rewrite parse_print by done. by apply response_of_to.
Qed.

Lemma response_wire_line r : resp_utf8 r -> UnmarshalResponse (MarshalResponse r ++ String LF "")%string = Some r.
Proof.
  intros Hr. destruct (response_json_ok r Hr). unfold UnmarshalResponse, MarshalResponse.
  rewrite parse_print_ws by (done || by do 3 right). by apply response_of_to.
Qed.

(** C26: a request survives the wire: what the client marshals the server
    unmarshals to the same message, for valid UTF-8 fields and any capacity
    of an [int]; and a response survives the way back, as a datagram and as
    a line with its newline. *)
Theorem message_roundtrip m r : msg_utf8 m -> resp_utf8 r ->
  UnmarshalMessage (MarshalMessage m) = Some m /\
  UnmarshalResponse (MarshalResponse r) = Some r /\
  UnmarshalResponse (MarshalResponse r ++ String LF "")%string = Some r.
Proof. intros Hm Hr. split_and!; [by apply message_wire|by apply response_wire|by apply response_wire_line]. Qed.

Definition resp0 : CentralizedResponse := mkResp "OK" "10.0.0.1:80" "a<b" ["x"; "y"]%string.

Lemma message_roundtrip_witness :
  UnmarshalMessage (MarshalMessage (mkMsg "REGISTER" ("t" ++ utf8_encode 233) "http://a/?x&y" 7))
  = Some (mkMsg "REGISTER" ("t" ++ utf8_encode 233) "http://a/?x&y" 7)
  /\ UnmarshalResponse (MarshalResponse resp0 ++ String LF "")%string = Some resp0.
Proof.
  destruct (message_roundtrip (mkMsg "REGISTER" ("t" ++ utf8_encode 233) "http://a/?x&y" 7) resp0) as (H1 & _ & H2).
  - split_and!; [vm_compute; reflexivity..|]. unfold in_int64, int64_min, int64_max. simpl. lia.
  - split_and!; try (vm_compute; reflexivity). repeat constructor.
  - exact (conj H1 H2).
Defined.

(** ** Framing: a printed response is one line *)

Lemma response_no_ctl r : no_ctl (MarshalResponse r) = true.
Proof.
  apply print_no_ctl. unfold response_json, omit_string, omit_strings.
  assert (Hl : forall l, fold_right (fun v acc => lits_plain v /\ acc) True (JStr <$> l)) by (induction l; simpl; auto).
  destruct (String.eqb (respAddress r) ""), (String.eqb (respError r) ""), (Addresses r) as [|x l];
    cbn [app lits_plain fold_right fst snd]; split_and!; try done; apply (Hl (x :: l)).
Qed.

Lemma no_ctl_rev s : no_ctl (str_rev s) = no_ctl s.
Proof.
  induction s as [|c s IH]; [done|]. change (String c s) with (String c "" ++ s)%string.
  rewrite str_rev_app, !no_ctl_app, IH. cbn. rewrite andb_true_r. apply andb_comm.
Qed.

Lemma scan_line cur s rest : no_ctl s = true ->
  scan_lines cur (s ++ String LF rest) = drop_cr (str_rev s ++ cur) :: scan_lines "" rest.
Proof.
  revert cur. induction s as [|c s IH]; intros cur Hs; [done|]. cbn in Hs. apply andb_true_iff in Hs as [Hc Hs].
  change (String c s ++ String LF rest)%string with (String c (s ++ String LF rest)). cbn [scan_lines].
  destruct (Ascii.eqb_spec c LF) as [->|_]; [done|]. rewrite IH by done.
  change (String c s) with (String c "" ++ s)%string. by rewrite str_rev_app, str_app_assoc.
Qed.

Lemma drop_cr_plain s : no_ctl s = true -> drop_cr (str_rev s) = s.
Proof.
  intros Hs. rewrite <- no_ctl_rev in Hs. unfold drop_cr. destruct (str_rev s) as [|c r] eqn:E.
  - rewrite <- (str_rev_involutive s), E. done.
  - cbn in Hs. apply andb_true_iff in Hs as [Hc _]. destruct (Ascii.eqb_spec c CR) as [->|_]; [done|].
    rewrite <- E. apply str_rev_involutive.
Qed.

Lemma wire_lines out : scan_lines "" (wire out) = MarshalResponse <$> out.
Proof.
  induction out as [|r out IH]; [done|]. cbn [wire foldr]. fold (wire out).
  rewrite scan_line by apply response_no_ctl. rewrite str_app_nil_r, drop_cr_plain by apply response_no_ctl.
  rewrite IH. done.
Qed.

Section HandlerFacts.
Context {R : Type} `{Registry R}.
Variable json_error : string -> string.

(** The reference: answer the requests one after the other. *)
Fixpoint answers (clock : nat -> Z) (i : nat) (requests : list string) (ip : IP) (remote : string) (reg : R)
  : list CentralizedResponse * R :=
  match requests with
  | [] => ([], reg)
  | q :: requests =>
      let '(resp, reg, _) := respond json_error (clock i) q ip remote reg in
      let '(out, reg) := answers clock (S i) requests ip remote reg in
      (resp :: out, reg)
  end.

Lemma tcpLoop_answers clock k ls ns ip remote reg out reg' ev :
  Forall (fun n => too_long n = false) ns -> length ls = length ns ->
  tcpLoop json_error (fun _ => true) clock k (zip ls ns) ip remote reg = (out, reg', ev) ->
  answers clock k ls ip remote reg = (out, reg').
Proof.
  revert ns k reg out ev. induction ls as [|l ls IH]; intros [|n ns] k reg out ev Hl Hlen; try done.
  - by intros [= <- <- _].
  - apply Forall_cons in Hl as [Hn Hl]. cbn [zip zip_with tcpLoop answers]. rewrite Hn.
    destruct (respond _ _ l ip remote reg) as [[resp reg1] ev1].
    destruct (tcpLoop _ _ _ _ _ _ _ reg1) as [[out2 reg2] ev2] eqn:E2. intros [= <- <- _].
    simpl in Hlen. by rewrite (IH ns (S k) reg1 out2 ev2 Hl ltac:(lia) E2).
Qed.

Lemma answers_length clock k ls ip remote reg : length (answers clock k ls ip remote reg).1 = length ls.
Proof.
  revert k reg. induction ls as [|l ls IH]; intros k reg; [done|]. cbn [answers].
  destruct (respond _ _ l ip remote reg) as [[resp reg1] ev1]. specialize (IH (S k) reg1).
  destruct (answers _ _ ls _ _ reg1). simpl in *. lia.
Qed.

(** A TCP client gets exactly one response per request line, in order,
    and can tell them apart.  When no line exceeds the scanner's buffer and
    no write fails, a connection does what answering its lines one after the
    other does, and the bytes it writes, split at newlines, are the
    marshalled responses, one per line read. *)
Theorem tcp_one_response_per_line clock input ip remote reg out reg' ev :
  Forall (fun n => too_long n = false) (raw_lengths 0 input) ->
  handleTCPConn json_error (fun _ => true) clock input ip remote reg = (out, reg', ev) ->
  (out, reg') = answers clock 0 (scan_lines "" input) ip remote reg /\
  scan_lines "" (wire out) = MarshalResponse <$> out /\
  length (scan_lines "" (wire out)) = length (scan_lines "" input).
Proof.
  intros Hl E. apply tcpLoop_answers in E; [|done|by apply scan_raw_length].
  rewrite wire_lines, length_fmap. split; [done|]. split; [done|].
  by rewrite <- (answers_length clock 0 _ ip remote reg), E.
Qed.

(** How a query outcome is reported, for every registry: an address as
    OK, a firewall refusal as FORBIDDEN and everything else, a failed store
    included, as NOTFOUND.  The ERR branch is never taken for a non-blank
    task. *)
Theorem query_status now msg ip remote reg :
  TrimSpace (Task msg) <> ""%string ->
  let '(resp, reg', _) := handleQuery now msg ip remote reg in
  let r := reg_GetServiceForRequestor now (TrimSpace (Task msg)) ip reg in
  reg' = r.2 /\ Status resp <> "ERR"%string /\
  (Status resp = "OK"%string <-> exists a, r.1 = Ok a /\ a <> ""%string /\ respAddress resp = a) /\
  (Status resp = "FORBIDDEN"%string <-> r.1 = Err ErrNoAllowedService).
Proof.
  intros Ht. unfold handleQuery. rewrite (proj2 (String.eqb_neq _ _) Ht).
  destruct (reg_GetServiceForRequestor now _ ip reg) as [[a|e] reg']; simpl.
  - destruct (String.eqb_spec a "") as [->|Ha]; simpl; (split; [done|]); split; try done; split; split; try done.
    + by intros (a & [= <-] & ? & _).
    + intros _. eauto.
  - destruct (bool_decide (e = ErrNoAllowedService)) eqn:Ee.
    + apply bool_decide_eq_true in Ee as ->. simpl. split_and!; try done. split; [done|]. by intros (a & ? & _).
    + apply bool_decide_eq_false in Ee. rewrite orb_true_r. simpl. split_and!; try done.
      * split; [done|]. by intros (a & ? & _).
      * split; [done|]. intros [= ->]. done.
Qed.

End HandlerFacts.

Lemma tcp_one_response_per_line_witness :
  let input := ("junk" ++ String LF (MarshalMessage (mkMsg "QUERY" "t" "" 0) ++ String LF ""))%string in
  let '(out, _, _) := handleTCPConn (fun _ => "bad"%string) (fun _ => true) (fun _ => 0) input [] "x" NewMemoryRegistry in
  length (scan_lines "" (wire out)) = 2%nat.
Proof.
  intros input. destruct (handleTCPConn _ _ _ _ _ _ _) as [[out reg'] ev] eqn:E.
  destruct (tcp_one_response_per_line (fun _ => "bad"%string) (fun _ => 0) input [] "x" NewMemoryRegistry out reg' ev) as (_ & _ & H).
  - vm_compute. repeat constructor.
  - exact E.
  - rewrite H. vm_compute. reflexivity.
Defined.

Lemma query_status_witness :
  Status (handleQuery 0 (mkMsg "QUERY" " t " "" 0) [] "x" NewMemoryRegistry).1.1 <> "ERR"%string.
Proof.
  pose proof (query_status 0 (mkMsg "QUERY" " t " "" 0) [] "x" NewMemoryRegistry ltac:(discriminate)) as H.
  destruct (handleQuery _ _ _ _ _) as [[resp reg'] ev]. apply H.
Defined.

(** ** Registering, then querying, through the handler *)

(** The address just registered is in the task's list. *)
Lemma register_elem now task addr cap m :
  TrimSpace task <> ""%string -> TrimSpace addr <> ""%string ->
  is_Some (mem_view (Memory.RegisterWithCapacity now task addr cap m) (TrimSpace task) (TrimSpace addr)).
Proof.
  intros Ht Ha. unfold Memory.RegisterWithCapacity. rewrite (proj2 (blank_spec _ _)) by done.
  rewrite upsert_view by done. rewrite decide_True by done. destruct (List.find _ _); eauto.
Qed.

(** A REGISTER answered OK is found by the next QUERY.  On a reachable
    memory registry, after a REGISTER message for a non-blank task and
    address, a QUERY for the task by a requestor who may reach that address
    is answered OK with an address registered for the task. *)
Theorem register_then_query_ok ops m now msg qmsg ip remote :
  mem_run ops m -> in_int64 (msgCapacity msg) -> Command msg = "REGISTER"%string -> Command qmsg = "QUERY"%string ->
  TrimSpace (Task msg) <> ""%string -> TrimSpace (msgAddress msg) <> ""%string ->
  TrimSpace (Task qmsg) = TrimSpace (Task msg) ->
  let '(resp, m1, _) := HandleMessage now msg ip remote m in
  (forall es, services m1 !! TrimSpace (Task msg) = Some es -> weights_fit es /\ Forall (fun e => Address e <> ""%string) es) ->
  (forall e, Address e = TrimSpace (msgAddress msg) -> permitted (firewall m1) ip e = true) ->
  Status resp = "OK"%string /\
  let '(qresp, _, _) := HandleMessage now qmsg ip remote m1 in
  Status qresp = "OK"%string /\ is_Some (mem_view m1 (TrimSpace (Task msg)) (respAddress qresp)).
Proof.
  intros Hrun Hcap Hc Hq Ht Ha Htt. unfold HandleMessage. rewrite Hc, Hq. cbn [String.eqb Ascii.eqb Bool.eqb].
  unfold handleRegister. rewrite (proj2 (blank_spec _ _)) by done. simpl reg_capacityAware. cbv iota beta zeta.
  set (cap := if msgCapacity msg <=? 0 then 1 else msgCapacity msg). set (m1 := Memory.RegisterWithCapacity now _ _ cap m).
  intros Hfit Hperm. split; [done|].
  assert (Hm1 : mem_wf m1).
  { apply RegisterWithCapacity_wf; [|by eapply mem_run_wf]. unfold cap.
    destruct (Z.leb_spec (msgCapacity msg) 0); [unfold in_int64, int64_min, int64_max; lia|done]. }
  pose proof (register_elem now (TrimSpace (Task msg)) (TrimSpace (msgAddress msg)) cap m) as Hel.
  rewrite !TrimSpace_idemp in Hel. specialize (Hel Ht Ha). fold m1 in Hel. unfold mem_view in Hel.
  destruct (services m1 !! TrimSpace (Task msg)) as [es|] eqn:Hes; [|by destruct Hel]. simpl in Hel.
  destruct (Hfit es eq_refl) as [Hw Hne]. apply findEntry_elem, list_elem_of_fmap in Hel as (e & He & Hin).
  unfold handleQuery. rewrite Htt, (proj2 (String.eqb_neq _ _) Ht). simpl reg_GetServiceForRequestor.
  pose proof (query_known (TrimSpace (Task msg)) ip m1 es Hm1) as Hk. rewrite !TrimSpace_idemp in Hk. specialize (Hk Ht Hes Hw).
  destruct (List.filter _ es) as [|e' al] eqn:El.
  { exfalso. assert (In e []) as []. rewrite <- El. apply filter_In. split; [by apply list_elem_of_In|by apply Hperm]. }
  destruct Hk as (a & Hsel & ->). cbv iota beta.
  apply selectLoop_In in Hsel as (e2 & He2 & <-). rewrite <- El in He2. apply list_elem_of_In, filter_In in He2 as [He2 _].
  apply list_elem_of_In in He2. rewrite Forall_forall in Hne. rewrite (proj2 (String.eqb_neq _ _) (Hne _ He2)). simpl.
  split; [done|]. unfold mem_view. rewrite Hes. simpl. by apply findEntry_elem, list_elem_of_fmap_2.
Qed.

Lemma register_then_query_ok_witness :
  let '(_, m1, _) := HandleMessage 5 (mkMsg "REGISTER" "t" "10.0.0.1:80" 2) [] "x" NewMemoryRegistry in
  let '(qresp, _, _) := HandleMessage 5 (mkMsg "QUERY" " t" "" 0) [] "x" m1 in
  Status qresp = "OK"%string.
Proof.
  pose proof (register_then_query_ok [] NewMemoryRegistry 5 (mkMsg "REGISTER" "t" "10.0.0.1:80" 2) (mkMsg "QUERY" " t" "" 0) [] "x"
    run_nil ltac:(unfold in_int64, int64_min, int64_max; simpl; lia) eq_refl eq_refl ltac:(discriminate) ltac:(discriminate) eq_refl) as H.
  destruct (HandleMessage 5 (mkMsg "REGISTER" _ _ _) _ _ _) as [[resp m1] ev] eqn:E.
  destruct H as [_ H].
  - intros es Hes. vm_compute in E. injection E as _ <- _. vm_compute in Hes. injection Hes as <-.
    split; [vm_compute; discriminate|]. repeat constructor; discriminate.
  - intros e _. vm_compute in E. injection E as _ <- _. reflexivity.
  - destruct (HandleMessage 5 (mkMsg "QUERY" _ _ _) _ _ m1) as [[qresp m2] ev2]. apply H.
Defined.

(** ** The accept loop *)

Definition server_inv (s : Server) : Prop :=
  Z.of_nat (size (handlers s)) <= maxConcurrent s /\ handlers s ⊆ active s ∪ closed s /\
  (forall c, pending s = Some c -> c ∉ handlers s) /\
  (forall c, c ∈ active s -> c ∈ handlers s \/ pending s = Some c).

Lemma server_step_inv s s' : server_step s s' -> server_inv s ->
  server_inv s' /\ maxConcurrent s' = maxConcurrent s.
Proof.
  intros Hs (I1 & I2 & I3 & I4). split; [|by destruct Hs]. destruct Hs; unfold server_inv; simpl.
  - split_and!; [done|done| |].
    { intros c' [= <-] Hc'. set_solver. }
    intros c' Hc'. destruct (I4 c' Hc') as [?|?]; [by left|congruence].
  - split_and!; [done|set_solver| |].
    { intros c' [= <-]. by apply I3. }
    intros c' [->%elem_of_singleton|Hc']%elem_of_union; [by right|].
    destruct (I4 c' Hc'); [by left|right; congruence].
  - split_and!; [|set_solver|done|].
    + rewrite size_union by set_solver. rewrite size_singleton. lia.
    + intros c' Hc'. left. destruct (I4 c' Hc') as [?|?]; set_solver.
  - split_and!; [done| |done|].
    + intros c' Hc'. specialize (I2 c' Hc'). destruct (decide (c' = c)); set_solver.
    + intros c' [Hc' Hne]%elem_of_difference. destruct (I4 c' Hc') as [?|?]; [by left|set_solver].
  - split_and!; [done| |done|].
    + intros c' Hc'. specialize (I2 c' Hc'). destruct (decide (c' = c)); set_solver.
    + intros c' [Hc' _]%elem_of_difference. auto.
  - split_and!; [|set_solver|set_solver|].
    + etrans; [|exact I1]. apply Nat2Z.inj_le, subseteq_size. set_solver.
    + intros c' Hc'. destruct (I4 c' Hc') as [?|?]; [left; set_solver|by right].
  - by split_and!.
  - split_and!; [done|set_solver|done|done].
  - split_and!; [change (Z.of_nat (size (∅ : gset nat)) <= maxConcurrent s); rewrite size_empty; lia|set_solver|done|].
    intros c' Hc'. destruct (I4 c' Hc') as [?|?]; [set_solver|congruence].
Qed.

(** C28: concurrency is bounded.  In every state a server reaches, at most
    [maxConcurrent] handlers hold a permit (5000 by default), every such
    handler's connection is tracked for shutdown or already closed, and
    nothing but handlers' connections and the one being admitted is
    tracked. *)
Theorem server_concurrency_bound requested default s :
  0 <= default -> rtc server_step (newServer requested default) s ->
  Z.of_nat (size (handlers s)) <= limit requested default /\ handlers s ⊆ active s ∪ closed s /\
  (forall c, c ∈ active s -> c ∈ handlers s \/ pending s = Some c).
Proof.
  intros Hd Hr. assert (Hinv : server_inv s /\ maxConcurrent s = limit requested default).
  { revert Hr. apply (rtc_ind_r (fun s => server_inv s /\ maxConcurrent s = limit requested default)).
    - split; [|done]. unfold server_inv. simpl. split_and!; [|set_solver|done|set_solver].
      change (Z.of_nat (size (∅ : gset nat)) <= limit requested default). rewrite size_empty. unfold limit. destruct (Z.leb_spec requested 0); lia.
    - intros s1 s2 _ Hst [Hi Hm]. destruct (server_step_inv _ _ Hst Hi) as [? E]. by rewrite E. }
  destruct Hinv as [(I1 & I2 & _ & I4) <-]. done.
Qed.

Lemma server_concurrency_bound_witness :
  exists s, rtc server_step (newServer 0 5000) s /\ handlers s = {[7%nat]} /\ Z.of_nat (size (handlers s)) <= 5000.
Proof.
  assert (Hr : rtc server_step (newServer 0 5000) (mkServer 5000 None {[7%nat]} {[7%nat]} ∅ false false false)).
  { eapply rtc_l; [apply (srv_accept _ 7); simpl; try done; set_solver|].
    eapply rtc_l; [apply (srv_track _ 7); simpl; try done; set_solver|].
    eapply rtc_l; [apply (srv_admit _ 7); simpl; try done; vm_compute; reflexivity|].
    simpl. rewrite !union_empty_r_L. apply rtc_refl. }
  eexists. split; [exact Hr|]. split; [done|].
  apply (server_concurrency_bound 0 5000 _ ltac:(lia) Hr).
Defined.

(** Shutdown can miss a connection.  A connection accepted before the
    context is cancelled but tracked only after the shutdown goroutine has
    closed the tracked ones is never closed by the server: a state is
    reachable where the listener is closed, the sweep is over, and a handler
    serves an open connection; from there the server cannot return before
    that handler finishes by itself. *)
Theorem shutdown_misses_connection :
  exists s c, rtc server_step (newServer 0 5000) s /\ cancelled s = true /\ swept s = true /\
    c ∈ handlers s /\ c ∉ closed s /\
    forall s', server_step s s' -> c ∈ handlers s' -> returned s' = false.
Proof.
  exists (mkServer 5000 None {[7%nat]} {[7%nat]} ∅ true true false), 7%nat. split; [|split_and!; try done; [set_solver..|]].
  - eapply rtc_l; [apply (srv_accept _ 7); simpl; try done; set_solver|].
    eapply rtc_l; [by apply srv_cancel|]. eapply rtc_l; [by apply srv_sweep|].
    eapply rtc_l; [apply (srv_track _ 7); simpl; try done; set_solver|].
    eapply rtc_l; [apply (srv_admit _ 7); simpl; try done; vm_compute; reflexivity|].
    simpl. rewrite !union_empty_r_L. apply rtc_refl.
  - intros s' Hs Hc. inversion Hs; subst; simpl in *; try done; set_solver.
Qed.
