(* ===== verification/Client.v ===== *)
(** * pkg/client/client.go: the client library

    Registrations and queries over UDP, TCP and TLS.  The network is a class:
    what a call sends and what comes back; the server of Transport.v is one
    instance of it, against which the calls are proved end to end. *)

From Stdlib Require Import Ascii String.
From S2P Require Import Prelude.
From stdpp Require Import list.
From S2P Require Import GoStrings NetIP NetIPFacts GoURL GoJSON Firewall Registry Store Memory StoreBacked Transport.
Local Open Scope Z_scope.

#[local] Arguments String.append : simpl nomatch.

(** ** TLS set-up *)

Record TLSConfig := mkTLSConfig {
  Certificate : string; RootCAs : string; MinVersion : Z; CipherSuites : list Z; ServerName : string }.

(** Key pairs, files and PEM data, as the Go library reads them *)
Class CertFiles := {
  LoadX509KeyPair : string -> string -> result string string;
  ReadFile : string -> result string string;
  AppendCertsFromPEM : string -> bool }.

Definition VersionTLS12 : Z := 771.
Definition cipher_suites : list Z := [49200; 49199; 49196; 49195].

Definition tlsServerName (getenv : string -> string) (serverAddr : string) : string :=
  let override := TrimSpace (getenv "TDS_TLS_SERVER_NAME") in
  if negb (String.eqb override "") then override
  else match SplitHostPort (TrimSpace serverAddr) with
       | None => ""
       | Some (host, _) =>
           let host := TrimBytes ["["; "]"]%string host in
           let lowerHost := ToLower host in
           if String.eqb lowerHost "tds-server" || HasPrefix lowerHost "tds-server." then "localhost" else ""
       end.

Definition loadTLSConfig `{CertFiles} (getenv : string -> string) (certFile keyFile caFile serverAddr : string)
  : result string TLSConfig :=
  match LoadX509KeyPair certFile keyFile with
  | Err e => Err ("load client cert: " ++ e)%string
  | Ok cert =>
      match ReadFile caFile with
      | Err e => Err ("load ca cert: " ++ e)%string
      | Ok caCert =>
          if negb (AppendCertsFromPEM caCert) then Err "failed to parse CA certificate"%string
          else Ok (mkTLSConfig cert caCert VersionTLS12 cipher_suites (tlsServerName getenv serverAddr))
      end
  end.

(** ** The network

    A UDP call dials, writes one datagram and reads one back; a TCP call
    dials, writes and then reads: the bytes that arrive before the deadline
    and the error that ends them.  A TLS call can also fail in the dial, the
    handshake or the write. *)

Inductive TLSFault := TLSDial (e : string) | TLSHandshake (e : string) | TLSEncode (e : string).

Class Network (W : Type) := {
  udp_call : string -> string -> W -> result string string * W;
  tcp_call : string -> string -> W -> result string (string * string) * W;
  tls_call : TLSConfig -> string -> string -> W -> result TLSFault (string * string) * W }.

Section Client.
Context {W : Type} `{Network W} `{CertFiles}.
Variable getenv : string -> string.
(** The texts of the errors of [json.Unmarshal] and [Decoder.Decode] *)
Variable unmarshal_error : string -> string.
Variable decode_error : string -> string -> string.

Definition read_buffer : nat := 4096.

Definition registerMsg (task address : string) (capacity : Z) : CentralizedMessage :=
  mkMsg "REGISTER" task address capacity.
Definition queryMsg (task : string) : CentralizedMessage := mkMsg "QUERY" task "" 0.

Definition atLeast1 (capacity : Z) : Z := if capacity <=? 0 then 1 else capacity.

(** Unmarshalling a reply, and what it means to each caller *)
Definition unmarshalReply (data : string) : result string CentralizedResponse :=
  match UnmarshalResponse data with
  | Some resp => Ok resp
  | None => Err ("unmarshal response: " ++ unmarshal_error data)%string
  end.

Definition registerReply (resp : CentralizedResponse) : result string unit :=
  if String.eqb (Status resp) "OK" then Ok tt else Err ("server error: " ++ respError resp)%string.

Definition queryReply (resp : CentralizedResponse) : result string string :=
  if String.eqb (Status resp) "NOTFOUND" then Ok ""%string
  else if String.eqb (Status resp) "ERR" then Err ("server error: " ++ respError resp)%string
  else Ok (respAddress resp).

(** [r.ReadBytes('\n')] *)
Definition readLine (stream : string * string) : result string string :=
  match IndexByte stream.1 LF with
  | Some i => Ok (str_take (S i) stream.1)
  | None => Err stream.2
  end.

(** ** UDP *)

Definition RegisterUDPWithCapacity (serverAddr task address : string) (capacity : Z) (w : W) : result string unit * W :=
  let capacity := atLeast1 capacity in
  let '(r, w) := udp_call serverAddr (MarshalMessage (registerMsg task address capacity)) w in
  (match r with
   | Err e => Err e
   | Ok datagram =>
       match unmarshalReply (str_take read_buffer datagram) with
       | Err e => Err e
       | Ok resp => registerReply resp
       end
   end, w).

Definition RegisterUDP (serverAddr task address : string) : W -> result string unit * W :=
  RegisterUDPWithCapacity serverAddr task address 1.

Definition QueryUDP (serverAddr task : string) (w : W) : result string string * W :=
  let '(r, w) := udp_call serverAddr (MarshalMessage (queryMsg task)) w in
  (match r with
   | Err e => Err e
   | Ok datagram =>
       match unmarshalReply (str_take read_buffer datagram) with
       | Err e => Err e
       | Ok resp => queryReply resp
       end
   end, w).

(** ** TCP *)

Definition RegisterTCPWithCapacity (serverAddr task address : string) (capacity : Z) (w : W) : result string unit * W :=
  let capacity := atLeast1 capacity in
  let '(r, w) := tcp_call serverAddr (MarshalMessage (registerMsg task address capacity) ++ String LF "") w in
  (match r with
   | Err e => Err e
   | Ok stream =>
       match readLine stream with
       | Err e => Err e
       | Ok line =>
           match unmarshalReply line with
           | Err e => Err e
           | Ok resp => registerReply resp
           end
       end
   end, w).

Definition RegisterTCP (serverAddr task address : string) : W -> result string unit * W :=
  RegisterTCPWithCapacity serverAddr task address 1.

Definition QueryTCP (serverAddr task : string) (w : W) : result string string * W :=
  let '(r, w) := tcp_call serverAddr (MarshalMessage (queryMsg task) ++ String LF "") w in
  (match r with
   | Err e => Err e
   | Ok stream =>
       match readLine stream with
       | Err e => Err e
       | Ok line =>
           match unmarshalReply line with
           | Err e => Err e
           | Ok resp => queryReply resp
           end
       end
   end, w).

(** ** TLS *)

Definition tls_fault (f : TLSFault) : string :=
  match f with
  | TLSDial e => ("tls dial: " ++ e)%string
  | TLSHandshake e => ("tls handshake: " ++ e)%string
  | TLSEncode e => ("encode request: " ++ e)%string
  end.

Definition decodeReply (stream : string * string) : result string CentralizedResponse :=
  match parse_first stream.1 ≫= response_of_json with
  | Some resp => Ok resp
  | None => Err ("decode response: " ++ decode_error stream.1 stream.2)%string
  end.

Definition RegisterTLS (serverAddr task address certFile keyFile caFile : string) (w : W) : result string unit * W :=
  match loadTLSConfig getenv certFile keyFile caFile serverAddr with
  | Err e => (Err e, w)
  | Ok config =>
      let '(r, w) := tls_call config serverAddr (MarshalMessage (registerMsg task address 1) ++ String LF "") w in
      (match r with
       | Err f => Err (tls_fault f)
       | Ok stream =>
           match decodeReply stream with
           | Err e => Err e
           | Ok resp =>
               if String.eqb (Status resp) "OK" then Ok tt
               else if negb (String.eqb (respError resp) "") then Err ("server error: " ++ respError resp)%string
               else Err ("server error: " ++ Status resp)%string
           end
       end, w)
  end.

Definition QueryTLS (serverAddr task certFile keyFile caFile : string) (w : W) : result string string * W :=
  match loadTLSConfig getenv certFile keyFile caFile serverAddr with
  | Err e => (Err e, w)
  | Ok config =>
      let '(r, w) := tls_call config serverAddr (MarshalMessage (queryMsg task) ++ String LF "") w in
      (match r with
       | Err f => Err (tls_fault f)
       | Ok stream =>
           match decodeReply stream with
           | Err e => Err e
           | Ok resp =>
               if String.eqb (Status resp) "NOTFOUND" then Ok ""%string
               else if String.eqb (Status resp) "ERR" then Err ("server error: " ++ respError resp)%string
               else if negb (String.eqb (Status resp) "OK") then Err ("server error: " ++ Status resp)%string
               else Ok (respAddress resp)
           end
       end, w)
  end.

(** ** The protocol chosen by the environment *)

Definition RegisterWithCapacity (serverAddr task address : string) (capacity : Z) (w : W) : result string unit * W :=
  let capacity := atLeast1 capacity in
  let proto := ToLower (getenv "TDS_SERVER_PROTO") in
  if String.eqb proto "tcp" then RegisterTCPWithCapacity serverAddr task address capacity w
  else RegisterUDPWithCapacity serverAddr task address capacity w.

Definition Register (serverAddr task address : string) : W -> result string unit * W :=
  RegisterWithCapacity serverAddr task address 1.

Definition Query (serverAddr task : string) (w : W) : result string string * W :=
  let proto := ToLower (getenv "TDS_SERVER_PROTO") in
  if String.eqb proto "tcp" then QueryTCP serverAddr task w else QueryUDP serverAddr task w.

End Client.

(** ** Against the server

    The network that carries every call, unharmed, to a server of
    Transport.v: the registry is the state of the network. *)

Section Loopback.
Context {R : Type} `{Registry R}.
Variable json_error : string -> string.
Variable now : Z.
Variable ip : IP.
Variable remote : string.

Definition serve_stream (data : string) (reg : R) : string * R :=
  let '(out, reg, _) := handleTCPConn json_error (fun _ => true) (fun _ => now) data ip remote reg in (wire out, reg).

Definition Loopback : Network R := {|
  udp_call := fun _ data reg =>
    let '(out, reg, _) := handleUDPRequest json_error true now data ip remote reg in
    (match out with Some d => Ok d | None => Err "i/o timeout"%string end, reg);
  tcp_call := fun _ data reg => let '(out, reg) := serve_stream data reg in (Ok (out, "EOF"%string), reg);
  tls_call := fun _ _ data reg => let '(out, reg) := serve_stream data reg in (Ok (out, "EOF"%string), reg) |}.

Lemma str_take_all n s : (String.length s <= n)%nat -> str_take n s = s.
Proof. revert n. induction s as [|c s IH]; intros [|n] Hn; simpl in *; try done; [lia|]. f_equal. apply IH. lia. Qed.

Lemma message_no_ctl m : no_ctl (MarshalMessage m) = true.
Proof.
  apply print_no_ctl. unfold message_json, omit_string, omit_int.
  destruct (String.eqb (msgAddress m) ""), (msgCapacity m =? 0);
    cbn [app lits_plain fold_right fst snd]; split_and!; try done; apply lit_of_int_no_ctl.
Qed.

Lemma raw_line k s rest : no_ctl s = true ->
  raw_lengths k (s ++ String LF rest) = (k + String.length s)%nat :: raw_lengths 0 rest.
Proof.
  revert k. induction s as [|c s IH]; intros k Hs; [cbn; f_equal; lia|]. cbn in Hs. apply andb_true_iff in Hs as [Hc Hs].
  change (String c s ++ String LF rest)%string with (String c (s ++ String LF rest)). cbn [raw_lengths].
  destruct (Ascii.eqb_spec c LF) as [->|_]; [done|]. rewrite IH by done. f_equal. simpl. lia.
Qed.

(** A request that fits gets the handler's answer, in a datagram or a line. *)
Definition fits (m : CentralizedMessage) : Prop := msg_utf8 m /\ (String.length (MarshalMessage m) <= 4096)%nat.

Lemma udp_serves addr m reg : fits m ->
  udp_call (Network := Loopback) addr (MarshalMessage m) reg
  = let '(resp, reg', _) := HandleMessage now m ip remote reg in (Ok (MarshalResponse resp), reg').
Proof.
  intros [Hm Hl]. simpl. unfold handleUDPRequest, respond, udp_buffer. rewrite str_take_all by done.
  rewrite message_wire by done. by destruct (HandleMessage now m ip remote reg) as [[resp reg'] ev].
Qed.

Lemma stream_serves m reg : fits m ->
  serve_stream (MarshalMessage m ++ String LF "") reg
  = let '(resp, reg', _) := HandleMessage now m ip remote reg in ((MarshalResponse resp ++ String LF "")%string, reg').
Proof.
  intros [Hm Hl]. unfold serve_stream, handleTCPConn.
  rewrite scan_line, raw_line by apply message_no_ctl. rewrite str_app_nil_r, drop_cr_plain by apply message_no_ctl.
  cbn [zip zip_with scan_lines raw_lengths String.eqb Nat.eqb tcpLoop Nat.add].
  replace (too_long (String.length (MarshalMessage m))) with false
    by (symmetry; unfold too_long, max_line; apply N.ltb_ge; lia).
  unfold respond. rewrite message_wire by done.
  by destruct (HandleMessage now m ip remote reg) as [[resp reg'] ev].
Qed.

Lemma IndexByte_line s rest : no_ctl s = true -> IndexByte (s ++ String LF rest) LF = Some (String.length s).
Proof.
  induction s as [|c s IH]; intros Hs; [done|]. cbn in Hs. apply andb_true_iff in Hs as [Hc Hs].
  change (String c s ++ String LF rest)%string with (String c (s ++ String LF rest)). cbn [IndexByte].
  destruct (Ascii.eqb_spec c LF) as [->|_]; [done|]. by rewrite IH.
Qed.

Lemma readLine_response resp e :
  readLine ((MarshalResponse resp ++ String LF "")%string, e) = Ok (MarshalResponse resp ++ String LF "")%string.
Proof.
  unfold readLine. cbn [fst]. rewrite IndexByte_line by apply response_no_ctl.
  rewrite str_take_all; [done|]. rewrite str_length_app. simpl. lia.
Qed.

Lemma decode_response resp rest : resp_utf8 resp ->
  parse_first (MarshalResponse resp ++ String LF rest) ≫= response_of_json = Some resp.
Proof.
  intros Hr. destruct (response_json_ok resp Hr) as [Hok Hd]. unfold MarshalResponse.
  destruct (json_roundtrip (response_json resp) (String LF rest) Hok Hd) as [_ ->]; [by do 3 right|].
  by apply response_of_to.
Qed.

End Loopback.

Section EndToEnd.
Context {R : Type} `{Registry R} `{CertFiles}.
Variable getenv : string -> string.
Variable json_error unmarshal_error : string -> string.
Variable decode_error : string -> string -> string.
Variable now : Z.
Variable ip : IP.
Variable remote : string.

#[local] Instance net : Network R := Loopback json_error now ip remote.

(** A response the client's buffer holds *)
Definition resp_fits (resp : CentralizedResponse) : Prop :=
  resp_utf8 resp /\ (String.length (MarshalResponse resp) <= 4096)%nat.

Lemma net_serves addr m reg : fits m ->
  udp_call addr (MarshalMessage m) reg
  = let '(resp, reg', _) := HandleMessage now m ip remote reg in (Ok (MarshalResponse resp), reg').
Proof. apply (udp_serves json_error now ip remote). Qed.

Lemma reply_datagram resp : resp_fits resp ->
  unmarshalReply unmarshal_error (str_take read_buffer (MarshalResponse resp)) = Ok resp.
Proof.
  intros [Hr Hl]. unfold unmarshalReply, read_buffer. by rewrite str_take_all, response_wire.
Qed.

Lemma reply_line resp : resp_fits resp ->
  unmarshalReply unmarshal_error (MarshalResponse resp ++ String LF "")%string = Ok resp.
Proof. intros [Hr _]. unfold unmarshalReply. by rewrite response_wire_line. Qed.

Lemma reply_stream resp e : resp_fits resp ->
  decodeReply decode_error ((MarshalResponse resp ++ String LF "")%string, e) = Ok resp.
Proof. intros [Hr _]. unfold decodeReply. cbn [fst]. by rewrite decode_response. Qed.

(** Each call returns what the handler answered, read by its caller. *)
Lemma query_serves addr task reg resp reg' ev :
  fits (queryMsg task) -> HandleMessage now (queryMsg task) ip remote reg = (resp, reg', ev) -> resp_fits resp ->
  QueryUDP unmarshal_error addr task reg = (queryReply resp, reg') /\
  QueryTCP unmarshal_error addr task reg = (queryReply resp, reg').
Proof.
  intros Hf Hh Hr. unfold QueryUDP, QueryTCP. rewrite (net_serves addr _ reg Hf), Hh. cbn [tcp_call net Loopback].
  rewrite (stream_serves json_error now ip remote _ reg Hf), Hh. by rewrite reply_datagram, readLine_response, reply_line.
Qed.

Lemma register_serves addr task address cap reg resp reg' ev :
  fits (registerMsg task address (atLeast1 cap)) ->
  HandleMessage now (registerMsg task address (atLeast1 cap)) ip remote reg = (resp, reg', ev) -> resp_fits resp ->
  RegisterUDPWithCapacity unmarshal_error addr task address cap reg = (registerReply resp, reg') /\
  RegisterTCPWithCapacity unmarshal_error addr task address cap reg = (registerReply resp, reg').
Proof.
  intros Hf Hh Hr. unfold RegisterUDPWithCapacity, RegisterTCPWithCapacity.
  rewrite (net_serves addr _ reg Hf), Hh. cbn [tcp_call net Loopback].
  rewrite (stream_serves json_error now ip remote _ reg Hf), Hh. by rewrite reply_datagram, readLine_response, reply_line.
Qed.

(** What the registry's answer is on the wire *)
Definition outcome (r : result RegError string) : CentralizedResponse :=
  match r with
  | Ok a => if String.eqb a "" then status_resp "NOTFOUND" else ok_addr a
  | Err ErrNoAllowedService => status_resp "FORBIDDEN"
  | Err _ => status_resp "NOTFOUND"
  end.

Lemma handle_query task reg : TrimSpace task <> ""%string ->
  let '(r, reg') := reg_GetServiceForRequestor now (TrimSpace task) ip reg in
  exists ev, HandleMessage now (queryMsg task) ip remote reg = (outcome r, reg', ev).
Proof.
  intros Ht. unfold HandleMessage, queryMsg. cbn [Command String.eqb Ascii.eqb Bool.eqb]. unfold handleQuery. cbn [Task].
  rewrite (proj2 (String.eqb_neq _ _) Ht).
  destruct (reg_GetServiceForRequestor now (TrimSpace task) ip reg) as [[a|e] reg']; [by eexists|].
  exists [("QUERY " ++ TrimSpace task ++ " from " ++ remote)%string]. by destruct e.
Qed.

Lemma outcome_fits r : (forall a, r = Ok a -> resp_fits (ok_addr a)) -> resp_fits (outcome r).
Proof.
  assert (forall s, s = "NOTFOUND"%string \/ s = "FORBIDDEN"%string -> resp_fits (status_resp s)) as Hs.
  { intros s [-> | ->]; (split; [split_and!; try done; constructor|vm_compute; lia]). }
  intros Ha. destruct r as [a|e]; simpl.
  - destruct (String.eqb a ""); [auto|by apply Ha].
  - destruct e; auto.
Qed.

(** C29: queries, end to end.  Over a network that delivers, a query for a
    non-blank task that fits the buffers returns, by UDP and by TCP, the
    address the server's registry gives (empty for none), and leaves the
    registry as that lookup does; a firewall refusal is indistinguishable
    from not found by UDP and TCP and is an error by TLS. *)
Theorem query_end_to_end addr task cert key ca cfg reg :
  fits (queryMsg task) -> TrimSpace task <> ""%string -> loadTLSConfig getenv cert key ca addr = Ok cfg ->
  let '(r, reg') := reg_GetServiceForRequestor now (TrimSpace task) ip reg in
  (forall a, r = Ok a -> resp_fits (ok_addr a)) ->
  let found := match r with Ok a => a | Err _ => ""%string end in
  QueryUDP unmarshal_error addr task reg = (Ok found, reg') /\
  QueryTCP unmarshal_error addr task reg = (Ok found, reg') /\
  QueryTLS getenv decode_error addr task cert key ca reg =
    (match r with Err ErrNoAllowedService => Err "server error: FORBIDDEN"%string | _ => Ok found end, reg').
Proof.
  intros Hf Ht Hc. pose proof (handle_query task reg Ht) as Hh.
  destruct (reg_GetServiceForRequestor now (TrimSpace task) ip reg) as [r reg']. destruct Hh as [ev Hh].
  intros Ha. pose proof (outcome_fits r Ha) as Ho. destruct (query_serves addr task reg _ _ _ Hf Hh Ho) as [-> ->].
  unfold QueryTLS. rewrite Hc. cbn [tls_call net Loopback].
  rewrite (stream_serves json_error now ip remote _ reg Hf), Hh, reply_stream by done.
  destruct r as [a|e]; simpl; [|by destruct e].
  unfold queryReply. destruct (String.eqb_spec a "") as [->|Hne]; done.
Qed.

(** Registrations, end to end.  A registration that fits the buffers, for
    a task and address that are not blank, is acknowledged and changes the
    server's registry by exactly one capacity-aware registration of the
    trimmed names; by TLS the capacity the caller knows is not sent and is
    always 1. *)
Theorem register_end_to_end addr task address cap cert key ca cfg reg register :
  reg_capacityAware = Some register -> loadTLSConfig getenv cert key ca addr = Ok cfg ->
  fits (registerMsg task address (atLeast1 cap)) -> fits (registerMsg task address 1) ->
  TrimSpace task <> ""%string -> TrimSpace address <> ""%string ->
  let reg' cap := register now (TrimSpace task) (TrimSpace address) cap reg in
  RegisterUDPWithCapacity unmarshal_error addr task address cap reg = (Ok tt, reg' (atLeast1 cap)) /\
  RegisterTCPWithCapacity unmarshal_error addr task address cap reg = (Ok tt, reg' (atLeast1 cap)) /\
  RegisterTLS getenv decode_error addr task address cert key ca reg = (Ok tt, reg' 1).
Proof.
  intros Haware Hc Hf Hf1 Ht Ha reg'.
  assert (Hok : resp_fits ok_resp) by (split; [split_and!; try done; constructor|vm_compute; lia]).
  assert (Hh : forall c, 0 < c -> exists ev, HandleMessage now (registerMsg task address c) ip remote reg = (ok_resp, reg' c, ev)).
  { intros c Hcap. unfold HandleMessage, registerMsg. cbn [Command String.eqb Ascii.eqb Bool.eqb]. unfold handleRegister.
    cbn [Task msgAddress msgCapacity]. rewrite !(proj2 (String.eqb_neq _ _)) by done. simpl orb. cbv iota. rewrite Haware.
    destruct (Z.leb_spec c 0); [lia|]. by eexists. }
  assert (Hpos : 0 < atLeast1 cap) by (unfold atLeast1; destruct (Z.leb_spec cap 0); lia).
  destruct (Hh _ Hpos) as [ev Hh1], (Hh 1 ltac:(lia)) as [ev' Hh2].
  destruct (register_serves addr task address cap reg _ _ _ Hf Hh1 Hok) as [-> ->].
  unfold RegisterTLS. rewrite Hc. cbn [tls_call net Loopback].
  by rewrite (stream_serves json_error now ip remote _ reg Hf1), Hh2, reply_stream.
Qed.

End EndToEnd.

(** A server on an empty registry, certificates that load *)
#[local] Instance demo_files : CertFiles := {|
  LoadX509KeyPair := fun _ _ => Ok "pair"%string; ReadFile := fun _ => Ok "pem"%string; AppendCertsFromPEM := fun _ => true |}.
Definition demo_cfg : TLSConfig := mkTLSConfig "pair" "pem" VersionTLS12 cipher_suites "localhost".
Definition demo_reg : MemoryRegistry := Memory.RegisterWithCapacity 0 "t" "10.0.0.1:80" 2 NewMemoryRegistry.

Lemma fits_dec m : msg_utf8 m -> (String.length (MarshalMessage m) <=? 4096)%nat = true -> fits m.
Proof. intros Hm Hl. split; [done|by apply Nat.leb_le]. Qed.

Ltac fits_tac :=
  apply fits_dec; [split_and!; try (vm_compute; reflexivity); vm_compute; split; discriminate|vm_compute; reflexivity].

Lemma query_end_to_end_witness :
  (QueryUDP (H := Loopback (fun _ => "bad"%string) 5 [] "peer") (fun _ => "bad"%string) "tds-server.x:1" " t" demo_reg).1
  = Ok "10.0.0.1:80"%string.
Proof.
  pose proof (query_end_to_end (fun _ => ""%string) (fun _ => "bad"%string) (fun _ => "bad"%string) (fun _ _ => "bad"%string) 5 [] "peer"
    "tds-server.x:1" " t" "c" "k" "ca" demo_cfg demo_reg
    ltac:(fits_tac)
    ltac:(discriminate) ltac:(vm_compute; reflexivity)) as H.
  destruct (reg_GetServiceForRequestor 5 (TrimSpace " t") [] demo_reg) as [r reg'] eqn:E.
  vm_compute in E. injection E as <- _. destruct H as [H _].
  - intros a [= <-]. split; [split_and!; try (vm_compute; reflexivity); constructor|]. apply Nat.leb_le. vm_compute. reflexivity.
  - apply (f_equal fst) in H. exact H.
Defined.

Lemma register_end_to_end_witness :
  exists reg', RegisterTLS (H := Loopback (fun _ => "bad"%string) 5 [] "peer") (fun _ => ""%string) (fun _ _ => "bad"%string)
      "tds-server:1" "t" " 10.0.0.1:80" "c" "k" "ca" NewMemoryRegistry = (Ok tt, reg')
    /\ mem_view reg' "t" "10.0.0.1:80" <> None.
Proof.
  destruct (register_end_to_end (H := MemoryReg) (fun _ => ""%string) (fun _ => "bad"%string) (fun _ => "bad"%string) (fun _ _ => "bad"%string) 5 [] "peer"
    "tds-server:1" "t" " 10.0.0.1:80" 7 "c" "k" "ca" demo_cfg NewMemoryRegistry Memory.RegisterWithCapacity ltac:(reflexivity)
    ltac:(vm_compute; reflexivity)
    ltac:(fits_tac)
    ltac:(fits_tac)
    ltac:(discriminate) ltac:(discriminate)) as (_ & _ & H).
  eexists. split; [exact H|]. vm_compute. discriminate.
Defined.
