(* ===== verification/Proxy.v ===== *)
(** * pkg/client/clientProxy.go: the local proxy

    Parsing of proxied requests, the centralised and the peer-to-peer
    handler, the UDP read loop and the TCP connection loop, and the
    counters.  Packets are handled one after the other here; in the program
    each has its goroutine and the counters are atomic. *)

From Stdlib Require Import Ascii String.
From S2P Require Import Prelude.
From stdpp Require Import list.
From S2P Require Import GoStrings NetIP NetIPFacts GoURL GoJSON Firewall Registry Store Memory StoreBacked Transport Client.
Local Open Scope Z_scope.

#[local] Arguments String.append : simpl nomatch.

Definition StatusOK : string := "OK".
Definition StatusErr : string := "ERR".
Definition StatusNotFound : string := "NOTFOUND".

Record proxyRequest := mkReq {
  reqCommand : string; reqTask : string; reqAddress : string; reqCapacity : Z; reqJSON : bool }.
Record proxyResult := mkResult { resStatus : string; resAddress : string; resError : string }.

Definition errResult (e : string) : proxyResult := mkResult StatusErr "" e.
Definition okResult (a : string) : proxyResult := mkResult StatusOK a "".
Definition notFoundResult : proxyResult := mkResult StatusNotFound "" "".

(** ** Counters, 64-bit unsigned *)

Record Counters := mkCounters { regCount : Z; queryCount : Z; errorCount : Z }.

Definition inc64 (z : Z) : Z := (z + 1) mod 2 ^ 64.
Definition countReg (c : Counters) : Counters := mkCounters (inc64 (regCount c)) (queryCount c) (errorCount c).
Definition countQuery (c : Counters) : Counters := mkCounters (regCount c) (inc64 (queryCount c)) (errorCount c).
Definition countError (c : Counters) : Counters := mkCounters (regCount c) (queryCount c) (inc64 (errorCount c)).

(** [Stats] *)
Definition Stats (c : Counters) : Z * Z * Z := (regCount c, queryCount c, errorCount c).

(** ** Parsing

    A request that is refused still says whether to answer in JSON. *)

Section Parse.
Variable unmarshal_error : string -> string.

Definition parseProxyRequest (data : string) : result string proxyRequest * bool :=
  let data := TrimSpace data in
  (if String.eqb data "" then Err "empty command"%string
   else if negb (HasPrefix data "{") then Err "JSON required"%string
   else match UnmarshalMessage data with
        | None => Err ("invalid JSON: " ++ unmarshal_error data)%string
        | Some msg =>
            if msgCapacity msg <? 0 then Err "capacity must be a positive integer"%string
            else Ok (mkReq (ToUpper (TrimSpace (Command msg))) (TrimSpace (Task msg)) (TrimSpace (msgAddress msg))
                       (if 0 <? msgCapacity msg then msgCapacity msg else 1) true)
        end, true).

End Parse.

(** ** Handlers: a request, against the state behind the proxy and the counters *)

Definition requestHandler (W : Type) : Type := proxyRequest -> W * Counters -> proxyResult * (W * Counters).

Definition tlsClientFilesFromEnv (getenv : string -> string) : string * string * string :=
  let certFile := TrimSpace (getenv "TDS_TLS_CERT_FILE") in
  let certFile := if String.eqb certFile "" then "certs/client.crt"%string else certFile in
  let keyFile := TrimSpace (getenv "TDS_TLS_KEY_FILE") in
  let keyFile := if String.eqb keyFile "" then "certs/client.key"%string else keyFile in
  let caFile := TrimSpace (getenv "TDS_TLS_CA_FILE") in
  let caFile := if String.eqb caFile "" then "certs/ca.crt"%string else caFile in
  (certFile, keyFile, caFile).

Section Centralized.
Context {W : Type} `{Network W} `{CertFiles}.
Variable getenv : string -> string.
Variable unmarshal_error : string -> string.
Variable decode_error : string -> string -> string.

Definition handleCentralizedRequest (serverAddr backendProto : string) : requestHandler W := fun req '(w, c) =>
  if String.eqb (reqCommand req) "REGISTER" then
    if String.eqb (reqTask req) "" || String.eqb (reqAddress req) "" then (errResult "task and address required", (w, c))
    else
      let '(r, w) :=
        if String.eqb backendProto "tcp" then
          RegisterTCPWithCapacity unmarshal_error serverAddr (reqTask req) (reqAddress req) (reqCapacity req) w
        else if String.eqb backendProto "tls" then
          let '(certFile, keyFile, caFile) := tlsClientFilesFromEnv getenv in
          RegisterTLS getenv decode_error serverAddr (reqTask req) (reqAddress req) certFile keyFile caFile w
        else RegisterUDPWithCapacity unmarshal_error serverAddr (reqTask req) (reqAddress req) (reqCapacity req) w in
      match r with
      | Err e => (errResult e, (w, c))
      | Ok _ => (okResult "", (w, countReg c))
      end
  else if String.eqb (reqCommand req) "QUERY" then
    if String.eqb (reqTask req) "" then (errResult "task required", (w, c))
    else
      let '(r, w) :=
        if String.eqb backendProto "tcp" then QueryTCP unmarshal_error serverAddr (reqTask req) w
        else if String.eqb backendProto "tls" then
          let '(certFile, keyFile, caFile) := tlsClientFilesFromEnv getenv in
          QueryTLS getenv decode_error serverAddr (reqTask req) certFile keyFile caFile w
        else QueryUDP unmarshal_error serverAddr (reqTask req) w in
      match r with
      | Err e => (errResult e, (w, c))
      | Ok addr => (if String.eqb addr "" then notFoundResult else okResult addr, (w, countQuery c))
      end
  else (errResult "unknown command", (w, c)).

End Centralized.

(** The interface of a peer-to-peer registry *)
Class DHTRegistry (D : Type) := {
  dht_Register : string -> string -> D -> result string unit * D;
  dht_Query : string -> D -> result string string * D;
  dht_QueryAll : string -> D -> result string (list string) * D }.

Definition handleP2PRequest {D} `{DHTRegistry D} : requestHandler D := fun req '(d, c) =>
  if String.eqb (reqCommand req) "REGISTER" then
    if String.eqb (reqTask req) "" || String.eqb (reqAddress req) "" then (errResult "task and address required", (d, c))
    else
      let '(r, d) := dht_Register (reqTask req) (reqAddress req) d in
      match r with
      | Err e => (errResult e, (d, c))
      | Ok _ => (okResult "", (d, countReg c))
      end
  else if String.eqb (reqCommand req) "QUERY" then
    if String.eqb (reqTask req) "" then (errResult "task required", (d, c))
    else
      let '(r, d) := dht_Query (reqTask req) d in
      match r with
      | Err e => (errResult e, (d, c))
      | Ok addr => (if String.eqb addr "" then notFoundResult else okResult addr, (d, countQuery c))
      end
  else (errResult "unknown command", (d, c)).

(** ** Replies

    [json.Marshal] of a response never fails, so the marshal-error branches
    have no counterpart here. *)

Definition toResponse (r : proxyResult) : CentralizedResponse := mkResp (resStatus r) (resAddress r) (resError r) [].

Definition renderResult (jsonMode : bool) (r : proxyResult) : string :=
  if jsonMode then MarshalResponse (toResponse r)
  else if String.eqb (resStatus r) StatusOK then
    (if negb (String.eqb (resAddress r) "") then resAddress r else StatusOK)
  else if String.eqb (resStatus r) StatusNotFound then StatusNotFound
  else (StatusErr ++ " " ++ resError r)%string.

(** [writeUDP]: the datagram sent, if the write succeeds *)
Definition writeUDP (write_ok : bool) (msg : string) (c : Counters) : option string * Counters :=
  if write_ok then (Some msg, c) else (None, countError c).

Definition writeResult (write_ok jsonMode : bool) (r : proxyResult) (c : Counters) : option string * Counters :=
  writeUDP write_ok (renderResult jsonMode r) c.

(** ** The UDP proxy *)

Section UDPProxy.
Context {W : Type}.
Variable unmarshal_error : string -> string.
Variable handler : requestHandler W.

Definition handlePacketGeneric (write_ok : bool) (data : string) (st : W * Counters) : option string * (W * Counters) :=
  let '(w, c) := st in
  match parseProxyRequest unmarshal_error data with
  | (Err e, json) =>
      let '(out, c) := writeResult write_ok json (errResult e) (countError c) in (out, (w, c))
  | (Ok req, _) =>
      let '(result, (w, c)) := handler req (w, c) in
      let c := if String.eqb (resStatus result) StatusErr then countError c else c in
      let '(out, c) := writeResult write_ok (reqJSON req) result c in (out, (w, c))
  end.

(** What a read of the socket gives: a datagram (with the fate of the write
    of its reply), a timeout, another error, or an error once the context is
    done, which ends the loop. *)
Inductive udpRead := Datagram (data : string) (write_ok : bool) | ReadTimeout | ReadError | ReadCancelled.

Definition proxy_buffer : nat := 2048.

Fixpoint runUDPProxy (reads : list udpRead) (st : W * Counters) : list (option string) * (W * Counters) :=
  match reads with
  | [] => ([], st)
  | ReadCancelled :: _ => ([], st)
  | ReadTimeout :: reads => runUDPProxy reads st
  | ReadError :: reads => runUDPProxy reads (st.1, countError st.2)
  | Datagram data write_ok :: reads =>
      let '(out, st) := handlePacketGeneric write_ok (TrimSpace (str_take proxy_buffer data)) st in
      let '(outs, st) := runUDPProxy reads st in
      (out :: outs, st)
  end.

End UDPProxy.

(** Where [RunProxy] ("udp") and [RunProxyTCP] ("tcp") forward to *)
Definition proxyTarget (getenv : string -> string) (defaultProto : string) : string * string :=
  let serverAddr := getenv "TDS_SERVER_ADDR"%string in
  let serverAddr := if String.eqb serverAddr "" then "127.0.0.1:5000"%string else serverAddr in
  let backendProto := ToLower (TrimSpace (getenv "TDS_SERVER_PROTO"%string)) in
  let backendProto := if String.eqb backendProto "" then defaultProto else backendProto in
  (serverAddr, backendProto).

Definition RunProxy {W} `{Network W, CertFiles} getenv unmarshal_error decode_error (reads : list udpRead) (st : W * Counters)
  : list (option string) * (W * Counters) :=
  let '(serverAddr, backendProto) := proxyTarget getenv "udp" in
  runUDPProxy unmarshal_error (handleCentralizedRequest getenv unmarshal_error decode_error serverAddr backendProto) reads st.

Definition RunProxyP2P {D} `{DHTRegistry D} unmarshal_error (reads : list udpRead) (st : D * Counters)
  : list (option string) * (D * Counters) :=
  runUDPProxy unmarshal_error handleP2PRequest reads st.

(** ** The TCP proxy *)

(** The lines [ReadString] returns: those ended by a newline *)
Fixpoint completeLines (cur s : string) : list string :=
  match s with
  | EmptyString => []
  | String c s => if Ascii.eqb c LF then str_rev (String c cur) :: completeLines "" s else completeLines (String c cur) s
  end.

Section TCPProxy.
Context {W : Type}.
Variable unmarshal_error : string -> string.
Variable handler : requestHandler W.

Definition writeTCPResultGeneric (jsonMode : bool) (r : proxyResult) : string :=
  (renderResult jsonMode r ++ String LF "")%string.

Definition proxyLine (line : string) (st : W * Counters) : string * (W * Counters) :=
  match parseProxyRequest unmarshal_error line with
  | (Err e, json) => (writeTCPResultGeneric json (errResult e), (st.1, countError st.2))
  | (Ok req, _) =>
      let '(result, (w, c)) := handler req st in
      let c := if String.eqb (resStatus result) StatusErr then countError c else c in
      (writeTCPResultGeneric (reqJSON req) result, (w, c))
  end.

Fixpoint proxyLines (ls : list string) (st : W * Counters) : list string * (W * Counters) :=
  match ls with
  | [] => ([], st)
  | line :: ls =>
      let line := TrimSpace line in
      if String.eqb line "" then proxyLines ls st
      else
        let '(out, st) := proxyLine line st in
        let '(outs, st) := proxyLines ls st in
        (out :: outs, st)
  end.

Definition handleTCPProxyConn (input : string) (st : W * Counters) : list string * (W * Counters) :=
  proxyLines (completeLines "" input) st.

End TCPProxy.

(** ** Every request is counted once *)

(** What a handler owes the proxy: it counts the requests it serves and
    leaves those it refuses to be counted as errors. *)
Class Counting {W} (h : requestHandler W) : Prop := counting : forall req w c,
  let '(res, (_, c')) := h req (w, c) in
  (resStatus res = StatusErr /\ c' = c) \/
  (resStatus res <> StatusErr /\ (c' = countReg c \/ c' = countQuery c)).

#[export] Instance centralized_counting {W} `{Network W, CertFiles} getenv ue de addr proto :
  Counting (handleCentralizedRequest (W := W) getenv ue de addr proto).
Proof.
  intros req w c. unfold handleCentralizedRequest.
  repeat case_match; simplify_eq/=; first [left; split; reflexivity | right; split; [vm_compute; discriminate|auto]].
Qed.

#[export] Instance p2p_counting {D} `{DHTRegistry D} : Counting (handleP2PRequest (D := D)).
Proof.
  intros req d c. unfold handleP2PRequest.
  repeat case_match; simplify_eq/=; first [left; split; reflexivity | right; split; [vm_compute; discriminate|auto]].
Qed.

Definition total (c : Counters) : Z := (regCount c + queryCount c + errorCount c) mod 2 ^ 64.

Lemma inc64_total a b : (a + inc64 b) mod 2 ^ 64 = ((a + b) mod 2 ^ 64 + 1) mod 2 ^ 64.
Proof. unfold inc64. rewrite Zplus_mod_idemp_r, Zplus_mod_idemp_l. f_equal. lia. Qed.

Lemma total_count c : total (countReg c) = inc64 (total c) /\ total (countQuery c) = inc64 (total c) /\
  total (countError c) = inc64 (total c).
Proof.
  unfold total, countReg, countQuery, countError. simpl.
  replace (inc64 (regCount c) + queryCount c + errorCount c) with (queryCount c + errorCount c + inc64 (regCount c)) by lia.
  replace (regCount c + inc64 (queryCount c) + errorCount c) with (regCount c + errorCount c + inc64 (queryCount c)) by lia.
  rewrite !inc64_total. unfold inc64. split_and!; do 3 f_equal; lia.
Qed.

Lemma inc64_mod z k : (inc64 z + k) mod 2 ^ 64 = (z + (1 + k)) mod 2 ^ 64.
Proof. unfold inc64. rewrite Zplus_mod_idemp_l. f_equal. lia. Qed.

Lemma inc64_ne z : inc64 z <> z.
Proof. unfold inc64. intros E. pose proof (Z.mod_pos_bound (z + 1) (2 ^ 64) ltac:(lia)). rewrite Z.mod_eq in E by lia. lia. Qed.

Section Counted.
Context {W : Type}.
Variable unmarshal_error : string -> string.
Variable handler : requestHandler W.
Context `{!Counting handler}.

(** One packet: the reply is a JSON response, and its status says what was
    counted. *)
Lemma packet_counted write_ok data w c :
  let '(out, (_, c')) := handlePacketGeneric unmarshal_error handler write_ok data (w, c) in
  exists resp c1, out = (if write_ok then Some (MarshalResponse resp) else None) /\
    c' = (if write_ok then c1 else countError c1) /\
    ((Status resp = StatusErr /\ c1 = countError c) \/
     (Status resp <> StatusErr /\ (c1 = countReg c \/ c1 = countQuery c))).
Proof.
  unfold handlePacketGeneric. destruct (parseProxyRequest unmarshal_error data) as [[req|e] json] eqn:E.
  - assert (reqJSON req = true) as Hj.
    { unfold parseProxyRequest in E. injection E as E _. repeat case_match; try done; by injection E as <-. }
    pose proof (counting req w c) as Hc. destruct (handler req (w, c)) as [res [w' c']]. rewrite Hj.
    unfold writeResult, writeUDP, renderResult.
    assert (Hd : resStatus res = StatusErr /\ (if String.eqb (resStatus res) StatusErr then countError c' else c') = countError c
      \/ resStatus res <> StatusErr /\ ((if String.eqb (resStatus res) StatusErr then countError c' else c') = countReg c \/
      (if String.eqb (resStatus res) StatusErr then countError c' else c') = countQuery c)).
    { destruct Hc as [[Hs ->]|[Hs Hc]].
      - rewrite Hs. auto.
      - rewrite (proj2 (String.eqb_neq _ _) Hs). auto. }
    destruct write_ok; by exists (toResponse res), (if String.eqb (resStatus res) StatusErr then countError c' else c').
  - unfold parseProxyRequest in E. injection E as _ <-. unfold writeResult, writeUDP, renderResult.
    destruct write_ok; exists (toResponse (errResult e)), (countError c); auto 6.
Qed.

(** How many events of a run of the proxy are counted *)
Fixpoint counted (reads : list udpRead) : Z :=
  match reads with
  | [] => 0
  | ReadCancelled :: _ => 0
  | ReadTimeout :: reads => counted reads
  | ReadError :: reads => 1 + counted reads
  | Datagram _ write_ok :: reads => (if write_ok then 1 else 2) + counted reads
  end.

Lemma run_counted reads st :
  total (runUDPProxy unmarshal_error handler reads st).2.2 = (total st.2 + counted reads) mod 2 ^ 64.
Proof.
  assert (Ht : forall c, total c mod 2 ^ 64 = total c) by (intros; unfold total; apply Z.mod_mod; lia).
  revert st. induction reads as [|[data ok| | |] reads IH]; intros [w c]; simpl counted; cbn [runUDPProxy].
  - cbn [snd]. by rewrite Z.add_0_r, Ht.
  - pose proof (packet_counted ok (TrimSpace (str_take proxy_buffer data)) w c) as Hp.
    destruct (handlePacketGeneric _ _ _ _ _) as [out [w' c']]. specialize (IH (w', c')).
    destruct (runUDPProxy _ _ reads _) as [outs st']. cbn [snd] in *. rewrite IH.
    destruct Hp as (resp & c1 & _ & -> & Hc1).
    assert (total c1 = inc64 (total c)) as H1.
    { destruct (total_count c) as (? & ? & ?). by destruct Hc1 as [[_ ->]|[_ [-> | ->]]]. }
    destruct ok; [by rewrite H1, inc64_mod|].
    destruct (total_count c1) as (_ & _ & ->). rewrite H1, !inc64_mod. f_equal. lia.
  - apply IH.
  - rewrite IH. cbn [snd fst]. destruct (total_count c) as (_ & _ & ->). apply inc64_mod.
  - cbn [snd]. by rewrite Z.add_0_r, Ht.
Qed.

(** The lines of a TCP connection that are requests *)
Definition requests (ls : list string) : list string :=
  List.filter (fun l => negb (String.eqb (TrimSpace l) "")) ls.

Lemma line_counted line w c :
  let X := proxyLine unmarshal_error handler line (w, c) in
  total X.2.2 = inc64 (total c) /\ exists resp, X.1 = (MarshalResponse resp ++ String LF "")%string.
Proof.
  unfold proxyLine. pose proof (packet_counted true line w c) as Hp. unfold handlePacketGeneric, writeResult, writeUDP in Hp.
  destruct (total_count c) as (T1 & T2 & T3).
  destruct (parseProxyRequest unmarshal_error line) as [[req|e] json]; cbn [fst snd].
  - destruct (handler req (w, c)) as [res [w' c']]. cbn [fst snd]. destruct Hp as (resp & c1 & [= Ho] & Hc1' & Hc1).
    unfold writeTCPResultGeneric. rewrite Ho, Hc1'. split; [|eauto]. by destruct Hc1 as [[_ ->]|[_ [-> | ->]]].
  - destruct Hp as (resp & c1 & [= Ho] & _). split; [done|]. unfold writeTCPResultGeneric. rewrite Ho. eauto.
Qed.

Lemma lines_counted ls st :
  let '(outs, st') := proxyLines unmarshal_error handler ls st in
  total st'.2 = (total st.2 + Z.of_nat (length outs)) mod 2 ^ 64 /\
  length outs = length (requests ls) /\
  Forall (fun out => exists resp, out = (MarshalResponse resp ++ String LF "")%string) outs.
Proof.
  assert (Ht : forall c, total c mod 2 ^ 64 = total c) by (intros; unfold total; apply Z.mod_mod; lia).
  revert st. induction ls as [|l ls IH]; intros [w c]; cbn [proxyLines].
  { cbn [snd length]. rewrite Z.add_0_r, Ht. repeat constructor. }
  unfold requests. cbn [List.filter]. fold (requests ls).
  destruct (String.eqb (TrimSpace l) "") eqn:El; [apply IH|]. cbn [negb].
  pose proof (line_counted (TrimSpace l) w c) as [HX1 HX2]. destruct (proxyLine _ _ _ (w, c)) as [out st1]. specialize (IH st1).
  destruct (proxyLines _ _ ls st1) as [outs st']. destruct IH as (IH1 & IH2 & IH3). cbn [fst snd length] in *.
  rewrite IH1, IH2, HX1, inc64_mod. split_and!; [f_equal; lia|done|by constructor].
Qed.

End Counted.

(** Every packet is counted exactly once.  For the centralised proxy over
    any network, and the peer-to-peer proxy over any DHT, the sum of the
    three counters grows, modulo 2^64, by one per datagram read, one per
    failed read and one more per reply that could not be written, up to the
    cancellation. *)
Theorem proxy_counts_once {W D} `{Network W, CertFiles, DHTRegistry D} getenv ue de reads (w : W) (d : D) c :
  total (RunProxy getenv ue de reads (w, c)).2.2 = (total c + counted reads) mod 2 ^ 64 /\
  total (RunProxyP2P ue reads (d, c)).2.2 = (total c + counted reads) mod 2 ^ 64.
Proof.
  unfold RunProxy, RunProxyP2P. destruct (proxyTarget getenv "udp") as [addr proto].
  split; [apply (run_counted ue _ reads (w, c))|apply (run_counted ue _ reads (d, c))].
Qed.

(** A TCP client of the proxy gets one JSON line per non-blank line it
    ends, in order, and each of them is counted once; an unfinished last
    line gets nothing. *)
Theorem tcp_proxy_one_line_each {W} `{Network W, CertFiles} getenv ue de addr proto input (w : W) c :
  let '(outs, st') := handleTCPProxyConn ue (handleCentralizedRequest getenv ue de addr proto) input (w, c) in
  length outs = length (requests (completeLines "" input)) /\
  Forall (fun out => exists resp, out = (MarshalResponse resp ++ String LF "")%string /\ no_ctl (MarshalResponse resp) = true) outs /\
  total st'.2 = (total c + Z.of_nat (length outs)) mod 2 ^ 64.
Proof.
  unfold handleTCPProxyConn.
  pose proof (lines_counted ue (handleCentralizedRequest getenv ue de addr proto) (completeLines "" input) (w, c)) as Hl.
  destruct (proxyLines _ _ _ _) as [outs st']. destruct Hl as (H1 & H2 & H3). split_and!; [done| |done].
  eapply Forall_impl; [exact H3|]. intros out [resp ->]. exists resp. split; [done|]. apply response_no_ctl.
Qed.

(** ** The proxy in front of a server *)

Lemma strip_brace s : strip_any space_encodings (String "{" s) = None.
Proof. reflexivity. Qed.

Lemma strip_brace_rev s : strip_any (str_rev <$> space_encodings) (String "}" s) = None.
Proof. vm_compute. reflexivity. Qed.

Lemma TrimSpace_braces s : TrimSpace ("{" ++ s ++ "}") = ("{" ++ s ++ "}")%string.
Proof.
  unfold TrimSpace. rewrite trim_left_id by apply strip_brace. unfold trim_right.
  rewrite str_rev_app, str_rev_app. change (str_rev "}") with "}"%string.
  change (("}" ++ str_rev s) ++ str_rev "{")%string with (String "}" (str_rev s ++ str_rev "{")).
  rewrite strip_all_None by apply strip_brace_rev.
  change (String "}" (str_rev s ++ str_rev "{"))%string with ("}" ++ (str_rev s ++ str_rev "{"))%string.
  change "}"%string with (str_rev "}"). rewrite <- !str_rev_app, str_rev_involutive. by rewrite str_app_assoc.
Qed.

Lemma marshal_braces m : exists s, MarshalMessage m = ("{" ++ s ++ "}")%string.
Proof. unfold MarshalMessage, message_json. cbn [print]. eauto. Qed.

Lemma parse_marshalled ue m : msg_utf8 m -> 0 <= msgCapacity m ->
  parseProxyRequest ue (MarshalMessage m) =
  (Ok (mkReq (ToUpper (TrimSpace (Command m))) (TrimSpace (Task m)) (TrimSpace (msgAddress m)) (atLeast1 (msgCapacity m)) true), true).
Proof.
  intros Hm Hc. unfold parseProxyRequest. pose proof (message_wire m Hm) as Hw. destruct (marshal_braces m) as [s Hs].
  rewrite Hs, TrimSpace_braces. cbv zeta. rewrite <- Hs, Hw.
  replace (String.eqb (MarshalMessage m) "") with false by (by rewrite Hs).
  replace (HasPrefix (MarshalMessage m) "{") with true by (by rewrite Hs). cbn [negb].
  destruct (Z.ltb_spec (msgCapacity m) 0); [lia|]. unfold atLeast1.
  destruct (Z.ltb_spec 0 (msgCapacity m)), (Z.leb_spec (msgCapacity m) 0); try lia; done.
Qed.

(** The proxy refuses a negative capacity, whatever the command. *)
Lemma parse_negative ue m : msg_utf8 m -> msgCapacity m < 0 ->
  parseProxyRequest ue (MarshalMessage m) = (Err "capacity must be a positive integer"%string, true).
Proof.
  intros Hm Hc. unfold parseProxyRequest. pose proof (message_wire m Hm) as Hw. destruct (marshal_braces m) as [s Hs].
  rewrite Hs, TrimSpace_braces. cbv zeta. rewrite <- Hs, Hw.
  replace (String.eqb (MarshalMessage m) "") with false by (by rewrite Hs).
  replace (HasPrefix (MarshalMessage m) "{") with true by (by rewrite Hs). cbn [negb]. by rewrite (proj2 (Z.ltb_lt _ _) Hc).
Qed.

(** What the proxy makes of the server's response *)
Definition forwarded (resp : CentralizedResponse) : CentralizedResponse :=
  if String.eqb (Status resp) "FORBIDDEN" then status_resp "NOTFOUND" else resp.

Section Transparent.
Context {R : Type} `{Registry R} `{CertFiles}.
Variable getenv : string -> string.
Variable json_error ue : string -> string.
Variable de : string -> string -> string.
Variable now : Z.
Variable ip : IP.
Variable remote : string.
#[local] Instance net : Network R := Loopback json_error now ip remote.

(** The message the proxy sends on is handled as the original would be. *)
Lemma query_same msg reg : Command msg = "QUERY"%string -> TrimSpace (Task msg) <> ""%string ->
  HandleMessage now (queryMsg (TrimSpace (Task msg))) ip remote reg = HandleMessage now msg ip remote reg.
Proof.
  intros Hc Ht. unfold HandleMessage, queryMsg. cbn [Command]. rewrite Hc.
  cbn [String.eqb Ascii.eqb Bool.eqb]. unfold handleQuery. cbn [Task]. by rewrite TrimSpace_idemp.
Qed.

Lemma register_same msg reg : Command msg = "REGISTER"%string ->
  HandleMessage now (registerMsg (TrimSpace (Task msg)) (TrimSpace (msgAddress msg)) (atLeast1 (atLeast1 (msgCapacity msg)))) ip remote reg
  = HandleMessage now msg ip remote reg.
Proof.
  intros Hc. unfold HandleMessage, registerMsg. cbn [Command]. rewrite Hc.
  cbn [String.eqb Ascii.eqb Bool.eqb]. unfold handleRegister. cbn [Task msgAddress msgCapacity]. rewrite !TrimSpace_idemp.
  assert ((if atLeast1 (atLeast1 (msgCapacity msg)) <=? 0 then 1 else atLeast1 (atLeast1 (msgCapacity msg)))
          = (if msgCapacity msg <=? 0 then 1 else msgCapacity msg)) as ->; [|done].
  unfold atLeast1. repeat case_match; lia.
Qed.

(** The answers of the handler to a query, and what the client makes of them *)
Lemma query_answer task reg : TrimSpace task <> ""%string ->
  exists resp reg' ev, HandleMessage now (queryMsg task) ip remote reg = (resp, reg', ev) /\
    queryReply resp = Ok (respAddress resp) /\
    forwarded resp = (if String.eqb (respAddress resp) "" then status_resp "NOTFOUND" else ok_addr (respAddress resp)).
Proof.
  intros Ht. pose proof (handle_query now ip remote task reg Ht) as Hh.
  destruct (reg_GetServiceForRequestor now (TrimSpace task) ip reg) as [r reg']. destruct Hh as [ev Hh].
  exists (outcome r), reg', ev. split; [done|]. destruct r as [a|e]; simpl; [|by destruct e].
  destruct (String.eqb a "") eqn:E; simpl; [done|]. unfold forwarded. simpl. by rewrite E.
Qed.

Lemma forward_packet addr proto m reg c :
  proto <> "tls"%string -> Command m = "QUERY"%string \/ Command m = "REGISTER"%string -> msg_utf8 m -> 0 <= msgCapacity m ->
  fits (queryMsg (TrimSpace (Task m))) ->
  fits (registerMsg (TrimSpace (Task m)) (TrimSpace (msgAddress m)) (atLeast1 (atLeast1 (msgCapacity m)))) ->
  let '(resp, reg', _) := HandleMessage now m ip remote reg in
  resp_fits resp ->
  exists c', handlePacketGeneric ue (handleCentralizedRequest getenv ue de addr proto) true (MarshalMessage m) (reg, c)
    = (Some (MarshalResponse (forwarded resp)), (reg', c')).
Proof.
  intros Hp Hcmd Hm Hcap Hfq Hfr. destruct (HandleMessage now m ip remote reg) as [[resp reg'] ev] eqn:Eh. intros Hr.
  unfold handlePacketGeneric. rewrite parse_marshalled by done. unfold handleCentralizedRequest. cbn [reqCommand reqTask reqAddress reqCapacity].
  apply String.eqb_neq in Hp. destruct Hcmd as [Hc|Hc]; rewrite Hc.
  - change (String.eqb (ToUpper (TrimSpace "QUERY")) "REGISTER") with false.
    change (String.eqb (ToUpper (TrimSpace "QUERY")) "QUERY") with true. cbv iota.
    destruct (String.eqb_spec (TrimSpace (Task m)) "") as [Ht|Ht].
    { unfold HandleMessage in Eh. rewrite Hc in Eh. cbn [String.eqb Ascii.eqb Bool.eqb] in Eh. unfold handleQuery in Eh.
      rewrite Ht in Eh. injection Eh as <- <- _. by eexists. }
    rewrite <- (query_same m reg Hc Ht) in Eh.
    destruct (query_serves json_error ue now ip remote addr _ reg _ _ _ Hfq Eh Hr) as [Hu Htc].
    destruct (query_answer (TrimSpace (Task m)) reg) as (resp' & reg'' & ev' & E' & Hq & Hfw); [by rewrite TrimSpace_idemp|].
    rewrite Eh in E'. injection E' as <- <- _. rewrite Hq in Hu, Htc. unfold Client.net in Hu, Htc. unfold net. rewrite Hu, Htc, Hp, Hfw. cbv beta iota zeta.
    destruct (String.eqb proto "tcp"), (String.eqb (respAddress resp) ""); by eexists.
  - change (String.eqb (ToUpper (TrimSpace "REGISTER")) "REGISTER") with true. cbv iota.
    destruct (String.eqb (TrimSpace (Task m)) "" || String.eqb (TrimSpace (msgAddress m)) "") eqn:Hb.
    { unfold HandleMessage in Eh. rewrite Hc in Eh. cbn [String.eqb Ascii.eqb Bool.eqb] in Eh. unfold handleRegister in Eh.
      rewrite Hb in Eh. injection Eh as <- <- _. by eexists. }
    rewrite <- (register_same m reg Hc) in Eh.
    destruct (register_serves json_error ue now ip remote addr _ _ _ reg _ _ _ Hfr Eh Hr) as [Hu Htc].
    assert (resp = ok_resp) as ->.
    { unfold HandleMessage, registerMsg in Eh. cbn [Command String.eqb Ascii.eqb Bool.eqb] in Eh. unfold handleRegister in Eh.
      cbn [Task msgAddress msgCapacity] in Eh. rewrite !TrimSpace_idemp, Hb in Eh. by injection Eh as <- _ _. }
    unfold Client.net in Hu, Htc. unfold net. rewrite Hu, Htc, Hp. destruct (String.eqb proto "tcp"); by eexists.
Qed.

(** C30: the proxy is transparent.  In front of a server over a network that
    delivers, by UDP or TCP (not TLS, which forwards no capacity), a REGISTER
    or QUERY datagram that fits the buffers is answered by the proxy with the
    bytes of the server's own response to that message, and has the effect on
    the server's registry that the message itself would have, with two
    exceptions: FORBIDDEN reads NOTFOUND, and a message with a negative
    capacity, which the server takes, the proxy refuses with an error and
    does not forward, even when it is a QUERY. *)
Theorem proxy_transparent addr proto m reg c :
  proxyTarget getenv "udp" = (addr, proto) -> proto <> "tls"%string ->
  Command m = "QUERY"%string \/ Command m = "REGISTER"%string -> msg_utf8 m ->
  (String.length (MarshalMessage m) <= proxy_buffer)%nat ->
  fits (queryMsg (TrimSpace (Task m))) ->
  fits (registerMsg (TrimSpace (Task m)) (TrimSpace (msgAddress m)) (atLeast1 (atLeast1 (msgCapacity m)))) ->
  let '(resp, reg', _) := HandleMessage now m ip remote reg in
  resp_fits resp ->
  exists c', RunProxy getenv ue de [Datagram (MarshalMessage m) true] (reg, c)
    = if msgCapacity m <? 0 then ([Some (MarshalResponse (err_resp "capacity must be a positive integer"))], (reg, c'))
      else ([Some (MarshalResponse (forwarded resp))], (reg', c')).
Proof.
  intros Ht Hp Hcmd Hm Hl Hfq Hfr. pose proof (fun Hcap => forward_packet addr proto m reg c Hp Hcmd Hm Hcap Hfq Hfr) as H1.
  destruct (HandleMessage now m ip remote reg) as [[resp reg'] ev]. intros Hr.
  unfold RunProxy. rewrite Ht. cbn [runUDPProxy]. rewrite str_take_all by done.
  destruct (marshal_braces m) as [s Hs]. rewrite Hs, TrimSpace_braces, <- Hs.
  destruct (Z.ltb_spec (msgCapacity m) 0) as [Hneg|Hcap].
  - unfold handlePacketGeneric. rewrite parse_negative by done. by eexists.
  - destruct (H1 Hcap Hr) as [c' Hc']. exists c'. by rewrite Hc'.
Qed.

End Transparent.

Definition demo_msg : CentralizedMessage := mkMsg "REGISTER" " t" "10.0.0.1:80" 3.

Lemma proxy_transparent_witness :
  exists c' reg', RunProxy (H := Loopback (fun _ => "bad"%string) 5 [] "peer") (H0 := demo_files) (fun _ => ""%string)
      (fun _ => "bad"%string) (fun _ _ => "bad"%string)
      [Datagram (MarshalMessage demo_msg) true] (NewMemoryRegistry, mkCounters 0 0 0)
    = ([Some (MarshalResponse ok_resp)], (reg', c')).
Proof.
  pose proof (proxy_transparent (H := MemoryReg) (H0 := demo_files) (fun _ => ""%string) (fun _ => "bad"%string) (fun _ => "bad"%string)
    (fun _ _ => "bad"%string) 5 [] "peer" "127.0.0.1:5000" "udp" demo_msg NewMemoryRegistry (mkCounters 0 0 0)
    ltac:(reflexivity) ltac:(discriminate) ltac:(by right)
    ltac:(split_and!; try (vm_compute; reflexivity); vm_compute; split; discriminate)
    ltac:(apply Nat.leb_le; vm_compute; reflexivity) ltac:(fits_tac) ltac:(fits_tac)) as H.
  destruct (HandleMessage 5 demo_msg [] "peer" NewMemoryRegistry) as [[resp reg'] ev] eqn:E.
  assert (resp = ok_resp) as -> by (vm_compute in E; by injection E as <- _ _).
  destruct H as [c' H].
  - split; [split_and!; try done; constructor|]. apply Nat.leb_le. vm_compute. reflexivity.
  - exists c', reg'. exact H.
Defined.

(** A server takes the query that its proxy refuses. *)
Example negative_capacity_differs :
  let m := mkMsg "QUERY" "t" "" (-1) in
  let reg := Memory.Register 5 "t" "10.0.0.1:80" NewMemoryRegistry in
  (HandleMessage 5 m [] "peer" reg).1.1 = ok_addr "10.0.0.1:80" /\
  (RunProxy (H := Loopback (fun _ => "bad"%string) 5 [] "peer") (H0 := demo_files) (fun _ => ""%string)
      (fun _ => "bad"%string) (fun _ _ => "bad"%string) [Datagram (MarshalMessage m) true] (reg, mkCounters 0 0 0)).1
  = [Some (MarshalResponse (err_resp "capacity must be a positive integer"))].
Proof. vm_compute. done. Qed.
