(* ===== verification/ProxyTCP.v ===== *)
(** * pkg/client/clientProxy.go: [RunProxyTCP]

    The accept loop of the TCP front end, the goroutine that closes the
    listener when the context ends, and one goroutine per connection, as a
    step relation.  The connections share the back end and the counters; a
    line of a connection is one step. *)

From Stdlib Require Import Ascii String.
From S2P Require Import Prelude.
From stdpp Require Import list relations.
From S2P Require Import GoStrings NetIP GoJSON GoFlag Firewall Registry Store Memory StoreBacked Transport Client Proxy.
Local Open Scope Z_scope.

(** ** State *)

(** A connection: what its client sends, the complete lines not read yet, the
    answers written *)
Record ProxyConn := mkConn { sent : string; unread : list string; written : list string }.

(** [acceptErrors] counts the failed calls of [Accept] that did not end the loop. *)
Record ProxyServer (W : Type) := mkServer {
  shared : W * Counters;
  accepting : bool;
  cancelled : bool;
  returned : bool;
  proxyConns : list ProxyConn;
  acceptErrors : nat }.
Arguments mkServer {W}. Arguments shared {W}. Arguments accepting {W}. Arguments cancelled {W}. Arguments returned {W}.
Arguments proxyConns {W}. Arguments acceptErrors {W}.

Section Front.
Context {W : Type}.
Variable unmarshal_error : string -> string.
Variable handler : requestHandler W.

(** The state once [netutil.ListenTCP] has succeeded *)
Definition startProxyTCP (st : W * Counters) : ProxyServer W := mkServer st true false false [] 0.

Definition newConn (input : string) : ProxyConn := mkConn input (completeLines "" input) [].

(** ** Steps *)

Inductive proxy_step (s : ProxyServer W) : ProxyServer W -> Prop :=
| ps_accept input : returned s = false -> accepting s = true ->
    proxy_step s (mkServer (shared s) (accepting s) (cancelled s) false (proxyConns s ++ [newConn input]) (acceptErrors s))
| ps_accept_error : returned s = false -> cancelled s = false ->
    proxy_step s (mkServer ((shared s).1, countError (shared s).2) (accepting s) false false (proxyConns s) (S (acceptErrors s)))
(** the loop returns, and the deferred [ln.Close] runs *)
| ps_return : returned s = false -> cancelled s = true ->
    proxy_step s (mkServer (shared s) false true true (proxyConns s) (acceptErrors s))
| ps_cancel : proxy_step s (mkServer (shared s) (accepting s) true (returned s) (proxyConns s) (acceptErrors s))
| ps_close : cancelled s = true -> proxy_step s (mkServer (shared s) false true (returned s) (proxyConns s) (acceptErrors s))
(** [handleTCPProxyConn] reads a line: a blank one, or a request *)
| ps_blank i c line rest : proxyConns s !! i = Some c -> unread c = line :: rest -> TrimSpace line = ""%string ->
    proxy_step s (mkServer (shared s) (accepting s) (cancelled s) (returned s) (<[i := mkConn (sent c) rest (written c)]> (proxyConns s)) (acceptErrors s))
| ps_line i c line rest out st : proxyConns s !! i = Some c -> unread c = line :: rest -> TrimSpace line <> ""%string ->
    proxyLine unmarshal_error handler (TrimSpace line) (shared s) = (out, st) ->
    proxy_step s (mkServer st (accepting s) (cancelled s) (returned s) (<[i := mkConn (sent c) rest (written c ++ [out])]> (proxyConns s)) (acceptErrors s)).

(** ** Invariant *)

Definition answersOf (cs : list ProxyConn) : nat := sum_list_with (fun c => length (written c)) cs.

Record conn_ok (c : ProxyConn) : Prop := {
  co_lines : (length (written c) + length (requests (unread c)) = length (requests (completeLines "" (sent c))))%nat;
  co_json : Forall (fun out => exists resp, out = (MarshalResponse resp ++ String LF "")%string) (written c) }.

Record proxy_inv (c0 : Counters) (s : ProxyServer W) : Prop := {
  pi_count : total (shared s).2 = (total c0 + Z.of_nat (answersOf (proxyConns s) + acceptErrors s)) mod 2 ^ 64;
  pi_conns : Forall conn_ok (proxyConns s);
  pi_returned : returned s = true -> accepting s = false /\ cancelled s = true }.

Lemma answersOf_insert cs i c c' : cs !! i = Some c ->
  (answersOf (<[i := c']> cs) + length (written c) = answersOf cs + length (written c'))%nat.
Proof.
  intros Hc. rewrite <-(take_drop_middle cs i c Hc) at 2. rewrite insert_take_drop by (by eapply lookup_lt_Some).
  unfold answersOf. rewrite !sum_list_with_app. cbn. lia.
Qed.

Context `{!Counting handler}.

Lemma requests_cons line ls : requests (line :: ls) = if String.eqb (TrimSpace line) "" then requests ls else line :: requests ls.
Proof. unfold requests. cbn [List.filter]. by destruct (String.eqb (TrimSpace line) ""). Qed.

Lemma total_mod c : total c mod 2 ^ 64 = total c.
Proof. unfold total. apply Z.mod_mod. lia. Qed.

Lemma one_more (a b n : Z) : a = (b + n) mod 2 ^ 64 -> inc64 a = (b + (n + 1)) mod 2 ^ 64.
Proof. intros ->. unfold inc64. rewrite Zplus_mod_idemp_l. f_equal. lia. Qed.

Lemma proxy_step_inv c0 s s' : proxy_step s s' -> proxy_inv c0 s -> proxy_inv c0 s'.
Proof.
  intros Hs [H1 H2 H3]. destruct Hs as [input Hr Ha|Hr Hc|Hr Hc| |Hc|i c line rest Hi Hu Hb|i c line rest out st Hi Hu Hb Hl]; split; cbn [shared accepting cancelled returned proxyConns acceptErrors snd] in *; try done.
  - unfold answersOf. rewrite sum_list_with_app. cbn. rewrite Nat.add_0_r. exact H1.
  - apply Forall_app. split; [done|]. apply Forall_singleton. by split; [|constructor].
  - destruct (total_count (shared s).2) as (_ & _ & ->). rewrite (one_more _ _ _ H1). f_equal. lia.
  - intros Hr. by destruct (H3 Hr).
  - pose proof (answersOf_insert (proxyConns s) i c (mkConn (sent c) rest (written c)) Hi) as Ha. cbn [written] in Ha.
    rewrite H1. do 3 f_equal. lia.
  - apply Forall_insert; [done|]. destruct (proj1 (Forall_lookup _ _) H2 i c Hi) as [Hc1 Hc2]. split; [|done].
    cbn. by rewrite Hu, requests_cons, Hb in Hc1.
  - pose proof (answersOf_insert (proxyConns s) i c (mkConn (sent c) rest (written c ++ [out])) Hi) as Ha. cbn [written] in Ha. rewrite length_app in Ha.
    destruct (shared s) as [w cnt] eqn:Es. destruct (line_counted unmarshal_error handler (TrimSpace line) w cnt) as [Ht _]. rewrite Hl in Ht. cbn [fst snd length] in *.
    rewrite Ht, (one_more _ _ _ H1). f_equal. lia.
  - apply Forall_insert; [done|]. destruct (proj1 (Forall_lookup _ _) H2 i c Hi) as [Hc1 Hc2].
    destruct (shared s) as [w cnt]. destruct (line_counted unmarshal_error handler (TrimSpace line) w cnt) as [_ [resp Hresp]]. rewrite Hl in Hresp. cbn [fst] in Hresp.
    split; cbn [written unread sent]; [|apply Forall_app; split; [done|]; constructor; [by exists resp|constructor]].
    rewrite Hu, requests_cons, (proj2 (String.eqb_neq _ _) Hb) in Hc1. rewrite length_app. cbn [length unread sent written] in *. lia.
Qed.

(** ** Progress *)

Notation steps := (rtc proxy_step).

Lemma can_return s : cancelled s = true -> exists s', steps s s' /\ returned s' = true.
Proof.
  intros Hc. destruct (returned s) eqn:Hr; [by exists s|].
  eexists. split; [apply rtc_once, ps_return; done|done].
Qed.

(** The goroutine of a connection reads what is left, whatever state the
    loop is in, and touches no other connection. *)
Lemma can_answer s i c : proxyConns s !! i = Some c -> exists s' c', steps s s' /\ proxyConns s' !! i = Some c' /\ unread c' = [] /\ sent c' = sent c.
Proof.
  intros Hc. remember (unread c) as ls eqn:El. revert s c Hc El. induction ls as [|line ls IH]; intros s c Hc El; [by exists s, c|].
  pose proof (lookup_lt_Some _ _ _ Hc) as Hlt. destruct (decide (TrimSpace line = ""%string)) as [Hb|Hb].
  - pose proof (ps_blank s i c line ls Hc (eq_sym El) Hb) as Hs.
    match type of Hs with proxy_step _ ?s2 => destruct (IH s2 (mkConn (sent c) ls (written c))) as (s' & c' & Hr & ? & ? & ?); [by apply list_lookup_insert_eq|done|] end.
    exists s', c'. split_and!; [by eapply rtc_l|done..].
  - destruct (proxyLine unmarshal_error handler (TrimSpace line) (shared s)) as [out st] eqn:Eo.
    pose proof (ps_line s i c line ls out st Hc (eq_sym El) Hb Eo) as Hs.
    match type of Hs with proxy_step _ ?s2 => destruct (IH s2 (mkConn (sent c) ls (written c ++ [out]))) as (s' & c' & Hr & ? & ? & ?); [by apply list_lookup_insert_eq|done|] end.
    exists s', c'. split_and!; [by eapply rtc_l|done..].
Qed.

Lemma returned_stays s s' : proxy_step s s' -> returned s = true -> returned s' = true /\ length (proxyConns s') = length (proxyConns s).
Proof. intros Hs Hr. destruct Hs; cbn in *; rewrite ?length_insert; try done; congruence. Qed.

Lemma returned_forever s s' : steps s s' -> returned s = true -> returned s' = true /\ length (proxyConns s') = length (proxyConns s).
Proof.
  intros Hr. induction Hr as [|s1 s2 s3 Hs _ IH]; [done|]. intros Hret. destruct (returned_stays s1 s2 Hs Hret) as [Hr2 Hl].
  destruct (IH Hr2) as [? ?]. split; [done|]. congruence.
Qed.

Lemma steps_inv c0 s s' : steps s s' -> proxy_inv c0 s -> proxy_inv c0 s'.
Proof. intros Hr. induction Hr as [|s1 s2 s3 Hs _ IH]; [done|]. intros Hi. by apply IH, (proxy_step_inv c0 s1). Qed.

End Front.

(** The TCP front end of the proxy.  However connections, requests, failures
    of [Accept] and the cancellation interleave: the three counters together
    have grown, modulo 2^64, by one per answer and one per failed [Accept];
    each connection has been written one line of JSON per request it has
    ended, in order and never more; what a client has sent can always be
    answered to the end, with one line per request, also after the loop has
    returned.  Once the context is cancelled the loop can return, it returns
    only then, and afterwards the listener is closed and no connection is
    accepted. *)
Theorem tcp_proxy_accounts {W} `{Network W, CertFiles} getenv ue de (w : W) c0 s :
  let '(addr, proto) := proxyTarget getenv "tcp" in
  let step := proxy_step ue (handleCentralizedRequest getenv ue de addr proto) in
  rtc step (startProxyTCP (w, c0)) s ->
  total (shared s).2 = (total c0 + Z.of_nat (answersOf (proxyConns s) + acceptErrors s)) mod 2 ^ 64 /\
  Forall conn_ok (proxyConns s) /\
  (forall i c, proxyConns s !! i = Some c -> exists s' c', rtc step s s' /\ proxyConns s' !! i = Some c' /\ sent c' = sent c /\
    length (written c') = length (requests (completeLines "" (sent c)))) /\
  (cancelled s = true -> exists s', rtc step s s' /\ returned s' = true) /\
  (returned s = true -> cancelled s = true /\ accepting s = false /\
    forall s', rtc step s s' -> returned s' = true /\ length (proxyConns s') = length (proxyConns s)).
Proof.
  destruct (proxyTarget getenv "tcp") as [addr proto]. intros step Hr.
  assert (Hi : proxy_inv c0 s).
  { eapply (steps_inv ue _ c0 _ s Hr). split; cbn; [by rewrite Z.add_0_r, total_mod|constructor|done]. }
  split_and!; [apply Hi|apply Hi| |apply can_return|].
  - intros i c Hc. destruct (can_answer ue (handleCentralizedRequest getenv ue de addr proto) s i c Hc) as (s' & c' & Hs & Hc' & Hu & Hsent).
    exists s', c'. split_and!; [done..|]. pose proof (steps_inv ue _ c0 s s' Hs Hi) as Hi'.
    destruct (proj1 (Forall_lookup _ _) (pi_conns _ _ Hi') i c' Hc') as [Hl _]. rewrite Hu, Hsent in Hl. cbn in Hl. lia.
  - intros Hret. destruct (pi_returned _ _ Hi Hret) as [? ?]. split_and!; [done..|]. intros s' Hs. by eapply returned_forever.
Qed.

(** ** A connection that is answered after the cancellation *)

#[local] Instance demo_proxy_certs : CertFiles := {|
  LoadX509KeyPair := fun _ _ => Ok "pair"%string; ReadFile := fun _ => Ok "pem"%string; AppendCertsFromPEM := fun _ => true |}.
#[local] Instance demo_proxy_net : Network MemoryRegistry := Loopback (fun _ => "bad"%string) 5 [] "peer".

Definition demo_handler : requestHandler MemoryRegistry :=
  handleCentralizedRequest (fun _ => ""%string) (fun _ => "bad"%string) (fun _ _ => "bad"%string) "127.0.0.1:5000" "tcp".
Definition demo_input : string := line "REGISTER t 10.0.0.1:80" ++ line " " ++ "QUERY".
Definition demo_answer : string * (MemoryRegistry * Counters) :=
  proxyLine (fun _ => "bad"%string) demo_handler "REGISTER t 10.0.0.1:80" (NewMemoryRegistry, mkCounters 0 0 0).

Definition demo_proxy_end : ProxyServer MemoryRegistry :=
  mkServer demo_answer.2 false true true [mkConn demo_input [line " "] [demo_answer.1]] 0.

Lemma demo_proxy_run : rtc (proxy_step (fun _ => "bad"%string) demo_handler) (startProxyTCP (NewMemoryRegistry, mkCounters 0 0 0)) demo_proxy_end.
Proof.
  eapply rtc_l; [by apply (ps_accept _ _ _ demo_input)|]. eapply rtc_l; [apply ps_cancel|].
  eapply rtc_l; [by apply (ps_return _ _)|]. apply rtc_once.
  refine (ps_line _ _ (mkServer (NewMemoryRegistry, mkCounters 0 0 0) false true true [newConn demo_input] 0) 0 (newConn demo_input)
    (line "REGISTER t 10.0.0.1:80") [line " "] demo_answer.1 demo_answer.2 eq_refl _ _ _); [by vm_compute|by vm_compute|].
  unfold demo_answer. replace (TrimSpace (line "REGISTER t 10.0.0.1:80")) with "REGISTER t 10.0.0.1:80"%string by (by vm_compute). apply surjective_pairing.
Qed.

Lemma tcp_proxy_accounts_witness : total demo_answer.2.2 = 1 /\ accepting demo_proxy_end = false.
Proof.
  destruct (tcp_proxy_accounts (fun _ => ""%string) (fun _ => "bad"%string) (fun _ _ => "bad"%string) NewMemoryRegistry (mkCounters 0 0 0) demo_proxy_end demo_proxy_run)
    as (Ht & _ & _ & _ & Hret).
  split; [exact Ht|]. by destruct (Hret eq_refl) as (_ & Ha & _).
Defined.
