(* ===== verification/SimHTTP.v ===== *)
(** * The simulation's HTTP messages

    The [Transaction] a gate sends to its station and a station to the back
    offices, the batches of them, the answers, and [httpPostJSON], which the
    programs under Simulation share.  The four programs declare the struct
    with different fields and decode it strictly: the names a program knows
    are an argument. *)

From Stdlib Require Import Ascii String.
From S2P Require Import Prelude.
From stdpp Require Import list.
From S2P Require Import GoStrings GoJSON Firewall Transport.
Local Open Scope Z_scope.

#[local] Arguments String.append : simpl nomatch.

(** ** Decoding *)

(** A field of type [bool] *)
Fixpoint as_bool (acc : bool) (vs : list json) : option bool :=
  match vs with
  | [] => Some acc
  | JNull :: vs => as_bool acc vs
  | JBool b :: vs => as_bool b vs
  | _ :: _ => None
  end.

(** [DisallowUnknownFields] *)
Definition known (names : list string) (fs : list (string * json)) : bool :=
  forallb (fun kv => existsb (fun n => String.eqb (fold_name kv.1) (fold_name n)) names) fs.

Definition strict_fields (names : list string) (j : json) : option (list (string * json)) :=
  fs ← struct_fields j; if known names fs then Some fs else None.

(** ** Transactions *)

Record Transaction := mkTransaction {
  tx_id : string; tx_type : string; tx_card : string; tx_token : string; tx_gate : string; tx_station : string;
  tx_time : string; tx_allowed : bool; tx_reason : string }.

#[export] Instance Transaction_eq_dec : EqDecision Transaction.
Proof. solve_decision. Defined.

Definition no_transaction : Transaction := mkTransaction "" "" "" "" "" "" "" false "".

(** What the station and the gate, the card system and the back office know *)
Definition station_names : list string :=
  ["transaction_id"; "card_type"; "card_id"; "token"; "gate_id"; "station_id"; "tap_time"; "allowed"; "reason"]%string.
Definition cs_names : list string :=
  ["transaction_id"; "card_type"; "card_id"; "gate_id"; "station_id"; "tap_time"; "allowed"; "reason"]%string.
Definition pctrbo_names : list string :=
  ["transaction_id"; "card_type"; "token"; "gate_id"; "station_id"; "tap_time"; "allowed"; "reason"]%string.

Definition transaction_json (t : Transaction) : json :=
  JObj ([("transaction_id", JStr (tx_id t)); ("card_type", JStr (tx_type t))]%string
        ++ omit_string "card_id" (tx_card t) ++ omit_string "token" (tx_token t)
        ++ [("gate_id", JStr (tx_gate t)); ("station_id", JStr (tx_station t)); ("tap_time", JStr (tx_time t));
            ("allowed", JBool (tx_allowed t)); ("reason", JStr (tx_reason t))]%string).

(** Decoding into a struct that holds [old] *)
Definition transaction_of_json (names : list string) (old : Transaction) (j : json) : option Transaction :=
  fs ← strict_fields names j;
  i ← as_string (tx_id old) (field "transaction_id" fs);
  ct ← as_string (tx_type old) (field "card_type" fs);
  c ← as_string (tx_card old) (field "card_id" fs);
  t ← as_string (tx_token old) (field "token" fs);
  g ← as_string (tx_gate old) (field "gate_id" fs);
  s ← as_string (tx_station old) (field "station_id" fs);
  w ← as_string (tx_time old) (field "tap_time" fs);
  a ← as_bool (tx_allowed old) (field "allowed" fs);
  r ← as_string (tx_reason old) (field "reason" fs);
  Some (mkTransaction i ct c t g s w a r).

(** ** Batches *)

Definition batch_json (txs : list Transaction) : json := JObj [("transactions"%string, JArr (transaction_json <$> txs))].

(** The elements of an array go into the elements the slice already has. *)
Fixpoint transactions_of (names : list string) (olds : list Transaction) (vs : list json) : option (list Transaction) :=
  match vs with
  | [] => Some []
  | v :: vs =>
      tx ← transaction_of_json names (default no_transaction (head olds)) v;
      txs ← transactions_of names (tail olds) vs;
      Some (tx :: txs)
  end.

Fixpoint as_transactions (names : list string) (acc : list Transaction) (vs : list json) : option (list Transaction) :=
  match vs with
  | [] => Some acc
  | JNull :: vs => as_transactions names [] vs
  | JArr l :: vs => match transactions_of names acc l with Some l => as_transactions names l vs | None => None end
  | _ :: _ => None
  end.

Definition batch_of_json (names : list string) (j : json) : option (list Transaction) :=
  fs ← strict_fields ["transactions"]%string j; as_transactions names [] (field "transactions" fs).

(** ** Answers *)

Record BatchResponse := mkBatchResponse { batchAccepted : bool; batchReceived : Z }.
Record TransactionAck := mkAck { ackAccepted : bool; ackBatchSize : Z }.

Definition batchResponse_json (r : BatchResponse) : json :=
  JObj [("accepted", JBool (batchAccepted r)); ("received", JNum (lit_of_int (batchReceived r)))]%string.
Definition ack_json (r : TransactionAck) : json :=
  JObj [("accepted", JBool (ackAccepted r)); ("batch_size", JNum (lit_of_int (ackBatchSize r)))]%string.

Definition batchResponse_of_json (j : json) : option BatchResponse :=
  fs ← struct_fields j; a ← as_bool false (field "accepted" fs); n ← as_int 0 (field "received" fs); Some (mkBatchResponse a n).
Definition ack_of_json (j : json) : option TransactionAck :=
  fs ← struct_fields j; a ← as_bool false (field "accepted" fs); n ← as_int 0 (field "batch_size" fs); Some (mkAck a n).

(** [writeJSON]: the body *)
Definition encode (j : json) : string := (print j ++ String LF "")%string.

(** ** Posting *)

(** What comes back for the body posted to a URL: an error of the request or
    the connection, or the status and the body of the answer *)
Definition Post (W : Type) : Type := string -> string -> W -> result string (Z * string) * W.

Section Post.
Context {W A : Type}.
(** The text of the errors of [Decoder.Decode] *)
Variable decode_error : string -> string.

Definition httpPostJSON (post : Post W) (url : string) (req : json) (decode : json -> option A) (w : W) : result string A * W :=
  let '(r, w) := post url (print req) w in
  (match r with
   | Err e => Err e
   | Ok (status, body) =>
       if (status <? 200) || (300 <=? status) then
         Err ("http " ++ lit_of_int status ++ ": " ++ TrimSpace (str_take 4096 body))%string
       else match parse_first body ≫= decode with
            | Some resp => Ok resp
            | None => Err (decode_error body)
            end
   end, w).
End Post.

(** ** Messages survive the wire *)

Definition tx_utf8 (t : Transaction) : Prop :=
  valid_utf8 (tx_id t) = true /\ valid_utf8 (tx_type t) = true /\ valid_utf8 (tx_card t) = true /\
  valid_utf8 (tx_token t) = true /\ valid_utf8 (tx_gate t) = true /\ valid_utf8 (tx_station t) = true /\
  valid_utf8 (tx_time t) = true /\ valid_utf8 (tx_reason t) = true.

(** The fields that are sent are known to the receiver. *)
Definition tx_known (names : list string) (t : Transaction) : Prop :=
  (names = station_names) \/ (names = cs_names /\ tx_token t = ""%string) \/ (names = pctrbo_names /\ tx_card t = ""%string).

Lemma transaction_json_ok t : tx_utf8 t -> json_ok (transaction_json t) /\ jdepth (transaction_json t) = 1%N.
Proof.
  intros (H1 & H2 & H3 & H4 & H5 & H6 & H7 & H8). unfold transaction_json, omit_string.
  destruct (String.eqb (tx_card t) ""), (String.eqb (tx_token t) ""); (split; [cbn [app json_ok fold_right fst snd]; by split_and!|done]).
Qed.

Lemma known_transaction names t : tx_known names t ->
  strict_fields names (transaction_json t) = struct_fields (transaction_json t).
Proof.
  unfold transaction_json, omit_string, strict_fields. intros [->|[[-> ->]|[-> ->]]];
    try change (String.eqb "" "") with true; cbv iota; repeat (destruct (String.eqb _ _)); cbn [app struct_fields mbind option_bind];
    match goal with |- context [known ?n ?fs] => replace (known n fs) with true; [done|] end; vm_compute; reflexivity.
Qed.

Lemma transaction_of_to names t : tx_known names t -> transaction_of_json names no_transaction (transaction_json t) = Some t.
Proof.
  intros Hk. unfold transaction_of_json. rewrite known_transaction by done. destruct t as [i ct c tk g s w a r].
  unfold transaction_json, omit_string. cbn [tx_id tx_type tx_card tx_token tx_gate tx_station tx_time tx_allowed tx_reason].
  destruct (String.eqb_spec c "") as [->|], (String.eqb_spec tk "") as [->|]; cbn [app struct_fields mbind option_bind]; fields; reflexivity.
Qed.

Lemma transactions_of_to names txs : Forall (tx_known names) txs -> transactions_of names [] (transaction_json <$> txs) = Some txs.
Proof.
  induction 1 as [|t txs Ht _ IH]; [done|]. cbn [fmap list_fmap transactions_of head tail default].
  change (default no_transaction (head [])) with no_transaction. rewrite transaction_of_to by done. cbn [mbind option_bind].
  change (transactions_of names (tail []) _) with (transactions_of names [] (transaction_json <$> txs)). by rewrite IH.
Qed.

Lemma batch_json_ok txs : Forall tx_utf8 txs -> json_ok (batch_json txs) /\ (jdepth (batch_json txs) <= max_depth)%N.
Proof.
  intros Ht. assert (Hl : fold_right (fun v acc => json_ok v /\ acc) True (transaction_json <$> txs) /\
    (fold_right (fun v acc => N.max (jdepth v) acc) 0 (transaction_json <$> txs) <= 1)%N).
  { induction Ht as [|t txs Ht _ [IH1 IH2]]; [done|]. destruct (transaction_json_ok t Ht) as [H1 H2].
    cbn [fmap list_fmap fold_right]. split; [done|]. rewrite H2. lia. }
  destruct Hl as [H1 H2]. split; [by repeat split|]. cbn [batch_json jdepth fold_right fst snd]. unfold max_depth. lia.
Qed.

(** A batch posted by a station is the batch its receiver decodes. *)
Lemma batch_wire names txs : Forall tx_utf8 txs -> Forall (tx_known names) txs ->
  parse_first (print (batch_json txs)) ≫= batch_of_json names = Some txs.
Proof.
  intros Hu Hk. destruct (batch_json_ok txs Hu) as [Hok Hd].
  destruct (json_roundtrip (batch_json txs) "" Hok Hd I) as [_ E]. rewrite str_app_nil_r in E. rewrite E. cbn [mbind option_bind].
  unfold batch_of_json, strict_fields, batch_json. cbn [struct_fields mbind option_bind]. change (known _ _) with true. cbv iota.
  fields. simpl. pose proof (transactions_of_to names txs Hk) as Ht. simpl in Ht. by rewrite Ht.
Qed.

Lemma transaction_wire t : tx_utf8 t ->
  parse_first (print (transaction_json t)) ≫= transaction_of_json station_names no_transaction = Some t.
Proof.
  intros Hu. destruct (transaction_json_ok t Hu) as [Hok Hd].
  destruct (json_roundtrip (transaction_json t) "" Hok) as [_ E]; [by rewrite Hd|done|].
  rewrite str_app_nil_r in E. rewrite E. apply transaction_of_to. by left.
Qed.

Lemma encode_wire {A} (j : json) (f : json -> option A) : json_ok j -> (jdepth j <= max_depth)%N -> parse_first (encode j) ≫= f = f j.
Proof. intros Hok Hd. unfold encode. destruct (json_roundtrip j (String LF "") Hok Hd) as [_ ->]; [by do 3 right|done]. Qed.

Lemma batchResponse_wire r : in_int64 (batchReceived r) -> parse_first (encode (batchResponse_json r)) ≫= batchResponse_of_json = Some r.
Proof.
  intros Hr. pose proof (int_of_lit_of_int _ Hr) as Hn. destruct r as [a n]. cbn [batchReceived] in *.
  rewrite encode_wire; [|cbn; split_and!; try done; apply lit_of_int_ok|done].
  unfold batchResponse_of_json, batchResponse_json. cbn [struct_fields mbind option_bind batchAccepted batchReceived].
  fields. cbn [as_bool mbind option_bind]. by rewrite Hn.
Qed.

Lemma ack_wire r : in_int64 (ackBatchSize r) -> parse_first (encode (ack_json r)) ≫= ack_of_json = Some r.
Proof.
  intros Hr. pose proof (int_of_lit_of_int _ Hr) as Hn. destruct r as [a n]. cbn [ackBatchSize] in *.
  rewrite encode_wire; [|cbn; split_and!; try done; apply lit_of_int_ok|done].
  unfold ack_of_json, ack_json. cbn [struct_fields mbind option_bind ackAccepted ackBatchSize].
  fields. cbn [as_bool mbind option_bind]. by rewrite Hn.
Qed.
