(* ===== verification/SimProxy.v ===== *)
(** * Simulation/simproxy/proxy.go: how the simulation finds its services

    The small client every simulated program uses to register itself and to
    look others up through the local proxy, with the address helpers.  The
    network is a class; the proxy of Proxy.v in front of a server is one
    instance of it, against which look-ups and registrations are proved end
    to end. *)

From Stdlib Require Import Ascii String.
From S2P Require Import Prelude.
From stdpp Require Import list.
From S2P Require Import GoStrings NetIP NetIPFacts GoURL GoJSON Firewall Registry Store Memory StoreBacked Transport Client Proxy.
Local Open Scope Z_scope.

#[local] Arguments String.append : simpl nomatch.

(** ** Strings *)

(** [strings.EqualFold(s, t)] for an ASCII [t] *)
Definition EqualFold (s t : string) : bool := String.eqb (fold_name s) (fold_name t).


(** [strings.TrimRight(s, "/")] *)
Definition TrimRightSlash (s : string) : string := str_rev (strip_all ["/"]%string (String.length s) (str_rev s)).

(** ** Addresses *)

Definition hasScheme (addr : string) : bool := HasPrefix addr "http://" || HasPrefix addr "https://".

Definition EnsureHTTPBase (addr : string) : string :=
  let addr := TrimSpace addr in
  if String.eqb addr "" then ""
  else if hasScheme addr then addr
  else ("http://" ++ addr)%string.

(** The tests of [net.IP] *)
Definition byte (ip : IP) (i : nat) : Z := default 0 (ip !! i).
Definition IPv6loopback : IP := replicate 15 0 ++ [1].
Definition is_v4 (ip : IP) : bool := negb (bool_decide (To4 ip = [])).

Definition IsUnspecified (ip : IP) : bool := IPEqual ip (IPv4 0 0 0 0) || IPEqual ip (replicate 16 0).
Definition IsLoopback (ip : IP) : bool := if is_v4 ip then byte (To4 ip) 0 =? 127 else IPEqual ip IPv6loopback.
Definition IsMulticast (ip : IP) : bool :=
  if is_v4 ip then Z.land (byte (To4 ip) 0) 240 =? 224 else bool_decide (length ip = 16%nat) && (byte ip 0 =? 255).
Definition IsLinkLocalMulticast (ip : IP) : bool :=
  if is_v4 ip then (byte (To4 ip) 0 =? 224) && (byte (To4 ip) 1 =? 0) && (byte (To4 ip) 2 =? 0)
  else bool_decide (length ip = 16%nat) && (byte ip 0 =? 255) && (Z.land (byte ip 1) 15 =? 2).
Definition IsLinkLocalUnicast (ip : IP) : bool :=
  if is_v4 ip then (byte (To4 ip) 0 =? 169) && (byte (To4 ip) 1 =? 254)
  else bool_decide (length ip = 16%nat) && (byte ip 0 =? 254) && (Z.land (byte ip 1) 192 =? 128).
Definition IsGlobalUnicast (ip : IP) : bool :=
  (bool_decide (length ip = 4%nat) || bool_decide (length ip = 16%nat)) && negb (IPEqual ip (IPv4 255 255 255 255)) &&
  negb (IsUnspecified ip) && negb (IsLoopback ip) && negb (IsMulticast ip) && negb (IsLinkLocalUnicast ip).

(** A network interface: its flags and its addresses, [None] where the
    address is neither an [IPNet] nor an [IPAddr] *)
Record Iface := mkIface { ifUp : bool; ifLoopback : bool; ifAddrs : result string (list (option IP)) }.

(** An address the loop does not skip *)
Definition usable (a : option IP) : option IP :=
  match a with
  | None => None
  | Some ip =>
      if bool_decide (ip = []) then None
      else if IsLoopback ip || IsUnspecified ip || IsMulticast ip then None
      else if IsLinkLocalUnicast ip || IsLinkLocalMulticast ip then None
      else if negb (IsGlobalUnicast ip) then None
      else Some ip
  end.

(** The addresses of one interface: an IPv4 address ends the search, the
    first IPv6 address is kept. *)
Fixpoint scanAddrs (as' : list (option IP)) (v6Candidate : string) : string + string :=
  match as' with
  | [] => inr v6Candidate
  | a :: as' =>
      match usable a with
      | None => scanAddrs as' v6Candidate
      | Some ip =>
          if is_v4 ip then inl (IPString (To4 ip))
          else scanAddrs as' (if String.eqb v6Candidate "" then IPString ip else v6Candidate)
      end
  end.

Fixpoint scanIfaces (ifaces : list Iface) (v6Candidate : string) : string :=
  match ifaces with
  | [] => v6Candidate
  | i :: ifaces =>
      if negb (ifUp i) then scanIfaces ifaces v6Candidate
      else if ifLoopback i then scanIfaces ifaces v6Candidate
      else match ifAddrs i with
           | Err _ => scanIfaces ifaces v6Candidate
           | Ok addrs =>
               match scanAddrs addrs v6Candidate with
               | inl found => found
               | inr v6Candidate => scanIfaces ifaces v6Candidate
               end
           end
  end.

Definition firstNonLoopbackIP (getenv : string -> string) (interfaces : result string (list Iface)) : string :=
  let v := TrimSpace (getenv "SIM_ADVERTISE_IP"%string) in
  if negb (String.eqb v "") then v
  else match interfaces with
       | Err _ => ""
       | Ok ifaces => scanIfaces ifaces ""
       end.

Definition DeriveHTTPAdvertise (getenv : string -> string) (interfaces : result string (list Iface)) (listenAddr : string) : string :=
  let listenAddr := TrimSpace listenAddr in
  if String.eqb listenAddr "" then ""
  else if hasScheme listenAddr then listenAddr
  else match SplitHostPort listenAddr with
       | None => EnsureHTTPBase listenAddr
       | Some (host, port) =>
           let host := TrimSpace host in
           let host :=
             if String.eqb host "" || String.eqb host "0.0.0.0" || String.eqb host "::" then
               let ip := firstNonLoopbackIP getenv interfaces in
               if negb (String.eqb ip "") then ip else "localhost"%string
             else host in
           let host := if Contains host ":" && negb (HasPrefix host "[") then ("[" ++ host ++ "]")%string else host in
           ("http://" ++ host ++ ":" ++ port)%string
       end.

(** ** Messages *)

Record SimClient := mkSimClient { Addr : string; Proto : string; Timeout : Z }.
Record simRequest := mkSimReq { simCommand : string; simTask : string; simAddress : string }.
Record simResponse := mkSimResp { simStatus : string; simRespAddress : string; simError : string }.

Definition simRequest_json (r : simRequest) : json :=
  JObj ([("cmd", JStr (simCommand r))]%string ++ omit_string "task" (simTask r) ++ omit_string "address" (simAddress r)).

Definition simResponse_of_json (j : json) : option simResponse :=
  fs ← struct_fields j;
  s ← as_string "" (field "status" fs); a ← as_string "" (field "address" fs); e ← as_string "" (field "error" fs);
  Some (mkSimResp s a e).

Definition normalized (c : SimClient) : SimClient :=
  let proto := ToLower (TrimSpace (Proto c)) in
  mkSimClient (if String.eqb (TrimSpace (Addr c)) "" then "127.0.0.1:5100" else TrimSpace (Addr c))
    (if String.eqb proto "" then "udp" else proto)
    (if Timeout c <=? 0 then 5000000000 else Timeout c).

(** ** The network *)

Inductive UDPFault := UDPResolve (e : string) | UDPDial (e : string) | UDPWrite (e : string) | UDPRead (e : string).
Inductive TCPFault := TCPDial (e : string) | TCPWrite (e : string).

(** A datagram and its answer; a stream written and what is read from it
    with the error that ends it.  Both are given the time-out. *)
Class ProxyNet (W : Type) := {
  udp_exchange : string -> Z -> string -> W -> result UDPFault string * W;
  tcp_exchange : string -> Z -> string -> W -> result TCPFault (string * string) * W }.

Definition udp_fault (f : UDPFault) : string :=
  match f with
  | UDPResolve e => ("resolve proxy addr: " ++ e)%string
  | UDPDial e => ("dial proxy udp: " ++ e)%string
  | UDPWrite e => ("write udp: " ++ e)%string
  | UDPRead e => ("read udp: " ++ e)%string
  end.
Definition tcp_fault (f : TCPFault) : string :=
  match f with
  | TCPDial e => ("dial proxy tcp: " ++ e)%string
  | TCPWrite e => ("write tcp: " ++ e)%string
  end.

Definition ErrNotFoundText : string := "service not found".

Section SimClient.
Context {W : Type} `{ProxyNet W}.
(** [%q] *)
Variable quoted : string -> string.

Definition sim_buffer : nat := 2048.

Definition roundTripUDP (c : SimClient) (payload : string) (w : W) : result string string * W :=
  let '(r, w) := udp_exchange (Addr c) (Timeout c) payload w in
  (match r with
   | Err f => Err (udp_fault f)
   | Ok datagram => Ok (TrimSpace (str_take sim_buffer datagram))
   end, w).

Definition roundTripTCP (c : SimClient) (payload : string) (w : W) : result string string * W :=
  let payload := if HasSuffix payload (String LF "") then payload else (payload ++ String LF "")%string in
  let '(r, w) := tcp_exchange (Addr c) (Timeout c) payload w in
  (match r with
   | Err f => Err (tcp_fault f)
   | Ok stream =>
       match readLine stream with
       | Err e => Err ("read tcp: " ++ e)%string
       | Ok line => Ok (TrimSpace line)
       end
   end, w).

Definition roundTrip (c : SimClient) (payload : string) : W -> result string string * W :=
  if String.eqb (Proto c) "tcp" then roundTripTCP c payload else roundTripUDP c payload.

(** What a reply means: JSON, or the plain text of an older proxy *)
Definition readReply (respRaw : string) : simResponse :=
  match parse respRaw ≫= simResponse_of_json with
  | Some resp => resp
  | None =>
      let trimmed := TrimSpace respRaw in
      if EqualFold trimmed "OK" then mkSimResp "OK" "" ""
      else if EqualFold trimmed "NOTFOUND" then mkSimResp "NOTFOUND" "" ""
      else if HasPrefix (ToUpper trimmed) "ERR" then mkSimResp "ERR" "" (TrimSpace (TrimPrefix trimmed "ERR"))
      else mkSimResp "OK" trimmed ""
  end.

Definition roundTripJSON (c : SimClient) (req : simRequest) (w : W) : result string simResponse * W :=
  let '(r, w) := roundTrip c (print (simRequest_json req)) w in
  (match r with Err e => Err e | Ok respRaw => Ok (readReply respRaw) end, w).

Definition unexpected (resp : simResponse) : string :=
  ("unexpected proxy response: status=" ++ quoted (simStatus resp) ++ " error=" ++ quoted (simError resp))%string.

Definition errText (resp : simResponse) : string :=
  let msg := TrimSpace (simError resp) in if String.eqb msg "" then "proxy error"%string else msg.

Definition Register (c : SimClient) (task address : string) (w : W) : result string unit * W :=
  let c := normalized c in
  let task := TrimSpace task in
  let address := TrimSpace address in
  if String.eqb task "" || String.eqb address "" then (Err "missing task or address"%string, w)
  else
    let '(r, w) := roundTripJSON c (mkSimReq "REGISTER" task address) w in
    (match r with
     | Err e => Err e
     | Ok resp =>
         if EqualFold (simStatus resp) "OK" then Ok tt
         else if EqualFold (simStatus resp) "ERR" then Err (errText resp)
         else Err (unexpected resp)
     end, w).

Definition Query (c : SimClient) (task : string) (w : W) : result string string * W :=
  let c := normalized c in
  let task := TrimSpace task in
  if String.eqb task "" then (Err "missing task"%string, w)
  else
    let '(r, w) := roundTripJSON c (mkSimReq "QUERY" task "") w in
    (match r with
     | Err e => Err e
     | Ok resp =>
         if EqualFold (simStatus resp) "NOTFOUND" then Err ErrNotFoundText
         else if EqualFold (simStatus resp) "ERR" then Err (errText resp)
         else if EqualFold (simStatus resp) "OK" then Ok (TrimSpace (simRespAddress resp))
         else Err (unexpected resp)
     end, w).

End SimClient.

(** ** Through the proxy to the server *)

(** The request is the message of the client library without a capacity. *)
Lemma request_message cmd task address : task <> ""%string ->
  print (simRequest_json (mkSimReq cmd task address)) = MarshalMessage (mkMsg cmd task address 0).
Proof.
  intros Ht. unfold MarshalMessage, message_json, simRequest_json. cbn [simCommand simTask simAddress Command Task msgAddress msgCapacity].
  unfold omit_int, omit_string at 1. rewrite (proj2 (String.eqb_neq _ _) Ht). simpl. by rewrite app_nil_r.
Qed.

(** The reply the proxy writes is read back whole. *)
Lemma simResponse_of_response resp : resp_utf8 resp ->
  simResponse_of_json (response_json resp) = Some (mkSimResp (Status resp) (respAddress resp) (respError resp)).
Proof.
  intros Hr. pose proof (response_of_to resp Hr) as E. unfold response_of_json in E. unfold simResponse_of_json.
  destruct (struct_fields (response_json resp)) as [fs|]; [|done]. simpl in E |- *.
  destruct (as_string "" (field "status" fs)) as [s|]; [|done]. simpl in E |- *.
  destruct (as_string "" (field "address" fs)) as [a|]; [|done]. simpl in E |- *.
  destruct (as_string "" (field "error" fs)) as [e|]; [|done]. simpl in E |- *.
  destruct (as_strings [] (field "addresses" fs)) as [l|]; [|done]. simpl in E. by injection E as <-.
Qed.

Lemma readReply_response resp : resp_utf8 resp ->
  readReply (MarshalResponse resp) = mkSimResp (Status resp) (respAddress resp) (respError resp).
Proof.
  intros Hr. unfold readReply, MarshalResponse. destruct (response_json_ok resp Hr). rewrite parse_print by done. cbn [mbind option_bind].
  by rewrite simResponse_of_response.
Qed.

Lemma response_braces resp : exists s, MarshalResponse resp = ("{" ++ s ++ "}")%string.
Proof. unfold MarshalResponse, response_json. cbn [print]. eauto. Qed.

(** A line loses its newline. *)
Lemma TrimSpace_line s : TrimSpace (("{" ++ s ++ "}") ++ String LF "") = ("{" ++ s ++ "}")%string.
Proof.
  rewrite <- (TrimSpace_braces s) at 2. unfold TrimSpace. rewrite !trim_left_id; [|apply strip_brace..].
  unfold trim_right. rewrite (str_rev_app ("{" ++ s ++ "}") (String LF "")). change (str_rev (String LF "")) with (String LF "").
  rewrite str_length_app. change (String.length (String LF "")) with 1%nat. rewrite Nat.add_comm. cbn [Nat.add strip_all].
  change (strip_any (str_rev <$> space_encodings) (String LF "" ++ str_rev ("{" ++ s ++ "}"))) with (Some (str_rev ("{" ++ s ++ "}"))).
  done.
Qed.

(** What a program of the simulation sees of the proxy: [RunProxy] answers a
    datagram, a connection of [RunProxyTCP] a stream. *)
Section Proxied.
Context {R : Type} `{Registry R} `{CertFiles}.
Variable getenv : string -> string.
Variable json_error ue : string -> string.
Variable de : string -> string -> string.
Variable now : Z.
Variable ip : IP.
Variable remote : string.

Definition Proxied : ProxyNet (R * Counters) := {|
  udp_exchange := fun _ _ payload st =>
    match RunProxy (H := Loopback json_error now ip remote) getenv ue de [Datagram payload true] st with
    | ([Some d], st) => (Ok d, st)
    | (_, st) => (Err (UDPRead "i/o timeout"), st)
    end;
  tcp_exchange := fun _ _ payload st =>
    let '(addr, proto) := proxyTarget getenv "tcp" in
    let '(outs, st) := handleTCPProxyConn ue
      (handleCentralizedRequest (H := Loopback json_error now ip remote) getenv ue de addr proto) payload st in
    (Ok (String.concat "" outs, "EOF"%string), st) |}.
#[local] Instance pnet : ProxyNet (R * Counters) := Proxied.
#[local] Instance lnet : Network R := Loopback json_error now ip remote.

(** The proxy reaches its server by UDP or TCP. *)
Definition plainBackend : Prop := ToLower (TrimSpace (getenv "TDS_SERVER_PROTO"%string)) <> "tls"%string.

Lemma target_plain d : plainBackend -> d <> "tls"%string -> (proxyTarget getenv d).2 <> "tls"%string.
Proof. unfold plainBackend, proxyTarget. intros Hp Hd. cbn [snd]. by destruct (String.eqb _ _). Qed.

(** A line is answered as the packet is. *)
Lemma proxyLine_packet h line (st : R * Counters) out st' :
  handlePacketGeneric ue h true line st = (Some out, st') -> proxyLine ue h line st = ((out ++ String LF "")%string, st').
Proof.
  destruct st as [w c]. unfold handlePacketGeneric, proxyLine, writeResult, writeUDP, writeTCPResultGeneric.
  destruct (parseProxyRequest ue line) as [[req|e] json].
  - destruct (h req (w, c)) as [res [w' c']]. by intros [= <- <-].
  - by intros [= <- <-].
Qed.

Lemma completeLines_line cur s : no_ctl s = true ->
  completeLines cur (s ++ String LF "") = [(str_rev cur ++ s ++ String LF "")%string].
Proof.
  revert cur. induction s as [|a s IH]; intros cur Hs; simpl.
  - by rewrite (str_rev_app (String LF "") cur : str_rev (String LF cur) = _).
  - apply andb_true_iff in Hs as [Ha Hs]. destruct (Ascii.eqb_spec a LF) as [->|_]; [done|]. rewrite IH by done.
    rewrite (str_rev_app (String a "") cur : str_rev (String a cur) = _), str_app_assoc. done.
Qed.

(** What the exchange needs to fit into *)
Definition sim_fits (m : CentralizedMessage) : Prop :=
  msg_utf8 m /\ fits (queryMsg (TrimSpace (Task m))) /\ fits (registerMsg (TrimSpace (Task m)) (TrimSpace (msgAddress m)) 1) /\
  (String.length (MarshalMessage m) <= proxy_buffer)%nat.
Definition sim_resp_fits (resp : CentralizedResponse) : Prop :=
  resp_utf8 resp /\ (String.length (MarshalResponse resp) <= sim_buffer)%nat.

Lemma sim_resp_fits_resp resp : sim_resp_fits resp -> resp_fits resp.
Proof. unfold sim_resp_fits, resp_fits, sim_buffer. intros [? ?]. split; [done|lia]. Qed.

Lemma forwarded_fits resp : sim_resp_fits resp -> sim_resp_fits (forwarded resp).
Proof.
  unfold forwarded. destruct (String.eqb _ _); [|done]. intros _. split; [split_and!; try done; constructor|].
  apply Nat.leb_le. by vm_compute.
Qed.

Lemma exchange c m reg cnt : plainBackend -> Command m = "QUERY"%string \/ Command m = "REGISTER"%string -> msgCapacity m = 0 ->
  sim_fits m ->
  let '(resp, reg', _) := HandleMessage now m ip remote reg in
  sim_resp_fits resp ->
  exists cnt', roundTrip c (MarshalMessage m) (reg, cnt) = (Ok (MarshalResponse (forwarded resp)), (reg', cnt')).
Proof.
  intros Hp Hcmd Hcap (Hm & Hfq & Hfr & Hl).
  assert (Hpk : forall addr proto, proto <> "tls"%string ->
    let '(resp, reg', _) := HandleMessage now m ip remote reg in resp_fits resp ->
    exists c', handlePacketGeneric ue (handleCentralizedRequest getenv ue de addr proto) true (MarshalMessage m) (reg, cnt)
      = (Some (MarshalResponse (forwarded resp)), (reg', c'))).
  { intros addr proto Hproto. apply forward_packet; try done; [lia|]. by rewrite Hcap. }
  destruct (HandleMessage now m ip remote reg) as [[resp reg'] ev]. intros Hr. pose proof (forwarded_fits _ Hr) as Hfw.
  destruct (marshal_braces m) as [sm Hsm]. destruct (response_braces (forwarded resp)) as [sr Hsr].
  unfold roundTrip. destruct (String.eqb (Proto c) "tcp").
  - unfold roundTripTCP. cbn [tcp_exchange pnet Proxied].
    pose proof (target_plain "tcp" Hp ltac:(done)) as Ht. destruct (proxyTarget getenv "tcp") as [addr proto].
    destruct (Hpk addr proto Ht (sim_resp_fits_resp _ Hr)) as [c' Hc']. exists c'.
    replace (HasSuffix (MarshalMessage m) (String LF "")) with false
      by (rewrite Hsm; unfold HasSuffix; rewrite str_rev_app, str_rev_app; done).
    unfold handleTCPProxyConn. rewrite completeLines_line by apply message_no_ctl. cbn [proxyLines].
    change (str_rev "" ++ ?x)%string with x. rewrite Hsm, TrimSpace_line, <- Hsm.
    replace (String.eqb (MarshalMessage m) "") with false by (by rewrite Hsm). apply proxyLine_packet in Hc'. unfold lnet in Hc'. rewrite Hc'.
    cbn [String.concat]. rewrite (readLine_response json_error). by rewrite Hsr, TrimSpace_line.
  - unfold roundTripUDP. cbn [udp_exchange pnet Proxied]. unfold RunProxy.
    pose proof (target_plain "udp" Hp ltac:(done)) as Ht. destruct (proxyTarget getenv "udp") as [addr proto].
    destruct (Hpk addr proto Ht (sim_resp_fits_resp _ Hr)) as [c' Hc']. exists c'. cbn [runUDPProxy].
    rewrite (str_take_all json_error) by done. rewrite Hsm, TrimSpace_braces, <- Hsm. unfold lnet in Hc'. rewrite Hc'.
    rewrite (str_take_all json_error) by apply Hfw. by rewrite Hsr, TrimSpace_braces.
Qed.

Variable quoted : string -> string.

(** A look-up of the simulation, end to end.  Through the local proxy, by
    UDP or TCP, and over a network that delivers, a query for a non-blank task
    returns the address the registry of the server gives, trimmed, and leaves
    that registry as one look-up does; an unknown task and a refusal by the
    firewall are both the error "service not found". *)
Theorem sim_query_end_to_end c task reg cnt : plainBackend -> TrimSpace task <> ""%string ->
  sim_fits (mkMsg "QUERY" (TrimSpace task) "" 0) ->
  let '(r, reg') := reg_GetServiceForRequestor now (TrimSpace task) ip reg in
  (forall a, r = Ok a -> sim_resp_fits (ok_addr a)) ->
  exists cnt', Query quoted c task (reg, cnt) =
    (match r with
     | Ok a => if String.eqb a "" then Err ErrNotFoundText else Ok (TrimSpace a)
     | Err _ => Err ErrNotFoundText
     end, (reg', cnt')).
Proof.
  intros Hp Ht Hf. set (t := TrimSpace task) in *.
  pose proof (handle_query now ip remote t reg) as Hh. replace (TrimSpace t) with t in Hh by (symmetry; apply TrimSpace_idemp). specialize (Hh Ht).
  destruct (reg_GetServiceForRequestor now t ip reg) as [r reg']. destruct Hh as [ev Hh]. intros Ha.
  pose proof (exchange (normalized c) (mkMsg "QUERY" t "" 0) reg cnt Hp (or_introl eq_refl) eq_refl Hf) as Hx.
  change (mkMsg "QUERY" t "" 0) with (queryMsg t) in Hx at 1. rewrite Hh in Hx.
  assert (Hst : forall s, s = "NOTFOUND"%string \/ s = "FORBIDDEN"%string -> sim_resp_fits (status_resp s)).
  { intros s [-> | ->]; (split; [split_and!; try done; constructor|apply Nat.leb_le; by vm_compute]). }
  assert (Hr : sim_resp_fits (outcome r)).
  { destruct r as [a|[]]; simpl; auto. destruct (String.eqb a ""); auto. }
  destruct (Hx Hr) as [cnt' E]. exists cnt'. unfold Query. fold t. rewrite (proj2 (String.eqb_neq _ _) Ht). unfold roundTripJSON.
  rewrite request_message, E, readReply_response by (done || apply forwarded_fits, Hr). f_equal.
  destruct r as [a|[]]; simpl; try done. unfold forwarded. destruct (String.eqb a ""); done.
Qed.

(** A registration of the simulation, end to end.  Through the proxy, a
    program that registers a task and an address that are not blank is told
    so, and the server's registry has changed by exactly one registration of
    the trimmed names, with capacity 1. *)
Theorem sim_register_end_to_end c task address reg cnt register : plainBackend -> reg_capacityAware = Some register ->
  TrimSpace task <> ""%string -> TrimSpace address <> ""%string ->
  sim_fits (mkMsg "REGISTER" (TrimSpace task) (TrimSpace address) 0) ->
  exists cnt', Register quoted c task address (reg, cnt) =
    (Ok tt, (register now (TrimSpace task) (TrimSpace address) 1 reg, cnt')).
Proof.
  intros Hp Haware Ht Ha Hf. set (t := TrimSpace task) in *. set (a := TrimSpace address) in *.
  pose proof (exchange (normalized c) (mkMsg "REGISTER" t a 0) reg cnt Hp (or_intror eq_refl) eq_refl Hf) as Hx.
  assert (Hh : exists ev, HandleMessage now (mkMsg "REGISTER" t a 0) ip remote reg = (ok_resp, register now t a 1 reg, ev)).
  { unfold HandleMessage. cbn [Command String.eqb Ascii.eqb Bool.eqb]. unfold handleRegister. cbn [Task msgAddress msgCapacity].
    unfold t, a. rewrite !TrimSpace_idemp. fold t a. rewrite !(proj2 (String.eqb_neq _ _)) by done. simpl orb. cbv iota. rewrite Haware. by eexists. }
  destruct Hh as [ev Hh]. rewrite Hh in Hx.
  assert (Hr : sim_resp_fits ok_resp) by (split; [split_and!; try done; constructor|apply Nat.leb_le; by vm_compute]).
  destruct (Hx Hr) as [cnt' E]. exists cnt'. unfold Register. fold t a. rewrite !(proj2 (String.eqb_neq _ _)) by done. cbn [orb].
  unfold roundTripJSON. rewrite request_message, E, readReply_response by (done || apply forwarded_fits, Hr). done.
Qed.

End Proxied.

(** ** Witnesses: a station that registers itself, and a gate that looks it up *)

Definition demo_client : SimClient := mkSimClient "" " TCP " 0.

Lemma sim_fits_dec m : msg_utf8 m -> fits (queryMsg (TrimSpace (Task m))) ->
  fits (registerMsg (TrimSpace (Task m)) (TrimSpace (msgAddress m)) 1) -> (String.length (MarshalMessage m) <=? proxy_buffer)%nat = true -> sim_fits m.
Proof. intros ? ? ? ?%Nat.leb_le. done. Qed.

Ltac sim_fits_tac :=
  apply sim_fits_dec; [split_and!; try (vm_compute; reflexivity); vm_compute; split; discriminate|fits_tac..|vm_compute; reflexivity].

#[local] Instance demo_certs : CertFiles := {|
  LoadX509KeyPair := fun _ _ => Ok "pair"%string; ReadFile := fun _ => Ok "pem"%string; AppendCertsFromPEM := fun _ => true |}.

Definition no_env : string -> string := fun _ => ""%string.
Definition bad : string -> string := fun _ => "bad"%string.
Definition bad2 : string -> string -> string := fun _ _ => "bad"%string.

Lemma sim_register_end_to_end_witness :
  exists cnt', Register (H := Proxied no_env bad bad bad2 5 [] "peer") bad demo_client " station" "http://s:1" (NewMemoryRegistry, mkCounters 0 0 0)
    = (Ok tt, (Memory.RegisterWithCapacity 5 "station" "http://s:1" 1 NewMemoryRegistry, cnt')).
Proof.
  apply (sim_register_end_to_end no_env bad bad bad2 5 [] "peer" bad demo_client " station" "http://s:1" NewMemoryRegistry
    (mkCounters 0 0 0) Memory.RegisterWithCapacity).
  - unfold plainBackend. by vm_compute.
  - done.
  - by vm_compute.
  - by vm_compute.
  - sim_fits_tac.
Defined.

Lemma sim_query_end_to_end_witness :
  let reg := Memory.RegisterWithCapacity 5 "station" "http://s:1" 1 NewMemoryRegistry in
  exists st', Query (H := Proxied no_env bad bad bad2 6 [] "peer") bad demo_client "station" (reg, mkCounters 0 0 0) = (Ok "http://s:1"%string, st').
Proof.
  intros reg.
  pose proof (sim_query_end_to_end no_env bad bad bad2 6 [] "peer" bad demo_client "station" reg (mkCounters 0 0 0)
    ltac:(unfold plainBackend; by vm_compute) ltac:(by vm_compute) ltac:(sim_fits_tac)) as Hq.
  destruct (reg_GetServiceForRequestor 6 (TrimSpace "station") [] reg) as [r reg'] eqn:E.
  assert (Hr : r = Ok "http://s:1"%string).
  { replace r with (reg_GetServiceForRequestor 6 (TrimSpace "station") [] reg).1 by (by rewrite E). by vm_compute. }
  subst r. destruct Hq as [cnt' Hq].
  - intros a [= <-]. split; [split_and!; try (vm_compute; reflexivity); constructor|]. apply Nat.leb_le. by vm_compute.
  - exists (reg', cnt'). unfold pnet in Hq. rewrite Hq. by vm_compute.
Defined.
