(* ===== verification/Sha256.v ===== *)
(** * crypto/sha256: the hash of the Go library

    [Sum256] on the bytes of a string, as a 256-bit number: the 32-byte
    digest read big endian, which is how src/pkg/dht reads it.  FIPS 180-4,
    on 32-bit words in [Z]. *)

From Stdlib Require Import Ascii String.
From S2P Require Import Prelude.
Local Open Scope Z_scope.

Definition add32 (a b : Z) : Z := (a + b) mod 2 ^ 32.
Definition rotr (n x : Z) : Z := Z.lor (Z.shiftr x n) (Z.shiftl x (32 - n) mod 2 ^ 32).
Definition xor3 (a b c : Z) : Z := Z.lxor a (Z.lxor b c).

Definition small0 (x : Z) : Z := xor3 (rotr 7 x) (rotr 18 x) (Z.shiftr x 3).
Definition small1 (x : Z) : Z := xor3 (rotr 17 x) (rotr 19 x) (Z.shiftr x 10).
Definition big0 (x : Z) : Z := xor3 (rotr 2 x) (rotr 13 x) (rotr 22 x).
Definition big1 (x : Z) : Z := xor3 (rotr 6 x) (rotr 11 x) (rotr 25 x).
Definition ch (e f g : Z) : Z := Z.lxor (Z.land e f) (Z.land (Z.lxor e (2 ^ 32 - 1)) g).
Definition maj (a b c : Z) : Z := xor3 (Z.land a b) (Z.land a c) (Z.land b c).

(** The constants are not tabulated: as the standard defines them, they are
    the first 32 bits of the fractional parts of the cube roots of the first
    64 primes, and of the square roots of the first eight. *)

Definition is_prime (n : Z) : bool :=
  forallb (fun d => negb (n mod Z.of_nat d =? 0)) (seq 2 (Z.to_nat n - 2)).

Definition primes (below : nat) : list Z := List.filter is_prime (Z.of_nat <$> seq 2 (below - 2)).

(** The integer cube root below 2^[bits], a bit at a time *)
Fixpoint cbrt (bits : nat) (n acc : Z) : Z :=
  match bits with
  | O => acc
  | S bits =>
      let acc' := acc + 2 ^ Z.of_nat bits in
      cbrt bits n (if acc' * acc' * acc' <=? n then acc' else acc)
  end.

Definition K256 : list Z := Eval vm_compute in (fun p => cbrt 36 (p * 2 ^ 96) 0 mod 2 ^ 32) <$> primes 312.

Record digest := mkDigest { dA : Z; dB : Z; dC : Z; dD : Z; dE : Z; dF : Z; dG : Z; dH : Z }.

Definition digest_of (ws : list Z) : digest :=
  mkDigest (nth 0 ws 0) (nth 1 ws 0) (nth 2 ws 0) (nth 3 ws 0) (nth 4 ws 0) (nth 5 ws 0) (nth 6 ws 0) (nth 7 ws 0).

Definition init256 : digest := Eval vm_compute in digest_of ((fun p => Z.sqrt (p * 2 ^ 64) mod 2 ^ 32) <$> primes 20).

(** The message schedule: the last sixteen words, the newest first *)
Definition next_word (w : list Z) : Z :=
  add32 (add32 (small1 (nth 1 w 0)) (nth 6 w 0)) (add32 (small0 (nth 14 w 0)) (nth 15 w 0)).

Definition round (d : digest) (k w : Z) : digest :=
  let t1 := add32 (add32 (dH d) (big1 (dE d))) (add32 (ch (dE d) (dF d) (dG d)) (add32 k w)) in
  let t2 := add32 (big0 (dA d)) (maj (dA d) (dB d) (dC d)) in
  mkDigest (add32 t1 t2) (dA d) (dB d) (dC d) (add32 (dD d) t1) (dE d) (dF d) (dG d).

(** [todo] are the block's words not used yet; then the schedule goes on. *)
Fixpoint rounds (ks : list Z) (todo seen : list Z) (d : digest) : digest :=
  match ks with
  | [] => d
  | k :: ks =>
      let '(w, todo) := match todo with [] => (next_word seen, []) | w :: todo => (w, todo) end in
      rounds ks todo (take 16 (w :: seen)) (round d k w)
  end.

Definition compress (d : digest) (block : list Z) : digest :=
  let r := rounds K256 block [] d in
  mkDigest (add32 (dA d) (dA r)) (add32 (dB d) (dB r)) (add32 (dC d) (dC r)) (add32 (dD d) (dD r))
           (add32 (dE d) (dE r)) (add32 (dF d) (dF r)) (add32 (dG d) (dG r)) (add32 (dH d) (dH r)).

Fixpoint be_words (bs : list Z) : list Z :=
  match bs with
  | a :: b :: c :: d :: bs => (a * 2 ^ 24 + b * 2 ^ 16 + c * 2 ^ 8 + d) :: be_words bs
  | _ => []
  end.

Definition be64 (n : Z) : list Z :=
  (fun i => Z.shiftr n (8 * i) mod 256) <$> [7; 6; 5; 4; 3; 2; 1; 0].

(** Padding: a one bit, zeros, the length in bits *)
Definition pad (bs : list Z) : list Z :=
  let n := Z.of_nat (length bs) in
  bs ++ [128] ++ replicate (Z.to_nat ((55 - n) mod 64)) 0 ++ be64 (8 * n).

Fixpoint blocks (fuel : nat) (ws : list Z) (d : digest) : digest :=
  match fuel with
  | O => d
  | S fuel => match ws with [] => d | _ => blocks fuel (drop 16 ws) (compress d (take 16 ws)) end
  end.

Definition concat32 (ws : list Z) : Z := foldl (fun acc w => acc * 2 ^ 32 + w mod 2 ^ 32) 0 ws.

Definition Sum256 (s : string) : Z :=
  let ws := be_words (pad ((fun c => Z.of_nat (nat_of_ascii c)) <$> list_ascii_of_string s)) in
  let d := blocks (length ws) ws init256 in
  concat32 [dA d; dB d; dC d; dD d; dE d; dF d; dG d; dH d].

Example Sum256_abc :
  Sum256 "abc" = 0xba7816bf8f01cfea414140de5dae2223b00361a396177a9cb410ff61f20015ad.
Proof. vm_compute. reflexivity. Qed.

Example Sum256_empty :
  Sum256 "" = 0xe3b0c44298fc1c149afbf4c8996fb92427ae41e4649b934ca495991b7852b855.
Proof. vm_compute. reflexivity. Qed.

Example Sum256_two_blocks :
  Sum256 "abcdbcdecdefdefgefghfghighijhijkijkljklmklmnlmnomnopnopq"
  = 0x248d6a61d20638b8e5c026930c3e6039a33ce45964ff2167f6ecedd419db06c1.
Proof. vm_compute. reflexivity. Qed.

(** A digest is a 256-bit number. *)
Lemma Sum256_range s : 0 <= Sum256 s < 2 ^ 256.
Proof.
  unfold Sum256, concat32. cbn [foldl].
  set (d := blocks _ _ _). clearbody d.
  pose proof (Z.mod_pos_bound (dA d) (2 ^ 32) ltac:(lia)). pose proof (Z.mod_pos_bound (dB d) (2 ^ 32) ltac:(lia)).
  pose proof (Z.mod_pos_bound (dC d) (2 ^ 32) ltac:(lia)). pose proof (Z.mod_pos_bound (dD d) (2 ^ 32) ltac:(lia)).
  pose proof (Z.mod_pos_bound (dE d) (2 ^ 32) ltac:(lia)). pose proof (Z.mod_pos_bound (dF d) (2 ^ 32) ltac:(lia)).
  pose proof (Z.mod_pos_bound (dG d) (2 ^ 32) ltac:(lia)). pose proof (Z.mod_pos_bound (dH d) (2 ^ 32) ltac:(lia)).
  lia.
Qed.
