(* ===== verification/Ring.v ===== *)
(** * pkg/dht/distributed_hash_table.go: one node's view of the ring

    Node identities are SHA-256 digests of canonical addresses, kept as
    256-bit numbers ([NodeID] read big endian, as every use of it does).
    A [*Node] that may be nil is an [option Node]; a function that would
    dereference nil returns [None].  Times are nanoseconds; [now] is what
    [time.Now] returns in the call. *)

From Stdlib Require Import Ascii String.
From S2P Require Import Prelude.
From stdpp Require Import list sorting.
From S2P Require Import GoStrings NetIP Sha256.
Local Open Scope Z_scope.

(** ** Identities *)

Definition canonicalAddressForHash (addr : string) : string :=
  match SplitHostPort (TrimSpace addr) with
  | None => TrimSpace addr
  | Some (host, port) =>
      let lower := ToLower (TrimSpace host) in
      let host :=
        if bool_decide (lower ∈ [""; "0.0.0.0"; "::"; "::1"; "localhost"]%string) then "127.0.0.1"%string else host in
      JoinHostPort host port
  end.

Notation NodeID := Z (only parsing).
Definition HashAddress (addr : string) : NodeID := Sum256 (canonicalAddressForHash addr).
Definition HashTask (task : string) : NodeID := Sum256 task.

(** [aBig.Cmp(bBig)] *)
Definition CompareNodeID (a b : NodeID) : Z :=
  match a ?= b with Lt => -1 | Eq => 0 | Gt => 1 end.

Definition Distance (a b : NodeID) : Z :=
  let diff := b - a in
  if diff <? 0 then diff + Z.shiftl 1 256 else diff.

(** ** State *)

Record Node := mkNode { nodeID : NodeID; nodeAddress : string; LastSeen : Z }.
Record ServiceRegistration := mkRegistration { srAddress : string; srHeartbeat : Z }.

Record DHT := mkDHT {
  self : Node;
  peers : gmap NodeID Node;
  ring : list NodeID;
  storage : gmap string (list ServiceRegistration);
  listenAddr : string;
  hasNetwork : bool }.

(** The package variables set at start-up *)
Class DHTConfig := {
  ReplicationFactor : nat;
  ServiceHeartbeatTimeout : Z;
  EnableBootstrapPeerDiscovery : bool }.

(** Their initial values *)
Definition default_config : DHTConfig := {|
  ReplicationFactor := 3; ServiceHeartbeatTimeout := 60 * 10 ^ 9; EnableBootstrapPeerDiscovery := true |}.

Definition NewDHT (now : Z) (listenAddr : string) : DHT :=
  let advertiseAddr := TrimSpace listenAddr in
  let advertiseAddr := if HasPrefix advertiseAddr ":" then ("127.0.0.1" ++ advertiseAddr)%string else advertiseAddr in
  let id := HashAddress advertiseAddr in
  mkDHT (mkNode id advertiseAddr now) ∅ [id] ∅ listenAddr false.

Definition SetNetwork (dht : DHT) : DHT :=
  mkDHT (self dht) (peers dht) (ring dht) (storage dht) (listenAddr dht) true.

(** ** The ring

    The ids are sorted by [CompareNodeID]; equal ids are the same number, so
    the order in which the map is walked does not matter. *)

Definition id_le (a b : NodeID) : Prop := CompareNodeID a b <= 0.
#[global] Instance id_le_dec : RelDecision id_le := fun a b => Z_le_dec (CompareNodeID a b) 0.

Definition ringOf (id : NodeID) (ps : gmap NodeID Node) : list NodeID :=
  merge_sort id_le (id :: (map_to_list ps).*1).

Definition rebuildRing (dht : DHT) : DHT :=
  mkDHT (self dht) (peers dht) (ringOf (nodeID (self dht)) (peers dht)) (storage dht) (listenAddr dht) (hasNetwork dht).

Definition set_peers (ps : gmap NodeID Node) (dht : DHT) : DHT :=
  mkDHT (self dht) ps (ring dht) (storage dht) (listenAddr dht) (hasNetwork dht).

Definition AddPeer (now : Z) (address : string) (dht : DHT) : DHT :=
  let id := HashAddress address in
  match peers dht !! id with
  | Some n => set_peers (<[id := mkNode (nodeID n) (nodeAddress n) now]> (peers dht)) dht
  | None => rebuildRing (set_peers (<[id := mkNode id address now]> (peers dht)) dht)
  end.

Definition RemovePeer (id : NodeID) (dht : DHT) : DHT := rebuildRing (set_peers (delete id (peers dht)) dht).

(** ** Responsibility *)

(** [sort.Search]: the smallest index in [i, j) where [f] holds, by halving *)
Fixpoint sortSearch (fuel : nat) (f : nat -> bool) (i j : nat) : nat :=
  match fuel with
  | O => i
  | S fuel =>
      if (i <? j)%nat then
        let h := ((i + j) / 2)%nat in
        if negb (f h) then sortSearch fuel f (S h) j else sortSearch fuel f i h
      else i
  end.

Definition FindClosestNode (task : string) (dht : DHT) : option Node :=
  let taskID := HashTask task in
  if (length (ring dht) =? 0)%nat then Some (self dht)
  else
    let idx := sortSearch (length (ring dht)) (fun i => 0 <=? CompareNodeID (nth i (ring dht) 0) taskID) 0 (length (ring dht)) in
    let idx := if (length (ring dht) <=? idx)%nat then O else idx in
    let closestID := nth idx (ring dht) 0 in
    if closestID =? nodeID (self dht) then Some (self dht) else peers dht !! closestID.

Definition nodeOf (dht : DHT) (id : NodeID) : option Node :=
  if id =? nodeID (self dht) then Some (self dht) else peers dht !! id.

Definition by_dist {A} (x y : A * Z) : Prop := x.2 <= y.2.
#[global] Instance by_dist_dec {A} : RelDecision (@by_dist A) := fun x y => Z_le_dec x.2 y.2.

Definition FindKClosestNodes (task : string) (k : nat) (dht : DHT) : list (option Node) :=
  let taskID := HashTask task in
  match ring dht with
  | [] => [Some (self dht)]
  | _ =>
      let distances := (fun id => (nodeOf dht id, Distance taskID id)) <$> ring dht in
      fst <$> take k (merge_sort by_dist distances)
  end.

(** The same code, for callers that hold the lock *)
Definition findKClosestNodesLocked (task : string) (k : nat) (dht : DHT) : list (option Node) :=
  let taskID := HashTask task in
  match ring dht with
  | [] => [Some (self dht)]
  | _ =>
      let distances := (fun id => (nodeOf dht id, Distance taskID id)) <$> ring dht in
      fst <$> take k (merge_sort by_dist distances)
  end.

(** The loop over [node.ID]: it stops at the first match, and a nil node
    before it would panic. *)
Fixpoint containsID (id : NodeID) (nodes : list (option Node)) : option bool :=
  match nodes with
  | [] => Some false
  | None :: _ => None
  | Some n :: nodes => if nodeID n =? id then Some true else containsID id nodes
  end.

Definition AmIInKClosest (task : string) (k : nat) (dht : DHT) : option bool :=
  containsID (nodeID (self dht)) (FindKClosestNodes task k dht).

Definition IsResponsibleFor (task : string) (dht : DHT) : option bool :=
  (fun n => nodeID n =? nodeID (self dht)) <$> FindClosestNode task dht.

Definition amIInKClosestLocked (task : string) (k : nat) (dht : DHT) : bool :=
  let taskID := HashTask task in
  match ring dht with
  | [] => true
  | _ =>
      let distances := (fun id => (id, Distance taskID id)) <$> ring dht in
      existsb (fun x => x.1 =? nodeID (self dht)) (take k (merge_sort by_dist distances))
  end.

(** ** Storage *)

Definition set_storage (s : gmap string (list ServiceRegistration)) (dht : DHT) : DHT :=
  mkDHT (self dht) (peers dht) (ring dht) s (listenAddr dht) (hasNetwork dht).

(** The first registration of the address is refreshed; [None] if there is none. *)
Fixpoint refresh (now : Z) (address : string) (entries : list ServiceRegistration) : option (list ServiceRegistration) :=
  match entries with
  | [] => None
  | e :: entries =>
      if String.eqb (srAddress e) address then Some (mkRegistration (srAddress e) now :: entries)
      else (fun l => e :: l) <$> refresh now address entries
  end.

Definition StoreTask (now : Z) (task address : string) (dht : DHT) : DHT :=
  let entries := default [] (storage dht !! task) in
  match refresh now address entries with
  | Some entries => set_storage (<[task := entries]> (storage dht)) dht
  | None => set_storage (<[task := entries ++ [mkRegistration address now]]> (storage dht)) dht
  end.

Definition activeAddresses (entries : list ServiceRegistration) (now timeout : Z) : list string :=
  srAddress <$> List.filter (fun e => negb ((0 <? timeout) && (timeout <=? time_sub now (srHeartbeat e)))) entries.

Section Lookup.
Context `{DHTConfig} {W : Type}.
(** [dht.network.QueryPeerForTask] *)
Variable QueryPeerForTask : string -> string -> W -> list string * W.

Fixpoint forwardLookup (task : string) (selfID : NodeID) (nodes : list (option Node)) (w : W) : option (list string * W) :=
  match nodes with
  | [] => Some ([], w)
  | None :: _ => None
  | Some n :: nodes =>
      if nodeID n =? selfID then forwardLookup task selfID nodes w
      else
        let '(addrs, w) := QueryPeerForTask (nodeAddress n) task w in
        match addrs with [] => forwardLookup task selfID nodes w | _ => Some (addrs, w) end
  end.

Definition LookupTask (now : Z) (task : string) (dht : DHT) (w : W) : option (list string * W) :=
  match activeAddresses (default [] (storage dht !! task)) now ServiceHeartbeatTimeout with
  | (_ :: _) as addrs => Some (addrs, w)
  | [] =>
      let kClosest := findKClosestNodesLocked task ReplicationFactor dht in
      match containsID (nodeID (self dht)) kClosest with
      | None => None
      | Some isResponsible =>
          if negb isResponsible && hasNetwork dht then forwardLookup task (nodeID (self dht)) kClosest w
          else Some ([], w)
      end
  end.

End Lookup.

(** ** Cleanup: [order] is the order in which the map is walked *)

Notation Storage := (gmap string (list ServiceRegistration)) (only parsing).

Definition staleStep `{DHTConfig} (dht : DHT) (acc : Z * Storage) (x : string * list ServiceRegistration) : Z * Storage :=
  let '(removed, s) := acc in
  if negb (amIInKClosestLocked x.1 ReplicationFactor dht) then (removed + 1, delete x.1 s) else (removed, s).

Definition CleanupStaleData `{DHTConfig} (order : list (string * list ServiceRegistration)) (dht : DHT) : Z * DHT :=
  let '(removed, s) := foldl (staleStep dht) (0, storage dht) order in
  (removed, set_storage s dht).

Definition kept (now timeout : Z) (entries : list ServiceRegistration) : list ServiceRegistration :=
  List.filter (fun e => time_sub now (srHeartbeat e) <? timeout) entries.

Definition expiredStep (now timeout : Z) (acc : Z * Storage) (x : string * list ServiceRegistration) : Z * Storage :=
  let '(removed, s) := acc in
  let k := kept now timeout x.2 in
  (removed + Z.of_nat (length x.2 - length k)%nat, match k with [] => delete x.1 s | _ => <[x.1 := k]> s end).

Definition CleanupExpiredRegistrations (now timeout : Z) (order : list (string * list ServiceRegistration)) (dht : DHT)
  : Z * DHT :=
  if timeout <=? 0 then (0, dht)
  else
    let '(removed, s) := foldl (expiredStep now timeout) (0, storage dht) order in
    (removed, set_storage s dht).

(** ** Views *)

Definition GetPeers (dht : DHT) : list Node := (map_to_list (peers dht)).*2.
Definition GetSelf (dht : DHT) : Node := self dht.
Definition GetRingSize (dht : DHT) : nat := length (ring dht).
Definition GetStorageSize (dht : DHT) : nat := size (storage dht).

Definition GetStorageSnapshot `{DHTConfig} (now : Z) (dht : DHT) : gmap string (list string) :=
  omap (fun entries => match activeAddresses entries now ServiceHeartbeatTimeout with [] => None | addrs => Some addrs end)
       (storage dht).

(** [NodeIDToString]: the first four bytes in hexadecimal *)
Definition NodeIDToString (id : NodeID) : string :=
  hex_bytes ((fun i => Z.shiftr id (8 * i) mod 256) <$> [31; 30; 29; 28]).

Definition NodeIDFromUint64 (n : Z) : NodeID := n mod 2 ^ 64.
