(* ===== verification/RingFacts.v ===== *)
(** * The ring: invariants and responsibility

    Facts about Ring.v: what the ring holds, which nodes are responsible for
    a task, agreement between nodes, and what storage and cleanup do. *)

From Stdlib Require Import Ascii String.
From S2P Require Import Prelude.
From stdpp Require Import list sorting.
From S2P Require Import GoStrings NetIP Sha256 Ring.
Local Open Scope Z_scope.

(** ** Order and distance *)

Lemma id_le_spec a b : id_le a b <-> a <= b.
Proof. unfold id_le, CompareNodeID. destruct (Z.compare_spec a b); lia. Qed.

#[export] Instance id_le_total : Total id_le.
Proof. intros a b. rewrite !id_le_spec. lia. Qed.
#[export] Instance id_le_trans : Transitive id_le.
Proof. intros a b c. rewrite !id_le_spec. lia. Qed.
#[export] Instance id_le_antisymm : AntiSymm (=) id_le.
Proof. intros a b. rewrite !id_le_spec. lia. Qed.

#[export] Instance by_dist_total {A} : Total (@by_dist A).
Proof. intros x y. unfold by_dist. lia. Qed.
#[export] Instance by_dist_trans {A} : Transitive (@by_dist A).
Proof. intros x y z. unfold by_dist. lia. Qed.

Definition is_id (z : Z) : Prop := 0 <= z < 2 ^ 256.

Lemma HashTask_id t : is_id (HashTask t).
Proof. apply Sum256_range. Qed.
Lemma HashAddress_id a : is_id (HashAddress a).
Proof. apply Sum256_range. Qed.

#[local] Opaque Sum256 HashAddress HashTask.

Lemma Distance_mod a b : is_id a -> is_id b -> Distance a b = (b - a) mod 2 ^ 256.
Proof.
  unfold is_id, Distance. intros Ha Hb. rewrite Z.shiftl_1_l. destruct (Z.ltb_spec (b - a) 0).
  - apply Z.mod_unique_pos with (-1); lia.
  - symmetry. apply Z.mod_small. lia.
Qed.

Lemma Distance_inj t a b : is_id t -> is_id a -> is_id b -> Distance t a = Distance t b -> a = b.
Proof.
  unfold is_id, Distance. rewrite Z.shiftl_1_l. intros Ht Ha Hb.
  destruct (Z.ltb_spec (a - t) 0), (Z.ltb_spec (b - t) 0); lia.
Qed.

Lemma Distance_cases t a : is_id t -> is_id a ->
  (t <= a /\ Distance t a = a - t) \/ (a < t /\ Distance t a = a - t + 2 ^ 256).
Proof. unfold is_id, Distance. rewrite Z.shiftl_1_l. intros Ht Ha. destruct (Z.ltb_spec (a - t) 0); lia. Qed.

(** ** The invariant *)

Record dht_wf (d : DHT) : Prop := {
  wf_ring : ring d = ringOf (nodeID (self d)) (peers d);
  wf_self : nodeID (self d) = HashAddress (nodeAddress (self d));
  wf_peers : map_Forall (fun id n => nodeID n = id /\ id = HashAddress (nodeAddress n)) (peers d) }.

(** A node does not list itself among its peers. *)
Definition no_alias (d : DHT) : Prop := peers d !! nodeID (self d) = None.

Lemma ringOf_perm id ps : ringOf id ps ≡ₚ id :: (map_to_list ps).*1.
Proof. apply merge_sort_Permutation. Qed.

Lemma ringOf_sorted id ps : StronglySorted id_le (ringOf id ps).
Proof. apply (StronglySorted_merge_sort _). Qed.

Lemma elem_of_ringOf id ps x : x ∈ ringOf id ps <-> x = id \/ is_Some (ps !! x).
Proof.
  rewrite ringOf_perm, elem_of_cons, list_elem_of_fmap. apply or_iff_compat_l. split.
  - intros ([k n] & -> & Hin%elem_of_map_to_list). simpl. eauto.
  - intros [n Hn]. exists (x, n). split; [done|]. by apply elem_of_map_to_list.
Qed.

Lemma ringOf_insert id ps k n n' : ps !! k = Some n -> ringOf id (<[k := n']> ps) = ringOf id ps.
Proof.
  intros Hk. apply (StronglySorted_unique id_le); [apply ringOf_sorted..|]. rewrite !ringOf_perm. f_equiv.
  rewrite <- insert_delete_eq. rewrite <- (insert_id ps k n Hk) at 2. rewrite <- (insert_delete_eq ps k n).
  rewrite !map_to_list_insert by apply lookup_delete_eq. done.
Qed.

Lemma NewDHT_wf now addr : dht_wf (NewDHT now addr) /\ no_alias (NewDHT now addr).
Proof.
  split; [|apply lookup_empty]. split; [|reflexivity|apply map_Forall_empty].
  unfold ringOf. cbn [NewDHT self peers]. by rewrite map_to_list_empty.
Qed.

Lemma AddPeer_wf now addr d : dht_wf d -> dht_wf (AddPeer now addr d).
Proof.
  intros [H1 H2 H3]. unfold AddPeer. destruct (peers d !! HashAddress addr) as [n|] eqn:E.
  - split; simpl; [by rewrite (ringOf_insert _ _ _ n)|done|].
    apply map_Forall_insert_2; [|done]. simpl. by apply (H3 _ _ E).
  - split; simpl; [done|done|]. by apply map_Forall_insert_2.
Qed.

Lemma RemovePeer_wf id d : dht_wf d -> dht_wf (RemovePeer id d).
Proof. intros [H1 H2 H3]. split; simpl; [done|done|]. by apply map_Forall_delete. Qed.

Lemma set_storage_wf s d : dht_wf d -> dht_wf (set_storage s d).
Proof. by intros [H1 H2 H3]. Qed.

Lemma StoreTask_wf now task addr d : dht_wf d -> dht_wf (StoreTask now task addr d).
Proof. intros H. unfold StoreTask. destruct (refresh _ _ _); by apply set_storage_wf. Qed.

Lemma ring_ids d : dht_wf d -> Forall is_id (ring d).
Proof.
  intros [H1 H2 H3]. rewrite H1. apply Forall_forall. intros x [->|[n Hn]]%elem_of_ringOf.
  - rewrite H2. apply HashAddress_id.
  - destruct (H3 _ _ Hn) as [_ ->]. apply HashAddress_id.
Qed.

Lemma ring_nonempty d : dht_wf d -> ring d <> [].
Proof. intros [H1 _ _] E. assert (nodeID (self d) ∈ ring d) as Hin; [|rewrite E in Hin; by apply not_elem_of_nil in Hin].
  rewrite H1. apply elem_of_ringOf. auto. Qed.

Lemma nodeOf_ring d id : dht_wf d -> id ∈ ring d -> exists n, nodeOf d id = Some n /\ nodeID n = id.
Proof.
  intros [H1 H2 H3]. rewrite H1, elem_of_ringOf. unfold nodeOf. destruct (Z.eqb_spec id (nodeID (self d))) as [->|Hne].
  - intros _. eauto.
  - intros [?|[n Hn]]; [done|]. exists n. split; [done|]. by apply (H3 _ _ Hn).
Qed.

(** ** The nodes closest to a task *)

Definition dist_le (t a b : NodeID) : Prop := Distance t a <= Distance t b.
#[export] Instance dist_le_dec t : RelDecision (dist_le t) := fun a b => Z_le_dec (Distance t a) (Distance t b).
#[export] Instance dist_le_total t : Total (dist_le t).
Proof. intros a b. unfold dist_le. lia. Qed.
#[export] Instance dist_le_trans t : Transitive (dist_le t).
Proof. intros a b c. unfold dist_le. lia. Qed.

(** The reference: the ids of the ring in the order of their distance. *)
Definition closestIDs (t : NodeID) (ids : list NodeID) : list NodeID := merge_sort (dist_le t) ids.

Lemma closestIDs_perm t ids : closestIDs t ids ≡ₚ ids.
Proof. apply merge_sort_Permutation. Qed.
Lemma closestIDs_sorted t ids : StronglySorted (dist_le t) (closestIDs t ids).
Proof. apply (StronglySorted_merge_sort _). Qed.

Lemma sort_pairs {A} (f : NodeID -> A) t ids : is_id t -> Forall is_id ids ->
  merge_sort by_dist ((fun id => (f id, Distance t id)) <$> ids) = (fun id => (f id, Distance t id)) <$> closestIDs t ids.
Proof.
  intros Ht Hids. rewrite Forall_forall in Hids. apply (StronglySorted_unique_strong by_dist).
  - intros x1 x2. rewrite merge_sort_Permutation, closestIDs_perm.
    intros (a & -> & Ha)%list_elem_of_fmap (b & -> & Hb)%list_elem_of_fmap. unfold by_dist. simpl. intros H1 H2.
    assert (a = b) as ->; [|done]. apply (Distance_inj t); auto; lia.
  - apply (StronglySorted_merge_sort _).
  - eapply StronglySorted_fmap; [|apply closestIDs_sorted]. done.
  - rewrite merge_sort_Permutation. by rewrite closestIDs_perm.
Qed.

Lemma FindK_ids task k d : dht_wf d -> FindKClosestNodes task k d = nodeOf d <$> take k (closestIDs (HashTask task) (ring d)).
Proof.
  intros Hd. unfold FindKClosestNodes. destruct (ring d) as [|x l] eqn:E; [by apply ring_nonempty in E|]. rewrite <- E.
  rewrite sort_pairs by (apply HashTask_id || by apply ring_ids).
  rewrite <- fmap_take, <- list_fmap_compose. done.
Qed.

Lemma FindK_locked task k d : findKClosestNodesLocked task k d = FindKClosestNodes task k d.
Proof. done. Qed.

Lemma take_elem {A} k (l : list A) x : x ∈ take k l -> x ∈ l.
Proof. intros H. rewrite <- (take_drop k l). apply elem_of_app. auto. Qed.

Lemma containsID_ids d id ids : dht_wf d -> (forall x, x ∈ ids -> x ∈ ring d) ->
  containsID id (nodeOf d <$> ids) = Some (bool_decide (id ∈ ids)).
Proof.
  intros Hd. induction ids as [|x ids IH]; intros Hin; [done|]. rewrite fmap_cons.
  destruct (nodeOf_ring d x Hd) as (n & -> & Hn); [apply Hin; left|]. cbn [containsID]. rewrite Hn.
  destruct (Z.eqb_spec x id) as [->|Hne].
  - by rewrite bool_decide_eq_true_2 by left.
  - rewrite IH by (intros; apply Hin; by right). f_equal. apply bool_decide_ext. rewrite elem_of_cons.
    split; [auto|]. by intros [?|?]; [congruence|].
Qed.

Lemma AmI_ids task k d : dht_wf d ->
  AmIInKClosest task k d = Some (bool_decide (nodeID (self d) ∈ take k (closestIDs (HashTask task) (ring d)))).
Proof.
  intros Hd. unfold AmIInKClosest. rewrite FindK_ids by done. apply containsID_ids; [done|].
  intros x Hx%take_elem. by rewrite closestIDs_perm in Hx.
Qed.

Lemma locked_ids task k d : dht_wf d ->
  amIInKClosestLocked task k d = bool_decide (nodeID (self d) ∈ take k (closestIDs (HashTask task) (ring d))).
Proof.
  intros Hd. unfold amIInKClosestLocked. destruct (ring d) as [|x l] eqn:E; [by apply ring_nonempty in E|]. rewrite <- E.
  rewrite (sort_pairs (fun id => id)) by (apply HashTask_id || by apply ring_ids). rewrite <- fmap_take.
  set (ids := take k _). clearbody ids. induction ids as [|y ids IH]; [done|]. rewrite fmap_cons. cbn [existsb fst]. rewrite IH.
  destruct (Z.eqb_spec y (nodeID (self d))) as [->|Hne].
  - simpl. symmetry. apply bool_decide_eq_true_2. left.
  - simpl. apply bool_decide_ext. rewrite elem_of_cons. split; [auto|]. by intros [?|?]; [congruence|].
Qed.

(** The distance is the clockwise one: (b - a) modulo 2^256 for the ids
    hashing gives; it is zero only from an id to itself, and two different
    ids are never equally far from a task. *)
Theorem distance_spec task a b :
  let t := HashTask task in let x := HashAddress a in let y := HashAddress b in
  Distance t x = (x - t) mod 2 ^ 256 /\ (Distance x y = 0 <-> x = y) /\ (Distance t x = Distance t y <-> x = y).
Proof.
  intros t x y. pose proof (HashTask_id task : is_id t) as Ht.
  pose proof (HashAddress_id a : is_id x) as Hx. pose proof (HashAddress_id b : is_id y) as Hy.
  split_and!.
  - by apply Distance_mod.
  - split; [|intros ->; by rewrite Distance_mod, Z.sub_diag].
    intros E. symmetry. apply (Distance_inj x); [done..|]. rewrite E, Distance_mod by done. by rewrite Z.sub_diag.
  - split; [by apply Distance_inj|by intros ->].
Qed.

(** The k closest nodes.  On a well-formed node the answer has
    min(k, ring size) nodes, none of them nil, ordered by their distance from
    the task; each is in the ring, and no ring member left out is closer than
    one that is in. *)
Theorem k_closest_spec task k d : dht_wf d ->
  exists nodes, FindKClosestNodes task k d = Some <$> nodes /\
    length nodes = min k (length (ring d)) /\
    StronglySorted (fun m n => Distance (HashTask task) (nodeID m) <= Distance (HashTask task) (nodeID n)) nodes /\
    (exists rest, nodeID <$> nodes ++ rest ≡ₚ ring d /\
      forall n out, n ∈ nodes -> out ∈ rest -> Distance (HashTask task) (nodeID n) <= Distance (HashTask task) (nodeID out)).
Proof.
  intros Hd. rewrite FindK_ids by done. set (t := HashTask task). set (ids := closestIDs t (ring d)).
  assert (Hall : exists nodes, nodeOf d <$> ids = Some <$> nodes /\ nodeID <$> nodes = ids).
  { assert (Hin : forall x, x ∈ ids -> x ∈ ring d) by (intros x; unfold ids; by rewrite closestIDs_perm).
    clearbody ids. induction ids as [|x ids IH]; [by exists []|].
    destruct IH as (nodes & E1 & E2); [intros; apply Hin; by right|].
    destruct (nodeOf_ring d x Hd) as (n & En & Hn); [apply Hin; left|].
    exists (n :: nodes). rewrite !fmap_cons, En, E1, Hn, E2. done. }
  destruct Hall as (nodes & E1 & E2). exists (take k nodes). split; [by rewrite !fmap_take, E1|].
  assert (Hlen : length nodes = length (ring d)).
  { rewrite <- (closestIDs_perm t (ring d)). fold ids. by rewrite <- E2, length_fmap. }
  assert (Hs : StronglySorted (fun m n => Distance t (nodeID m) <= Distance t (nodeID n)) nodes).
  { pose proof (closestIDs_sorted t (ring d)) as Hs. fold ids in Hs. rewrite <- E2 in Hs. clear -Hs.
    induction nodes as [|n nodes IH]; [constructor|]. rewrite fmap_cons in Hs. apply StronglySorted_cons in Hs as [H1 H2].
    apply StronglySorted_cons. split; [|by apply IH]. rewrite Forall_fmap in H1. exact H1. }
  split; [by rewrite length_take, Hlen|]. rewrite <- (take_drop k nodes) in Hs.
  split; [by eapply StronglySorted_app_1_l|]. exists (drop k nodes). split.
  - rewrite take_drop, E2. apply closestIDs_perm.
  - intros n out Hn Ho. by eapply (StronglySorted_app_1_elem_of _ _ _ _ _ Hs Hn Ho).
Qed.

(** Both ways of asking agree.  The lock-free check, the check under the
    lock that the stale-data sweep uses, and membership among the k closest
    give the same answer, and none of them meets a nil node. *)
Theorem responsibility_checks_agree task k d : dht_wf d ->
  AmIInKClosest task k d = Some (amIInKClosestLocked task k d) /\
  containsID (nodeID (self d)) (findKClosestNodesLocked task k d) = Some (amIInKClosestLocked task k d) /\
  ((length (ring d) <= k)%nat -> amIInKClosestLocked task k d = true).
Proof.
  intros Hd. rewrite locked_ids by done. split; [by apply AmI_ids|]. split.
  - rewrite FindK_locked. by apply AmI_ids.
  - intros Hk. apply bool_decide_eq_true. rewrite take_ge by (by rewrite closestIDs_perm).
    rewrite closestIDs_perm, (wf_ring _ Hd). apply elem_of_ringOf. auto.
Qed.

(** ** The binary search *)

Lemma sortSearch_spec fuel f i j : (j - i <= fuel)%nat -> (i <= j)%nat ->
  (forall a b, (a <= b)%nat -> (b < j)%nat -> f a = true -> f b = true) ->
  let r := sortSearch fuel f i j in
  (i <= r <= j)%nat /\ (forall a, (i <= a < r)%nat -> f a = false) /\ ((r < j)%nat -> f r = true).
Proof.
  revert i j. induction fuel as [|fuel IH]; intros i j Hf Hij Hmono; cbn [sortSearch].
  { split_and!; [lia|lia|intros a ?; lia|lia]. }
  destruct (Nat.ltb_spec i j); [|split_and!; [lia|lia|intros a ?; lia|lia]].
  assert (Hh : (i <= (i + j) / 2 < j)%nat).
  { pose proof (Nat.div_mod (i + j) 2 ltac:(lia)). pose proof (Nat.mod_upper_bound (i + j) 2 ltac:(lia)). lia. }
  set (h := ((i + j) / 2)%nat) in *. clearbody h. destruct (f h) eqn:Eh; cbn [negb].
  - destruct (IH i h) as ((? & ?) & H1 & H2); [lia|lia| |]. { intros a b ? ? ?. eapply (Hmono a b); [lia|lia|done]. }
    split_and!; [lia|lia|done|]. intros _. destruct (decide (sortSearch fuel f i h = h)) as [->|]; [done|]. apply H2. lia.
  - destruct (IH (S h) j) as ((? & ?) & H1 & H2); [lia|lia|done|].
    split_and!; [lia|lia| |done]. intros a Ha. destruct (decide (S h <= a)%nat); [apply H1; lia|].
    destruct (f a) eqn:Ea; [|done]. rewrite (Hmono a h) in Eh; [done|lia|lia|done].
Qed.

Lemma sorted_nth l i j : StronglySorted id_le l -> (i <= j)%nat -> (j < length l)%nat -> nth i l 0 <= nth j l 0.
Proof.
  intros Hs. revert i j. induction Hs as [|x l Hs IH Hx]; intros i j Hij Hj; simpl in Hj; [lia|].
  destruct i as [|i], j as [|j]; simpl; try lia; [|apply IH; lia].
  apply id_le_spec. rewrite Forall_forall in Hx. apply Hx, list_elem_of_In, nth_In. lia.
Qed.

(** The clockwise successor of [t] on a sorted ring is the closest id. *)
Lemma successor_closest t ids : is_id t -> Forall is_id ids -> ids <> [] -> StronglySorted id_le ids ->
  let idx := sortSearch (length ids) (fun i => 0 <=? CompareNodeID (nth i ids 0) t) 0 (length ids) in
  let c := nth (if (length ids <=? idx)%nat then O else idx) ids 0 in
  c ∈ ids /\ forall x, x ∈ ids -> Distance t c <= Distance t x.
Proof.
  intros Ht Hids Hne Hs idx c.
  assert (Hf : forall i, (0 <=? CompareNodeID (nth i ids 0) t) = (t <=? nth i ids 0)).
  { intros i. unfold CompareNodeID. destruct (Z.compare_spec (nth i ids 0) t), (Z.leb_spec t (nth i ids 0)); lia || done. }
  destruct (sortSearch_spec (length ids) (fun i => 0 <=? CompareNodeID (nth i ids 0) t) 0 (length ids)) as ((_ & Hle) & Hlow & Hhi);
    [lia|lia| |].
  { intros a b Hab Hb. rewrite !Hf, !Z.leb_le. pose proof (sorted_nth ids a b Hs Hab Hb). lia. }
  fold idx in Hle, Hlow, Hhi. assert (0 < length ids)%nat by (destruct ids; simpl; [done|lia]).
  assert (Hnth : forall i, (i < length ids)%nat -> nth i ids 0 ∈ ids) by (intros; by apply list_elem_of_In, nth_In).
  rewrite Forall_forall in Hids. split; [unfold c; destruct (Nat.leb_spec (length ids) idx); apply Hnth; lia|].
  intros x Hx. assert (Hxi := Hx). apply list_elem_of_In, (In_nth _ _ 0) in Hxi as (i & Hi & <-).
  assert (Hc : is_id c) by (apply Hids; unfold c; destruct (Nat.leb_spec (length ids) idx); apply Hnth; lia).
  pose proof (Distance_cases t c Ht Hc) as Dc. pose proof (Distance_cases t (nth i ids 0) Ht (Hids _ (Hnth i Hi))) as Dx.
  pose proof (Hids _ (Hnth i Hi)) as Hxid. unfold is_id in *.
  assert (Hlow' : (i < idx)%nat -> nth i ids 0 < t) by (intros; apply Z.leb_gt; rewrite <- Hf; apply Hlow; lia).
  unfold c in *. destruct (Nat.leb_spec (length ids) idx) as [Hw|Hw].
  - pose proof (sorted_nth ids 0 i Hs ltac:(lia) Hi). specialize (Hlow' ltac:(lia)). lia.
  - specialize (Hhi Hw). rewrite Hf, Z.leb_le in Hhi. destruct (decide (i < idx)%nat) as [Hi'|Hi'].
    + specialize (Hlow' Hi'). lia.
    + pose proof (sorted_nth ids idx i Hs ltac:(lia) Hi). lia.
Qed.

(** The single-node lookup agrees with the k-closest one.  On a
    well-formed node the binary search with wrap-around finds the first of
    the nodes sorted by distance, never nil, and [IsResponsibleFor] is
    membership among the one closest. *)
Theorem closest_is_first task d : dht_wf d ->
  FindKClosestNodes task 1 d = [FindClosestNode task d] /\ is_Some (FindClosestNode task d) /\
  IsResponsibleFor task d = AmIInKClosest task 1 d.
Proof.
  intros Hd. pose proof (ring_nonempty d Hd) as Hne. pose proof (ring_ids d Hd) as Hids.
  assert (Hs : StronglySorted id_le (ring d)) by (rewrite (wf_ring _ Hd); apply ringOf_sorted).
  destruct (successor_closest (HashTask task) (ring d) (HashTask_id task) Hids Hne Hs) as [Hc Hmin].
  set (c := nth _ (ring d) 0) in *.
  assert (Hfind : FindClosestNode task d = nodeOf d c).
  { unfold FindClosestNode. destruct (Nat.eqb_spec (length (ring d)) 0) as [E|_]; [by apply nil_length_inv in E|]. done. }
  assert (Hhead : take 1 (closestIDs (HashTask task) (ring d)) = [c]).
  { pose proof (closestIDs_perm (HashTask task) (ring d)) as Hp. pose proof (closestIDs_sorted (HashTask task) (ring d)) as Hso.
    destruct (closestIDs (HashTask task) (ring d)) as [|h rest]; [by apply Permutation_nil in Hp|]. simpl. f_equal.
    assert (Hh : h ∈ ring d) by (rewrite <- Hp; left). rewrite Forall_forall in Hids.
    apply (Distance_inj (HashTask task)); [apply HashTask_id|auto|auto|]. apply Z.le_antisymm; [|by apply Hmin].
    rewrite <- Hp in Hc. apply elem_of_cons in Hc as [->|Hc]; [done|].
    apply StronglySorted_cons in Hso as [Hso _]. rewrite Forall_forall in Hso. by apply Hso. }
  destruct (nodeOf_ring d c Hd Hc) as (n & En & Hn).
  rewrite FindK_ids, Hhead, Hfind by done. split; [done|]. split; [eauto|].
  unfold IsResponsibleFor. rewrite Hfind, En, AmI_ids, Hhead by done. simpl. rewrite Hn. f_equal.
  destruct (Z.eqb_spec c (nodeID (self d))) as [->|Hcn]; symmetry.
  - apply bool_decide_eq_true. left.
  - apply bool_decide_eq_false. intros ?%list_elem_of_singleton. congruence.
Qed.

(** ** Agreement *)

Lemma ring_NoDup d : dht_wf d -> no_alias d -> NoDup (ring d).
Proof.
  intros [H1 _ _] Ha. rewrite H1, ringOf_perm. apply NoDup_cons. split; [|apply NoDup_fst_map_to_list].
  intros ([k n] & E & Hin%elem_of_map_to_list)%list_elem_of_fmap. simpl in E. subst k. unfold no_alias in Ha. congruence.
Qed.

Lemma ring_view d ids : dht_wf d -> no_alias d -> NoDup ids -> (forall x, x ∈ ring d <-> x ∈ ids) ->
  ring d = merge_sort id_le ids.
Proof.
  intros Hd Ha Hn Hx. apply (StronglySorted_unique id_le).
  - rewrite (wf_ring _ Hd). apply ringOf_sorted.
  - apply (StronglySorted_merge_sort _).
  - rewrite merge_sort_Permutation. apply NoDup_Permutation; [by apply ring_NoDup|done|done].
Qed.

Definition selfIDs (ds : list DHT) : list NodeID := (fun d => nodeID (self d)) <$> ds.
Definition idsOf (nodes : list (option Node)) : list (option NodeID) := (fun n : option Node => nodeID <$> n) <$> nodes.

Lemma filter_self (S : list NodeID) (ds : list DHT) :
  selfIDs (List.filter (fun d => bool_decide (nodeID (self d) ∈ S)) ds) = List.filter (fun x => bool_decide (x ∈ S)) (selfIDs ds).
Proof. unfold selfIDs. induction ds as [|d ds IH]; [done|]. rewrite fmap_cons. cbn [List.filter]. destruct (bool_decide _); [rewrite fmap_cons, IH|]; done. Qed.

Lemma filter_sublist_perm (S ids : list NodeID) : NoDup ids -> NoDup S -> (forall x, x ∈ S -> x ∈ ids) ->
  List.filter (fun x => bool_decide (x ∈ S)) ids ≡ₚ S.
Proof.
  intros Hi Hs Hin. apply NoDup_Permutation; [apply NoDup_ListNoDup; apply List.NoDup_filter; by apply NoDup_ListNoDup|done|].
  intros x. rewrite list_elem_of_In, filter_In, <- list_elem_of_In, bool_decide_eq_true. split; [by intros [_ ?]|auto].
Qed.

(** C36: replication is exact.  When the nodes of a cluster, all well formed
    and none listing itself, know exactly one another, they name the same k
    closest nodes for every task in the same order, and exactly
    min(k, cluster size) of them consider themselves responsible for it. *)
Theorem replication_exact (ds : list DHT) task k :
  Forall (fun d => dht_wf d /\ no_alias d /\ forall x, x ∈ ring d <-> x ∈ selfIDs ds) ds ->
  NoDup (selfIDs ds) ->
  (forall d d', d ∈ ds -> d' ∈ ds ->
     idsOf (FindKClosestNodes task k d) = idsOf (FindKClosestNodes task k d')) /\
  length (List.filter (fun d => bool_decide (AmIInKClosest task k d = Some true)) ds) = min k (length ds).
Proof.
  intros Hall Hn. set (ids := selfIDs ds) in *. rewrite Forall_forall in Hall.
  set (S := take k (closestIDs (HashTask task) (merge_sort id_le ids))).
  assert (Hring : forall d, d ∈ ds -> take k (closestIDs (HashTask task) (ring d)) = S).
  { intros d Hd. destruct (Hall d Hd) as (Hw & Ha & Hx). unfold S. by rewrite (ring_view d ids). }
  assert (Hids : forall d, d ∈ ds -> idsOf (FindKClosestNodes task k d) = Some <$> S).
  { intros d Hd. destruct (Hall d Hd) as (Hw & _ & _). unfold idsOf. rewrite FindK_ids, (Hring d Hd) by done. rewrite <- list_fmap_compose.
    apply list_fmap_ext. intros i x Hi. destruct (nodeOf_ring d x Hw) as (n & En & Hnn).
    - apply list_elem_of_lookup_2 in Hi. rewrite <- (Hring d Hd) in Hi. apply take_elem in Hi. by rewrite closestIDs_perm in Hi.
    - simpl. by rewrite En, <- Hnn. }
  split; [intros d d' Hd Hd'; by rewrite !Hids|].
  assert (HS : NoDup S /\ (forall x, x ∈ S -> x ∈ ids) /\ length S = min k (length ids)).
  { assert (Hp : closestIDs (HashTask task) (merge_sort id_le ids) ≡ₚ ids) by (by rewrite closestIDs_perm, merge_sort_Permutation).
    unfold S. split_and!.
    - apply (sublist_NoDup _ (closestIDs (HashTask task) (merge_sort id_le ids))); [|apply sublist_take]. by rewrite Hp.
    - intros x Hx%take_elem. by rewrite Hp in Hx.
    - by rewrite length_take, Hp. }
  destruct HS as (HS1 & HS2 & HS3).
  transitivity (length (List.filter (fun d => bool_decide (nodeID (self d) ∈ S)) ds)).
  - f_equal. apply filter_ext_in. intros d Hd%list_elem_of_In. destruct (Hall d Hd) as (Hw & _ & _).
    rewrite AmI_ids, Hring by done. destruct (bool_decide (nodeID (self d) ∈ S)) eqn:E; reflexivity.
  - transitivity (length (selfIDs (List.filter (fun d => bool_decide (nodeID (self d) ∈ S)) ds))); [unfold selfIDs; by rewrite length_fmap|].
    rewrite filter_self. fold ids. rewrite filter_sublist_perm by done. rewrite HS3. unfold ids, selfIDs. by rewrite length_fmap.
Qed.

(** A cluster of three and its views, for the witnesses *)
Definition demo_node (a : string) (others : list string) : DHT := foldl (fun d p => AddPeer 0 p d) (NewDHT 0 a) others.
Definition demo_cluster : list DHT :=
  let a := "10.0.0.1:6000"%string in let b := "10.0.0.2:6000"%string in let c := "10.0.0.3:6000"%string in
  [demo_node a [b; c]; demo_node b [a; c]; demo_node c [b; a]].

Lemma demo_node_wf a others : dht_wf (demo_node a others).
Proof.
  unfold demo_node. assert (H : dht_wf (NewDHT 0 a)) by apply NewDHT_wf. revert H. generalize (NewDHT 0 a).
  induction others as [|p others IH]; intros d Hd; [done|]. simpl. apply IH. by apply AddPeer_wf.
Qed.

Definition same_ids (l1 l2 : list NodeID) : bool :=
  forallb (fun x => bool_decide (x ∈ l2)) l1 && forallb (fun x => bool_decide (x ∈ l1)) l2.

Lemma same_ids_spec l1 l2 : same_ids l1 l2 = true -> forall x, x ∈ l1 <-> x ∈ l2.
Proof.
  unfold same_ids. rewrite andb_true_iff, !forallb_forall. intros [H1 H2] x. split; intros Hx%list_elem_of_In.
  - apply (bool_decide_eq_true (x ∈ l2)). by apply H1.
  - apply (bool_decide_eq_true (x ∈ l1)). by apply H2.
Qed.

Lemma k_closest_spec_witness : length (FindKClosestNodes "t" 2 (demo_node "10.0.0.1:6000" ["10.0.0.2:6000"; ":7"]%string)) = 2%nat.
Proof.
  destruct (k_closest_spec "t" 2 _ (demo_node_wf "10.0.0.1:6000" ["10.0.0.2:6000"; ":7"]%string)) as (nodes & -> & Hl & _).
  rewrite length_fmap, Hl. vm_compute. reflexivity.
Defined.

Lemma responsibility_checks_agree_witness :
  AmIInKClosest "t" 3 (demo_node "10.0.0.1:6000" [":7"]%string) = Some true.
Proof.
  destruct (responsibility_checks_agree "t" 3 _ (demo_node_wf "10.0.0.1:6000" [":7"]%string)) as (-> & _ & H).
  rewrite H; [done|]. apply Nat.leb_le. vm_compute. reflexivity.
Defined.

Lemma closest_is_first_witness : is_Some (FindClosestNode "t" (demo_node "10.0.0.1:6000" [":7"; "x:1"]%string)).
Proof. apply (closest_is_first "t" _ (demo_node_wf "10.0.0.1:6000" [":7"; "x:1"]%string)). Defined.

Lemma replication_exact_witness :
  length (List.filter (fun d => bool_decide (AmIInKClosest "print" 2 d = Some true)) demo_cluster) = 2%nat.
Proof.
  apply (replication_exact demo_cluster "print" 2).
  - repeat apply Forall_cons_2; [..|apply Forall_nil_2];
      (split; [apply demo_node_wf|split; [vm_compute; reflexivity|apply same_ids_spec; vm_compute; reflexivity]]).
  - apply (bool_decide_eq_true (NoDup (selfIDs demo_cluster))). vm_compute. reflexivity.
Defined.

(** ** Storage *)

Lemma refresh_spec now addr es :
  match refresh now addr es with
  | Some es' => addr ∈ srAddress <$> es /\ srAddress <$> es' = srAddress <$> es /\
      exists l1 e l2, es = l1 ++ e :: l2 /\ srAddress e = addr /\ es' = l1 ++ mkRegistration addr now :: l2
  | None => addr ∉ srAddress <$> es
  end.
Proof.
  induction es as [|e es IH]; simpl; [by intros ?%elem_of_nil|].
  destruct (String.eqb_spec (srAddress e) addr) as [<-|Hne].
  - split; [left|]. split; [done|]. by exists [], e, es.
  - destruct (refresh now addr es) as [es'|]; simpl.
    + destruct IH as (H1 & H2 & l1 & e' & l2 & -> & He & ->). split; [by right|]. split; [f_equal; exact H2|].
      by exists (e :: l1), e', l2.
    + rewrite elem_of_cons. intros [->|Hin]; [done|by apply IH].
Qed.

(** Addresses of a task are distinct. *)
Definition storage_ok (s : gmap string (list ServiceRegistration)) : Prop :=
  map_Forall (fun _ es => NoDup (srAddress <$> es) /\ es <> []) s.

Lemma StoreTask_ok now task addr d : storage_ok (storage d) -> storage_ok (storage (StoreTask now task addr d)).
Proof.
  intros Hs. unfold StoreTask.
  assert (Hn : NoDup (srAddress <$> default [] (storage d !! task))).
  { destruct (storage d !! task) as [es|] eqn:E; [by apply (Hs _ _ E)|constructor]. }
  pose proof (refresh_spec now addr (default [] (storage d !! task))) as Hr.
  destruct (refresh _ _ _) as [es'|]; cbn [set_storage storage]; apply map_Forall_insert_2; try done.
  - destruct Hr as (_ & E & l1 & e & l2 & _ & _ & ->). split; [by rewrite E|]. by destruct l1.
  - split; [|by destruct (default [] _)]. rewrite fmap_app. apply NoDup_app. split_and!; [done| |repeat constructor; by intros ?%elem_of_nil].
    intros x Hx Hx'%list_elem_of_singleton. simpl in Hx'. by subst.
Qed.

Lemma active_elem es now timeout e : e ∈ es ->
  timeout <= 0 \/ time_sub now (srHeartbeat e) < timeout -> srAddress e ∈ activeAddresses es now timeout.
Proof.
  intros He Ht. unfold activeAddresses. apply list_elem_of_fmap_2, list_elem_of_In, filter_In. split; [by apply list_elem_of_In|].
  destruct (Z.ltb_spec 0 timeout), (Z.leb_spec timeout (time_sub now (srHeartbeat e))); try done. lia.
Qed.

Section Storage.
Context `{DHTConfig}.

(** What a node stores it finds.  After storing an address for a task, a
    lookup on the same node before the heartbeat timeout returns the
    addresses stored for the task, that one among them, without asking the
    network; storing it again only moves its heartbeat, so the addresses of
    a task stay distinct. *)
Theorem store_then_lookup {W} (query : string -> string -> W -> list string * W) now now' task addr d w :
  storage_ok (storage d) -> ServiceHeartbeatTimeout <= 0 \/ time_sub now' now < ServiceHeartbeatTimeout ->
  let d' := StoreTask now task addr d in
  storage_ok (storage d') /\
  (exists addrs, LookupTask query now' task d' w = Some (addrs, w) /\ addr ∈ addrs /\ NoDup addrs) /\
  (forall t, t <> task -> storage d' !! t = storage d !! t) /\
  srAddress <$> default [] (storage d' !! task) =
    (let old := srAddress <$> default [] (storage d !! task) in if bool_decide (addr ∈ old) then old else old ++ [addr]).
Proof.
  intros Hs Ht d'. pose proof (StoreTask_ok now task addr d Hs) as Hok. fold d' in Hok. split; [done|].
  pose proof (refresh_spec now addr (default [] (storage d !! task))) as Hr.
  assert (Hd : exists es, storage d' = <[task := es]> (storage d) /\ mkRegistration addr now ∈ es /\
    srAddress <$> es = (let old := srAddress <$> default [] (storage d !! task) in if bool_decide (addr ∈ old) then old else old ++ [addr])).
  { unfold d', StoreTask. destruct (refresh _ _ _) as [es'|].
    - exists es'. destruct Hr as (Hin & E & l1 & e & l2 & _ & _ & ->). split_and!; [done|by apply elem_of_app; right; left|].
      by rewrite bool_decide_eq_true_2.
    - eexists. split_and!; [done|by apply elem_of_app; right; left|]. by rewrite bool_decide_eq_false_2, fmap_app. }
  destruct Hd as (es & Hes & Hin & Haddrs). rewrite Hes. split_and!.
  - unfold LookupTask. rewrite Hes, lookup_insert_eq. change (default [] (Some es)) with es.
    pose proof (active_elem es now' ServiceHeartbeatTimeout _ Hin Ht) as Ha. cbn [srAddress] in Ha.
    exists (activeAddresses es now' ServiceHeartbeatTimeout). split_and!; [|done|].
    { destruct (activeAddresses es now' ServiceHeartbeatTimeout); [by apply elem_of_nil in Ha|]. done. }
    apply (sublist_NoDup _ (srAddress <$> es)).
    + apply (Hok task es). by rewrite Hes, lookup_insert_eq.
    + unfold activeAddresses. apply fmap_sublist. clear. induction es as [|e es IH]; [done|]. simpl.
      destruct (negb _); by constructor.
  - intros t Hne. by rewrite lookup_insert_ne.
  - by rewrite lookup_insert_eq.
Qed.

Lemma bool_decide_cons_ne (t t' : string) l : t <> t' -> bool_decide (t ∈ t' :: l) = bool_decide (t ∈ l).
Proof. intros Hne. apply bool_decide_ext. rewrite elem_of_cons. split; [by intros [?|?]|auto]. Qed.

Lemma stale_fold d order removed (s : Storage) :
  NoDup order.*1 -> (forall t es, (t, es) ∈ order -> is_Some (s !! t)) ->
  let p t := amIInKClosestLocked t ReplicationFactor d in
  let '(removed', s') := foldl (staleStep d) (removed, s) order in
  (forall t, s' !! t = if bool_decide (t ∈ order.*1) && negb (p t) then None else s !! t) /\
  removed' + Z.of_nat (size s') = removed + Z.of_nat (size s).
Proof.
  revert removed s. induction order as [|[task es] order IH]; intros removed s Hn Hin p; [simpl; split; [done|lia]|].
  rewrite fmap_cons, NoDup_cons in Hn. destruct Hn as [Hnot Hn]. cbn [foldl]. unfold staleStep at 2. cbn [fst]. fold (p task).
  assert (Hin' : forall t es', (t, es') ∈ order -> t <> task /\ is_Some (s !! t)).
  { intros t es' Hx. split; [|by apply (Hin t es'); right]. intros ->. apply Hnot. by apply (list_elem_of_fmap_2 fst _ _ Hx). }
  destruct (negb (p task)) eqn:Ep.
  - specialize (IH (removed + 1) (delete task s) Hn). cbv zeta in IH. fold p in IH.
    destruct (foldl _ _ order) as [removed' s']. destruct IH as [IH1 IH2].
    { intros t es' Hx. destruct (Hin' t es' Hx) as [Hne ?]. by rewrite lookup_delete_ne by done. }
    split; [|destruct (Hin task es) as [x Hx]; [left|]; rewrite (map_size_delete_Some _ _ (ex_intro _ x Hx)) in IH2;
      assert (size s <> 0%nat) by (intros E%map_size_empty_inv; by rewrite E, lookup_empty in Hx); lia].
    intros t. rewrite IH1, fmap_cons. cbn [fst]. destruct (decide (t = task)) as [->|Hne].
    + rewrite (bool_decide_eq_false_2 (task ∈ order.*1)) by done. rewrite (bool_decide_eq_true_2 (task ∈ task :: _)) by left.
      rewrite Ep. simpl. apply lookup_delete_eq.
    + rewrite lookup_delete_ne by done. by rewrite (bool_decide_cons_ne t task).
  - specialize (IH removed s Hn). cbv zeta in IH. fold p in IH.
    destruct (foldl _ _ order) as [removed' s']. destruct IH as [IH1 IH2]; [by intros t es' Hx; apply (Hin' t es')|].
    split; [|done]. intros t. rewrite IH1, fmap_cons. cbn [fst]. destruct (decide (t = task)) as [->|Hne].
    + rewrite Ep, !andb_false_r. done.
    + by rewrite (bool_decide_cons_ne t task).
Qed.

(** The stale-data sweep is exact.  In whatever order the map is walked,
    it keeps exactly the tasks this node is among the k closest for, with
    their registrations untouched, and returns how many it dropped; it
    leaves the ring alone, so a second sweep removes nothing. *)
Theorem stale_sweep_exact order order' d : order ≡ₚ map_to_list (storage d) ->
  let '(removed, d') := CleanupStaleData order d in
  (forall t, storage d' !! t = if amIInKClosestLocked t ReplicationFactor d then storage d !! t else None) /\
  removed = Z.of_nat (size (storage d)) - Z.of_nat (size (storage d')) /\
  ring d' = ring d /\
  (order' ≡ₚ map_to_list (storage d') -> (CleanupStaleData order' d').1 = 0).
Proof.
  intros Ho. set (p t := amIInKClosestLocked t ReplicationFactor d).
  assert (Hsame : forall s t, amIInKClosestLocked t ReplicationFactor (set_storage s d) = p t) by done.
  unfold CleanupStaleData.
  pose proof (stale_fold d order 0 (storage d)) as Hf. cbv zeta in Hf. fold p in Hf.
  destruct (foldl _ _ order) as [removed s']. destruct Hf as [H1 H2].
  { rewrite Ho. apply NoDup_fst_map_to_list. }
  { intros t es Hin. rewrite Ho in Hin. apply elem_of_map_to_list in Hin. eauto. }
  assert (Hs' : forall t, s' !! t = if p t then storage d !! t else None).
  { intros t. rewrite H1. destruct (p t) eqn:Ep; [by rewrite andb_false_r|]. rewrite andb_true_r.
    destruct (bool_decide (t ∈ order.*1)) eqn:E; [done|]. apply bool_decide_eq_false in E.
    destruct (storage d !! t) as [es|] eqn:El; [|done]. exfalso. apply E. rewrite Ho. 
    apply elem_of_map_to_list in El. by apply (list_elem_of_fmap_2 fst) in El. }
  cbn [set_storage storage ring]. split; [exact Hs'|]. split; [lia|split; [done|]].
  intros Ho'. pose proof (stale_fold (set_storage s' d) order' 0 s') as Hf. cbv zeta in Hf.
  cbn [storage]. destruct (foldl _ _ order') as [removed' s'']. destruct Hf as [H1' H2'].
  { rewrite Ho'. apply NoDup_fst_map_to_list. }
  { intros t es Hin. rewrite Ho' in Hin. apply elem_of_map_to_list in Hin. eauto. }
  assert (s'' = s') as ->; [|simpl in *; lia]. apply map_eq. intros t. rewrite H1', Hsame.
  destruct (p t) eqn:Ep; [by rewrite andb_false_r|]. rewrite Hs', Ep. by destruct (_ && _).
Qed.

Lemma expired_fold now timeout order removed (s : Storage) :
  NoDup order.*1 -> (forall t es, (t, es) ∈ order -> s !! t = Some es) ->
  let clean es := match kept now timeout es with [] => None | k => Some k end in
  let '(removed', s') := foldl (expiredStep now timeout) (removed, s) order in
  (forall t, s' !! t = if bool_decide (t ∈ order.*1) then s !! t ≫= clean else s !! t) /\
  removed' = removed + Z.of_nat (sum_list_with (fun x => length x.2 - length (kept now timeout x.2))%nat order).
Proof.
  revert removed s. induction order as [|[task es] order IH]; intros removed s Hn Hin clean; [simpl; split; [done|lia]|].
  rewrite fmap_cons, NoDup_cons in Hn. destruct Hn as [Hnot Hn]. cbn [foldl]. unfold expiredStep at 2. cbn [fst snd sum_list_with].
  set (s1 := match kept now timeout es with [] => _ | _ => _ end).
  assert (Hs1 : forall t, s1 !! t = if bool_decide (t = task) then clean es else s !! t).
  { intros t. unfold s1, clean. destruct (bool_decide_reflect (t = task)) as [->|Hne]; destruct (kept now timeout es).
    - by rewrite lookup_delete_eq. - by rewrite lookup_insert_eq. - by rewrite lookup_delete_ne. - by rewrite lookup_insert_ne. }
  assert (Hin' : forall t es', (t, es') ∈ order -> s1 !! t = Some es').
  { intros t es' Hx. rewrite Hs1, bool_decide_eq_false_2; [by apply (Hin t es'); right|].
    intros ->. apply Hnot. by apply (list_elem_of_fmap_2 fst _ _ Hx). }
  specialize (IH (removed + Z.of_nat (length es - length (kept now timeout es))) s1 Hn Hin'). cbv zeta in IH. fold clean in IH.
  clearbody s1. destruct (foldl _ _ order) as [removed' s']. destruct IH as [IH1 IH2]. split; [|lia].
  intros t. rewrite IH1, Hs1, fmap_cons. cbn [fst]. destruct (decide (t = task)) as [->|Hne].
  - rewrite (bool_decide_eq_false_2 (task ∈ order.*1)) by done. rewrite (bool_decide_eq_true_2 (task ∈ task :: _)) by left.
    rewrite bool_decide_eq_true_2 by done. rewrite (Hin task es) by left. done.
  - rewrite (bool_decide_eq_false_2 (t = task)) by done. by rewrite (bool_decide_cons_ne t task).
Qed.

Lemma active_kept es now timeout : 0 < timeout ->
  activeAddresses es now timeout = srAddress <$> kept now timeout es /\
  activeAddresses (kept now timeout es) now timeout = activeAddresses es now timeout.
Proof.
  intros Ht. unfold activeAddresses, kept. rewrite (proj2 (Z.ltb_lt 0 timeout) Ht). cbn [andb].
  assert (Hf : forall e, negb (timeout <=? time_sub now (srHeartbeat e)) = (time_sub now (srHeartbeat e) <? timeout))
    by (intros e; by rewrite Z.leb_antisym, negb_involutive).
  split.
  - f_equal. apply filter_ext. intros e. by rewrite Hf.
  - f_equal. rewrite !(filter_ext _ _ Hf). induction es as [|e es IH]; [done|]. simpl.
    destruct (time_sub now (srHeartbeat e) <? timeout) eqn:E; simpl; [rewrite E; by f_equal|done].
Qed.

(** The sweep of expired registrations is invisible to lookups.  With the
    timeout the lookups use, in whatever order the map is walked, it leaves
    every task's active addresses as they were at that moment, keeps exactly
    the unexpired registrations, drops tasks left with none, and returns how
    many registrations it dropped. *)
Theorem expired_sweep_invisible now order d :
  0 < ServiceHeartbeatTimeout -> order ≡ₚ map_to_list (storage d) ->
  let '(removed, d') := CleanupExpiredRegistrations now ServiceHeartbeatTimeout order d in
  GetStorageSnapshot now d' = GetStorageSnapshot now d /\
  (forall t, activeAddresses (default [] (storage d' !! t)) now ServiceHeartbeatTimeout
           = activeAddresses (default [] (storage d !! t)) now ServiceHeartbeatTimeout) /\
  (forall t es, storage d' !! t = Some es <->
     es <> [] /\ exists es0, storage d !! t = Some es0 /\ es = kept now ServiceHeartbeatTimeout es0) /\
  removed = Z.of_nat (sum_list_with (fun x => length x.2 - length (kept now ServiceHeartbeatTimeout x.2))%nat order).
Proof.
  intros Ht Ho. unfold CleanupExpiredRegistrations. destruct (Z.leb_spec ServiceHeartbeatTimeout 0); [lia|].
  pose proof (expired_fold now ServiceHeartbeatTimeout order 0 (storage d)) as Hf. cbv zeta in Hf.
  destruct (foldl _ _ order) as [removed s']. destruct Hf as [H1 H2].
  { rewrite Ho. apply NoDup_fst_map_to_list. }
  { intros t es Hin. rewrite Ho in Hin. by apply elem_of_map_to_list in Hin. }
  assert (Hs' : forall t, s' !! t = storage d !! t ≫= fun es => match kept now ServiceHeartbeatTimeout es with [] => None | k => Some k end).
  { intros t. rewrite H1. destruct (bool_decide_reflect (t ∈ order.*1)) as [|E]; [done|].
    destruct (storage d !! t) as [es|] eqn:El; [|done]. exfalso. apply E. rewrite Ho.
    apply elem_of_map_to_list in El. by apply (list_elem_of_fmap_2 fst) in El. }
  assert (Hact : forall t, activeAddresses (default [] (s' !! t)) now ServiceHeartbeatTimeout
    = activeAddresses (default [] (storage d !! t)) now ServiceHeartbeatTimeout).
  { intros t. rewrite Hs'. destruct (storage d !! t) as [es|]; [|done]. simpl.
    destruct (active_kept es now ServiceHeartbeatTimeout Ht) as [E1 E2]. rewrite E1.
    destruct (kept now ServiceHeartbeatTimeout es) as [|e k] eqn:Ek; [done|]. simpl default.
    rewrite E2. exact E1. }
  cbn [set_storage storage]. split_and!.
  - unfold GetStorageSnapshot. apply map_eq. intros t. rewrite !lookup_omap. cbn [set_storage storage].
    specialize (Hact t). rewrite Hs' in *. destruct (storage d !! t) as [es|]; [|done]. simpl in *.
    destruct (kept now ServiceHeartbeatTimeout es) as [|e k]; simpl in *; rewrite <- Hact; done.
  - exact Hact.
  - intros t es. rewrite Hs'. destruct (storage d !! t) as [es0|]; simpl.
    + destruct (kept now ServiceHeartbeatTimeout es0) as [|e k] eqn:Ek; split.
      * done. * intros (Hne & ? & [= <-] & ->). by rewrite Ek in Hne.
      * intros [= <-]. split; [done|]. eauto. * intros (_ & ? & [= <-] & ->). by rewrite Ek.
    + split; [done|]. by intros (_ & ? & ? & _).
  - lia.
Qed.

End Storage.

#[local] Existing Instance default_config.

Definition demo_query (peer task : string) (w : unit) : list string * unit := ([], w).

Lemma store_then_lookup_witness :
  exists addrs, LookupTask demo_query 7 "b" (StoreTask 5 "b" "10.0.0.9:80" (NewDHT 0 ":6000")) tt = Some (addrs, tt)
    /\ "10.0.0.9:80"%string ∈ addrs.
Proof.
  destruct (store_then_lookup demo_query 5 7 "b" "10.0.0.9:80" (NewDHT 0 ":6000") tt) as (_ & (addrs & H1 & H2 & _) & _).
  - apply map_Forall_empty.
  - right. reflexivity.
  - exists addrs. split; [exact H1|exact H2].
Defined.

Definition demo_full : DHT :=
  foldl (fun d t => StoreTask 0 t "10.0.0.9:80" d)
    (demo_node "10.0.0.1:6000" ["10.0.0.2:6000"; "10.0.0.3:6000"; "10.0.0.4:6000"; "10.0.0.5:6000"]%string) ["a"; "b"; "c"; "d"]%string.

Lemma stale_sweep_exact_witness :
  let '(removed, d') := CleanupStaleData (map_to_list (storage demo_full)) demo_full in
  removed = 2 /\ size (storage d') = 2%nat /\ (CleanupStaleData (map_to_list (storage d')) d').1 = 0.
Proof.
  pose proof (stale_sweep_exact (map_to_list (storage demo_full))
    (map_to_list (storage (CleanupStaleData (map_to_list (storage demo_full)) demo_full).2)) demo_full (reflexivity _)) as H.
  destruct (CleanupStaleData (map_to_list (storage demo_full)) demo_full) as [removed d'] eqn:E.
  destruct H as (_ & Hr & _ & H0). cbn [snd] in H0. specialize (H0 (reflexivity _)).
  assert (size (storage d') = 2%nat) as Hs.
  { apply (f_equal snd) in E. cbn [snd] in E. rewrite <- E. vm_compute. reflexivity. }
  split; [|split; [exact Hs|exact H0]]. rewrite Hr, Hs. vm_compute. reflexivity.
Defined.

Lemma expired_sweep_invisible_witness :
  let '(removed, d') := CleanupExpiredRegistrations (70 * 10 ^ 9) ServiceHeartbeatTimeout (map_to_list (storage demo_full)) demo_full in
  removed = 4 /\ GetStorageSnapshot (70 * 10 ^ 9) d' = GetStorageSnapshot (70 * 10 ^ 9) demo_full.
Proof.
  pose proof (expired_sweep_invisible (H := default_config) (70 * 10 ^ 9) (map_to_list (storage demo_full)) demo_full ltac:(reflexivity) (reflexivity _)) as H.
  destruct (CleanupExpiredRegistrations _ _ _ _) as [removed d']. destruct H as (H1 & _ & _ & ->). split; [vm_compute; reflexivity|exact H1].
Defined.

(** An alias of a node's own address makes it its own peer.  Peers are
    added whenever the address string differs from the node's own, but ids
    are hashes of canonical addresses: a node listening on :6000 that hears of
    "localhost:6000" lists its own id twice in its ring, and with a
    replication factor of 2 and another node available keeps both copies of
    task "b" for itself. *)
Theorem self_alias_duplicates :
  let d := AddPeer 2 "localhost:6000" (AddPeer 1 "10.0.0.2:6000" (NewDHT 0 ":6000")) in
  nodeAddress (self d) <> "localhost:6000"%string /\ GetRingSize d = 3%nat /\
  count_occ Z.eq_dec (ring d) (nodeID (self d)) = 2%nat /\
  idsOf (FindKClosestNodes "b" 2 d) = [Some (nodeID (self d)); Some (nodeID (self d))].
Proof. vm_compute. split_and!; [discriminate|reflexivity..]. Qed.
