(* ===== verification/DHTNet.v ===== *)
(** * pkg/dht/network.go and registry.go: the DHT protocol

    Messages, the handler of incoming messages, joining, liveness, the
    store and find clients, and the registry facade the proxy uses.  The
    network is a class: the bytes sent to an address and what comes back.
    A function that would dereference a nil node returns [None]. *)

From Stdlib Require Import Ascii String.
From S2P Require Import Prelude.
From stdpp Require Import list sorting.
From S2P Require Import GoStrings NetIP GoJSON Sha256 Ring RingFacts.
Local Open Scope Z_scope.

#[local] Arguments String.append : simpl nomatch.

Definition MsgPing : string := "PING".
Definition MsgPong : string := "PONG".
Definition MsgJoin : string := "JOIN".
Definition MsgPeerList : string := "PEERLIST".
Definition MsgStore : string := "STORE".
Definition MsgFind : string := "FIND".
Definition MsgFoundData : string := "FOUND".
Definition MsgNotFound : string := "NOTFOUND".
Definition MsgOK : string := "OK".
Definition MsgNotResponsible : string := "NOT_RESPONSIBLE".

(** ** Messages

    A [json.RawMessage] is the value it holds; [None] is the absent one. *)

Record Message := mkMessage { Type_ : string; Sender : string; Payload : option json }.

Definition message_json (m : Message) : json :=
  JObj ([("type", JStr (Type_ m)); ("sender", JStr (Sender m))]%string
        ++ match Payload m with Some p => [("payload"%string, p)] | None => [] end).

Definition message_of_json (j : json) : option Message :=
  fs ← struct_fields j;
  t ← as_string "" (field "type" fs); s ← as_string "" (field "sender" fs);
  Some (mkMessage t s (last (field "payload" fs))).

Definition EncodeMessage (m : Message) : string := (print (message_json m) ++ String (chr 10) "")%string.
Definition DecodeMessage (stream : string) : option Message := parse_first stream ≫= message_of_json.

Definition storePayload (task address : string) : json := JObj [("task", JStr task); ("address", JStr address)]%string.
Definition findPayload (task : string) : json := JObj [("task", JStr task)]%string.
Definition foundPayload (task : string) (addrs : list string) : json :=
  JObj [("task", JStr task); ("addresses", JArr (JStr <$> addrs))]%string.
Definition peerListPayload (addrs : list string) : json := JObj [("peers", JArr (JStr <$> addrs))]%string.
Definition notResponsiblePayload (addrs : list string) : json := JObj [("closest", JArr (JStr <$> addrs))]%string.

Definition asStorePayload (p : option json) : option (string * string) :=
  j ← p; fs ← struct_fields j;
  t ← as_string "" (field "task" fs); a ← as_string "" (field "address" fs); Some (t, a).
Definition asFindPayload (p : option json) : option string :=
  j ← p; fs ← struct_fields j; as_string "" (field "task" fs).
Definition asFoundPayload (p : option json) : option (list string) :=
  j ← p; fs ← struct_fields j; _ ← as_string "" (field "task" fs); as_strings [] (field "addresses" fs).
Definition asPeers (name : string) (p : option json) : option (list string) :=
  j ← p; fs ← struct_fields j; as_strings [] (field name fs).

(** ** Sending *)

Class PeerNet (W : Type) := rpc : string -> string -> W -> result string string * W.

Section Net.
Context `{DHTConfig} {W : Type} `{PeerNet W}.
Variable decode_error : string -> string.

Definition sendMessage (addr : string) (msg : Message) (w : W) : result string Message * W :=
  let '(r, w) := rpc addr (EncodeMessage msg) w in
  (match r with
   | Err e => Err e
   | Ok stream =>
       match DecodeMessage stream with
       | Some resp => Ok resp
       | None => Err ("decode: " ++ decode_error stream)%string
       end
   end, w).

Definition QueryPeerForTask (selfAddr peerAddr task : string) (w : W) : list string * W :=
  let '(r, w) := sendMessage peerAddr (mkMessage MsgFind selfAddr (Some (findPayload task))) w in
  (match r with
   | Err _ => []
   | Ok resp =>
       if String.eqb (Type_ resp) MsgFoundData then default [] (asFoundPayload (Payload resp)) else []
   end, w).

Definition lookup_task (now : Z) (task : string) (d : DHT) (w : W) : option (list string * W) :=
  LookupTask (QueryPeerForTask (nodeAddress (self d))) now task d w.

(** ** Receiving *)

Definition addSender (now : Z) (msg : Message) (d : DHT) : DHT :=
  if negb (String.eqb (Sender msg) "") && negb (String.eqb (Sender msg) (nodeAddress (self d))) then AddPeer now (Sender msg) d else d.

Definition nodeAddresses (nodes : list (option Node)) : list string := nodeAddress <$> omap (fun n => n) nodes.

Definition handleStore (now : Z) (msg : Message) (d : DHT) : option (option Message * DHT) :=
  let reply t p := Some (mkMessage t (nodeAddress (self d)) p) in
  match asStorePayload (Payload msg) with
  | None => Some (None, d)
  | Some (task, address) =>
      if (GetRingSize d <=? ReplicationFactor)%nat then Some (reply MsgOK None, StoreTask now task address d)
      else match AmIInKClosest task ReplicationFactor d with
           | None => None
           | Some true => Some (reply MsgOK None, StoreTask now task address d)
           | Some false =>
               Some (reply MsgNotResponsible
                       (Some (notResponsiblePayload (nodeAddresses (FindKClosestNodes task ReplicationFactor d)))), d)
           end
  end.

Definition handleFind (now : Z) (msg : Message) (d : DHT) (w : W) : option (option Message * W) :=
  let reply t p := Some (mkMessage t (nodeAddress (self d)) p) in
  match asFindPayload (Payload msg) with
  | None => Some (None, w)
  | Some task =>
      match (if (GetRingSize d <=? ReplicationFactor)%nat then Some true else AmIInKClosest task ReplicationFactor d) with
      | None => None
      | Some false => Some (reply MsgNotFound None, w)
      | Some true =>
          match lookup_task now task d w with
          | None => None
          | Some ([], w) => Some (reply MsgNotFound None, w)
          | Some (addrs, w) => Some (reply MsgFoundData (Some (foundPayload task addrs)), w)
          end
      end
  end.

Definition handleMessage (now : Z) (msg : Message) (d : DHT) (w : W) : option (option Message * DHT * W) :=
  let d := addSender now msg d in
  if String.eqb (Type_ msg) MsgPing then Some (Some (mkMessage MsgPong (nodeAddress (self d)) None), d, w)
  else if String.eqb (Type_ msg) MsgJoin then
    Some (Some (mkMessage MsgPeerList (nodeAddress (self d)) (Some (peerListPayload (nodeAddress <$> GetPeers d)))), d, w)
  else if String.eqb (Type_ msg) MsgStore then
    match handleStore now msg d with Some (r, d) => Some (r, d, w) | None => None end
  else if String.eqb (Type_ msg) MsgFind then
    match handleFind now msg d w with Some (r, w) => Some (r, d, w) | None => None end
  else Some (None, d, w).

(** One connection: a message in, at most one message out *)
Definition handleConnection (now : Z) (input : string) (d : DHT) (w : W) : option (string * DHT * W) :=
  match DecodeMessage input with
  | None => Some (""%string, d, w)
  | Some msg =>
      match handleMessage now msg d w with
      | None => None
      | Some (Some resp, d, w) => Some (EncodeMessage resp, d, w)
      | Some (None, d, w) => Some (""%string, d, w)
      end
  end.

(** ** Starting, joining, liveness *)

(** [boundAddr] is the address the listener is bound to. *)
Definition startAddress (boundAddr : string) (d : DHT) : string :=
  let advertiseHost :=
    match SplitHostPort (nodeAddress (self d)) with
    | None => "127.0.0.1"%string
    | Some (h, _) =>
        if bool_decide (TrimSpace h ∈ [""; "0.0.0.0"; "::"; "::1"; "localhost"]%string) then "127.0.0.1"%string else h
    end in
  match SplitHostPort boundAddr with
  | Some (_, actualPort) => if negb (String.eqb actualPort "") then JoinHostPort advertiseHost actualPort else boundAddr
  | None => boundAddr
  end.

Definition Start (boundAddr : string) (d : DHT) : DHT :=
  let actualAddr := startAddress boundAddr d in
  let id := HashAddress actualAddr in
  SetNetwork (mkDHT (mkNode id actualAddr (LastSeen (self d))) (peers d) (ringOf id (peers d)) (storage d) (listenAddr d) (hasNetwork d)).

Definition addPeers (now : Z) (ps : list string) (d : DHT) : DHT :=
  foldl (fun d peer => if negb (String.eqb peer (nodeAddress (self d))) then AddPeer now peer d else d) d ps.

Definition joinOne (now : Z) (st : DHT * W) (bootstrap : string) : DHT * W :=
  let '(d, w) := st in
  if String.eqb bootstrap (nodeAddress (self d)) then (d, w)
  else
    let '(r, w) := sendMessage bootstrap (mkMessage MsgJoin (nodeAddress (self d)) None) w in
    match r with
    | Err _ => (d, w)
    | Ok resp =>
        if String.eqb (Type_ resp) MsgPeerList then
          match asPeers "peers" (Payload resp) with
          | None => (d, w)
          | Some ps => (AddPeer now bootstrap (addPeers now ps d), w)
          end
        else (AddPeer now bootstrap d, w)
    end.

Definition joinNetwork (now : Z) (bootstraps : list string) (st : DHT * W) : DHT * W := foldl (joinOne now) st bootstraps.

(** One tick of [peerDiscoveryLoop] *)
Definition discoverOne (now : Z) (st : DHT * W) (bootstrap : string) : DHT * W :=
  let '(d, w) := st in
  if String.eqb bootstrap (nodeAddress (self d)) then (d, w)
  else
    let '(r, w) := sendMessage bootstrap (mkMessage MsgJoin (nodeAddress (self d)) None) w in
    match r with
    | Err _ => (d, w)
    | Ok resp =>
        if String.eqb (Type_ resp) MsgPeerList then
          match asPeers "peers" (Payload resp) with None => (d, w) | Some ps => (addPeers now ps d, w) end
        else (d, w)
    end.

Definition peerDiscovery (now : Z) (bootstraps : list string) (st : DHT * W) : DHT * W := foldl (discoverOne now) st bootstraps.

Definition pingPeer (addr : string) (d : DHT) (w : W) : DHT * W :=
  let '(r, w) := sendMessage addr (mkMessage MsgPing (nodeAddress (self d)) None) w in
  (match r with Err _ => RemovePeer (HashAddress addr) d | Ok _ => d end, w).

(** The synchronous part of one tick of [maintenanceLoop]; the pings it
    spawns are calls of [pingPeer]. *)
Definition maintenance (now : Z) (order : list (string * list ServiceRegistration))
    (order' : DHT -> list (string * list ServiceRegistration)) (d : DHT) : Z * DHT :=
  let '(expired, d) := CleanupExpiredRegistrations now ServiceHeartbeatTimeout order d in
  let '(removed, d) := CleanupStaleData (order' d) d in
  (expired + removed, d).

(** ** Storing *)

Definition getFarthestDistance (taskHash : NodeID) (attempted : gset string) : Z :=
  match (fun addr => Distance taskHash (HashAddress addr)) <$> elements attempted with
  | [] => Z.shiftl 1 256
  | x :: xs => foldl (fun farthest dist => if farthest <? dist then dist else farthest) x xs
  end.

(** The suggestions of a NOT_RESPONSIBLE reply: all become peers, the closer
    ones not tried yet are queued. *)
Definition takeSuggestion (now : Z) (taskHash : NodeID) (attempted : gset string) (farthest : Z)
    (st : DHT * list string) (newAddr : string) : DHT * list string :=
  let '(d, queue) := st in
  let d := AddPeer now newAddr d in
  if bool_decide (newAddr ∈ attempted) then (d, queue)
  else if Distance taskHash (HashAddress newAddr) <? farthest then (d, queue ++ [newAddr]) else (d, queue).

Record StoreRun := mkRun {
  queue : list string; attempted : gset string; successCount : Z; lastErr : option string; node : DHT; world : W }.

(** One turn of the loop, for the head of the queue *)
Definition storeTurn (now : Z) (task address addr : string) (r : StoreRun) : StoreRun :=
  if bool_decide (addr ∈ attempted r) then r
  else
    let attempted := {[addr]} ∪ attempted r in
    if String.eqb addr (nodeAddress (self (node r))) then
      mkRun (queue r) attempted (successCount r + 1) (lastErr r) (StoreTask now task address (node r)) (world r)
    else
      let '(resp, w) := sendMessage addr (mkMessage MsgStore (nodeAddress (self (node r))) (Some (storePayload task address))) (world r) in
      match resp with
      | Err e => mkRun (queue r) attempted (successCount r) (Some e) (node r) w
      | Ok resp =>
          if String.eqb (Type_ resp) MsgOK then mkRun (queue r) attempted (successCount r + 1) (lastErr r) (node r) w
          else if String.eqb (Type_ resp) MsgNotResponsible then
            match asPeers "closest" (Payload resp) with
            | None => mkRun (queue r) attempted (successCount r) (lastErr r) (node r) w
            | Some closest =>
                let farthest := getFarthestDistance (HashTask task) attempted in
                let '(d, q) := foldl (takeSuggestion now (HashTask task) attempted farthest) (node r, queue r) closest in
                mkRun q attempted (successCount r) (lastErr r) d w
            end
          else mkRun (queue r) attempted (successCount r) (lastErr r) (node r) w
      end.

Fixpoint storeLoop (fuel : nat) (now : Z) (task address : string) (r : StoreRun) : option StoreRun :=
  match fuel with
  | O => None
  | S fuel =>
      match queue r with
      | [] => Some r
      | addr :: q =>
          storeLoop fuel now task address
            (storeTurn now task address addr (mkRun q (attempted r) (successCount r) (lastErr r) (node r) (world r)))
      end
  end.

Definition startRun (task : string) (d : DHT) (w : W) : StoreRun :=
  mkRun (nodeAddresses (FindKClosestNodes task ReplicationFactor d)) ∅ 0 None d w.

Definition storeResult (r : StoreRun) : result string unit :=
  if successCount r =? 0 then
    match lastErr r with
    | Some e => Err ("failed to store on any node: " ++ e)%string
    | None => Err "failed to store on any node: no replicas succeeded"%string
    end
  else Ok tt.

Definition Store (fuel : nat) (now : Z) (task address : string) (d : DHT) (w : W) : option (result string unit * DHT * W) :=
  r ← storeLoop fuel now task address (startRun task d w);
  Some (storeResult r, node r, world r).

(** ** Finding *)

(** The local check, then the peers in order; [None] for a nil node *)
Fixpoint findLocal (now : Z) (task : string) (nodes : list (option Node)) (d : DHT) (w : W) : option (list string * W) :=
  match nodes with
  | [] => Some ([], w)
  | None :: _ => None
  | Some n :: nodes =>
      if nodeID n =? nodeID (self d) then lookup_task now task d w else findLocal now task nodes d w
  end.

Fixpoint findRemote (task : string) (nodes : list (option Node)) (d : DHT) (w : W) : option (list string * W) :=
  match nodes with
  | [] => Some ([], w)
  | None :: _ => None
  | Some n :: nodes =>
      if nodeID n =? nodeID (self d) then findRemote task nodes d w
      else
        let '(r, w) := sendMessage (nodeAddress n) (mkMessage MsgFind (nodeAddress (self d)) (Some (findPayload task))) w in
        match r with
        | Err _ => findRemote task nodes d w
        | Ok resp =>
            if String.eqb (Type_ resp) MsgFoundData then
              match asFoundPayload (Payload resp) with
              | None => findRemote task nodes d w
              | Some [] => findRemote task nodes d w
              | Some addrs => Some (addrs, w)
              end
            else findRemote task nodes d w
        end
  end.

Definition Find (now : Z) (task : string) (d : DHT) (w : W) : option (list string * W) :=
  let kClosest := FindKClosestNodes task ReplicationFactor d in
  match findLocal now task kClosest d w with
  | None => None
  | Some ([], w) => findRemote task kClosest d w
  | Some (addrs, w) => Some (addrs, w)
  end.

End Net.
