(* ===== verification/DHTNetFacts.v ===== *)
(** * The DHT protocol: invariants and termination

    Facts about DHTNet.v over any network: messages survive the wire, every
    reachable node is well formed and never meets a nil node, a FIND is
    answered without asking anyone else, and the store loop ends. *)

From Stdlib Require Import Ascii String.
From S2P Require Import Prelude.
From stdpp Require Import list sorting.
From S2P Require Import GoStrings NetIP GoJSON Sha256 Ring RingFacts DHTNet.
Local Open Scope Z_scope.

#[local] Arguments String.append : simpl nomatch.
#[local] Opaque Sum256 HashAddress HashTask.

(** ** Messages on the wire *)

Definition strings_utf8 (l : list string) : Prop := Forall (fun a => valid_utf8 a = true) l.

Lemma asStore_store task address : asStorePayload (Some (storePayload task address)) = Some (task, address).
Proof. unfold asStorePayload, storePayload. cbn [struct_fields mbind option_bind]. fields. reflexivity. Qed.

Lemma asFind_find task : asFindPayload (Some (findPayload task)) = Some task.
Proof. unfold asFindPayload, findPayload. cbn [struct_fields mbind option_bind]. fields. reflexivity. Qed.

Lemma asFound_found task addrs : strings_utf8 addrs -> asFoundPayload (Some (foundPayload task addrs)) = Some addrs.
Proof.
  intros Hu. destruct (strings_json_ok _ Hu) as (_ & _ & Hs). unfold asFoundPayload, foundPayload.
  cbn [struct_fields mbind option_bind]. fields. rewrite Hs. reflexivity.
Qed.

Lemma asPeers_closest addrs : strings_utf8 addrs -> asPeers "closest" (Some (notResponsiblePayload addrs)) = Some addrs.
Proof.
  intros Hu. destruct (strings_json_ok _ Hu) as (_ & _ & Hs). unfold asPeers, notResponsiblePayload.
  cbn [struct_fields mbind option_bind]. fields. rewrite Hs. reflexivity.
Qed.

Lemma asPeers_peers addrs : strings_utf8 addrs -> asPeers "peers" (Some (peerListPayload addrs)) = Some addrs.
Proof.
  intros Hu. destruct (strings_json_ok _ Hu) as (_ & _ & Hs). unfold asPeers, peerListPayload.
  cbn [struct_fields mbind option_bind]. fields. rewrite Hs. reflexivity.
Qed.

Definition payload_ok (p : option json) : Prop :=
  match p with None => True | Some j => json_ok j /\ (jdepth j < max_depth)%N end.
Definition message_ok (m : Message) : Prop :=
  valid_utf8 (Type_ m) = true /\ valid_utf8 (Sender m) = true /\ payload_ok (Payload m).

Lemma dht_message_of_to m : message_of_json (message_json m) = Some m.
Proof.
  destruct m as [t s p]. unfold message_of_json, message_json. cbn [struct_fields mbind option_bind Type_ Sender Payload].
  destruct p as [j|]; cbn [app]; fields; reflexivity.
Qed.

Lemma dht_message_json_ok m : message_ok m -> json_ok (message_json m) /\ (jdepth (message_json m) <= max_depth)%N.
Proof.
  intros (H1 & H2 & H3). unfold message_json. destruct m as [t s [j|]]; cbn [Type_ Sender Payload] in *.
  - destruct H3 as [H3 H4]. split; [cbn [app json_ok fold_right fst snd]; by split_and!|].
    cbn [app jdepth fold_right fst snd]. lia.
  - split; [cbn [app json_ok fold_right fst snd]; by split_and!|done].
Qed.

Lemma decode_encode m : message_ok m -> DecodeMessage (EncodeMessage m) = Some m.
Proof.
  intros Hm. destruct (dht_message_json_ok m Hm) as [Hok Hd]. unfold DecodeMessage, EncodeMessage.
  destruct (json_roundtrip (message_json m) (String (chr 10) "") Hok Hd) as [_ ->]; [by do 3 right|]. apply dht_message_of_to.
Qed.

Lemma store_payload_ok task address : valid_utf8 task = true -> valid_utf8 address = true -> payload_ok (Some (storePayload task address)).
Proof. intros. split; [cbn; by split_and!|vm_compute; done]. Qed.
Lemma find_payload_ok task : valid_utf8 task = true -> payload_ok (Some (findPayload task)).
Proof. intros. split; [cbn; by split_and!|vm_compute; done]. Qed.

Lemma list_payload_ok name pre addrs : strings_utf8 addrs ->
  valid_utf8 name = true -> json_ok (JObj pre) -> (jdepth (JObj pre) <= 1)%N ->
  payload_ok (Some (JObj (pre ++ [(name, JArr (JStr <$> addrs))]))).
Proof.
  intros Hu Hn Hp Hd. destruct (strings_json_ok _ Hu) as (L1 & L2 & _).
  assert (forall fs, json_ok (JObj fs) -> json_ok (JObj (fs ++ [(name, JArr (JStr <$> addrs))]))) as H1.
  { intros fs. cbn [json_ok]. induction fs as [|kv fs IH]; cbn [app fold_right fst snd json_ok].
    - intros _. split; [split; [done|exact L1]|exact I].
    - intros (Hk & Hr). split; [exact Hk|]. by apply IH. }
  assert (forall fs, (jdepth (JObj fs) <= 1)%N -> (jdepth (JObj (fs ++ [(name, JArr (JStr <$> addrs))])) <= 2)%N) as H2.
  { intros fs. cbn [jdepth]. induction fs as [|kv fs IH]; cbn [app fold_right fst snd jdepth]; [rewrite L2; lia|lia]. }
  split; [by apply H1|]. specialize (H2 _ Hd). unfold max_depth. lia.
Qed.

Lemma found_payload_ok task addrs : valid_utf8 task = true -> strings_utf8 addrs -> payload_ok (Some (foundPayload task addrs)).
Proof. intros Ht Hu. apply (list_payload_ok "addresses" [("task"%string, JStr task)]); [done|done|cbn; by split_and!|done]. Qed.
Lemma closest_payload_ok addrs : strings_utf8 addrs -> payload_ok (Some (notResponsiblePayload addrs)).
Proof. intros Hu. by apply (list_payload_ok "closest" []). Qed.
Lemma peers_payload_ok addrs : strings_utf8 addrs -> payload_ok (Some (peerListPayload addrs)).
Proof. intros Hu. by apply (list_payload_ok "peers" []). Qed.

(** DHT messages survive the wire.  A message with valid UTF-8 fields is
    decoded from its encoded form with its payload, and each payload is read
    back as what was put in: the task and address of a STORE, the task of a
    FIND, the addresses of FOUND, NOT_RESPONSIBLE and PEERLIST. *)
Theorem dht_message_roundtrip t s task address addrs :
  strings_utf8 [t; s; task; address]%string -> strings_utf8 addrs ->
  let back p := Payload <$> DecodeMessage (EncodeMessage (mkMessage t s (Some p))) in
  DecodeMessage (EncodeMessage (mkMessage t s None)) = Some (mkMessage t s None) /\
  back (storePayload task address) ≫= asStorePayload = Some (task, address) /\
  back (findPayload task) ≫= asFindPayload = Some task /\
  back (foundPayload task addrs) ≫= asFoundPayload = Some addrs /\
  back (notResponsiblePayload addrs) ≫= asPeers "closest" = Some addrs /\
  back (peerListPayload addrs) ≫= asPeers "peers" = Some addrs.
Proof.
  intros Hs Hu back. unfold strings_utf8 in Hs. rewrite !Forall_cons in Hs. destruct Hs as (H1 & H2 & H3 & H4 & _).
  assert (Hb : forall p, payload_ok (Some p) -> back p = Some (Some p)) by (intros p Hp; unfold back; by rewrite decode_encode).
  rewrite !Hb; [|by apply peers_payload_ok|by apply closest_payload_ok|by apply found_payload_ok|by apply find_payload_ok|by apply store_payload_ok].
  split_and!; [by apply decode_encode|apply asStore_store|apply asFind_find|by apply asFound_found|by apply asPeers_closest|by apply asPeers_peers].
Qed.

Lemma dht_message_roundtrip_witness :
  DecodeMessage (EncodeMessage (mkMessage MsgPing "10.0.0.1:6000" None)) = Some (mkMessage MsgPing "10.0.0.1:6000" None).
Proof.
  destruct (dht_message_roundtrip MsgPing "10.0.0.1:6000" "t" "a:1" ["x"; "y"]%string) as [H _].
  - repeat constructor.
  - repeat constructor.
  - exact H.
Defined.

(** ** The invariant of a node *)

Definition node_ok (d : DHT) : Prop := dht_wf d /\ storage_ok (storage d).

Create HintDb dht.
#[export] Hint Resolve AddPeer_wf RemovePeer_wf StoreTask_wf set_storage_wf StoreTask_ok : dht.

Lemma AddPeer_storage now addr d : storage (AddPeer now addr d) = storage d /\ self (AddPeer now addr d) = self d.
Proof. unfold AddPeer. by destruct (peers d !! _). Qed.

Lemma AddPeer_ok now addr d : node_ok d -> node_ok (AddPeer now addr d).
Proof. intros [H1 H2]. split; [by auto with dht|]. by rewrite (proj1 (AddPeer_storage now addr d)). Qed.

Lemma RemovePeer_ok id d : node_ok d -> node_ok (RemovePeer id d).
Proof. intros [H1 H2]. split; [by auto with dht|done]. Qed.

Lemma store_ok now task addr d : node_ok d -> node_ok (StoreTask now task addr d).
Proof. intros [H1 H2]. split; by auto with dht. Qed.

#[export] Hint Resolve AddPeer_ok RemovePeer_ok store_ok : dht.

Lemma addSender_ok now msg d : node_ok d -> node_ok (addSender now msg d).
Proof. intros Hd. unfold addSender. destruct (_ && _); auto with dht. Qed.

Lemma addPeers_ok now ps d : node_ok d -> node_ok (addPeers now ps d).
Proof.
  unfold addPeers. revert d. induction ps as [|p ps IH]; intros d Hd; [done|]. simpl. apply IH. destruct (negb _); auto with dht.
Qed.

#[export] Hint Resolve addSender_ok addPeers_ok : dht.

Lemma Start_ok bound d : node_ok d -> node_ok (Start bound d).
Proof. intros [[H1 H2 H3] Hs]. split; [|done]. by split. Qed.

Lemma stale_ok `{DHTConfig} order d : order ≡ₚ map_to_list (storage d) -> node_ok d -> node_ok (CleanupStaleData order d).2.
Proof.
  intros Ho [H1 H2]. unfold CleanupStaleData. pose proof (stale_fold d order 0 (storage d)) as Hf. cbv zeta in Hf.
  destruct (foldl _ _ order) as [removed s']. destruct Hf as [Hf _].
  { rewrite Ho. apply NoDup_fst_map_to_list. }
  { intros t es Hin. rewrite Ho in Hin. apply elem_of_map_to_list in Hin. eauto. }
  split; [by apply set_storage_wf|]. cbn [snd set_storage storage]. intros t es Ht. rewrite Hf in Ht.
  destruct (_ && _); [done|]. by apply (H2 t).
Qed.

Lemma kept_sublist now timeout es : srAddress <$> kept now timeout es `sublist_of` srAddress <$> es.
Proof. apply fmap_sublist. unfold kept. induction es as [|e es IH]; [done|]. simpl. destruct (_ <? _); by constructor. Qed.

Lemma expired_ok now timeout order d : order ≡ₚ map_to_list (storage d) -> node_ok d ->
  node_ok (CleanupExpiredRegistrations now timeout order d).2.
Proof.
  intros Ho [H1 H2]. unfold CleanupExpiredRegistrations. destruct (timeout <=? 0); [done|].
  pose proof (expired_fold now timeout order 0 (storage d)) as Hf. cbv zeta in Hf.
  destruct (foldl _ _ order) as [removed s']. destruct Hf as [Hf _].
  { rewrite Ho. apply NoDup_fst_map_to_list. }
  { intros t es Hin. rewrite Ho in Hin. by apply elem_of_map_to_list in Hin. }
  split; [by apply set_storage_wf|]. cbn [snd set_storage storage]. intros t es Ht. rewrite Hf in Ht.
  destruct (bool_decide _); [|by apply (H2 t)]. apply bind_Some in Ht as (es0 & Hes0 & Hk).
  destruct (kept now timeout es0) as [|e k] eqn:Ek; [done|]. injection Hk as <-. split; [|done].
  rewrite <- Ek. eapply sublist_NoDup; [|apply kept_sublist]. by apply (H2 t).
Qed.

Section NetFacts.
Context `{DHTConfig} {W : Type} `{PeerNet W}.
Variable decode_error : string -> string.

Notation handleMessage := (handleMessage decode_error).
Notation lookup_task := (lookup_task decode_error).

(** A node that is among the k closest looks a task up in its own storage. *)
Lemma lookup_local now task d (w : W) : dht_wf d -> amIInKClosestLocked task ReplicationFactor d = true ->
  lookup_task now task d w = Some (activeAddresses (default [] (storage d !! task)) now ServiceHeartbeatTimeout, w).
Proof.
  intros Hd Hin. unfold lookup_task, LookupTask. destruct (activeAddresses _ _ _) as [|a l]; [|done].
  rewrite FindK_locked, FindK_ids by done. rewrite containsID_ids; [|done|].
  - rewrite <- locked_ids, Hin by done. done.
  - intros x Hx%take_elem. by rewrite closestIDs_perm in Hx.
Qed.

Lemma responsible d task : dht_wf d ->
  (if (GetRingSize d <=? ReplicationFactor)%nat then Some true else AmIInKClosest task ReplicationFactor d)
  = Some (amIInKClosestLocked task ReplicationFactor d).
Proof.
  intros Hd. rewrite AmI_ids, locked_ids by done. unfold GetRingSize. destruct (Nat.leb_spec (length (ring d)) ReplicationFactor); [|done].
  f_equal. symmetry. apply bool_decide_eq_true. rewrite take_ge by (by rewrite closestIDs_perm).
  rewrite closestIDs_perm, (wf_ring _ Hd). apply elem_of_ringOf. auto.
Qed.

Lemma handleStore_spec now msg d : dht_wf d ->
  handleStore now msg d = Some
    (match asStorePayload (Payload msg) with
     | None => (None, d)
     | Some (task, address) =>
         if amIInKClosestLocked task ReplicationFactor d
         then (Some (mkMessage MsgOK (nodeAddress (self d)) None), StoreTask now task address d)
         else (Some (mkMessage MsgNotResponsible (nodeAddress (self d))
                 (Some (notResponsiblePayload (nodeAddresses (FindKClosestNodes task ReplicationFactor d))))), d)
     end).
Proof.
  intros Hd. unfold handleStore. destruct (asStorePayload (Payload msg)) as [[task address]|]; [|done].
  pose proof (responsible d task Hd) as Hr. destruct (GetRingSize d <=? ReplicationFactor)%nat.
  - injection Hr as <-. done.
  - rewrite Hr. by destruct (amIInKClosestLocked task ReplicationFactor d).
Qed.

Lemma handleFind_spec now msg d (w : W) : dht_wf d ->
  handleFind decode_error now msg d w = Some
    (match asFindPayload (Payload msg) with
     | None => None
     | Some task =>
         let reply t p := Some (mkMessage t (nodeAddress (self d)) p) in
         if amIInKClosestLocked task ReplicationFactor d then
           match activeAddresses (default [] (storage d !! task)) now ServiceHeartbeatTimeout with
           | [] => reply MsgNotFound None
           | addrs => reply MsgFoundData (Some (foundPayload task addrs))
           end
         else reply MsgNotFound None
     end, w).
Proof.
  intros Hd. unfold handleFind. destruct (asFindPayload (Payload msg)) as [task|]; [|done]. rewrite responsible by done.
  destruct (amIInKClosestLocked task ReplicationFactor d) eqn:E; [|done]. rewrite lookup_local by done.
  by destruct (activeAddresses _ _ _).
Qed.

Lemma handleMessage_total now msg d (w : W) : node_ok d ->
  exists r d', handleMessage now msg d w = Some (r, d', w) /\ node_ok d'.
Proof.
  intros Hd. pose proof (addSender_ok now msg d Hd) as Hd1. unfold handleMessage.
  repeat (destruct (String.eqb _ _); [|]).
  - eauto.
  - eauto.
  - rewrite handleStore_spec by apply Hd1. destruct (asStorePayload (Payload msg)) as [[task address]|]; [|eauto].
    destruct (amIInKClosestLocked _ _ _); eauto with dht.
  - rewrite handleFind_spec by apply Hd1. eauto.
  - eauto.
Qed.

Lemma joinOne_ok now st b : node_ok st.1 -> node_ok (joinOne decode_error now st b).1.
Proof.
  destruct st as [d w]. intros Hd. cbn [fst] in Hd. unfold joinOne. destruct (String.eqb _ _); [done|].
  destruct (sendMessage _ _ _ _) as [[resp|e] w']; [|done]. destruct (String.eqb _ _); [|cbn [fst]; by auto with dht].
  destruct (asPeers _ _); [|done]. cbn [fst]. by auto with dht.
Qed.

Lemma discoverOne_ok now st b : node_ok st.1 -> node_ok (discoverOne decode_error now st b).1.
Proof.
  destruct st as [d w]. intros Hd. cbn [fst] in Hd. unfold discoverOne. destruct (String.eqb _ _); [done|].
  destruct (sendMessage _ _ _ _) as [[resp|e] w']; [|done]. destruct (String.eqb _ _); [|done].
  destruct (asPeers _ _); [|done]. by apply addPeers_ok.
Qed.

Lemma foldl_ok {B} (f : DHT * W -> B -> DHT * W) bs st :
  (forall st b, node_ok st.1 -> node_ok (f st b).1) -> node_ok st.1 -> node_ok (foldl f st bs).1.
Proof. intros Hf. revert st. induction bs as [|b bs IH]; intros st Hst; [done|]. simpl. auto. Qed.

Lemma pingPeer_ok addr d w : node_ok d -> node_ok (pingPeer decode_error addr d w).1.
Proof. intros Hd. unfold pingPeer. destruct (sendMessage _ _ _ _) as [[resp|e] w']; [done|]. by apply RemovePeer_ok. Qed.

Lemma suggestions_ok now t att far ps st : node_ok st.1 -> node_ok (foldl (takeSuggestion now t att far) st ps).1.
Proof.
  revert st. induction ps as [|p ps IH]; intros [d q] Hd; [done|]. simpl. apply IH. cbn [fst] in Hd.
  destruct (bool_decide _); [cbn [fst]; by auto with dht|]. destruct (_ <? _); cbn [fst]; by auto with dht.
Qed.

Lemma storeTurn_ok now task address addr r : node_ok (node r) -> node_ok (node (storeTurn decode_error now task address addr r)).
Proof.
  intros Hd. unfold storeTurn. destruct (bool_decide _); [done|]. destruct (String.eqb _ _); [by apply store_ok|].
  destruct (sendMessage _ _ _ _) as [[resp|e] w']; [|done]. destruct (String.eqb _ _); [done|]. destruct (String.eqb _ _); [|done].
  destruct (asPeers _ _) as [closest|]; [|done].
  pose proof (suggestions_ok now (HashTask task) ({[addr]} ∪ attempted r)
    (getFarthestDistance (HashTask task) ({[addr]} ∪ attempted r)) closest (node r, queue r) Hd) as Hs.
  by destruct (foldl _ _ closest).
Qed.

Lemma storeLoop_ok fuel now task address r r' : node_ok (node r) ->
  storeLoop decode_error fuel now task address r = Some r' -> node_ok (node r').
Proof.
  revert r. induction fuel as [|fuel IH]; intros r Hd; [done|]. cbn [storeLoop]. destruct (queue r) as [|addr q]; [by intros [= <-]|].
  apply IH. by apply storeTurn_ok.
Qed.

(** ** Reachable nodes

    Everything that changes a node: a message handled, a join or a discovery
    tick, a ping, a maintenance tick, a store, the start.  The network is in
    an arbitrary state each time. *)
Inductive node_step : DHT -> DHT -> Prop :=
| ns_message now msg d w r d' w' : handleMessage now msg d w = Some (r, d', w') -> node_step d d'
| ns_join now bs d w : node_step d (joinNetwork decode_error now bs (d, w)).1
| ns_discover now bs d w : node_step d (peerDiscovery decode_error now bs (d, w)).1
| ns_ping addr d w : node_step d (pingPeer decode_error addr d w).1
| ns_maintain now order order' d : order ≡ₚ map_to_list (storage d) -> (forall d, order' d ≡ₚ map_to_list (storage d)) ->
    node_step d (maintenance now order order' d).2
| ns_store fuel now task address d w r d' w' : Store decode_error fuel now task address d w = Some (r, d', w') -> node_step d d'
| ns_start bound d : node_step d (Start bound d).

Lemma node_step_ok d d' : node_step d d' -> node_ok d -> node_ok d'.
Proof.
  intros Hs Hd. destruct Hs as [now msg d w r d' w' E|now bs d w|now bs d w|addr d w|now order order' d Ho Ho'|fuel now task address d w r d' w' E|bound d].
  - destruct (handleMessage_total now msg d w Hd) as (r1 & d1 & E1 & H1). rewrite E in E1. by injection E1 as _ -> _.
  - apply foldl_ok; [|done]. intros st b. apply joinOne_ok.
  - apply foldl_ok; [|done]. intros st b. apply discoverOne_ok.
  - by apply pingPeer_ok.
  - unfold maintenance. pose proof (expired_ok now ServiceHeartbeatTimeout order d Ho Hd) as H1.
    destruct (CleanupExpiredRegistrations _ _ _ _) as [e d1]. pose proof (stale_ok (order' d1) d1 (Ho' d1) H1) as H2.
    by destruct (CleanupStaleData _ _).
  - unfold Store in E. apply bind_Some in E as (r1 & E & [= _ <- _]). by eapply storeLoop_ok; [|exact E].
  - by apply Start_ok.
Qed.

Lemma findLocal_total now task ids d (w : W) : dht_wf d -> (forall x, x ∈ ids -> x ∈ ring d) ->
  (nodeID (self d) ∈ ids -> amIInKClosestLocked task ReplicationFactor d = true) ->
  findLocal decode_error now task (nodeOf d <$> ids) d w =
  Some (if bool_decide (nodeID (self d) ∈ ids)
        then activeAddresses (default [] (storage d !! task)) now ServiceHeartbeatTimeout else [], w).
Proof.
  intros Hd Hin Hk. induction ids as [|x ids IH]; [done|]. rewrite fmap_cons.
  destruct (nodeOf_ring d x Hd) as (n & -> & Hn); [apply Hin; left|]. cbn [findLocal]. rewrite Hn.
  destruct (Z.eqb_spec x (nodeID (self d))) as [->|Hne].
  - rewrite bool_decide_eq_true_2 by left. apply lookup_local; [done|]. apply Hk. left.
  - rewrite IH; [|intros; apply Hin; by right|intros; apply Hk; by right]. f_equal. f_equal.
    by rewrite (bool_decide_ext (nodeID (self d) ∈ x :: ids) (nodeID (self d) ∈ ids)) by (rewrite elem_of_cons; split; [by intros [?|?]|auto]).
Qed.

Lemma findRemote_total task ids d (w : W) : dht_wf d -> (forall x, x ∈ ids -> x ∈ ring d) ->
  is_Some (findRemote decode_error task (nodeOf d <$> ids) d w).
Proof.
  intros Hd. revert w. induction ids as [|x ids IH]; intros w Hin; [simpl; eauto|]. rewrite fmap_cons.
  destruct (nodeOf_ring d x Hd) as (n & -> & Hn); [apply Hin; left|]. cbn [findRemote].
  assert (Hin' : forall y, y ∈ ids -> y ∈ ring d) by (intros; apply Hin; by right).
  destruct (nodeID n =? _); [by apply IH|]. destruct (sendMessage _ _ _ _) as [[resp|e] w']; [|by apply IH].
  destruct (String.eqb _ _); [|by apply IH]. destruct (asFoundPayload _) as [[|a l]|]; eauto.
Qed.

(** C35: a reachable node never dereferences nil.  From a fresh node, through
    any calls and messages and whatever the network does, the node stays well
    formed: every message is handled, without the handler asking the network
    anything, and every find and every responsibility check returns. *)
Theorem node_never_panics t0 addr d : rtc node_step (NewDHT t0 addr) d ->
  node_ok d /\
  (forall now msg w, exists r d', handleMessage now msg d w = Some (r, d', w)) /\
  (forall now task w, is_Some (Find decode_error now task d w)) /\
  (forall task k, is_Some (AmIInKClosest task k d) /\ is_Some (FindClosestNode task d)).
Proof.
  intros Hr. assert (Hd : node_ok d).
  { revert Hr. apply (rtc_ind_r node_ok); [|intros d1 d2 _ Hs Hd; by apply (node_step_ok d1)].
    split; [apply NewDHT_wf|apply map_Forall_empty]. }
  assert (Hin : forall task k x, x ∈ take k (closestIDs (HashTask task) (ring d)) -> x ∈ ring d).
  { intros task k x Hx%take_elem. by rewrite closestIDs_perm in Hx. }
  split; [done|]. split_and!.
  - intros now msg w. destruct (handleMessage_total now msg d w Hd) as (r & d' & E & _). eauto.
  - intros now task w. unfold Find. rewrite FindK_ids by apply Hd. rewrite findLocal_total; [|apply Hd|by apply Hin|].
    + destruct (if bool_decide _ then _ else _); [|eauto]. apply findRemote_total; [apply Hd|by apply Hin].
    + intros Hk. rewrite locked_ids by apply Hd. by apply bool_decide_eq_true.
  - intros task k. split; [rewrite AmI_ids by apply Hd; eauto|].
    pose proof (ring_nonempty d (proj1 Hd)) as Hne.
    assert (Hs : StronglySorted id_le (ring d)) by (rewrite (wf_ring _ (proj1 Hd)); apply ringOf_sorted).
    destruct (successor_closest (HashTask task) (ring d) (HashTask_id task) (ring_ids d (proj1 Hd)) Hne Hs) as [Hc _].
    destruct (nodeOf_ring d _ (proj1 Hd) Hc) as (n & En & _). unfold FindClosestNode.
    destruct (Nat.eqb_spec (length (ring d)) 0); [eauto|]. unfold nodeOf in En. eauto.
Qed.

(** ** The store loop ends *)

Lemma suggestions_frame now t att far ps st :
  let st' := foldl (takeSuggestion now t att far) st ps in
  self st'.1 = self st.1 /\ storage st'.1 = storage st.1 /\
  exists more, st'.2 = st.2 ++ more /\ forall x, x ∈ more -> x ∈ ps /\ x ∉ att.
Proof.
  revert st. induction ps as [|p ps IH]; intros [d q]; [|].
  { split; [done|split; [done|]]. exists []. rewrite app_nil_r. split; [done|by intros x ?%elem_of_nil]. }
  cbv zeta in *. cbn [foldl]. unfold takeSuggestion at 2 4 6. destruct (AddPeer_storage now p d) as [A1 A2].
  destruct (bool_decide (p ∈ att)) eqn:Ep; [|apply bool_decide_eq_false in Ep; destruct (_ <? _)];
    match goal with |- context [foldl _ ?s ps] => destruct (IH s) as (I1 & I2 & more & I3 & I4) end; cbn [fst snd] in *;
    rewrite I1, I2, A1, A2, I3; (split; [done|split; [done|]]).
  - exists more. split; [done|]. intros x Hx. destruct (I4 x Hx). split; [by right|done].
  - exists (p :: more). rewrite <- app_assoc. split; [done|]. intros x [->|Hx]%elem_of_cons; [split; [left|done]|].
    destruct (I4 x Hx). split; [by right|done].
  - exists more. split; [done|]. intros x Hx. destruct (I4 x Hx). split; [by right|done].
Qed.

(** What a turn does to the run, whatever the peer answers. *)
Lemma storeTurn_frame now task address addr r :
  let r' := storeTurn decode_error now task address addr r in
  (addr ∈ attempted r /\ r' = r) \/
  (addr ∉ attempted r /\ attempted r' = {[addr]} ∪ attempted r /\ self (node r') = self (node r) /\
   (exists more, queue r' = queue r ++ more /\ forall x, x ∈ more ->
      exists msg resp w closest, (sendMessage decode_error addr msg (world r)) = (Ok resp, w) /\
        asPeers "closest" (Payload resp) = Some closest /\ x ∈ closest) /\
   (if String.eqb addr (nodeAddress (self (node r)))
    then successCount r' = successCount r + 1 /\ node r' = StoreTask now task address (node r)
    else successCount r <= successCount r' /\ storage (node r') = storage (node r))).
Proof.
  unfold storeTurn. destruct (bool_decide (addr ∈ attempted r)) eqn:Ea; [left; split; [by apply bool_decide_eq_true in Ea|done]|].
  right. apply bool_decide_eq_false in Ea. split; [done|].
  assert (Hnil : forall q : list string, exists more, q = q ++ more /\ forall x, x ∈ more ->
      exists msg resp w closest, sendMessage decode_error addr msg (world r) = (Ok resp, w) /\
        asPeers "closest" (Payload resp) = Some closest /\ x ∈ closest).
  { intros q. exists []. rewrite app_nil_r. split; [done|]. by intros x ?%elem_of_nil. }
  destruct (String.eqb addr _).
  { cbn [attempted node queue successCount]. split_and!; try done. unfold StoreTask. by destruct (refresh _ _ _). }
  destruct (sendMessage _ _ _ _) as [[resp|e] w'] eqn:Es; [|cbn; split_and!; try done; lia].
  destruct (String.eqb (Type_ resp) MsgOK); [cbn; split_and!; try done; lia|].
  destruct (String.eqb (Type_ resp) MsgNotResponsible); [|cbn; split_and!; try done; lia].
  destruct (asPeers "closest" (Payload resp)) as [closest|] eqn:Ec; [|cbn; split_and!; try done; lia].
  pose proof (suggestions_frame now (HashTask task) ({[addr]} ∪ attempted r)
    (getFarthestDistance (HashTask task) ({[addr]} ∪ attempted r)) closest (node r, queue r)) as (S1 & S2 & more & S3 & S4).
  destruct (foldl _ _ closest) as [d q]. cbn [fst snd attempted node queue successCount] in *. split_and!; try done.
  exists more. split; [done|]. intros x Hx. destruct (S4 x Hx). do 4 eexists. split; [exact Es|]. done.
Qed.

Lemma storeLoop_ends (U : gset string) now task address :
  (forall addr msg w resp w' closest x, sendMessage decode_error addr msg w = (Ok resp, w') ->
     asPeers "closest" (Payload resp) = Some closest -> x ∈ closest -> x ∈ U) ->
  forall r, (forall x, x ∈ queue r -> x ∈ U) ->
  exists fuel r', forall fuel', (fuel <= fuel')%nat -> storeLoop decode_error fuel' now task address r = Some r'.
Proof.
  intros HU r. remember (size (U ∖ attempted r)) as n eqn:En. revert r En.
  induction n as [n IHn] using lt_wf_ind. intros r. remember (queue r) as q eqn:Eq. revert r Eq.
  induction q as [|addr q IHq]; intros r Eq En Hq.
  { exists 1%nat, r. intros [|fuel'] Hf; [lia|]. cbn [storeLoop]. by rewrite <- Eq. }
  set (r1 := mkRun q (attempted r) (successCount r) (lastErr r) (node r) (world r)).
  assert (Hone : exists fuel r', forall fuel', (fuel <= fuel')%nat ->
    storeLoop decode_error fuel' now task address (storeTurn decode_error now task address addr r1) = Some r').
  { destruct (storeTurn_frame now task address addr r1) as [[Ha ->]|(Ha & Hatt & _ & (more & Hm & Hmore) & _)].
    - apply (IHq r1); [done|done|]. intros x Hx. apply Hq. by right.
    - eapply IHn; [|reflexivity|].
      + rewrite Hatt, En. apply subset_size. cbn [r1 attempted] in *.
        assert (addr ∈ U) by (apply Hq; left). set_solver.
      + intros x. rewrite Hm. intros [Hx|Hx]%elem_of_app; [apply Hq; by right|].
        destruct (Hmore x Hx) as (msg & resp & w & closest & E1 & E2 & E3). by apply (HU addr msg (world r1) resp w closest). }
  destruct Hone as (fuel & r' & Hf). exists (S fuel), r'. intros [|fuel'] Hle; [lia|]. cbn [storeLoop]. rewrite <- Eq.
  apply Hf. lia.
Qed.

(** Until it is popped, the node's own address waits in the queue; then its
    storage holds the registration. *)
Definition own_turn (task address : string) (r : StoreRun (W := W)) : Prop :=
  0 <= successCount r /\
  ((nodeAddress (self (node r)) ∈ queue r /\ nodeAddress (self (node r)) ∉ attempted r) \/
   (0 < successCount r /\ address ∈ srAddress <$> default [] (storage (node r) !! task))).

Lemma StoreTask_holds now task address task' address' d :
  address ∈ srAddress <$> default [] (storage d !! task) \/ (task' = task /\ address' = address) ->
  address ∈ srAddress <$> default [] (storage (StoreTask now task' address' d) !! task).
Proof.
  intros Ha. unfold StoreTask. pose proof (refresh_spec now address' (default [] (storage d !! task'))) as Hr.
  destruct (refresh _ _ _) as [es|]; cbn [set_storage storage]; (destruct (decide (task' = task)) as [->|Hne];
    [rewrite lookup_insert_eq|rewrite lookup_insert_ne by done; destruct Ha as [Ha|[? _]]; done]).
  - destruct Hr as (Hin & E & _). cbn [default from_option id]. rewrite E. destruct Ha as [Ha|[_ ->]]; done.
  - cbn [default from_option id]. rewrite fmap_app, elem_of_app. destruct Ha as [Ha|[_ ->]]; [by left|right; left].
Qed.

Lemma own_turn_step now task address addr q r : queue r = addr :: q -> own_turn task address r ->
  own_turn task address (storeTurn decode_error now task address addr (mkRun q (attempted r) (successCount r) (lastErr r) (node r) (world r))).
Proof.
  intros Eq [Hpos Hr]. set (r1 := mkRun q (attempted r) (successCount r) (lastErr r) (node r) (world r)).
  destruct (storeTurn_frame now task address addr r1) as [[Ha ->]|(Ha & Hatt & Hself & (more & Hm & _) & Hown)].
  - split; [done|]. destruct Hr as [[Hq Hn]|Hr]; [left|by right]. split; [|done]. rewrite Eq in Hq.
    apply elem_of_cons in Hq as [Hx|Hq]; [by rewrite Hx in Hn|exact Hq].
  - unfold own_turn. rewrite Hself, Hm, Hatt. cbn [r1 node queue attempted successCount] in *.
    destruct (String.eqb_spec addr (nodeAddress (self (node r)))) as [Heq|Hne].
    + destruct Hown as [-> ->]. split; [lia|]. right. split; [lia|]. apply StoreTask_holds. auto.
    + destruct Hown as [Hc ->]. split; [lia|]. destruct Hr as [[Hq Hn]|[Hp Hr]]; [left|right; split; [lia|done]].
      rewrite Eq in Hq. apply elem_of_cons in Hq as [?|Hq]; [congruence|]. split; [apply elem_of_app; by left|set_solver].
Qed.

Lemma own_turn_loop fuel now task address r r' : own_turn task address r ->
  storeLoop decode_error fuel now task address r = Some r' -> own_turn task address r' /\ queue r' = [].
Proof.
  revert r. induction fuel as [|fuel IH]; intros r Hr; [done|]. cbn [storeLoop]. destruct (queue r) as [|addr q] eqn:Eq; [by intros [= <-]|].
  apply IH. by apply own_turn_step.
Qed.

(** C34: storing ends.  Whatever the peers answer, if all they ever suggest
    lies in a finite set of addresses the store loop ends after finitely many
    turns, and more fuel changes nothing; and if this node is among the k
    closest, the store succeeds and the address is in its own storage. *)
Theorem store_terminates (U : gset string) now task address d (w : W) :
  (forall addr msg w resp w' closest x, sendMessage decode_error addr msg w = (Ok resp, w') ->
     asPeers "closest" (Payload resp) = Some closest -> x ∈ closest -> x ∈ U) ->
  exists fuel r d' w', (forall fuel', (fuel <= fuel')%nat -> Store decode_error fuel' now task address d w = Some (r, d', w')) /\
    (dht_wf d -> amIInKClosestLocked task ReplicationFactor d = true ->
       r = Ok tt /\ address ∈ srAddress <$> default [] (storage d' !! task)).
Proof.
  intros HU. set (r0 := startRun task d w).
  destruct (storeLoop_ends (U ∪ list_to_set (queue r0)) now task address) with (r := r0) as (fuel & r' & Hf).
  { intros addr msg w0 resp w1 closest x H1 H2 H3. apply elem_of_union_l. by apply (HU addr msg w0 resp w1 closest). }
  { intros x Hx. apply elem_of_union_r. by apply elem_of_list_to_set. }
  exists fuel, (storeResult r'), (node r'), (world r'). split.
  - intros fuel' Hle. unfold Store. fold r0. by rewrite (Hf fuel' Hle).
  - intros Hd Hk. assert (Hown : own_turn task address r0).
    { split; [done|]. left. split; [|apply not_elem_of_empty]. cbn [r0 startRun queue node nodeAddresses].
      rewrite locked_ids in Hk by done. apply bool_decide_eq_true in Hk. unfold nodeAddresses. rewrite FindK_ids by done.
      apply list_elem_of_fmap. exists (self d). split; [done|]. apply list_elem_of_omap. exists (Some (self d)). split; [|done].
      apply list_elem_of_fmap. exists (nodeID (self d)). split; [|done]. unfold nodeOf. by rewrite Z.eqb_refl. }
    destruct (own_turn_loop _ _ _ _ _ _ Hown (Hf fuel (le_n _))) as [[_ [[Hq _]|[Hs Ha]]] Hnil].
    + rewrite Hnil in Hq. by apply elem_of_nil in Hq.
    + split; [|done]. unfold storeResult. destruct (Z.eqb_spec (successCount r') 0); [lia|done].
Qed.

End NetFacts.

(** A network where every dial fails, for the witnesses *)
#[local] Existing Instance default_config.
#[export] Instance silent : PeerNet unit := fun _ _ w => (Err "dial: connection refused"%string, w).
Definition no_text (s : string) : string := "EOF".

Lemma node_never_panics_witness :
  is_Some (Find no_text 5 "t" (joinNetwork no_text 1 ["10.0.0.2:6000"]%string (NewDHT 0 ":6000", tt)).1 tt).
Proof.
  apply (node_never_panics no_text 0 ":6000"). apply rtc_once. apply ns_join.
Defined.

Lemma store_terminates_witness :
  exists fuel d' w', Store no_text fuel 5 "t" "10.0.0.9:80" (NewDHT 0 ":6000") tt = Some (Ok tt, d', w').
Proof.
  destruct (store_terminates no_text ∅ 5 "t" "10.0.0.9:80" (NewDHT 0 ":6000") tt) as (fuel & r & d' & w' & H1 & H2).
  - intros addr msg w resp w' closest x Hs. discriminate Hs.
  - destruct H2 as [-> _]; [apply NewDHT_wf|vm_compute; reflexivity|]. exists fuel, d', w'. by apply H1.
Defined.
