(* ===== verification/Cluster.v ===== *)
(** * A cluster of DHT nodes

    Several nodes of DHTNet.v joined by a network that delivers: a call to an
    address runs that node's own connection handler.  Once the nodes know one
    another, a store on any of them is found by a find on any of them. *)

From Stdlib Require Import Ascii String.
From S2P Require Import Prelude.
From stdpp Require Import list sorting.
From S2P Require Import GoStrings NetIP GoJSON Sha256 Ring RingFacts DHTNet DHTNetFacts.
Local Open Scope Z_scope.

#[local] Arguments String.append : simpl nomatch.
#[local] Opaque Sum256 HashAddress HashTask.

Notation Cluster := (gmap string DHT) (only parsing).

(** The network: a node answers at its address; the handler of a well-formed
    node needs no network of its own. *)
Definition deliver `{DHTConfig} (now : Z) : PeerNet Cluster := fun addr data c =>
  match c !! addr with
  | None => (Err "dial: connection refused"%string, c)
  | Some d =>
      match handleConnection no_text now data d tt with
      | Some (out, d', _) => (Ok out, <[addr := d']> c)
      | None => (Err "dial: connection reset by peer"%string, c)
      end
  end.

(** A node that knows exactly the nodes of [M] *)
Record member (M : gset string) (d : DHT) : Prop := {
  mb_ok : node_ok d;
  mb_self : nodeAddress (self d) ∈ M;
  mb_known : forall x n, peers d !! x = Some n -> nodeAddress n ∈ M /\ nodeAddress n <> nodeAddress (self d);
  mb_all : forall p, p ∈ M -> p <> nodeAddress (self d) -> is_Some (peers d !! HashAddress p);
  mb_utf8 : map_Forall (fun _ es => strings_utf8 (srAddress <$> es)) (storage d) }.

(** Addresses that are distinct nodes *)
Definition addresses_ok (M : gset string) : Prop :=
  (forall p q, p ∈ M -> q ∈ M -> HashAddress p = HashAddress q -> p = q) /\ (forall p, p ∈ M -> valid_utf8 p = true).

Section Cluster.
Context `{DHTConfig}.
Variable M : gset string.
Hypothesis HM : addresses_ok M.

Lemma member_self d : member M d -> nodeID (self d) = HashAddress (nodeAddress (self d)).
Proof. intros [[Hw _] _ _ _ _]. apply Hw. Qed.

Lemma member_peer d x n : member M d -> peers d !! x = Some n -> nodeAddress n ∈ M /\ nodeAddress n <> nodeAddress (self d) /\ x = HashAddress (nodeAddress n).
Proof.
  intros Hd Hn. destruct (mb_known _ _ Hd x n Hn) as [H1 H2]. split_and!; [done|done|].
  destruct (mb_ok _ _ Hd) as [Hw _]. by apply (wf_peers _ Hw).
Qed.

Lemma member_ring d x : member M d -> x ∈ ring d <-> exists p, p ∈ M /\ x = HashAddress p.
Proof.
  intros Hd. destruct (mb_ok _ _ Hd) as [Hw _]. rewrite (wf_ring _ Hw), elem_of_ringOf, (member_self d Hd). split.
  - intros [->|[n Hn]]; [exists (nodeAddress (self d)); split; [apply Hd|done]|].
    destruct (member_peer d x n Hd Hn) as (? & _ & ->). eauto.
  - intros (p & Hp & ->). destruct (decide (p = nodeAddress (self d))) as [->|Hne]; [by left|right]. by apply Hd.
Qed.

Lemma member_no_alias d : member M d -> no_alias d.
Proof.
  intros Hd. unfold no_alias. destruct (peers d !! nodeID (self d)) as [n|] eqn:E; [|done].
  destruct (member_peer d _ n Hd E) as (H1 & H2 & H3). exfalso. apply H2. apply HM; [done|apply Hd|].
  by rewrite <- (member_self d Hd).
Qed.

Lemma member_nodeOf d p : member M d -> p ∈ M -> exists n, nodeOf d (HashAddress p) = Some n /\ nodeAddress n = p.
Proof.
  intros Hd Hp. unfold nodeOf. rewrite (member_self d Hd). destruct (Z.eqb_spec (HashAddress p) (HashAddress (nodeAddress (self d)))) as [E|E].
  - exists (self d). split; [done|]. symmetry. apply HM; [done|apply Hd|done].
  - destruct (mb_all _ _ Hd p Hp) as [n Hn]; [by intros ->|]. exists n. split; [done|].
    destruct (member_peer d _ n Hd Hn) as (H1 & _ & H3). symmetry. by apply HM.
Qed.

Definition ringM : list NodeID := merge_sort id_le (HashAddress <$> elements M).
Definition kIDs (task : string) : list NodeID := take ReplicationFactor (closestIDs (HashTask task) ringM).

Lemma member_ring_eq d : member M d -> ring d = ringM.
Proof.
  intros Hd. apply ring_view; [apply Hd|by apply member_no_alias| |].
  - apply NoDup_fmap_2_strong; [|apply NoDup_elements]. intros p q. rewrite !elem_of_elements. apply HM.
  - intros x. rewrite (member_ring d x Hd), list_elem_of_fmap. split; intros (p & H1 & H2); exists p; rewrite ?elem_of_elements in *; done.
Qed.

(** The addresses responsible for a task, the same for every member *)
Lemma closest_addresses task : exists L, HashAddress <$> L = kIDs task /\ (forall p, p ∈ L -> p ∈ M) /\ NoDup L.
Proof.
  assert (Hin : forall x, x ∈ kIDs task -> exists p, p ∈ M /\ x = HashAddress p).
  { intros x Hx%take_elem. rewrite closestIDs_perm in Hx. unfold ringM in Hx. rewrite merge_sort_Permutation in Hx.
    apply list_elem_of_fmap in Hx as (p & -> & Hp). exists p. by rewrite elem_of_elements in Hp. }
  assert (HN : NoDup (kIDs task)).
  { apply (sublist_NoDup _ (closestIDs (HashTask task) ringM)); [|apply sublist_take].
    rewrite closestIDs_perm. unfold ringM. rewrite merge_sort_Permutation.
    apply NoDup_fmap_2_strong; [|apply NoDup_elements]. intros p q. rewrite !elem_of_elements. apply HM. }
  assert (exists L, HashAddress <$> L = kIDs task /\ (forall p, p ∈ L -> p ∈ M)) as (L & E & HL).
  { clear HN. induction (kIDs task) as [|x l IH]; [exists []; split; [done|by intros p ?%elem_of_nil]|].
    destruct IH as (L & E & HL); [intros; apply Hin; by right|]. destruct (Hin x) as (p & Hp & ->); [left|].
    exists (p :: L). rewrite fmap_cons, E. split; [done|]. intros q [->|Hq]%elem_of_cons; auto. }
  exists L. split_and!; [done|done|]. rewrite <- E in HN. by apply NoDup_fmap_1 in HN.
Qed.

Section Task.
Variable task : string.
Variable L : list string.
Hypothesis HL : HashAddress <$> L = kIDs task.
Hypothesis HLM : forall p, p ∈ L -> p ∈ M.

Lemma member_closest d : member M d -> FindKClosestNodes task ReplicationFactor d = nodeOf d <$> (HashAddress <$> L).
Proof. intros Hd. rewrite FindK_ids by apply Hd. rewrite member_ring_eq by done. by rewrite HL. Qed.

Lemma member_addresses d : member M d -> nodeAddresses (FindKClosestNodes task ReplicationFactor d) = L.
Proof.
  intros Hd. rewrite member_closest by done. unfold nodeAddresses. clear HL.
  induction L as [|p l IH]; [done|]. rewrite !fmap_cons. destruct (member_nodeOf d p Hd) as (n & E & Hn); [apply HLM; left|].
  rewrite E. cbn. f_equal; [done|]. apply IH. intros; apply HLM; by right.
Qed.

Lemma member_responsible d : member M d ->
  amIInKClosestLocked task ReplicationFactor d = bool_decide (nodeAddress (self d) ∈ L).
Proof.
  intros Hd. rewrite locked_ids by apply Hd. rewrite member_ring_eq by done. fold (kIDs task). rewrite <- HL.
  apply bool_decide_ext. rewrite (member_self d Hd), list_elem_of_fmap. split.
  - intros (p & E & Hp). assert (nodeAddress (self d) = p) as ->; [|done]. apply HM; [apply Hd|auto|done].
  - intros Hin. eauto.
Qed.

(** ** Members stay members *)

Lemma AddPeer_member now s d : member M d -> s ∈ M -> s <> nodeAddress (self d) -> member M (AddPeer now s d).
Proof.
  intros Hd Hs Hne. destruct (AddPeer_storage now s d) as [E1 E2]. destruct (mb_all _ _ Hd s Hs Hne) as [n Hn].
  assert (Hp : peers (AddPeer now s d) = <[HashAddress s := mkNode (nodeID n) (nodeAddress n) now]> (peers d)).
  { unfold AddPeer. by rewrite Hn. }
  split; rewrite ?E1, ?E2, ?Hp; [apply AddPeer_ok, Hd|apply Hd| | |apply Hd].
  - intros x n'. rewrite lookup_insert_Some. intros [[<- <-]|[_ Hx]]; [|by apply (mb_known _ _ Hd x)].
    apply (mb_known _ _ Hd _ _ Hn).
  - intros p Hpm Hpn. apply lookup_insert_is_Some'. right. by apply Hd.
Qed.

Lemma StoreTask_frame now v d :
  self (StoreTask now task v d) = self d /\ peers (StoreTask now task v d) = peers d.
Proof. unfold StoreTask. by destruct (refresh _ _ _). Qed.

(** The registration is held with the heartbeat [now]. *)
Definition holds (now : Z) (v : string) (d : DHT) : Prop := mkRegistration v now ∈ default [] (storage d !! task).

Lemma StoreTask_stored now v d : holds now v (StoreTask now task v d).
Proof.
  unfold holds, StoreTask. pose proof (refresh_spec now v (default [] (storage d !! task))) as Hr.
  destruct (refresh _ _ _) as [es|]; cbn [set_storage storage]; rewrite lookup_insert_eq; cbn [default from_option id].
  - destruct Hr as (_ & _ & l1 & e & l2 & _ & _ & ->). apply elem_of_app. right. left.
  - apply elem_of_app. right. left.
Qed.

Lemma StoreTask_member now v d : member M d -> valid_utf8 v = true -> member M (StoreTask now task v d).
Proof.
  intros Hd Hv. destruct (StoreTask_frame now v d) as [E1 E2]. split; rewrite ?E1, ?E2; [apply store_ok, Hd|apply Hd|apply Hd|apply Hd|].
  assert (Hold : strings_utf8 (srAddress <$> default [] (storage d !! task))).
  { destruct (storage d !! task) as [es|] eqn:E; [|constructor]. apply (mb_utf8 _ _ Hd _ _ E). }
  unfold StoreTask. pose proof (refresh_spec now v (default [] (storage d !! task))) as Hr.
  destruct (refresh _ _ _) as [es|]; cbn [set_storage storage]; (apply map_Forall_insert_2; [|apply Hd]).
  - destruct Hr as (_ & E & _). by rewrite E.
  - rewrite fmap_app. apply Forall_app_2; [done|by repeat constructor].
Qed.

(** ** Messages between members *)

Lemma handle_type_store now msg d : Type_ msg = MsgStore ->
  handleMessage no_text now msg d tt = match handleStore now msg (addSender now msg d) with Some (r, d) => Some (r, d, tt) | None => None end.
Proof. intros E. unfold handleMessage. by rewrite E. Qed.

Lemma handle_type_find now msg d : Type_ msg = MsgFind ->
  handleMessage no_text now msg d tt
  = match handleFind no_text now msg (addSender now msg d) tt with Some (r, w) => Some (r, addSender now msg d, w) | None => None end.
Proof. intros E. unfold handleMessage. by rewrite E. Qed.

Lemma addSender_member now t s p d : member M d -> s ∈ M -> s <> ""%string -> s <> nodeAddress (self d) ->
  addSender now (mkMessage t s p) d = AddPeer now s d.
Proof.
  intros Hd Hs He Hne. unfold addSender. cbn [Sender]. by rewrite !(proj2 (String.eqb_neq _ _)).
Qed.

Variable decode_error : string -> string.
Hypothesis HM0 : ""%string ∉ M.
Hypothesis Htask : valid_utf8 task = true.

Lemma M_utf8 p : p ∈ M -> valid_utf8 p = true.
Proof. apply HM. Qed.

Lemma deliver_store now c p d s v : c !! p = Some d -> member M d -> nodeAddress (self d) = p -> p ∈ L ->
  s ∈ M -> s <> p -> valid_utf8 v = true ->
  sendMessage (H0 := deliver now) decode_error p (mkMessage MsgStore s (Some (storePayload task v))) c
  = (Ok (mkMessage MsgOK p None), <[p := StoreTask now task v (AddPeer now s d)]> c).
Proof.
  intros Hc Hd Hp HpL Hs Hne Hv. assert (s <> ""%string) by (by intros ->).
  unfold sendMessage, rpc, deliver. rewrite Hc. unfold handleConnection.
  rewrite decode_encode by (split_and!; [done|by apply M_utf8|by apply store_payload_ok]).
  rewrite handle_type_store by done. rewrite (addSender_member now _ s _ d) by (done || by rewrite Hp).
  assert (Hd1 : member M (AddPeer now s d)) by (apply AddPeer_member; [done|done|by rewrite Hp]).
  rewrite handleStore_spec by apply Hd1. cbn [Payload]. rewrite asStore_store. rewrite member_responsible by done.
  destruct (AddPeer_storage now s d) as [_ E2]. rewrite E2, Hp. rewrite bool_decide_eq_true_2 by done.
  rewrite decode_encode; [done|]. split_and!; [done|by apply M_utf8, HLM|done].
Qed.

Lemma active_utf8 es now t : strings_utf8 (srAddress <$> es) -> strings_utf8 (activeAddresses es now t).
Proof.
  unfold strings_utf8, activeAddresses. rewrite !Forall_fmap, !Forall_forall. intros Hes e He.
  apply list_elem_of_In, filter_In in He as [He _]. apply Hes. by apply list_elem_of_In.
Qed.

Lemma deliver_find now c p d s v t0 : c !! p = Some d -> member M d -> nodeAddress (self d) = p -> p ∈ L ->
  s ∈ M -> s <> p -> holds t0 v d -> ServiceHeartbeatTimeout <= 0 \/ time_sub now t0 < ServiceHeartbeatTimeout ->
  exists addrs c', sendMessage (H0 := deliver now) decode_error p (mkMessage MsgFind s (Some (findPayload task))) c
    = (Ok (mkMessage MsgFoundData p (Some (foundPayload task addrs))), c') /\ v ∈ addrs /\ strings_utf8 addrs.
Proof.
  intros Hc Hd Hp HpL Hs Hne Hh Ht. assert (s <> ""%string) by (by intros ->).
  set (addrs := activeAddresses (default [] (storage d !! task)) now ServiceHeartbeatTimeout).
  assert (Hv : v ∈ addrs) by (by apply (active_elem _ now ServiceHeartbeatTimeout _ Hh)).
  assert (Hu : strings_utf8 addrs).
  { apply active_utf8. destruct (storage d !! task) as [es|] eqn:E; [|constructor]. apply (mb_utf8 _ _ Hd _ _ E). }
  exists addrs. eexists. split_and!; [|done|done].
  unfold sendMessage, rpc, deliver. rewrite Hc. unfold handleConnection.
  rewrite decode_encode by (split_and!; [done|by apply M_utf8|by apply find_payload_ok]).
  rewrite handle_type_find by done. rewrite (addSender_member now _ s _ d) by (done || by rewrite Hp).
  assert (Hd1 : member M (AddPeer now s d)) by (apply AddPeer_member; [done|done|by rewrite Hp]).
  rewrite handleFind_spec by apply Hd1. cbn [Payload]. rewrite asFind_find. rewrite member_responsible by done.
  destruct (AddPeer_storage now s d) as [E1 E2]. rewrite E1, E2, Hp. rewrite bool_decide_eq_true_2 by done. fold addrs.
  destruct addrs as [|x l]; [by apply elem_of_nil in Hv|]. cbv iota zeta.
  rewrite decode_encode; [reflexivity|]. split_and!; [done|by apply M_utf8, HLM|by apply found_payload_ok].
Qed.

(** ** A store reaches every responsible node *)

Section StoreRun.
Variable now : Z.
Variable a v : string.
Hypothesis Ha : a ∈ M.
Hypothesis Hv : valid_utf8 v = true.
#[local] Instance net : PeerNet Cluster := deliver now.

(** Everyone but the storing node, seen from outside *)
Definition others_ok (c : Cluster) : Prop :=
  dom c = M /\ forall p, p ∈ M -> p <> a -> exists d, c !! p = Some d /\ member M d /\ nodeAddress (self d) = p.

Definition run_ok (r : StoreRun (W := Cluster)) : Prop :=
  member M (node r) /\ nodeAddress (self (node r)) = a /\ others_ok (world r).

Definition holdsAt (p : string) (r : StoreRun (W := Cluster)) : Prop :=
  if decide (p = a) then holds now v (node r) else exists d, world r !! p = Some d /\ holds now v d.

Lemma others_insert c p d : others_ok c -> p ∈ M -> member M d -> nodeAddress (self d) = p -> others_ok (<[p := d]> c).
Proof.
  intros [Hdom Hc] Hp Hd Hs. split; [rewrite dom_insert_L; set_solver|].
  intros q Hq Hqa. destruct (decide (q = p)) as [->|Hne]; [rewrite lookup_insert_eq|rewrite lookup_insert_ne by done]; eauto.
Qed.

(** One turn for a responsible node not tried yet *)
Lemma turn_stores p r : run_ok r -> p ∈ L -> p ∉ attempted r ->
  let r' := storeTurn decode_error now task v p r in
  run_ok r' /\ queue r' = queue r /\ attempted r' = {[p]} ∪ attempted r /\ successCount r' = successCount r + 1 /\
  holdsAt p r' /\ (forall q, q <> p -> holdsAt q r -> holdsAt q r').
Proof.
  intros (Hd & Hs & Hc) Hp Hn. unfold storeTurn. rewrite bool_decide_eq_false_2 by done. rewrite Hs.
  destruct (String.eqb_spec p a) as [->|Hne].
  - destruct (StoreTask_frame now v (node r)) as [E1 _]. cbn [run_ok node world queue attempted successCount]. split_and!; try done.
    + split; cbn [node world]; [by apply StoreTask_member|]. by rewrite E1.
    + unfold holdsAt. rewrite decide_True by done. apply StoreTask_stored.
    + intros q Hq. unfold holdsAt. by rewrite !decide_False by done.
  - destruct (proj2 Hc p (HLM p Hp) Hne) as (d & Hcd & Hmd & Hsd).
    unfold net. rewrite (deliver_store now (world r) p d a v) by done. cbn [Type_]. change (String.eqb MsgOK MsgOK) with true. cbv iota.
    set (d1 := StoreTask now task v (AddPeer now a d)).
    assert (Hd1 : member M d1) by (apply StoreTask_member; [apply AddPeer_member; [done|done|by rewrite Hsd]|done]).
    assert (Hs1 : nodeAddress (self d1) = p).
    { unfold d1. rewrite (proj1 (StoreTask_frame now v (AddPeer now a d))), (proj2 (AddPeer_storage now a d)). done. }
    cbn [node world queue attempted successCount]. split_and!; try done.
    + split; [done|]. split; [done|]. apply others_insert; auto.
    + unfold holdsAt. rewrite decide_False by done. cbn [world]. rewrite lookup_insert_eq. exists d1. split; [done|]. apply StoreTask_stored.
    + intros q Hq. unfold holdsAt. cbn [node world]. destruct (decide (q = a)); [done|]. by rewrite lookup_insert_ne.
Qed.

Lemma run_stores q r : queue r = q -> NoDup q -> (forall p, p ∈ q -> p ∈ L /\ p ∉ attempted r) -> run_ok r ->
  exists r', storeLoop decode_error (S (length q)) now task v r = Some r' /\ run_ok r' /\
    successCount r' = successCount r + Z.of_nat (length q) /\
    (forall p, p ∈ q \/ holdsAt p r -> holdsAt p r').
Proof.
  revert r. induction q as [|p q IH]; intros r Eq Hn Hq Hr.
  - exists r. cbn [length storeLoop]. rewrite Eq. split_and!; [done|done|lia|]. by intros p [?%elem_of_nil|?].
  - apply NoDup_cons in Hn as [Hpn Hn]. destruct (Hq p) as [HpL Hpa]; [left|].
    set (r0 := mkRun q (attempted r) (successCount r) (lastErr r) (node r) (world r)).
    destruct (turn_stores p r0) as (T1 & T2 & T3 & T4 & T5 & T6); [done|done|done|].
    destruct (IH (storeTurn decode_error now task v p r0)) as (r' & E & R1 & R2 & R3); [done|done| |done|].
    { intros x Hx. destruct (Hq x) as [HxL Hxa]; [by right|]. split; [done|]. rewrite T3. cbn [r0 attempted].
      intros [Hxp%elem_of_singleton|?]%elem_of_union; [by subst|done]. }
    exists r'. split; [|split; [done|split]].
    + cbn [length]. remember (S (length q)) as n. cbn [storeLoop]. rewrite Eq. fold r0. exact E.
    + rewrite R2, T4. cbn [r0 successCount length]. lia.
    + intros x Hx. apply R3. destruct (decide (x = p)) as [->|Hne]; [by right|].
      destruct Hx as [[?|Hx]%elem_of_cons|Hx]; [done|by left|right]. by apply T6.
Qed.

End StoreRun.

End Task.

(** All nodes of [c], each knowing exactly the others *)
Definition converged (c : gmap string DHT) : Prop :=
  dom c = M /\ forall p d, c !! p = Some d -> member M d /\ nodeAddress (self d) = p.

End Cluster.

Section StoreFind.
Context `{DHTConfig}.
Variable decode_error : string -> string.
Variable M : gset string.
Hypothesis HM : addresses_ok M.
Hypothesis HM0 : ""%string ∉ M.

(** Finding on a node that is responsible, or by asking the first that is *)
Lemma find_held task L now t0 v b dB (c : gmap string DHT) :
  HashAddress <$> L = kIDs M task -> (forall p, p ∈ L -> p ∈ M) -> L <> [] -> valid_utf8 task = true ->
  converged M c -> c !! b = Some dB ->
  (forall p, p ∈ L -> exists d, c !! p = Some d /\ holds task t0 v d) ->
  ServiceHeartbeatTimeout <= 0 \/ time_sub now t0 < ServiceHeartbeatTimeout ->
  exists addrs c', Find (H0 := deliver now) decode_error now task dB c = Some (addrs, c') /\ v ∈ addrs.
Proof.
  intros HL HLM Hne Htask [Hdom Hc] Hb Hheld Ht. destruct (Hc b dB Hb) as [Hd Hs].
  assert (HbM : b ∈ M) by (rewrite <- Hdom; by apply elem_of_dom_2 in Hb).
  assert (Hin : forall x, x ∈ HashAddress <$> L -> x ∈ ring dB).
  { intros x (p & -> & Hp)%list_elem_of_fmap. apply (member_ring M dB); [done|]. eauto. }
  unfold Find. rewrite (member_closest M HM task L HL dB Hd).
  rewrite findLocal_total; [|apply Hd|done|].
  2: { intros Hk. rewrite (member_responsible M HM task L HL HLM dB Hd). apply bool_decide_eq_true.
    rewrite (member_self M dB Hd) in Hk. apply list_elem_of_fmap in Hk as (p & E & Hp).
    assert (nodeAddress (self dB) = p) as ->; [|done]. apply HM; [apply Hd|auto|done]. }
  destruct (decide (b ∈ L)) as [HbL|HbL].
  - rewrite bool_decide_eq_true_2 by (rewrite (member_self M dB Hd), Hs; by apply list_elem_of_fmap_2).
    destruct (Hheld b HbL) as (d & E & Hh). rewrite Hb in E. injection E as <-.
    pose proof (active_elem _ now ServiceHeartbeatTimeout _ Hh Ht) as Hact. cbn [srAddress] in Hact.
    destruct (activeAddresses _ _ _) as [|x l]; [by apply elem_of_nil in Hact|]. eauto.
  - rewrite bool_decide_eq_false_2.
    2: { rewrite (member_self M dB Hd), Hs. intros (p & E & Hp)%list_elem_of_fmap.
         assert (b = p) as ->; [|done]. apply HM; [done|auto|done]. }
    destruct L as [|p l]; [done|]. rewrite !fmap_cons.
    assert (HpM : p ∈ M) by (apply HLM; left). assert (Hbp : b <> p) by (intros ->; apply HbL; left).
    destruct (member_nodeOf M HM dB p Hd HpM) as (n & En & Hn). rewrite En. cbn [findRemote].
    assert (Hid : (nodeID n =? nodeID (self dB)) = false).
    { apply Z.eqb_neq. intros E. destruct (nodeOf_ring dB (HashAddress p) (proj1 (mb_ok _ _ Hd))) as (n' & En' & Hn').
      - apply Hin. left.
      - rewrite En in En'. injection En' as <-. rewrite Hn', (member_self M dB Hd), Hs in E. apply Hbp. symmetry. by apply HM. }
    rewrite Hid, Hn, Hs. destruct (Hheld p) as (d & Hcp & Hh); [left|]. destruct (Hc p d Hcp) as [Hmp Hsp].
    destruct (deliver_find M HM task (p :: l) HL HLM decode_error HM0 Htask now c p d b v t0) as (addrs & c' & E & Hva & Hu);
      [done|done|done|left|done|done|done|done|].
    rewrite E. cbn [Type_ Payload]. change (String.eqb MsgFoundData MsgFoundData) with true. cbv iota.
    rewrite asFound_found by done. destruct addrs as [|x xs]; [by apply elem_of_nil in Hva|]. eauto.
Qed.

(** C31: what one node stores, every node finds.  In a cluster whose nodes know
    exactly one another, over a network that delivers, a store of a service
    on any node succeeds, leaves every node of the cluster with the view it
    had, and puts the registration on all the k closest nodes; until the
    heartbeat times out a find on any node, responsible or not, returns a
    list with that service. *)
Theorem cluster_store_find now now' task v a dA (c : gmap string DHT) :
  converged M c -> c !! a = Some dA -> ReplicationFactor <> 0%nat -> valid_utf8 task = true -> valid_utf8 v = true ->
  ServiceHeartbeatTimeout <= 0 \/ time_sub now' now < ServiceHeartbeatTimeout ->
  exists fuel dA' c1, Store (H0 := deliver now) decode_error fuel now task v dA c = Some (Ok tt, dA', c1) /\
    let c' := <[a := dA']> c1 in
    converged M c' /\
    (exists L, NoDup L /\ length L = min ReplicationFactor (size M) /\
       forall p, p ∈ L -> exists d, c' !! p = Some d /\ mkRegistration v now ∈ default [] (storage d !! task)) /\
    forall b dB, c' !! b = Some dB ->
      exists addrs c'', Find (H0 := deliver now') decode_error now' task dB c' = Some (addrs, c'') /\ v ∈ addrs.
Proof.
  intros [Hdom Hc] Ha Hk Htask Hv Ht. destruct (Hc a dA Ha) as [HdA HsA].
  assert (HaM : a ∈ M) by (rewrite <- Hdom; by apply elem_of_dom_2 in Ha).
  destruct (closest_addresses M HM task) as (L & HL & HLM & HN).
  assert (Hlen : length L = min ReplicationFactor (size M)).
  { rewrite <- (length_fmap HashAddress L), HL. unfold kIDs, ringM. rewrite length_take, closestIDs_perm, merge_sort_Permutation, length_fmap. done. }
  set (r0 := startRun (W := gmap string DHT) task dA c).
  assert (Hq : queue r0 = L) by (apply (member_addresses M HM task L HL HLM); done).
  destruct (run_stores M HM task L HL HLM decode_error HM0 Htask now a v HaM Hv L r0) as (r' & E & (R1 & R2 & R3) & Rs & Rh); [done|done| | |].
  { intros p Hp. split; [done|apply not_elem_of_empty]. }
  { split; [done|]. split; [done|]. split; [done|]. intros p Hp _. destruct (c !! p) as [d|] eqn:Ed.
    - destruct (Hc p d Ed). eauto.
    - exfalso. apply not_elem_of_dom in Ed. by rewrite Hdom in Ed. }
  assert (HM1 : (0 < size M)%nat) by (destruct (size M) eqn:Es; [apply size_empty_inv in Es; set_solver|lia]).
  exists (S (length L)), (node r'), (world r'). split.
  { unfold Store. fold r0. cbv beta. unfold net in E. rewrite E. cbn [mbind option_bind]. f_equal. f_equal. f_equal.
    unfold storeResult. cbn [r0 startRun successCount] in Rs. destruct (Z.eqb_spec (successCount r') 0); [lia|done]. }
  intros c'. assert (Hconv : converged M c').
  { destruct R3 as [Hd3 H3]. split; [unfold c'; rewrite dom_insert_L, Hd3; set_solver|].
    intros p d. unfold c'. rewrite lookup_insert_Some. intros [[<- <-]|[Hpa Hp]]; [done|].
    assert (p ∈ M) as HpM by (rewrite <- Hd3; by apply elem_of_dom_2 in Hp).
    destruct (H3 p HpM) as (d' & E' & ? & ?); [done|]. rewrite Hp in E'. by injection E' as ->. }
  assert (Hheld : forall p, p ∈ L -> exists d, c' !! p = Some d /\ holds task now v d).
  { intros p Hp. specialize (Rh p (or_introl Hp)). unfold holdsAt in Rh. unfold c'. destruct (decide (p = a)) as [->|Hne].
    - rewrite lookup_insert_eq. eauto.
    - by rewrite lookup_insert_ne. }
  split; [done|]. split; [exists L; split_and!; done|].
  intros b dB Hb. apply (find_held task L now' now v b dB c'); try done. intros ->. simpl in Hlen. lia.
Qed.

End StoreFind.

(** ** A concrete cluster *)

#[local] Existing Instance default_config.

Definition demo_addrs : list string := ["10.0.0.1:6000"; "10.0.0.2:6000"; "10.0.0.3:6000"; "10.0.0.4:6000"]%string.
Definition demo_M : gset string := list_to_set demo_addrs.
Definition demo_member (a : string) : DHT := demo_node a (List.filter (fun b => negb (String.eqb a b)) demo_addrs).
Definition demo_c : gmap string DHT := list_to_map ((fun a => (a, demo_member a)) <$> demo_addrs).

Definition member_check (M : gset string) (d : DHT) : bool :=
  bool_decide (nodeAddress (self d) ∈ M) &&
  bool_decide (map_Forall (fun _ n => nodeAddress n ∈ M /\ nodeAddress n <> nodeAddress (self d)) (peers d)) &&
  bool_decide (set_Forall (fun p => p = nodeAddress (self d) \/ is_Some (peers d !! HashAddress p)) M) &&
  bool_decide (storage d = ∅).

Lemma member_check_spec M d : node_ok d -> member_check M d = true -> member M d.
Proof.
  unfold member_check. rewrite !andb_true_iff, !bool_decide_eq_true. intros Hok (((H1 & H2) & H3) & H4). split; [done|done|exact H2| |].
  - intros p Hp Hne. by destruct (H3 p Hp).
  - rewrite H4. apply map_Forall_empty.
Qed.

Lemma demo_addresses_ok : addresses_ok demo_M.
Proof.
  split.
  - assert (Hn : NoDup (HashAddress <$> demo_addrs)) by (apply (bool_decide_eq_true (NoDup _)); vm_compute; reflexivity).
    intros p q Hp Hq E. apply elem_of_list_to_set in Hp, Hq.
    apply list_elem_of_lookup in Hp as [i Hi]. apply list_elem_of_lookup in Hq as [j Hj].
    assert (i = j) as ->; [|congruence].
    apply (NoDup_lookup (HashAddress <$> demo_addrs) i j (HashAddress p) Hn); rewrite list_lookup_fmap, ?Hi, ?Hj; simpl; by rewrite ?E.
  - intros p Hp. apply elem_of_list_to_set in Hp.
    assert (Hf : Forall (fun p => valid_utf8 p = true) demo_addrs) by (repeat constructor). rewrite Forall_forall in Hf. auto.
Qed.

Lemma demo_converged : converged demo_M demo_c.
Proof.
  split; [vm_compute; reflexivity|]. intros p d Hp.
  apply elem_of_list_to_map_2, list_elem_of_fmap in Hp as (a & [= -> ->] & Ha). split.
  - apply member_check_spec; [split; [apply demo_node_wf|]|].
    + assert (forall others, storage (demo_node a others) = ∅) as E.
      { intros others. unfold demo_node. assert (storage (NewDHT 0 a) = ∅) as E0 by done. revert E0. generalize (NewDHT 0 a).
        induction others as [|b others IH]; intros d0 E0; [done|]. simpl. apply IH. by rewrite (proj1 (AddPeer_storage 0 b d0)). }
      unfold demo_member. rewrite E. apply map_Forall_empty.
    + assert (Hf : Forall (fun a => member_check demo_M (demo_member a) = true) demo_addrs)
        by (repeat (constructor; [vm_compute; reflexivity|]); constructor). rewrite Forall_forall in Hf. auto.
  - assert (Hf : Forall (fun a => nodeAddress (self (demo_member a)) = a) demo_addrs)
      by (repeat (constructor; [vm_compute; reflexivity|]); constructor). rewrite Forall_forall in Hf. auto.
Qed.

Lemma cluster_store_find_witness :
  exists fuel dA' c1, Store (H0 := deliver 5) no_text fuel 5 "print" "10.0.0.9:80" (demo_member "10.0.0.1:6000") demo_c = Some (Ok tt, dA', c1).
Proof.
  destruct (cluster_store_find no_text demo_M demo_addresses_ok ltac:(vm_compute; discriminate) 5 7 "print" "10.0.0.9:80" "10.0.0.1:6000"
    (demo_member "10.0.0.1:6000") demo_c demo_converged) as (fuel & dA' & c1 & H & _).
  - vm_compute. reflexivity.
  - discriminate.
  - vm_compute. reflexivity.
  - vm_compute. reflexivity.
  - right. reflexivity.
  - exists fuel, dA', c1. exact H.
Defined.
