(* ===== verification/DHTLife.v ===== *)
(** * pkg/dht/network.go: the life of the DHT network

    [NewDHTNetwork], the goroutines [Start] spawns, the accept loop and
    [Stop].  A goroutine the wait group counts is an element of [waited]; the
    handlers of connections and the pings, which it does not count, are
    [loose].  The goroutines interleave as a step relation; what each does to
    the node is the function of DHTNet. *)

From Stdlib Require Import Ascii String.
From S2P Require Import Prelude.
From stdpp Require Import list sorting relations.
From S2P Require Import GoStrings NetIP GoJSON Sha256 Ring RingFacts DHTNet DHTNetFacts.
Local Open Scope Z_scope.

#[local] Opaque Sum256 HashAddress HashTask.

(** ** State *)

(** [Joining] has the bootstrap nodes it has not tried yet. *)
Inductive goroutine := Accepting | Joining (todo : list string) | Discovering | Maintaining.
Inductive loose_goroutine := Handling (input : string) | Pinging (addr : string).

(** Where a call of [Stop] is: not called, after [cancel], after [Close], returned *)
Inductive stopping := NotStopping | Cancelling | Waiting | Stopped.

Record DHTNetwork := mkNetwork {
  dht : DHT;
  bootstraps : list string;
  listening : bool;
  ctxDone : bool;
  waited : list goroutine;
  loose : list loose_goroutine;
  stop : stopping }.

Definition NewDHTNetwork (d : DHT) (bootstrapNodes : list string) : DHTNetwork :=
  mkNetwork d bootstrapNodes false false [] [] NotStopping.

Section Life.
Context `{DHTConfig} {W : Type} `{PeerNet W}.
Variable decode_error : string -> string.

(** [Start], once [net.Listen] has bound [boundAddr] *)
Definition startNetwork (boundAddr : string) (n : DHTNetwork) : DHTNetwork :=
  let joining := match bootstraps n with
                 | [] => []
                 | bs => Joining bs :: (if EnableBootstrapPeerDiscovery then [Discovering] else [])
                 end in
  mkNetwork (Start boundAddr (dht n)) (bootstraps n) true (ctxDone n) (Accepting :: joining ++ [Maintaining]) (loose n) (stop n).

Definition set_dht (d : DHT) (n : DHTNetwork) : DHTNetwork :=
  mkNetwork d (bootstraps n) (listening n) (ctxDone n) (waited n) (loose n) (stop n).
Definition set_waited (l : list goroutine) (n : DHTNetwork) : DHTNetwork :=
  mkNetwork (dht n) (bootstraps n) (listening n) (ctxDone n) l (loose n) (stop n).
Definition set_loose (l : list loose_goroutine) (n : DHTNetwork) : DHTNetwork :=
  mkNetwork (dht n) (bootstraps n) (listening n) (ctxDone n) (waited n) l (stop n).

(** ** Steps *)

Inductive life_step (n : DHTNetwork) : DHTNetwork -> Prop :=
(** [acceptLoop]: a connection, an error while the context is alive, the end *)
| ls_accept input : Accepting ∈ waited n -> listening n = true -> life_step n (set_loose (loose n ++ [Handling input]) n)
| ls_accept_error : Accepting ∈ waited n -> ctxDone n = false -> life_step n n
| ls_accept_return l1 l2 : waited n = l1 ++ Accepting :: l2 -> ctxDone n = true -> life_step n (set_waited (l1 ++ l2) n)
(** [joinNetwork] *)
| ls_join now b bs l1 l2 w : waited n = l1 ++ Joining (b :: bs) :: l2 ->
    life_step n (set_waited (l1 ++ Joining bs :: l2) (set_dht (joinOne decode_error now (dht n, w) b).1 n))
| ls_joined l1 l2 : waited n = l1 ++ Joining [] :: l2 -> life_step n (set_waited (l1 ++ l2) n)
(** [peerDiscoveryLoop] *)
| ls_discover now w : Discovering ∈ waited n -> life_step n (set_dht (peerDiscovery decode_error now (bootstraps n) (dht n, w)).1 n)
| ls_discover_return l1 l2 : waited n = l1 ++ Discovering :: l2 -> ctxDone n = true -> life_step n (set_waited (l1 ++ l2) n)
(** [maintenanceLoop] spawns a ping for each peer. *)
| ls_maintain now order order' : Maintaining ∈ waited n ->
    order ≡ₚ map_to_list (storage (dht n)) -> (forall d, order' d ≡ₚ map_to_list (storage d)) ->
    life_step n (set_loose (loose n ++ ((fun p => Pinging (nodeAddress p)) <$> GetPeers (dht n))) (set_dht (maintenance now order order' (dht n)).2 n))
| ls_maintain_return l1 l2 : waited n = l1 ++ Maintaining :: l2 -> ctxDone n = true -> life_step n (set_waited (l1 ++ l2) n)
(** [handleConnection] and [pingPeer] *)
| ls_handle now input l1 l2 w out d' w' : loose n = l1 ++ Handling input :: l2 ->
    handleConnection decode_error now input (dht n) w = Some (out, d', w') -> life_step n (set_loose (l1 ++ l2) (set_dht d' n))
| ls_ping addr l1 l2 w : loose n = l1 ++ Pinging addr :: l2 ->
    life_step n (set_loose (l1 ++ l2) (set_dht (pingPeer decode_error addr (dht n) w).1 n))
(** [Stop] *)
| ls_cancel : stop n = NotStopping -> life_step n (mkNetwork (dht n) (bootstraps n) (listening n) true (waited n) (loose n) Cancelling)
| ls_close : stop n = Cancelling -> life_step n (mkNetwork (dht n) (bootstraps n) false (ctxDone n) (waited n) (loose n) Waiting)
| ls_stopped : stop n = Waiting -> waited n = [] -> life_step n (mkNetwork (dht n) (bootstraps n) (listening n) (ctxDone n) [] (loose n) Stopped).

(** ** Invariant *)

Record life_inv (n : DHTNetwork) : Prop := {
  li_node : node_ok (dht n);
  li_ctx : ctxDone n = false <-> stop n = NotStopping;
  li_closed : stop n = Waiting \/ stop n = Stopped -> listening n = false;
  li_waited : stop n = Stopped -> waited n = [] }.

Lemma handleConnection_ok now input d w out d' w' : node_ok d -> handleConnection decode_error now input d w = Some (out, d', w') -> node_ok d'.
Proof.
  intros Hd. unfold handleConnection. destruct (DecodeMessage input) as [msg|]; [|by intros [= _ <- _]].
  destruct (handleMessage_total decode_error now msg d w Hd) as (r & d1 & E & H1). rewrite E. by destruct r; intros [= _ <- _].
Qed.

(** What a step does to the node is a step of the node, and it keeps it well formed. *)
Lemma life_step_node n n' : life_step n n' -> node_ok (dht n) -> node_ok (dht n').
Proof.
  intros Hs Hd. destruct Hs; try exact Hd; cbn [dht set_dht set_waited set_loose].
  - by apply joinOne_ok.
  - eapply node_step_ok; [eapply (ns_discover decode_error)|done].
  - eapply node_step_ok; [by apply (ns_maintain decode_error)|done].
  - by eapply handleConnection_ok.
  - eapply node_step_ok; [eapply (ns_ping decode_error)|done].
Qed.

Lemma life_step_inv n n' : life_step n n' -> life_inv n -> life_inv n'.
Proof.
  intros Hs Hn. pose proof (life_step_node _ _ Hs (li_node n Hn)) as Hd. destruct Hn as [_ H2 H3 H4].
  destruct Hs; split; try exact Hd; cbn [dht set_dht set_waited set_loose stop ctxDone listening waited] in *; try done;
    try (intros Hst; specialize (H4 Hst); match goal with H : waited _ = _ |- _ => rewrite H in H4; by destruct (app_cons_not_nil _ _ _ (eq_sym H4)) end);
    try (intros [?|?]; congruence); try (intros ?; congruence).
  all: try (split; [by intros ?|intros; congruence]).
  - split; [intros E; apply H2 in E; congruence|intros; congruence].
  - split; [intros E; apply H2 in E; congruence|intros; congruence].
  - intros _. apply H3. by left.
Qed.

(** ** Stopping *)

(** Once the context is cancelled, the goroutines the group counts can all
    return, whatever the network does. *)
Lemma drain (w0 : W) l n : waited n = l -> ctxDone n = true -> exists n', rtc life_step n n' /\ waited n' = [] /\ stop n' = stop n.
Proof.
  revert n. induction l as [|g l IH]; intros n Hl Hc; [by exists n|].
  assert (Hret : life_step n (set_waited l n) -> exists n', rtc life_step n n' /\ waited n' = [] /\ stop n' = stop n).
  { intros Hs. destruct (IH (set_waited l n) eq_refl Hc) as (n' & Hr & Hw & Hst). exists n'. split_and!; [by eapply rtc_l|done|done]. }
  destruct g as [|todo| |].
  - apply Hret. by apply (ls_accept_return n [] l).
  - clear Hret. revert n Hl Hc. induction todo as [|b bs IHb]; intros n Hl Hc.
    + destruct (IH (set_waited l n) eq_refl Hc) as (n' & Hr & Hw & Hst). exists n'. split_and!; [eapply rtc_l, Hr|done|done]. by apply (ls_joined n [] l).
    + destruct (IHb (set_waited (Joining bs :: l) (set_dht (joinOne decode_error 0 (dht n, w0) b).1 n)) eq_refl Hc) as (n' & Hr & Hw & Hst).
      exists n'. split_and!; [eapply rtc_l, Hr|done|done]. by apply (ls_join n 0 b bs [] l w0).
  - apply Hret. by apply (ls_discover_return n [] l).
  - apply Hret. by apply (ls_maintain_return n [] l).
Qed.

Lemma stop_finishes (w0 : W) n : life_inv n -> stop n <> NotStopping -> exists n', rtc life_step n n' /\ stop n' = Stopped.
Proof.
  intros Hn Hst. assert (Hwait : forall m, stop m = Waiting -> ctxDone m = true -> exists n', rtc life_step m n' /\ stop n' = Stopped).
  { intros m Hm Hc. destruct (drain w0 (waited m) m eq_refl Hc) as (m' & Hr & Hw & Hs). eexists. split; [eapply rtc_r; [exact Hr|apply ls_stopped; congruence]|done]. }
  assert (Hc : ctxDone n = true) by (destruct (ctxDone n) eqn:E; [done|by apply (li_ctx n Hn) in E]).
  destruct (stop n) eqn:E; [done| |by apply Hwait|by exists n].
  destruct (Hwait (mkNetwork (dht n) (bootstraps n) false (ctxDone n) (waited n) (loose n) Waiting) eq_refl Hc) as (n' & Hr & Hs).
  exists n'. split; [|done]. eapply rtc_l; [by apply ls_close|done].
Qed.

(** Nothing the group counts starts again, and no connection is accepted. *)
Lemma stopped_stays n n' : life_inv n -> stop n = Stopped -> rtc life_step n n' ->
  stop n' = Stopped /\ waited n' = [] /\ (length (loose n') <= length (loose n))%nat.
Proof.
  intros Hn Hst Hr. revert Hn Hst. induction Hr as [n|n n1 n2 Hs _ IH]; intros Hn Hst; [split_and!; [done|by apply Hn|done]|].
  pose proof (li_waited n Hn Hst) as Hw. assert (H1 : stop n1 = Stopped /\ (length (loose n1) <= length (loose n))%nat).
  { destruct Hs; cbn [stop loose set_dht set_waited set_loose]; try (split; [done|lia]); try congruence;
      try (match goal with Hin : _ ∈ waited n |- _ => rewrite Hw in Hin; by apply not_elem_of_nil in Hin end);
      match goal with E : loose n = _ |- _ => rewrite E, !length_app; cbn [length]; split; [done|lia] end. }
  destruct H1 as [H1 H2]. destruct (IH (life_step_inv _ _ Hs Hn) H1) as (? & ? & ?). split_and!; [done|done|lia].
Qed.

(** C21: the network stops.  In every reachable state of a started node,
    however its goroutines interleave and whatever peers send or fail to
    answer, the node is well formed, so no goroutine meets a nil node.  A
    call of [Stop] that has begun can always finish, without the help of any
    peer; and once it has returned the listener is closed, the goroutines
    of the wait group have ended, and from then on none of them runs and no
    connection is accepted. *)
Theorem network_stops (w0 : W) t0 addr bs bound n :
  rtc life_step (startNetwork bound (NewDHTNetwork (NewDHT t0 addr) bs)) n ->
  node_ok (dht n) /\
  (stop n <> NotStopping -> exists n', rtc life_step n n' /\ stop n' = Stopped) /\
  (stop n = Stopped -> listening n = false /\ forall n', rtc life_step n n' ->
     stop n' = Stopped /\ waited n' = [] /\ (length (loose n') <= length (loose n))%nat).
Proof.
  intros Hr. assert (Hn : life_inv n).
  { revert Hr. apply (rtc_ind_r life_inv); [|intros n1 n2 _ Hs H1; by apply (life_step_inv n1)].
    split; cbn; [|done|by intros [?|?]|done]. apply Start_ok. split; [apply NewDHT_wf|apply map_Forall_empty]. }
  split_and!; [apply Hn|by apply stop_finishes|]. intros Hst. split; [apply (li_closed n Hn); by right|]. intros n' Hn'. by apply (stopped_stays n).
Qed.
End Life.

(** ** A node that stops while it handles a message *)

#[local] Existing Instance default_config.

Definition lone (stage : stopping) (l : list goroutine) (ctx open : bool) : DHTNetwork :=
  mkNetwork (Start "127.0.0.1:6000" (NewDHT 0 ":6000")) [] open ctx l
    [Handling (EncodeMessage (mkMessage MsgStore "" (Some (storePayload "t" "10.0.0.9:80"))))] stage.

Lemma lone_stops : rtc (life_step (W := unit) no_text) (startNetwork "127.0.0.1:6000" (NewDHTNetwork (NewDHT 0 ":6000") [])) (lone Stopped [] true false).
Proof.
  eapply rtc_l; [apply (ls_accept no_text _ (EncodeMessage (mkMessage MsgStore "" (Some (storePayload "t" "10.0.0.9:80"))))); [left|done]|].
  eapply rtc_l; [by apply ls_cancel|]. eapply rtc_l; [by apply ls_close|].
  eapply rtc_l; [by apply (ls_accept_return no_text _ [] [Maintaining])|]. eapply rtc_l; [by apply (ls_maintain_return no_text _ [] [])|].
  eapply rtc_l; [by apply ls_stopped|]. apply rtc_refl.
Qed.

Lemma network_stops_witness : node_ok (dht (lone Stopped [] true false)).
Proof. exact (proj1 (network_stops no_text tt 0 ":6000" [] "127.0.0.1:6000" _ lone_stops)). Defined.

(** [Stop] does not wait for the handlers of connections: one that was
    accepted before it can still store a task after it returned. *)
Theorem stop_leaves_handlers :
  rtc (life_step (W := unit) no_text) (startNetwork "127.0.0.1:6000" (NewDHTNetwork (NewDHT 0 ":6000") [])) (lone Stopped [] true false) /\
  exists n', life_step (W := unit) no_text (lone Stopped [] true false) n' /\
    storage (dht (lone Stopped [] true false)) = ∅ /\ srAddress <$> default [] (storage (dht n') !! "t"%string) = ["10.0.0.9:80"%string].
Proof.
  split; [exact lone_stops|].
  destruct (handleConnection (W := unit) no_text 7 (EncodeMessage (mkMessage MsgStore "" (Some (storePayload "t" "10.0.0.9:80"))))
    (dht (lone Stopped [] true false)) tt) as [[[out d'] w']|] eqn:E; [|exfalso; revert E; vm_compute; discriminate].
  eexists. split; [by eapply (ls_handle no_text _ 7 _ [] [] tt)|]. split; [by vm_compute|]. cbn [dht set_loose set_dht].
  assert (Hd : Some d' = (fun x => x.1.2) <$> handleConnection (W := unit) no_text 7 (EncodeMessage (mkMessage MsgStore "" (Some (storePayload "t" "10.0.0.9:80"))))
    (dht (lone Stopped [] true false)) tt) by (by rewrite E). clear E. revert Hd. vm_compute. by intros [= ->].
Qed.
