(* ===== verification/DHTReg.v ===== *)
(** * pkg/dht/registry.go: the registry over the DHT

    The facade the peer-to-peer proxy uses: registrations go to
    [DHTNet.Store], queries to [DHTNet.Find] with a round-robin cursor per
    task.  It is an instance of the interface of Proxy.v. *)

From Stdlib Require Import Ascii String.
From S2P Require Import Prelude.
From stdpp Require Import list sorting.
From S2P Require Import GoStrings NetIP GoJSON Sha256 Ring RingFacts DHTNet DHTNetFacts Registry Proxy.
Local Open Scope Z_scope.

#[local] Arguments String.append : simpl nomatch.

Definition is_digit_string (s : string) : bool :=
  forallb (fun c => (48 <=? nat_of_ascii c)%nat && (nat_of_ascii c <=? 57)%nat) (list_ascii_of_string s).

Definition normalizeListenAddr (listenAddr : string) : string :=
  let listenAddr := TrimSpace listenAddr in
  if String.eqb listenAddr "" then listenAddr
  else if is_digit_string listenAddr then (":" ++ listenAddr)%string
  else listenAddr.

Record DHTReg (W : Type) := mkDHTReg {
  dhtNode : DHT;
  bootstraps : list string;
  net : W;
  roundRobinCursor : gmap string Z;
  regCount : Z; queryCount : Z; errorCount : Z }.
Arguments mkDHTReg {W}. Arguments dhtNode {W}. Arguments bootstraps {W}. Arguments net {W}. Arguments roundRobinCursor {W}.
Arguments regCount {W}. Arguments queryCount {W}. Arguments errorCount {W}.

Definition NewDHTRegistry {W} (now : Z) (listenAddr : string) (bootstrapNodes : list string) (w : W) : DHTReg W :=
  mkDHTReg (NewDHT now (normalizeListenAddr listenAddr)) bootstrapNodes w ∅ 0 0 0.

Section Registry.
Context `{DHTConfig} {W : Type} `{PeerNet W}.
Variable decode_error : string -> string.
Variable fuel : nat.
Variable now : Z.

Definition StartRegistry (boundAddr : string) (dr : DHTReg W) : DHTReg W :=
  mkDHTReg (Start boundAddr (dhtNode dr)) (bootstraps dr) (net dr) (roundRobinCursor dr) (regCount dr) (queryCount dr) (errorCount dr).

(** [None]: the store loop has not ended, or the process would panic. *)
Definition RegisterDHT (task address : string) (dr : DHTReg W) : option (result string unit * DHTReg W) :=
  '(r, d, w) ← Store decode_error fuel now task address (dhtNode dr) (net dr);
  Some match r with
       | Err e => (Err ("dht store: " ++ e)%string,
                   mkDHTReg d (bootstraps dr) w (roundRobinCursor dr) (regCount dr) (queryCount dr) (inc64 (errorCount dr)))
       | Ok _ => (Ok tt, mkDHTReg d (bootstraps dr) w (roundRobinCursor dr) (inc64 (regCount dr)) (queryCount dr) (errorCount dr))
       end.

(** [int(counter.Add(1)-1) % len(addrs)]: a negative index would panic. *)
Definition cursorIndex (cursor : Z) (len : nat) : option nat :=
  let idx := Z.rem (wrap64 (wrap64 (cursor + 1) - 1)) (Z.of_nat len) in
  if idx <? 0 then None else Some (Z.to_nat idx).

Definition QueryDHT (task : string) (dr : DHTReg W) : option (string * DHTReg W) :=
  '(addrs, w) ← Find decode_error now task (dhtNode dr) (net dr);
  let counted cursors := mkDHTReg (dhtNode dr) (bootstraps dr) w cursors (regCount dr) (inc64 (queryCount dr)) (errorCount dr) in
  match addrs with
  | [] => Some (""%string, counted (roundRobinCursor dr))
  | _ =>
      let cursor := default 0 (roundRobinCursor dr !! task) in
      idx ← cursorIndex cursor (length addrs);
      addr ← addrs !! idx;
      Some (addr, counted (<[task := wrap64 (cursor + 1)]> (roundRobinCursor dr)))
  end.

Definition QueryAllDHT (task : string) (dr : DHTReg W) : option (list string * DHTReg W) :=
  '(addrs, w) ← Find decode_error now task (dhtNode dr) (net dr);
  Some (addrs, mkDHTReg (dhtNode dr) (bootstraps dr) w (roundRobinCursor dr) (regCount dr) (inc64 (queryCount dr)) (errorCount dr)).

Definition StatsDHT (dr : DHTReg W) : Z * Z * Z := (regCount dr, queryCount dr, errorCount dr).

(** The proxy's view of it; a call that would not return is an error here. *)
#[export] Instance DHTRegProxy : DHTRegistry (DHTReg W) := {|
  dht_Register := fun task address dr =>
    match RegisterDHT task address dr with Some x => x | None => (Err "no result"%string, dr) end;
  dht_Query := fun task dr =>
    match QueryDHT task dr with Some (a, dr') => (Ok a, dr') | None => (Err "no result"%string, dr) end;
  dht_QueryAll := fun task dr =>
    match QueryAllDHT task dr with Some (l, dr') => (Ok l, dr') | None => (Err "no result"%string, dr) end |}.

(** ** Snapshots *)

Record SnapshotT := mkSnapshot {
  snapNodeID : string; snapAddress : string; snapRingSize : nat; snapStorageSize : nat;
  snapPeers : list string; snapTasks : gmap string (list string) }.

Definition Snapshot (dr : DHTReg W) : SnapshotT :=
  let d := dhtNode dr in
  mkSnapshot (NodeIDToString (nodeID (GetSelf d))) (nodeAddress (GetSelf d)) (GetRingSize d) (GetStorageSize d)
             (nodeAddress <$> GetPeers d) (GetStorageSnapshot now d).

End Registry.

(** ** Round robin over the DHT *)

Section RoundRobin.
Context `{DHTConfig} {W : Type} `{PeerNet W}.
Variable decode_error : string -> string.
Variable now : Z.

Lemma cursorIndex_in c n : 0 <= c < int64_max -> (0 < n)%nat -> cursorIndex c n = Some (Z.to_nat c mod n)%nat.
Proof.
  intros Hc Hn. unfold cursorIndex, int64_max in *.
  rewrite (wrap64_id (c + 1)) by (unfold in_int64, int64_min, int64_max; lia).
  replace (c + 1 - 1) with c by lia. rewrite wrap64_id by (unfold in_int64, int64_min, int64_max; lia).
  rewrite Z.rem_mod_nonneg by lia. pose proof (Z.mod_pos_bound c (Z.of_nat n) ltac:(lia)).
  destruct (Z.ltb_spec (c mod Z.of_nat n) 0); [lia|]. f_equal.
  rewrite <- (Z2Nat.id c) at 1 by lia. rewrite <- Nat2Z.inj_mod. apply Nat2Z.id.
Qed.

Fixpoint queriesDHT (n : nat) (task : string) (dr : DHTReg W) : option (list string * DHTReg W) :=
  match n with
  | O => Some ([], dr)
  | S n => '(a, dr) ← QueryDHT decode_error now task dr; '(l, dr) ← queriesDHT n task dr; Some (a :: l, dr)
  end.

Lemma find_responsible task d (w : W) : dht_wf d -> amIInKClosestLocked task ReplicationFactor d = true ->
  activeAddresses (default [] (storage d !! task)) now ServiceHeartbeatTimeout <> [] ->
  Find decode_error now task d w = Some (activeAddresses (default [] (storage d !! task)) now ServiceHeartbeatTimeout, w).
Proof.
  intros Hd Hk Hne. unfold Find. rewrite FindK_ids by done. rewrite findLocal_total; [|done| |done].
  - rewrite locked_ids in Hk by done. rewrite Hk. by destruct (activeAddresses _ _ _).
  - intros x Hx%take_elem. by rewrite closestIDs_perm in Hx.
Qed.

Definition cursorOf (task : string) (dr : DHTReg W) : Z := default 0 (roundRobinCursor dr !! task).

Lemma query_turn task dr addrs : dht_wf (dhtNode dr) -> amIInKClosestLocked task ReplicationFactor (dhtNode dr) = true ->
  activeAddresses (default [] (storage (dhtNode dr) !! task)) now ServiceHeartbeatTimeout = addrs -> addrs <> [] ->
  0 <= cursorOf task dr < int64_max ->
  exists dr', QueryDHT decode_error now task dr = Some (default ""%string (addrs !! (Z.to_nat (cursorOf task dr) mod length addrs)%nat), dr') /\
    dhtNode dr' = dhtNode dr /\ cursorOf task dr' = cursorOf task dr + 1.
Proof.
  intros Hd Hk Ha Hne Hc. unfold QueryDHT. rewrite find_responsible by (try done; by rewrite Ha). rewrite Ha. cbn [mbind option_bind].
  assert (0 < length addrs)%nat by (destruct addrs; [done|simpl; lia]).
  assert (Hidx : (Z.to_nat (cursorOf task dr) mod length addrs < length addrs)%nat) by (apply Nat.mod_upper_bound; lia).
  destruct (lookup_lt_is_Some_2 addrs _ Hidx) as [x Hx].
  destruct addrs as [|y l]; [done|]. fold (cursorOf task dr). rewrite cursorIndex_in by done. cbn [mbind option_bind]. rewrite Hx.
  eexists. split; [reflexivity|]. split; [done|]. unfold cursorOf. cbn [roundRobinCursor]. rewrite lookup_insert_eq. cbn [default from_option id].
  fold (cursorOf task dr). apply wrap64_id. unfold in_int64, int64_min, int64_max in *. lia.
Qed.

Lemma queries_cycle n task dr addrs : dht_wf (dhtNode dr) -> amIInKClosestLocked task ReplicationFactor (dhtNode dr) = true ->
  activeAddresses (default [] (storage (dhtNode dr) !! task)) now ServiceHeartbeatTimeout = addrs -> addrs <> [] ->
  0 <= cursorOf task dr -> cursorOf task dr + Z.of_nat n <= int64_max ->
  exists dr', queriesDHT n task dr = Some
    ((fun i => default ""%string (addrs !! (i mod length addrs)%nat)) <$> seq (Z.to_nat (cursorOf task dr)) n, dr').
Proof.
  revert dr. induction n as [|n IH]; intros dr Hd Hk Ha Hne Hc Hm; [by eexists|]. cbn [queriesDHT].
  destruct (query_turn task dr addrs) as (dr1 & -> & Hn & Hcur); [done|done|done|done|lia|]. cbn [mbind option_bind].
  destruct (IH dr1) as (dr' & ->); rewrite ?Hn, ?Hcur; try done; [lia|lia|]. cbn [mbind option_bind]. exists dr'.
  rewrite Z2Nat.inj_add by lia. by rewrite Nat.add_comm.
Qed.

(** Queries on a responsible node take turns.  While the active addresses
    of a task do not change, as many consecutive queries as there are
    addresses return each of them once, wherever the cursor starts. *)
Theorem dht_round_robin task dr addrs :
  dht_wf (dhtNode dr) -> amIInKClosestLocked task ReplicationFactor (dhtNode dr) = true ->
  activeAddresses (default [] (storage (dhtNode dr) !! task)) now ServiceHeartbeatTimeout = addrs -> addrs <> [] ->
  0 <= cursorOf task dr -> cursorOf task dr + Z.of_nat (length addrs) <= int64_max ->
  exists answers dr', queriesDHT (length addrs) task dr = Some (answers, dr') /\ answers ≡ₚ addrs.
Proof.
  intros Hd Hk Ha Hne Hc Hm. destruct (queries_cycle (length addrs) task dr addrs) as (dr' & E); try done.
  do 2 eexists. split; [exact E|]. by apply cyclic_read.
Qed.

End RoundRobin.

#[local] Existing Instance default_config.

Definition demo_dr : DHTReg unit :=
  mkDHTReg (StoreTask 0 "t" "b:2" (StoreTask 0 "t" "a:1" (NewDHT 0 ":6000"))) [] tt {["t"%string := 5]} 0 0 0.

Lemma dht_round_robin_witness :
  exists answers dr', queriesDHT no_text 1 2 "t" demo_dr = Some (answers, dr') /\ answers ≡ₚ ["a:1"; "b:2"]%string.
Proof.
  apply (dht_round_robin no_text 1 "t" demo_dr ["a:1"; "b:2"]%string).
  - apply StoreTask_wf, StoreTask_wf, NewDHT_wf.
  - vm_compute. reflexivity.
  - vm_compute. reflexivity.
  - discriminate.
  - vm_compute. discriminate.
  - vm_compute. discriminate.
Defined.
