(* ===== verification/KnnDemo.v ===== *)
(** * test_scripts/p2p/knn_demo/main.go: the nearest nodes seen from outside

    The demonstration computes the nodes nearest to a task from the
    information a node publishes about itself, and chooses a task one of
    them keeps.  Its functions are compared with what the node itself
    computes. *)

From Stdlib Require Import Ascii String.
From S2P Require Import Prelude.
From stdpp Require Import list sorting.
From S2P Require Import GoStrings NetIP GoJSON Sha256 Ring RingFacts.
Local Open Scope Z_scope.

#[local] Opaque Sum256 HashAddress HashTask.

(** ** The functions *)

Record viewNode := mkView { vaddr : string; vid : NodeID }.

(** [selfAddr] and [peers] are what [GetDHTInfo] reports. *)
Definition getView (selfAddr : string) (peers : list string) : list viewNode := (fun a => mkView a (HashAddress a)) <$> selfAddr :: peers.

Definition kClosest (task : string) (view : list viewNode) (k : nat) : list string :=
  let taskID := HashTask task in
  let distances := (fun v => (vaddr v, Distance taskID (vid v))) <$> view in
  fst <$> take k (merge_sort by_dist distances).

Fixpoint contains (l : list string) (value : string) : bool :=
  match l with [] => false | item :: l => if String.eqb item value then true else contains l value end.

(** The search from [i] on, for at most [fuel] tasks *)
Fixpoint pickLoop (fuel : nat) (i : Z) (prefix : string) (view : list viewNode) (target : string) (k : nat) : string * list string :=
  match fuel with
  | O => let task := (prefix ++ "-fallback")%string in (task, kClosest task view k)
  | S fuel =>
      let task := (prefix ++ "-" ++ lit_of_int i)%string in
      let kclosest := kClosest task view k in
      if contains kclosest target then (task, kclosest) else pickLoop fuel (i + 1) prefix view target k
  end.

Definition pickTaskIncludingTarget (prefix : string) (view : list viewNode) (target : string) (k : nat) : string * list string :=
  pickLoop 5000 0 prefix view target k.

(** ** They agree with the node *)

Lemma contains_spec l x : contains l x = true <-> x ∈ l.
Proof.
  induction l as [|y l IH]; cbn [contains]; [split; [done|intros Hx; by apply not_elem_of_nil in Hx]|]. rewrite elem_of_cons.
  destruct (String.eqb_spec y x) as [->|Hne]; [by split; auto|]. rewrite IH. split; [by auto|]. by intros [->|].
Qed.

(** What a node publishes are the addresses of the ring. *)
Definition addressOf (d : DHT) (id : NodeID) : string := default ""%string (nodeAddress <$> nodeOf d id).

Lemma ring_addresses d ps : dht_wf d -> ps ≡ₚ nodeAddress <$> GetPeers d -> no_alias d ->
  getView (nodeAddress (self d)) ps ≡ₚ (fun id => mkView (addressOf d id) id) <$> ring d.
Proof.
  intros Hd Hps Ha. unfold getView. rewrite Hps, (wf_ring d Hd), ringOf_perm, !fmap_cons. unfold addressOf at 1, nodeOf at 1. rewrite Z.eqb_refl. cbn.
  rewrite <-(wf_self d Hd). f_equiv. unfold GetPeers. rewrite <-!list_fmap_compose. apply Permutation_refl', list_fmap_ext. intros i [id n] Hi.
  apply list_elem_of_lookup_2, elem_of_map_to_list in Hi. destruct (wf_peers d Hd id n Hi) as [_ Hid]. cbn. rewrite <-Hid. f_equal. unfold addressOf, nodeOf.
  destruct (Z.eqb_spec id (nodeID (self d))) as [->|]; [by rewrite Ha in Hi|by rewrite Hi].
Qed.

Lemma kClosest_ring task view k d : dht_wf d -> view ≡ₚ (fun id => mkView (addressOf d id) id) <$> ring d ->
  kClosest task view k = addressOf d <$> take k (closestIDs (HashTask task) (ring d)).
Proof.
  intros Hd Hv. unfold kClosest. set (t := HashTask task).
  assert (E : merge_sort by_dist ((fun v => (vaddr v, Distance t (vid v))) <$> view) =
    (fun id => (addressOf d id, Distance t id)) <$> closestIDs t (ring d)); [|by rewrite E, <-fmap_take, <-list_fmap_compose].
  rewrite <-sort_pairs by (apply HashTask_id || by apply ring_ids). apply (StronglySorted_unique_strong by_dist).
  - intros x1 x2. rewrite !merge_sort_Permutation, Hv, <-list_fmap_compose. pose proof (ring_ids d Hd) as Hids. rewrite Forall_forall in Hids.
    intros (a & -> & Ha)%list_elem_of_fmap (b & -> & Hb)%list_elem_of_fmap. unfold by_dist. cbn. intros H1 H2.
    assert (a = b) as ->; [|done]. apply (Distance_inj t); [apply HashTask_id|by apply Hids..|lia].
  - apply (StronglySorted_merge_sort _).
  - apply (StronglySorted_merge_sort _).
  - rewrite !merge_sort_Permutation, Hv, <-list_fmap_compose. done.
Qed.

Lemma pickLoop_spec fuel i prefix view target k : let '(task, kc) := pickLoop fuel i prefix view target k in
  kc = kClosest task view k /\ (target ∈ kc \/ task = (prefix ++ "-fallback")%string).
Proof.
  revert i. induction fuel as [|fuel IH]; intros i; cbn [pickLoop]; [by auto|].
  destruct (contains _ target) eqn:E; [apply contains_spec in E; by auto|apply IH].
Qed.

(** The nearest nodes computed from outside are the node's own.  For a
    well-formed node, from the addresses it publishes in whatever order,
    [kClosest] gives the addresses of exactly the nodes, in the order, that
    [FindKClosestNodes] gives; so for the task [pickTaskIncludingTarget]
    returns, unless it is the fallback, the node counts the target among the
    [k] it would store the task at. *)
Theorem outside_view_agrees d ps task k prefix target : dht_wf d -> no_alias d -> ps ≡ₚ nodeAddress <$> GetPeers d ->
  let view := getView (nodeAddress (self d)) ps in
  Some <$> kClosest task view k = fmap nodeAddress <$> FindKClosestNodes task k d /\
  let '(picked, kc) := pickTaskIncludingTarget prefix view target k in
  Some <$> kc = fmap nodeAddress <$> FindKClosestNodes picked k d /\
  (picked <> (prefix ++ "-fallback")%string -> exists n, Some n ∈ FindKClosestNodes picked k d /\ nodeAddress n = target).
Proof.
  intros Hd Ha Hps view. pose proof (ring_addresses d ps Hd Hps Ha) as Hv. fold view in Hv.
  assert (Hk : forall task, Some <$> kClosest task view k = fmap nodeAddress <$> FindKClosestNodes task k d).
  { intros t. rewrite (kClosest_ring t view k d Hd Hv), FindK_ids, <-!list_fmap_compose by done. apply list_fmap_ext.
    intros i id Hi. apply list_elem_of_lookup_2, take_elem in Hi. rewrite closestIDs_perm in Hi. cbn. unfold addressOf.
    destruct (nodeOf_ring d id Hd Hi) as (n & -> & _). done. }
  split; [apply Hk|]. unfold pickTaskIncludingTarget. pose proof (pickLoop_spec 5000 0 prefix view target k) as Hp.
  destruct (pickLoop 5000 0 prefix view target k) as [picked kc]. destruct Hp as [-> Ht]. split; [apply Hk|]. intros Hne. destruct Ht as [Ht|]; [|done].
  assert (Hin : Some target ∈ Some <$> kClosest picked view k) by (apply list_elem_of_fmap; by exists target).
  rewrite Hk in Hin. apply list_elem_of_fmap in Hin as ([n|] & E & Hn); [|discriminate E]. injection E as E. by exists n.
Qed.

(** ** A node with two peers *)

Definition demo_node : DHT := AddPeer 1 "10.0.0.3:6000" (AddPeer 1 "10.0.0.2:6000" (NewDHT 0 "10.0.0.1:6000")).

Lemma outside_view_agrees_witness :
  Some <$> kClosest "svc-0" (getView (nodeAddress (self demo_node)) (nodeAddress <$> GetPeers demo_node)) 2 =
  fmap nodeAddress <$> FindKClosestNodes "svc-0" 2 demo_node.
Proof.
  refine (proj1 (outside_view_agrees demo_node (nodeAddress <$> GetPeers demo_node) "svc-0" 2 "svc" "10.0.0.2:6000" _ _ _)).
  - apply AddPeer_wf, AddPeer_wf, NewDHT_wf.
  - vm_compute. reflexivity.
  - reflexivity.
Defined.
