(* ===== verification/SQL.v ===== *)
(** * database/sql over PostgreSQL, as the simulation's card store uses it

    A connection pool in front of one database, whose tables are a value of
    any type [T].  The class [Server] is everything the database decides: what
    becomes of each statement, the time it runs at, the order in which it
    returns rows no [ORDER BY] fixes, what a timestamp column keeps, the
    collation, and the next value of a serial column.  Statements are numbered
    by [tick], so that every one has its own fate.  A [Tx] works on a copy of
    the tables that [Commit] installs; an error inside it aborts it, and a
    finished one refuses every statement. *)

From S2P Require Import Prelude.
From stdpp Require Import list sorting.

(** What becomes of a statement: it runs; it fails before it runs; it runs
    and the answer is lost; or its rows break off after the first [n]. *)
Inductive fault := Runs | Lost | AckLost | Cut (n : nat).

Inductive SQLError := Failed | ErrNoRows | ErrTxDone | ContextDone.

Class Server := {
  fault_at : nat -> fault;
  now_at : nat -> Z;
  cancelled_at : nat -> bool;
  serial_at : nat -> Z;
  stored_time : Z -> Z;
  row_order : nat -> forall A, list A -> list A;
  row_order_perm : forall n A (l : list A), row_order n A l ≡ₚ l;
  text_le : relation string;
  text_le_dec :: RelDecision text_le;
  text_le_total :: Total text_le;
  text_le_trans :: Transitive text_le;
  text_le_antisym :: AntiSymm eq text_le }.

Record DB (T : Type) := mkDB { tables : T; tick : nat }.
Arguments mkDB {T}. Arguments tables {T}. Arguments tick {T}.

Record Tx (T : Type) := mkTx { work : T; aborted : bool; done : bool }.
Arguments mkTx {T}. Arguments work {T}. Arguments aborted {T}. Arguments done {T}.

Create HintDb sql.

(** Calls that return [(A, error)] and act on a state *)
Notation Call S A := (S -> result SQLError A * S).

Definition bind {S A B} (m : Call S A) (k : A -> Call S B) : Call S B := fun s =>
  match m s with
  | (Ok a, s) => k a s
  | (Err e, s) => (Err e, s)
  end.

Definition ret {S A} (a : A) : Call S A := fun s => (Ok a, s).
Definition fail {S A} (e : SQLError) : Call S A := fun s => (Err e, s).

Notation "x <- m ;; k" := (bind m (fun x => k)) (at level 100, m at next level, right associativity) : tds_scope.
Notation "m ;;; k" := (bind m (fun _ => k)) (at level 100, right associativity) : tds_scope.

(** [for _, x := range xs { if err := f(x); err != nil { return err } }] *)
Fixpoint forRange {S A} (f : A -> Call S unit) (xs : list A) : Call S unit :=
  match xs with
  | [] => ret tt
  | x :: xs => bind (f x) (fun _ => forRange f xs)
  end.

Section SQL.
Context `{Server} {T : Type}.
Implicit Types db : DB T.

(** One statement outside a transaction; [None] is an error of its own (a
    violated constraint, a value out of range). *)
Definition run {A} (f : nat -> T -> option (A * T)) : Call (DB T) A := fun db =>
  let n := tick db in
  match f n (tables db), fault_at n with
  | Some (a, t), Runs => (Ok a, mkDB t (S n))
  | Some (_, t), AckLost => (Err Failed, mkDB t (S n))
  | _, _ => (Err Failed, mkDB (tables db) (S n))
  end.

Definition ExecContext (f : nat -> T -> option T) : Call (DB T) unit :=
  run (fun n t => (fun t' => (tt, t')) <$> f n t).

(** [QueryContext], every row scanned, and [rows.Err()] checked *)
Definition QueryAll {A} (f : nat -> T -> list A) : Call (DB T) (list A) :=
  run (fun n t => Some (f n t, t)).

(** The same without the check of [rows.Err()]: rows that break off look like
    fewer rows. *)
Definition QueryUnchecked {A} (f : nat -> T -> list A) : Call (DB T) (list A) := fun db =>
  match fault_at (tick db) with
  | Cut n => (Ok (take n (f (tick db) (tables db))), mkDB (tables db) (S (tick db)))
  | _ => QueryAll f db
  end.

(** [QueryRowContext(...).Scan]: the first row *)
Definition QueryRow {A} (f : nat -> T -> list A) : Call (DB T) A :=
  bind (QueryAll f) (fun rows => match rows with [] => fail ErrNoRows | a :: _ => ret a end).

(** ** Transactions *)

Definition BeginTx : Call (DB T) (Tx T) := run (fun _ t => Some (mkTx t false false, t)).

Definition Rollback (tx : Tx T) : Tx T := mkTx (work tx) (aborted tx) true.

Definition txRun {A} (f : nat -> T -> option (A * T)) : Call (Tx T * DB T) A := fun '(tx, db) =>
  let n := tick db in
  let db' := mkDB (tables db) (S n) in
  if done tx then (Err ErrTxDone, (tx, db))
  else if aborted tx then (Err Failed, (tx, db'))
  else match f n (work tx), fault_at n with
       | Some (a, t), Runs => (Ok a, (mkTx t false false, db'))
       | _, _ => (Err Failed, (mkTx (work tx) true false, db'))
       end.

Definition txExec (f : nat -> T -> option T) : Call (Tx T * DB T) unit :=
  txRun (fun n t => (fun t' => (tt, t')) <$> f n t).

Definition txQueryUnchecked {A} (f : nat -> T -> list A) : Call (Tx T * DB T) (list A) := fun '(tx, db) =>
  match fault_at (tick db) with
  | Cut n =>
      if done tx || aborted tx then txRun (fun n t => Some (f n t, t)) (tx, db)
      else (Ok (take n (f (tick db) (work tx))), (mkTx (work tx) true false, mkDB (tables db) (S (tick db))))
  | _ => txRun (fun n t => Some (f n t, t)) (tx, db)
  end.

Definition txQueryRow {A} (f : nat -> T -> list A) : Call (Tx T * DB T) A :=
  bind (txRun (fun n t => Some (f n t, t))) (fun rows => match rows with [] => fail ErrNoRows | a :: _ => ret a end).

Definition Commit (tx : Tx T) : Call (DB T) unit := fun db =>
  let n := tick db in
  if done tx then (Err ErrTxDone, db)
  else match fault_at n with
       | Runs => if aborted tx then (Err Failed, mkDB (tables db) (S n)) else (Ok tt, mkDB (work tx) (S n))
       | AckLost => (Err Failed, mkDB (if aborted tx then tables db else work tx) (S n))
       | _ => (Err Failed, mkDB (tables db) (S n))
       end.
End SQL.

(** ** Sums over the rows of a table *)

Section Sum.
Context {K V : Type} `{Countable K}.
Implicit Types (m : gmap K V) (f : V -> Z).

Definition msum f m : Z := map_fold (fun _ v acc => (f v + acc)%Z) 0%Z m.

Lemma msum_empty f : msum f ∅ = 0%Z.
Proof. apply map_fold_empty. Qed.

Lemma msum_delete f m k v : m !! k = Some v -> msum f m = (f v + msum f (delete k m))%Z.
Proof. intros E. unfold msum. rewrite (map_fold_delete_L _ _ k v m); [done|intros; lia|done]. Qed.

Lemma msum_insert f m k v : m !! k = None -> msum f (<[k := v]> m) = (f v + msum f m)%Z.
Proof. intros E. unfold msum. rewrite map_fold_insert_L; [done|intros; lia|done]. Qed.

Lemma msum_alter f g m k v : m !! k = Some v -> msum f (alter g k m) = (msum f m - f v + f (g v))%Z.
Proof.
  intros E. rewrite (msum_delete f (alter g k m) k (g v)) by (by rewrite lookup_alter_eq, E).
  rewrite delete_alter_eq, (msum_delete f m k v E). lia.
Qed.

Lemma msum_ext f g m : (forall k v, m !! k = Some v -> f v = g v) -> msum f m = msum g m.
Proof.
  induction m as [|k v m E IH] using map_ind; intros Hfg; [by rewrite !msum_empty|].
  rewrite !msum_insert by done. rewrite (Hfg k v) by apply lookup_insert_eq. f_equal. apply IH.
  intros k' v' E'. apply (Hfg k'). rewrite lookup_insert_ne; [done|congruence].
Qed.

Lemma msum_nonneg f m : (forall k v, m !! k = Some v -> 0 <= f v)%Z -> (0 <= msum f m)%Z.
Proof.
  induction m as [|k v m E IH] using map_ind; intros Hf; [by rewrite msum_empty|].
  rewrite msum_insert by done. assert (0 <= f v)%Z by (apply (Hf k), lookup_insert_eq).
  assert (0 <= msum f m)%Z; [|lia]. apply IH. intros k' v' E'. apply (Hf k'). rewrite lookup_insert_ne; [done|congruence].
Qed.
End Sum.

(** ** What a call that returns has done *)

Section Facts.
Context `{Server} {T : Type}.
Implicit Types (db : DB T) (tx : Tx T).

Lemma bind_Ok {S A B} (m : Call S A) (k : A -> Call S B) s b s' :
  bind m k s = (Ok b, s') -> exists a s1, m s = (Ok a, s1) /\ k a s1 = (Ok b, s').
Proof. unfold bind. destruct (m s) as [[a|e] s1]; intros E; [by exists a, s1|done]. Qed.

Lemma bind_runs {S A B} (m : Call S A) (k : A -> Call S B) s a s1 : m s = (Ok a, s1) -> bind m k s = k a s1.
Proof. intros E. unfold bind. by rewrite E. Qed.

(** Outside a transaction a statement leaves the tables it computes, or the
    old ones; when it succeeds, the former. *)
Lemma run_spec {A} (f : nat -> T -> option (A * T)) db r db' : run f db = (r, db') ->
  (tables db' = tables db \/ exists a, f (tick db) (tables db) = Some (a, tables db')) /\
  (forall a, r = Ok a -> f (tick db) (tables db) = Some (a, tables db')).
Proof.
  unfold run. intros E. destruct (f (tick db) (tables db)) as [[a t]|] eqn:Ef; 
    [|injection E as <- <-; split; [by left|by intros ? ?]].
  destruct (fault_at (tick db)); injection E as <- <-; simpl;
    (split; [by eauto|intros ? Ha; by simplify_eq]).
Qed.

Lemma QueryAll_spec {A} (f : nat -> T -> list A) db r db' : QueryAll f db = (r, db') ->
  tables db' = tables db /\ (forall a, r = Ok a -> a = f (tick db) (tables db)).
Proof.
  intros E. destruct (run_spec _ _ _ _ E) as [H1 H2]. split.
  - destruct H1 as [->|[a [= _ <-]]]; done.
  - intros a Ha. specialize (H2 a Ha). congruence.
Qed.

Lemma QueryAll_runs {A} (f : nat -> T -> list A) db : fault_at (tick db) = Runs ->
  QueryAll f db = (Ok (f (tick db) (tables db)), mkDB (tables db) (S (tick db))).
Proof. intros E. unfold QueryAll, run. by rewrite E. Qed.

Lemma BeginTx_spec db r db' : BeginTx db = (r, db') ->
  tables db' = tables db /\ (forall tx, r = Ok tx -> tx = mkTx (tables db) false false).
Proof.
  intros E. unfold BeginTx in E. destruct (run_spec _ _ _ _ E) as [H1 H2]. split.
  - destruct H1 as [->|[a [= _ <-]]]; done.
  - intros tx Htx. specialize (H2 tx Htx). congruence.
Qed.

Lemma txRun_spec {A} (f : nat -> T -> option (A * T)) tx db r tx' db' : txRun f (tx, db) = (r, (tx', db')) ->
  tables db' = tables db /\
  match r with
  | Ok a => done tx = false /\ aborted tx = false /\ f (tick db) (work tx) = Some (a, work tx') /\
            aborted tx' = false /\ done tx' = false
  | Err e => work tx' = work tx /\ (e = ErrNoRows -> False)
  end.
Proof.
  unfold txRun. destruct (done tx) eqn:Ed; [by intros [= <- <- <-]|].
  destruct (aborted tx) eqn:Ea; [by intros [= <- <- <-]|].
  destruct (f (tick db) (work tx)) as [[a t]|] eqn:Ef; [|by intros [= <- <- <-]].
  destruct (fault_at (tick db)); by intros [= <- <- <-].
Qed.

Lemma txRun_runs {A} (f : nat -> T -> option (A * T)) t db a t' : fault_at (tick db) = Runs ->
  f (tick db) t = Some (a, t') ->
  txRun f (mkTx t false false, db) = (Ok a, (mkTx t' false false, mkDB (tables db) (S (tick db)))).
Proof. intros E Ef. unfold txRun. simpl. by rewrite Ef, E. Qed.

Lemma txExec_Ok (f : nat -> T -> option T) tx db u tx' db' : txExec f (tx, db) = (Ok u, (tx', db')) ->
  tables db' = tables db /\ f (tick db) (work tx) = Some (work tx') /\ aborted tx' = false /\ done tx' = false.
Proof.
  intros E%txRun_spec. destruct E as (Ht & _ & _ & Ef & Ha & Hd). split_and!; [done| |done..].
  destruct (f (tick db) (work tx)); [|done]. simpl in Ef. congruence.
Qed.

Lemma txQueryRow_spec {A} (f : nat -> T -> list A) tx db r tx' db' : txQueryRow f (tx, db) = (r, (tx', db')) ->
  tables db' = tables db /\ work tx' = work tx /\
  match r with
  | Ok a => a ∈ f (tick db) (work tx) /\ aborted tx' = false /\ done tx' = false
  | Err e => e = ErrNoRows -> f (tick db) (work tx) = [] /\ aborted tx' = false /\ done tx' = false
  end.
Proof.
  unfold txQueryRow, bind. destruct (txRun _ (tx, db)) as [r1 [tx1 db1]] eqn:E. apply txRun_spec in E as [Ht E].
  destruct r1 as [rows|e]; [|intros [= <- <- <-]; split_and!; [done|apply E|intros ->; by destruct E as [_ []]]].
  destruct E as (_ & _ & [= Hr Hw] & Ha & Hd). destruct rows as [|a rows]; intros [= <- <- <-]; split_and!; try done.
  rewrite Hr. left.
Qed.

Lemma txQueryUnchecked_spec {A} (f : nat -> T -> list A) tx db r tx' db' :
  txQueryUnchecked f (tx, db) = (r, (tx', db')) ->
  tables db' = tables db /\ work tx' = work tx /\
  (forall rows, r = Ok rows -> done tx' = false /\ exists k, rows = take k (f (tick db) (work tx)) ).
Proof.
  assert (Hrun : forall r tx' db', txRun (fun n t => Some (f n t, t)) (tx, db) = (r, (tx', db')) ->
    tables db' = tables db /\ work tx' = work tx /\
    (forall rows, r = Ok rows -> done tx' = false /\ exists k, rows = take k (f (tick db) (work tx)))).
  { intros r0 tx0 db0 E%txRun_spec. destruct E as [Ht E]. destruct r0 as [a|e].
    - destruct E as (_ & _ & [= <- <-] & _ & Hd). split_and!; [done..|]. intros rows [= <-]. split; [done|].
      exists (length (f (tick db) (work tx))). by rewrite firstn_all.
    - by destruct E as [-> _]. }
  unfold txQueryUnchecked. destruct (fault_at (tick db)) as [| | |n]; try apply Hrun.
  destruct (done tx || aborted tx); [apply Hrun|]. intros [= <- <- <-]. split_and!; [done..|].
  intros rows [= <-]. by eauto.
Qed.

(** No statement of a transaction changes the database's tables. *)
Definition isolated {A} (m : Call (Tx T * DB T) A) : Prop := forall s, tables (m s).2.2 = tables s.2.

Lemma isolated_ret {A} (a : A) : isolated (ret a).
Proof. done. Qed.
Lemma isolated_bind {A B} (m : Call (Tx T * DB T) A) (k : A -> Call (Tx T * DB T) B) :
  isolated m -> (forall a, isolated (k a)) -> isolated (bind m k).
Proof.
  intros Hm Hk s. unfold bind. specialize (Hm s). destruct (m s) as [[a|e] s1]; [|done].
  by rewrite (Hk a s1).
Qed.
Lemma isolated_txRun {A} (f : nat -> T -> option (A * T)) : isolated (txRun f).
Proof. intros [tx db]. destruct (txRun f (tx, db)) as [r [tx' db']] eqn:E. by apply txRun_spec in E as [? _]. Qed.
Lemma isolated_txQueryRow {A} (f : nat -> T -> list A) : isolated (txQueryRow f).
Proof. intros [tx db]. destruct (txQueryRow f (tx, db)) as [r [tx' db']] eqn:E. by apply txQueryRow_spec in E as [? _]. Qed.

(** A commit installs the transaction's tables, or nothing. *)
Lemma Commit_spec tx db r db' : Commit tx db = (r, db') ->
  (tables db' = tables db \/ done tx = false /\ tables db' = work tx) /\
  (r = Ok tt -> tables db' = work tx).
Proof.
  unfold Commit. destruct (done tx); [intros [= <- <-]; split; [by left|by intros ?]|].
  destruct (fault_at (tick db)); [destruct (aborted tx)| |destruct (aborted tx)|]; intros [= <- <-]; simpl;
    (split; [by auto|by intros ?]).
Qed.
End Facts.
#[export] Hint Resolve isolated_ret isolated_bind isolated_txRun isolated_txQueryRow : sql.

(** ** A server for examples: a fault schedule, the steps as its clock *)
Program Definition demo_server (faults : list fault) : Server := {|
  fault_at := fun n => default Runs (faults !! n);
  now_at := fun n => Z.of_nat n;
  cancelled_at := fun _ => false;
  serial_at := fun n => Z.of_nat n;
  stored_time := fun t => (t / 1000 * 1000)%Z;
  row_order := fun _ _ l => l;
  text_le := String.le |}.
Solve Obligations with done.
