(* ===== verification/Migrate.v ===== *)
(** * pkg/store/postgres/postgres.go: opening the store and its migration

    [Migrate] creates the table [services] or brings an older one up to date,
    in one transaction.  The table is modelled with its columns: a row is a
    finite map from column names to values, an absent column is NULL.  The
    theorems connect it to Postgres, where the table is a finite map on its
    unique index. *)

From Stdlib Require Import Ascii String.
From S2P Require Import Prelude.
From stdpp Require Import list sorting.
From S2P Require Import Registry Store Postgres SQL.
Local Open Scope Z_scope.
Local Open Scope tds_scope.

(** ** Opening *)

Inductive OpenError := OpenFailed | PingFailed.

(** [opened] and [pinged]: whether [sql.Open] takes the DSN and the database answers *)
Definition NewPostgresStore (opened pinged : bool) (tbl : gmap (string * string) Row) (now : Z) (schedule : list Postgres.fault)
  : result OpenError PostgresStore :=
  if negb opened then Err OpenFailed else if negb pinged then Err PingFailed else Ok (mkPG tbl ∅ now schedule).

(** ** Values, rows and tables *)

Inductive value := VId (z : Z) | VText (s : string) | VTime (z : Z) | VInt (z : Z) | VBool (b : bool).

#[export] Instance value_eq_dec : EqDecision value.
Proof. solve_decision. Defined.

Record Relation := mkRelation {
  columns : gset string;
  tuples : list (gmap string value);
  indexes : gset string }.

(** The schema: no table yet, or a table *)
Abbreviation Schema := (option Relation).

(** ** The statements *)

Inductive ddl :=
| CreateTable
| AddColumn (name : string) (default : Z -> value)
| CreateUnique (name : string) (cols : list string)
| CreateIndex (name : string) (cols : list string).

(** The columns of [CREATE TABLE] *)
Definition baseColumns : list string := ["id"; "task"; "address"; "last_heartbeat"]%string.
Definition laterColumns : list (string * (Z -> value)) :=
  [("query_count", fun _ => VInt 0); ("capacity", fun _ => VInt 1); ("is_active", fun _ => VBool true);
   ("created_at", VTime); ("updated_at", VTime)]%string.

Definition uniqueIndex : string := "idx_services_task_address_unique".

Definition statements : list ddl :=
  CreateTable :: ((fun cd => AddColumn cd.1 cd.2) <$> laterColumns) ++
  [CreateUnique uniqueIndex ["task"; "address"]; CreateIndex "idx_services_task" ["task"];
   CreateIndex "idx_services_last_heartbeat" ["last_heartbeat"]; CreateIndex "idx_services_is_active" ["is_active"]]%string.

Definition key (cols : list string) (r : gmap string value) : list (option value) := (fun c => r !! c) <$> cols.

(** Two rows with a NULL in the key do not conflict. *)
Fixpoint conflict (keys : list (list (option value))) : bool :=
  match keys with
  | [] => false
  | k :: ks => (bool_decide (None ∉ k) && bool_decide (k ∈ ks)) || conflict ks
  end.

Definition add_index (name : string) (cols : list string) (unique : bool) (r : Relation) : option Relation :=
  if bool_decide (name ∈ indexes r) then Some r
  else if negb (forallb (fun c => bool_decide (c ∈ columns r)) cols) then None
  else if unique && conflict (key cols <$> tuples r) then None
  else Some (mkRelation (columns r) (tuples r) ({[name]} ∪ indexes r)).

(** What a statement makes of the schema; [None] is an error *)
Definition execDDL (now : Z) (stmt : ddl) (s : Schema) : option Schema :=
  match stmt, s with
  | CreateTable, None => Some (Some (mkRelation (list_to_set (baseColumns ++ (fst <$> laterColumns))) [] {["services_pkey"%string]}))
  | CreateTable, Some r => Some (Some r)
  | _, None => None
  | AddColumn name default, Some r =>
      if bool_decide (name ∈ columns r) then Some (Some r)
      else Some (Some (mkRelation ({[name]} ∪ columns r) (insert name (default now) <$> tuples r) (indexes r)))
  | CreateUnique name cols, Some r => Some <$> add_index name cols true r
  | CreateIndex name cols, Some r => Some <$> add_index name cols false r
  end.

Section Migrate.
Context `{Server}.

(** The deferred rollback after an error leaves the tables as they are.
    [NOW()] is the time the transaction began. *)
Definition Migrate : Call (DB Schema) unit := fun db =>
  match BeginTx db with
  | (Err e, db1) => (Err e, db1)
  | (Ok tx, db1) =>
      match forRange (fun stmt => txExec (fun _ s => execDDL (now_at (tick db)) stmt s)) statements (tx, db1) with
      | (Err e, (_, db2)) => (Err e, db2)
      | (Ok _, (tx, db2)) => Commit tx db2
      end
  end.
End Migrate.

(** ** Well-formed tables *)

Definition columnType (c : string) (v : value) : bool :=
  match v with
  | VId _ => String.eqb c "id"
  | VText _ => bool_decide (c ∈ ["task"; "address"]%string)
  | VTime _ => bool_decide (c ∈ ["last_heartbeat"; "created_at"; "updated_at"]%string)
  | VInt _ => bool_decide (c ∈ ["query_count"; "capacity"]%string)
  | VBool _ => String.eqb c "is_active"
  end.

Definition allColumns : list string := baseColumns ++ (fst <$> laterColumns).

(** Every row has a value of its type in every known column the table has. *)
Record relation_ok (r : Relation) : Prop := {
  ro_base : forall c, c ∈ baseColumns -> c ∈ columns r;
  ro_rows : forall t c, t ∈ tuples r -> c ∈ allColumns -> c ∈ columns r -> exists v, t !! c = Some v /\ columnType c v = true;
  ro_unique : uniqueIndex ∈ indexes r -> NoDup (key ["task"; "address"]%string <$> tuples r) }.

Definition schema_ok (s : Schema) : Prop := match s with None => True | Some r => relation_ok r end.

(** What the code relies on: all columns, and the unique index *)
Definition migrated (s : Schema) : Prop :=
  match s with
  | None => False
  | Some r => (forall c, c ∈ allColumns -> c ∈ columns r) /\
      (forall i, i ∈ [uniqueIndex; "idx_services_task"; "idx_services_last_heartbeat"; "idx_services_is_active"]%string -> i ∈ indexes r)
  end.

(** [s'] has the rows of [s], in order, with every value they had; it adds
    the defaults of the new columns. *)
Definition kept_by (l : list (string * (Z -> value))) (now : Z) (old : gset string) (t t' : gmap string value) : Prop :=
  forall c, t' !! c = match list_to_map (M := gmap string _) l !! c with
                      | Some d => if bool_decide (c ∈ old) then t !! c else Some (d now)
                      | None => t !! c
                      end.
Definition row_kept : Z -> gset string -> gmap string value -> gmap string value -> Prop := kept_by laterColumns.
Definition rows_kept (now : Z) (s s' : Schema) : Prop :=
  match s, s' with
  | None, Some r' => tuples r' = []
  | Some r, Some r' => Forall2 (row_kept now (columns r)) (tuples r) (tuples r')
  | _, None => False
  end.

(** The finite map Postgres works on *)
Definition readRow (t : gmap string value) : option ((string * string) * Row) :=
  match t !! "task", t !! "address", t !! "last_heartbeat", t !! "query_count", t !! "capacity", t !! "is_active", t !! "updated_at" with
  | Some (VText task), Some (VText addr), Some (VTime hb), Some (VInt qc), Some (VInt cap), Some (VBool act), Some (VTime upd) =>
      Some ((task, addr), mkRow hb qc cap act upd)
  | _, _, _, _, _, _, _ => None
  end%string.
Definition loadTable (r : Relation) : gmap (string * string) Row := list_to_map (omap readRow (tuples r)).

(** ** What the statements do *)

Definition runDDL (now : Z) (l : list ddl) (s : Schema) : option Schema := foldl (fun acc stmt => acc ≫= execDDL now stmt) (Some s) l.

Lemma runDDL_None now l : foldl (fun acc stmt => acc ≫= execDDL now stmt) None l = None.
Proof. by induction l. Qed.

Lemma runDDL_cons now stmt l s : runDDL now (stmt :: l) s = execDDL now stmt s ≫= runDDL now l.
Proof. unfold runDDL. cbn. destruct (execDDL now stmt s); [done|apply runDDL_None]. Qed.

Lemma runDDL_app now l l' s : runDDL now (l ++ l') s = runDDL now l s ≫= runDDL now l'.
Proof. unfold runDDL. rewrite foldl_app. destruct (foldl _ (Some s) l); [done|apply runDDL_None]. Qed.

(** New columns *)

Definition addColumn (now : Z) (r : Relation) (cd : string * (Z -> value)) : Relation :=
  if bool_decide (cd.1 ∈ columns r) then r
  else mkRelation ({[cd.1]} ∪ columns r) (insert cd.1 (cd.2 now) <$> tuples r) (indexes r).

Lemma runDDL_columns now l r : runDDL now ((fun cd => AddColumn cd.1 cd.2) <$> l) (Some r) = Some (Some (foldl (addColumn now) r l)).
Proof.
  revert r. induction l as [|cd l IH]; intros r; [done|]. rewrite fmap_cons, runDDL_cons. cbn [execDDL foldl].
  assert (E : (if bool_decide (cd.1 ∈ columns r) then Some (Some r) else _) = Some (Some (addColumn now r cd))) by (unfold addColumn; by case_bool_decide).
  rewrite E. apply IH.
Qed.

Lemma addColumns_spec now l r : NoDup (fst <$> l) -> let r' := foldl (addColumn now) r l in
  (forall c, c ∈ columns r' <-> c ∈ columns r \/ c ∈ fst <$> l) /\ indexes r' = indexes r /\ Forall2 (kept_by l now (columns r)) (tuples r) (tuples r').
Proof.
  revert r. induction l as [|[c0 d0] l IH]; intros r Hnd; cbn [foldl].
  { split_and!; [intros c; set_solver|done|]. apply Forall_Forall2_diag, Forall_true. by intros t c. }
  rewrite fmap_cons in *. apply NoDup_cons in Hnd as [Hc0 Hnd]. cbn [fst] in Hc0.
  assert (Hno : list_to_map (M := gmap string _) l !! c0 = None) by (by apply not_elem_of_list_to_map).
  assert (H1 : (c0 ∈ columns r /\ addColumn now r (c0, d0) = r) \/ (c0 ∉ columns r /\
    addColumn now r (c0, d0) = mkRelation ({[c0]} ∪ columns r) (insert c0 (d0 now) <$> tuples r) (indexes r)))
    by (unfold addColumn; cbn [fst snd]; case_bool_decide; auto).
  destruct (IH (addColumn now r (c0, d0)) Hnd) as (Hcols & Hidx & Hrows). destruct H1 as [[Hin E]|[Hin E]]; rewrite E in *; cbn [columns tuples indexes] in *.
  - split_and!; [intros c; rewrite Hcols; set_solver|done|]. eapply Forall2_impl; [exact Hrows|]. intros t t' Ht c. rewrite Ht. cbn [list_to_map foldr fst snd].
    destruct (decide (c = c0)) as [->|]; [by rewrite lookup_insert_eq, Hno, bool_decide_eq_true_2|by rewrite lookup_insert_ne].
  - split_and!; [intros c; rewrite Hcols; set_solver|done|]. rewrite Forall2_fmap_l in Hrows. eapply Forall2_impl; [exact Hrows|].
    intros t t' Ht c. rewrite Ht. cbn [list_to_map foldr fst snd]. destruct (decide (c = c0)) as [->|].
    + by rewrite !lookup_insert_eq, Hno, bool_decide_eq_false_2.
    + rewrite !lookup_insert_ne by done. destruct (list_to_map l !! c); [|done].
      by rewrite (bool_decide_ext (c ∈ {[c0]} ∪ columns r) (c ∈ columns r)) by set_solver.
Qed.

(** Indexes *)

Lemma conflict_spec ks : Forall (fun k => None ∉ k) ks -> conflict ks = false <-> NoDup ks.
Proof.
  induction 1 as [|k ks Hk _ IH]; cbn [conflict]; [split; [constructor|done]|].
  rewrite NoDup_cons, orb_false_iff, IH, (bool_decide_eq_true_2 _ Hk). cbn [andb]. by rewrite bool_decide_eq_false.
Qed.

Lemma add_index_spec name cols unique r r' : add_index name cols unique r = Some r' ->
  columns r' = columns r /\ tuples r' = tuples r /\ (forall i, i ∈ indexes r' <-> i = name \/ i ∈ indexes r) /\
  (unique = true -> name ∉ indexes r -> conflict (key cols <$> tuples r) = false).
Proof.
  unfold add_index. case_bool_decide as Hin; [intros [= <-]; split_and!; [done..|set_solver|done]|]. destruct (negb _); [done|].
  destruct (unique && _) eqn:Ec; [done|]. intros [= <-]. cbn [columns tuples indexes]. split_and!; [done..|set_solver|].
  intros -> _. exact Ec.
Qed.

Lemma add_index_runs name cols unique r : (forall c, c ∈ cols -> c ∈ columns r) ->
  (unique = true -> name ∉ indexes r -> conflict (key cols <$> tuples r) = false) -> exists r', add_index name cols unique r = Some r'.
Proof.
  intros Hc Hu. unfold add_index. case_bool_decide as Hin; [by eexists|].
  replace (forallb _ cols) with true; [|symmetry; apply forallb_forall; intros c Hx; apply bool_decide_eq_true, Hc, list_elem_of_In, Hx].
  cbn [negb]. destruct unique; [|by eexists]. rewrite Hu by done. by eexists.
Qed.

(** ** The migration of a table *)

Definition svcKey : gmap string value -> list (option value) := key ["task"; "address"]%string.

Lemma key_present r : relation_ok r -> Forall (fun k => None ∉ k) (svcKey <$> tuples r).
Proof.
  intros Hr. apply Forall_fmap, Forall_forall. intros t Ht. unfold svcKey, key, compose. cbn [fmap list_fmap].
  destruct (ro_rows r Hr t "task") as (v & -> & _); [done|set_solver|apply (ro_base r Hr); set_solver|].
  destruct (ro_rows r Hr t "address") as (v' & -> & _); [done|set_solver|apply (ro_base r Hr); set_solver|]. set_solver.
Qed.

Lemma later_typed now c d : (c, d) ∈ laterColumns -> columnType c (d now) = true.
Proof. unfold laterColumns. rewrite !elem_of_cons, elem_of_nil. intros [E|[E|[E|[E|[E|[]]]]]]; by injection E as -> ->. Qed.

Lemma later_lookup c : match list_to_map (M := gmap string _) laterColumns !! c with Some d => (c, d) ∈ laterColumns | None => c ∉ fst <$> laterColumns end.
Proof.
  destruct (list_to_map laterColumns !! c) as [d|] eqn:E; [by apply elem_of_list_to_map_2|by apply not_elem_of_list_to_map].
Qed.

Lemma base_not_later c : c ∈ baseColumns -> list_to_map (M := gmap string _) laterColumns !! c = None.
Proof. intros Hc. apply not_elem_of_list_to_map. set_solver. Qed.

Lemma kept_key now old t t' : row_kept now old t t' -> svcKey t' = svcKey t.
Proof. intros Hk. unfold svcKey, key. cbn [fmap list_fmap]. by rewrite !Hk, !base_not_later by set_solver. Qed.

Lemma kept_keys now old ts ts' : Forall2 (row_kept now old) ts ts' -> svcKey <$> ts' = svcKey <$> ts.
Proof. induction 1 as [|t t' ts ts' Ht _ IH]; [done|]. rewrite !fmap_cons, IH. f_equal. by eapply kept_key. Qed.

(** The table with the new columns is as well formed as the old one. *)
Lemma addColumns_ok now r : relation_ok r -> let r' := foldl (addColumn now) r laterColumns in
  relation_ok r' /\ (forall c, c ∈ allColumns -> c ∈ columns r') /\ indexes r' = indexes r /\ Forall2 (row_kept now (columns r)) (tuples r) (tuples r').
Proof.
  intros Hr r'. destruct (addColumns_spec now laterColumns r) as (Hcols & Hidx & Hrows); [by apply (bool_decide_unpack _); vm_compute|]. fold r' in Hcols, Hidx, Hrows.
  split_and!; [|intros c [Hc|Hc]%elem_of_app; apply Hcols; [left; by apply (ro_base r Hr)|by right]|done|done]. split.
  - intros c Hc. apply Hcols. left. by apply (ro_base r Hr).
  - intros t' c Ht' Hc Hin. apply list_elem_of_lookup in Ht' as [i Hi]. destruct (Forall2_lookup_r _ _ _ _ _ Hrows Hi) as (t & Hti & Hk).
    rewrite Hk. pose proof (later_lookup c) as Hl. destruct (list_to_map laterColumns !! c) as [d|].
    + case_bool_decide as Ho; [|exists (d now); split; [done|by apply later_typed]]. apply (ro_rows r Hr); [by eapply list_elem_of_lookup_2|done..].
    + apply (ro_rows r Hr); [by eapply list_elem_of_lookup_2|done|]. apply Hcols in Hin as [|]; done.
  - rewrite Hidx. intros Hu. fold svcKey. rewrite (kept_keys _ _ _ _ Hrows). by apply (ro_unique r Hr).
Qed.

(** What stops the migration: an old table with two rows of one key *)
Definition duplicated (s : Schema) : Prop :=
  match s with None => False | Some r => uniqueIndex ∉ indexes r /\ ~ NoDup (svcKey <$> tuples r) end.

Lemma relation_same r r' : columns r' = columns r -> tuples r' = tuples r -> (uniqueIndex ∈ indexes r' -> NoDup (svcKey <$> tuples r)) ->
  relation_ok r -> relation_ok r'.
Proof. intros Hc Ht Hu [H1 H2 _]. split; rewrite ?Hc, ?Ht; done. Qed.

Definition otherIndexes : list (string * list string) :=
  [("idx_services_task", ["task"]); ("idx_services_last_heartbeat", ["last_heartbeat"]); ("idx_services_is_active", ["is_active"])]%string.

(** The plain indexes can always be made. *)
Lemma runDDL_indexes now l r : (forall i cs, (i, cs) ∈ l -> i <> uniqueIndex /\ forall c, c ∈ cs -> c ∈ columns r) ->
  exists r', runDDL now ((fun ic => CreateIndex ic.1 ic.2) <$> l) (Some r) = Some (Some r') /\
    columns r' = columns r /\ tuples r' = tuples r /\ (uniqueIndex ∈ indexes r' <-> uniqueIndex ∈ indexes r) /\
    forall i, i ∈ indexes r \/ i ∈ fst <$> l -> i ∈ indexes r'.
Proof.
  revert r. induction l as [|[i cs] l IH]; intros r Hl; [exists r; split_and!; [done..|]; intros i [|Hi]; [done|by apply not_elem_of_nil in Hi]|].
  destruct (Hl i cs) as [Hu Hcs]; [left|]. destruct (add_index_runs i cs false r) as [r1 E1]; [done..|]. destruct (add_index_spec _ _ _ _ _ E1) as (Ec & Et & Ei & _).
  destruct (IH r1) as (r' & E' & Hc' & Ht' & Hu' & Hi'). { intros j cs' Hj. rewrite Ec. apply (Hl j cs'). by right. }
  exists r'. rewrite fmap_cons, runDDL_cons. cbn [execDDL fst snd]. rewrite E1. cbn [fmap option_fmap option_map mbind option_bind]. rewrite E', Hc', Ht', Ec, Et, Hu', Ei.
  split_and!; [done..|naive_solver|]. intros j Hj. apply Hi'. rewrite Ei. rewrite fmap_cons, elem_of_cons in Hj. cbn [fst] in Hj. tauto.
Qed.

Lemma other_columns i cs : (i, cs) ∈ otherIndexes -> i <> uniqueIndex /\ forall c, c ∈ cs -> c ∈ allColumns.
Proof.
  unfold otherIndexes. rewrite !elem_of_cons, elem_of_nil. intros [E|[E|[E|[]]]]; injection E as -> ->; (split; [done|]);
    intros c ->%list_elem_of_singleton; apply (bool_decide_unpack _); vm_compute; done.
Qed.

Lemma statements_table : statements = CreateTable :: (((fun cd => AddColumn cd.1 cd.2) <$> laterColumns) ++
  (CreateUnique uniqueIndex ["task"; "address"]%string :: ((fun ic => CreateIndex ic.1 ic.2) <$> otherIndexes))).
Proof. done. Qed.

(** The migration of an existing table: it stops at a duplicate, or the table is migrated. *)
Lemma runDDL_table now r : relation_ok r ->
  (duplicated (Some r) /\ runDDL now statements (Some r) = None) \/
  (~ duplicated (Some r) /\ exists r', runDDL now statements (Some r) = Some (Some r') /\ relation_ok r' /\ migrated (Some r') /\ rows_kept now (Some r) (Some r')).
Proof.
  intros Hr. rewrite statements_table, runDDL_cons. cbn [execDDL mbind option_bind]. rewrite runDDL_app, runDDL_columns. cbn [mbind option_bind].
  destruct (addColumns_ok now r Hr) as (Hr1 & Hall & Hidx & Hrows). set (r1 := foldl (addColumn now) r laterColumns) in *. clearbody r1.
  rewrite runDDL_cons. cbn [execDDL]. pose proof (conflict_spec _ (key_present r1 Hr1)) as Hconf. rewrite (kept_keys _ _ _ _ Hrows) in Hconf.
  pose proof (kept_keys _ _ _ _ Hrows) as Hkeys. destruct (add_index uniqueIndex _ true r1) as [r2|] eqn:E2.
  - right. destruct (add_index_spec _ _ _ _ _ E2) as (Ec & Et & Ei & Hc). fold svcKey in Hc. rewrite Hkeys, Hidx in Hc.
    assert (Hnd : NoDup (svcKey <$> tuples r)).
    { destruct (decide (uniqueIndex ∈ indexes r)) as [Hin|Hin]; [by apply (ro_unique r Hr)|]. by apply Hconf, Hc. }
    split; [by intros [_ Hd]|]. cbn [fmap option_fmap option_map mbind option_bind].
    destruct (runDDL_indexes now otherIndexes r2) as (r' & E' & Hc' & Ht' & _ & Hi').
    { intros i cs [Hne Hcs]%other_columns. split; [done|]. intros c Hcol. rewrite Ec. by apply Hall, Hcs. }
    exists r'. split_and!; [done| |split|].
    + apply (relation_same r1); [by rewrite Hc'|by rewrite Ht'|by rewrite Hkeys|done].
    + intros c Hin. rewrite Hc', Ec. by apply Hall.
    + intros i Hin. apply Hi'. rewrite Ei. apply elem_of_cons in Hin as [->|Hin]; [by left; left|by right].
    + cbn. by rewrite Ht', Et.
  - left. split; [|done]. assert (Hu : uniqueIndex ∉ indexes r1 /\ conflict (svcKey <$> tuples r1) <> false).
    { split; [intros Hin|intros Hcf]; destruct (add_index_runs uniqueIndex ["task"; "address"]%string true r1) as [? ?]; try congruence; try done;
        intros c Hcol; apply Hall; set_solver. }
    destruct Hu as [Hu1 Hu2]. rewrite Hidx in Hu1. rewrite Hkeys in Hu2. split; [done|]. intros Hnd. by apply Hu2, Hconf.
Qed.

Definition freshTable : Relation := mkRelation (list_to_set allColumns) [] {["services_pkey"%string]}.

Lemma freshTable_ok : relation_ok freshTable.
Proof. split; [intros c Hc; apply elem_of_list_to_set; set_solver|intros t c Ht; by apply not_elem_of_nil in Ht|intros _; constructor]. Qed.

(** The same for any schema *)
Lemma runDDL_schema now s : schema_ok s ->
  (duplicated s /\ runDDL now statements s = None) \/
  (~ duplicated s /\ exists s', runDDL now statements s = Some s' /\ schema_ok s' /\ migrated s' /\ rows_kept now s s').
Proof.
  destruct s as [r|]; intros Hs.
  - destruct (runDDL_table now r Hs) as [?|(Hn & r' & E & ?)]; [by left|right]. split; [done|]. by exists (Some r').
  - right. split; [by intros []|]. destruct (runDDL_table now freshTable freshTable_ok) as [[[_ Hd] _]|(_ & r' & E & Hok & Hm & Hk)]; [by destruct Hd; constructor|].
    exists (Some r'). split_and!; [|done..|by apply Forall2_nil_inv_l in Hk]. rewrite <-E. rewrite statements_table, !runDDL_cons. done.
Qed.

(** Nothing is left to do on a migrated schema. *)
Lemma runDDL_noop now l s : Forall (fun stmt => execDDL now stmt s = Some s) l -> runDDL now l s = Some s.
Proof. induction 1 as [|stmt l Hs _ IH]; [done|]. by rewrite runDDL_cons, Hs. Qed.

Lemma runDDL_again now s : migrated s -> runDDL now statements s = Some s.
Proof.
  destruct s as [r|]; [|done]. intros [Hc Hi]. apply runDDL_noop.
  assert (Hidx : forall u i cs, i ∈ uniqueIndex :: (fst <$> otherIndexes) -> Some <$> add_index i cs u r = Some (Some r))
    by (intros u i cs Hin; unfold add_index; by rewrite bool_decide_eq_true_2 by (by apply Hi)).
  rewrite statements_table. apply Forall_cons; split; [done|]. apply Forall_app; split; [|apply Forall_cons; split; [apply Hidx; left|]].
  - apply Forall_fmap, Forall_forall. intros [c d] Hin. cbn. rewrite bool_decide_eq_true_2; [done|].
    apply Hc, elem_of_app. right. apply list_elem_of_fmap. by exists (c, d).
  - apply Forall_fmap, Forall_forall. intros [i cs] Hin. apply Hidx. right. apply list_elem_of_fmap. by exists (i, cs).
Qed.

(** ** The migrated table is the finite map of the store *)

Lemma readRow_total r t : relation_ok r -> migrated (Some r) -> t ∈ tuples r ->
  exists task addr row, readRow t = Some ((task, addr), row) /\ svcKey t = [Some (VText task); Some (VText addr)].
Proof.
  intros Hr [Hc _] Ht. assert (Hcol : forall c, c ∈ allColumns -> exists v, t !! c = Some v /\ columnType c v = true)
    by (intros c Hin; apply (ro_rows r Hr); auto).
  unfold readRow, svcKey, key. cbn [fmap list_fmap].
  destruct (Hcol "task"%string) as ([] & -> & ?); [by apply (bool_decide_unpack _); vm_compute|try discriminate..].
  destruct (Hcol "address"%string) as ([] & -> & ?); [by apply (bool_decide_unpack _); vm_compute|try discriminate..].
  destruct (Hcol "last_heartbeat"%string) as ([] & -> & ?); [by apply (bool_decide_unpack _); vm_compute|try discriminate..].
  destruct (Hcol "query_count"%string) as ([] & -> & ?); [by apply (bool_decide_unpack _); vm_compute|try discriminate..].
  destruct (Hcol "capacity"%string) as ([] & -> & ?); [by apply (bool_decide_unpack _); vm_compute|try discriminate..].
  destruct (Hcol "is_active"%string) as ([] & -> & ?); [by apply (bool_decide_unpack _); vm_compute|try discriminate..].
  destruct (Hcol "updated_at"%string) as ([] & -> & ?); [by apply (bool_decide_unpack _); vm_compute|try discriminate..].
  by eexists _, _, _.
Qed.

(** No row is lost and no key is double. *)
Lemma loadTable_size r : relation_ok r -> migrated (Some r) -> size (loadTable r) = length (tuples r).
Proof.
  intros Hr Hm. pose proof (ro_unique r Hr (proj2 Hm uniqueIndex ltac:(left))) as Hnd. pose proof (fun t => readRow_total r t Hr Hm) as Hread. fold svcKey in Hnd.
  assert (H : length (omap readRow (tuples r)) = length (tuples r) /\ NoDup (fst <$> omap readRow (tuples r)) /\
    forall k, k ∈ fst <$> omap readRow (tuples r) -> [Some (VText k.1); Some (VText k.2)] ∈ svcKey <$> tuples r).
  { clear Hr Hm. unfold loadTable. induction (tuples r) as [|t ts IH]; [split_and!; [done|constructor|]; intros k Hk; by apply not_elem_of_nil in Hk|].
    rewrite fmap_cons in Hnd. apply NoDup_cons in Hnd as [Hin Hnd]. destruct IH as (IH1 & IH2 & IH3); [done|intros; apply Hread; by right|].
    destruct (Hread t) as (task & addr & row & E & Ek); [left|]. cbn [omap list_omap]. rewrite E, !fmap_cons. cbn [length fst]. split_and!.
    - by rewrite IH1.
    - apply NoDup_cons. split; [|done]. intros Hd. apply IH3 in Hd. cbn [fst snd] in Hd. rewrite <-Ek in Hd. done.
    - intros k [->|Hk]%elem_of_cons; [rewrite Ek; left|right; by apply IH3]. }
  destruct H as (H1 & H2 & _). unfold loadTable. rewrite <-H1. rewrite <-(length_map_to_list (list_to_map _)). by rewrite (map_to_list_to_map _ H2).
Qed.

Section Run.
Context `{Server}.

(** The statements of the transaction compute what [runDDL] does; when none is lost, they fail only with it. *)
Lemma statements_run now l s (db : DB Schema) r tx' db' :
  forRange (fun stmt => txExec (fun _ s => execDDL now stmt s)) l (mkTx s false false, db) = (r, (tx', db')) ->
  tables db' = tables db /\
  (r = Ok tt -> exists s', runDDL now l s = Some s' /\ tx' = mkTx s' false false) /\
  ((forall n, fault_at n = Runs) -> runDDL now l s <> None -> r = Ok tt).
Proof.
  revert s db. induction l as [|stmt l IH]; intros s db; [intros [= <- <- <-]; split_and!; [done|intros _; by eexists|done]|].
  cbn [forRange]. unfold bind, txExec at 1, txRun. cbn [done aborted work]. rewrite runDDL_cons.
  destruct (execDDL now stmt s) as [s1|]; cbn [fmap option_fmap option_map mbind option_bind].
  - destruct (fault_at (tick db)) eqn:Ef; [exact (IH s1 (mkDB (tables db) (S (tick db))))|..]; intros [= <- <- <-]; (split_and!; [done|done|]); intros Hq; by rewrite Hq in Ef.
  - intros [= <- <- <-]. by split_and!.
Qed.

(** C20: the migration is safe to run against any table.  Whatever fails, the
    schema is afterwards either what it was or completely migrated, with
    every row and every value it held and the declared defaults in the new
    columns.  When [Migrate] reports success the table is migrated, its keys
    are distinct and it is the finite map, without the loss of a row, on
    which the store works.  When the database answers, [Migrate] fails exactly
    for an old table with two rows of one task and address; and on a migrated
    table it changes nothing. *)
Theorem migrate_safe db r db' : schema_ok (tables db) -> Migrate db = (r, db') ->
  let now := now_at (tick db) in
  schema_ok (tables db') /\
  (tables db' = tables db \/ migrated (tables db') /\ rows_kept now (tables db) (tables db')) /\
  (r = Ok tt -> rows_kept now (tables db) (tables db') /\
     exists rel, tables db' = Some rel /\ migrated (Some rel) /\ size (loadTable rel) = length (tuples rel)) /\
  ((forall n, fault_at n = Runs) -> r = Ok tt <-> ~ duplicated (tables db)) /\
  (migrated (tables db) -> tables db' = tables db).
Proof.
  intros Hok E now. unfold Migrate in E. fold now in E. pose proof (runDDL_schema now (tables db) Hok) as Hddl.
  destruct (BeginTx db) as [[tx|e] db1] eqn:Eb; pose proof (BeginTx_spec _ _ _ Eb) as [Ht1 Htx].
  2: { injection E as <- <-. rewrite Ht1. split_and!; [done|by left|done| |done]. intros Hq. unfold BeginTx, run in Eb. by rewrite Hq in Eb. }
  rewrite (Htx tx eq_refl) in E. destruct (forRange _ statements _) as [r2 [tx2 db2]] eqn:Es. apply statements_run in Es as (Ht2 & Hok2 & Hq2). rewrite Ht1 in Ht2.
  destruct r2 as [[]|e].
  2: { injection E as <- <-. rewrite Ht2. split_and!; [done|by left|done| |done]. intros Hq. split; [done|]. intros Hn.
       destruct Hddl as [[Hd _]|(_ & s' & E' & _)]; [done|]. discriminate (Hq2 Hq ltac:(by rewrite E')). }
  destruct (Hok2 eq_refl) as (s' & E' & ->). destruct Hddl as [[_ Hd]|(Hn & s2 & E2 & Hok' & Hm & Hk)]; [congruence|]. assert (s2 = s') as -> by congruence.
  assert (Hsame : migrated (tables db) -> s' = tables db) by (intros Hmig; rewrite (runDDL_again now _ Hmig) in E'; congruence).
  pose proof (Commit_spec _ _ _ _ E) as [Hc Hcok]. cbn [work] in *. rewrite Ht2 in Hc. split_and!.
  - destruct Hc as [->|[_ ->]]; done.
  - destruct Hc as [->|[_ ->]]; [by left|by right].
  - intros Hr. rewrite (Hcok Hr). split; [done|]. destruct s' as [rel|]; [|done]. exists rel. split_and!; [done|done|by apply loadTable_size].
  - intros Hq. split; [done|]. intros _. unfold Commit in E. cbn [done aborted] in E. rewrite Hq in E. by injection E.
  - intros Hmig. destruct Hc as [->|[_ ->]]; [done|by apply Hsame].
Qed.
End Run.

(** ** A table of an older installation *)

Definition old_row (i : Z) (task addr : string) (hb : Z) : gmap string value :=
  list_to_map [("id", VId i); ("task", VText task); ("address", VText addr); ("last_heartbeat", VTime hb)]%string.
Definition old_table (rows : list (gmap string value)) : Relation := mkRelation (list_to_set baseColumns) rows {["services_pkey"%string]}.

Lemma migrate_safe_witness :
  let db := mkDB (Some (old_table [old_row 1 "t" "a:1" 5; old_row 2 "t" "a:2" 6])) 0 in
  let '(r, db') := Migrate (H := demo_server []) db in
  r = Ok tt /\ loadTable <$> tables db' = Some {[("t", "a:1") := mkRow 5 0 1 true 0; ("t", "a:2") := mkRow 6 0 1 true 0]}%string.
Proof.
  intros db. destruct (Migrate (H := demo_server []) db) as [r db'] eqn:E.
  assert (Hok : schema_ok (tables db)).
  { split; [intros c Hc; apply elem_of_list_to_set, Hc| |intros Hu; exfalso; revert Hu; apply (bool_decide_unpack _); vm_compute; done].
    intros t c Ht Hc Hcol. apply elem_of_list_to_set in Hcol. clear Hc. cbn [tuples old_table] in Ht.
    unfold baseColumns in Hcol. rewrite !elem_of_cons, elem_of_nil in Hcol. rewrite !elem_of_cons, elem_of_nil in Ht.
    destruct Ht as [->|[->|[]]], Hcol as [->|[->|[->|[->|[]]]]]; eexists; (split; [vm_compute; reflexivity|done]). }
  destruct (migrate_safe (H := demo_server []) db r db' Hok E) as (_ & _ & _ & Hr & _). split.
  - apply Hr; [done|]. intros [_ Hd]. apply Hd. apply (bool_decide_unpack _). vm_compute. done.
  - replace db' with (Migrate (H := demo_server []) db).2 by (by rewrite E). vm_compute. reflexivity.
Defined.
