(* ===== verification/CardDB.v ===== *)
(** * Simulation/carddb: the databases of the ticketing simulation

    cs.go, pctr.go, pa.go and postgres.go of the package: the card system's
    cards, taps, station costs, tickets and manifests; the back office's
    token taps and debts; the payment authority's tokens and debts.  Each
    table is a finite map on its primary key, and each statement the function
    on the tables that its SQL denotes.  Columns that only record when a row
    was written and that no statement reads are left out.  The two journey
    constructions share their statements on the tap table through [Book]. *)

From Stdlib Require Import Ascii String.
From S2P Require Import Prelude.
From stdpp Require Import list sorting pretty.
From S2P Require Import GoStrings SQL.
Local Open Scope Z_scope.
Local Open Scope tds_scope.

(** ** Rows *)

(** [Record], a reserved word here *)
Record Record_ := mkRecord { CardID : string; Active : bool; Blocked : bool; BalanceCents : Z }.

Record CardRow := mkCard { card_active : bool; card_blocked : bool; balance_cents : Z }.

(** A row of [transactions] or of [pctr_transactions]; [tap_owner] is its
    [card_id] or [token]. *)
Record TapRow := mkTap {
  tap_owner : string; gate_id : string; station_id : string; tap_time : Z; allowed : bool; reason : string;
  processed : bool; processed_at : option Z; journey_cost_cents : option Z; error_reason : option string }.

(** A row of [tickets]; its ID is the key of the table. *)
Record Ticket := mkTicket {
  tkStationID : string; TrainTime : Z; Passenger : string; CreatedAt : Z; tkActive : bool }.

(** A row of [manifests]; its ID is the key of the table. *)
Record Manifest := mkManifest { Generated : Z; ManifestPayload : string }.

(** A row of [pctr_debts] ([settled_at] is [reported_at], set with
    [reported]) or of [pa_debts] ([settled_at] is [exported_at]). *)
Record DebtRow := mkDebt { debt_token : string; amount_cents : Z; settled_at : option Z }.

Record Tables := mkTables {
  cards : gmap string CardRow;
  transactions : gmap string TapRow;
  station_costs : gmap (string * string) Z;
  tickets : gmap Z Ticket;
  manifests : gmap string Manifest;
  pctr_tokens : gmap string string;
  pa_debts : gmap Z DebtRow;
  pctr_transactions : gmap string TapRow;
  pctr_debts : gmap Z DebtRow }.

Definition set_cards x t := mkTables x (transactions t) (station_costs t) (tickets t) (manifests t)
  (pctr_tokens t) (pa_debts t) (pctr_transactions t) (pctr_debts t).
Definition set_transactions x t := mkTables (cards t) x (station_costs t) (tickets t) (manifests t)
  (pctr_tokens t) (pa_debts t) (pctr_transactions t) (pctr_debts t).
Definition set_station_costs x t := mkTables (cards t) (transactions t) x (tickets t) (manifests t)
  (pctr_tokens t) (pa_debts t) (pctr_transactions t) (pctr_debts t).
Definition set_tickets x t := mkTables (cards t) (transactions t) (station_costs t) x (manifests t)
  (pctr_tokens t) (pa_debts t) (pctr_transactions t) (pctr_debts t).
Definition set_manifests x t := mkTables (cards t) (transactions t) (station_costs t) (tickets t) x
  (pctr_tokens t) (pa_debts t) (pctr_transactions t) (pctr_debts t).
Definition set_pctr_tokens x t := mkTables (cards t) (transactions t) (station_costs t) (tickets t) (manifests t)
  x (pa_debts t) (pctr_transactions t) (pctr_debts t).
Definition set_pa_debts x t := mkTables (cards t) (transactions t) (station_costs t) (tickets t) (manifests t)
  (pctr_tokens t) x (pctr_transactions t) (pctr_debts t).
Definition set_pctr_transactions x t := mkTables (cards t) (transactions t) (station_costs t) (tickets t) (manifests t)
  (pctr_tokens t) (pa_debts t) x (pctr_debts t).
Definition set_pctr_debts x t := mkTables (cards t) (transactions t) (station_costs t) (tickets t) (manifests t)
  (pctr_tokens t) (pa_debts t) (pctr_transactions t) x.

(** The Go zero time, 1 January of year 1 *)
Definition zeroTime : Z := - 62135596800000000000.
Definition IsZero (t : Z) : bool := t =? zeroTime.

(** The range of a BIGINT column *)
Definition int64_ok (z : Z) : bool := (int64_min <=? z) && (z <=? int64_max).

Definition empty (s : string) : bool := String.eqb s "".

(** [INSERT ... ON CONFLICT (k) DO NOTHING] *)
Definition insertNew {K V} `{EqDecision K, Countable K} (k : K) (v : V) (m : gmap K V) : gmap K V :=
  match m !! k with Some _ => m | None => <[k := v]> m end.

(** An insertion under a fresh serial value; a value in use violates the
    primary key. *)
Definition insertSerial {V} (k : Z) (v : V) (m : gmap Z V) : option (gmap Z V) :=
  match m !! k with Some _ => None | None => Some (<[k := v]> m) end.

(** Slices of at most [S n] elements *)
Fixpoint chunksOf {A} (fuel n : nat) (l : list A) : list (list A) :=
  match fuel, l with
  | S fuel, _ :: _ => take (S n) l :: chunksOf fuel n (drop (S n) l)
  | _, _ => []
  end.

(** [hex.EncodeToString] *)
Definition hexDigit (z : Z) : ascii := default "0"%char (String.get (Z.to_nat z) "0123456789abcdef").
Fixpoint EncodeToString (b : list Z) : string :=
  match b with
  | [] => ""
  | x :: b => String (hexDigit (Z.shiftr x 4)) (String (hexDigit (Z.land x 15)) (EncodeToString b))
  end.

Section CardDB.
Context `{Server}.
(** What a JSONB column keeps of a text, or that it refuses it *)
Context (jsonb : string -> option string).
Abbreviation Store A := (Call (DB Tables) A).

(** ** postgres.go *)

Definition cardRow (r : Record_) : CardRow := mkCard (Active r) (Blocked r) (BalanceCents r).

Definition Upsert (r : Record_) : Store unit :=
  ExecContext (fun _ t => Some (set_cards (<[CardID r := cardRow r]> (cards t)) t)).

Definition seedCardsBulk (records : list Record_) : Store unit :=
  let filtered := List.filter (fun r => negb (empty (TrimSpace (CardID r)))) records in
  match filtered with
  | [] => ret tt
  | _ =>
      forRange (fun chunk => ExecContext (fun _ t =>
        Some (set_cards (foldl (fun m r => insertNew (CardID r) (cardRow r) m) (cards t) chunk) t)))
        (chunksOf (length filtered) 999 filtered)
  end.

Definition Seed (records : list Record_) : Store unit :=
  match records with
  | [] => ret tt
  | _ =>
      if (100 <? length records)%nat then seedCardsBulk records
      else forRange (fun r => if empty (CardID r) then ret tt else ExecContext (fun _ t =>
             Some (set_cards (insertNew (CardID r) (cardRow r) (cards t)) t))) records
  end.

Definition cardState (cardID : string) : Store CardRow :=
  QueryRow (fun _ t => match cards t !! cardID with Some c => [c] | None => [] end).

Definition Validate (cardID : string) : DB Tables -> bool * string * option SQLError * DB Tables := fun db =>
  match cardState cardID db with
  | (Err ErrNoRows, db) => (false, "unknown card"%string, None, db)
  | (Err e, db) => (false, "db error"%string, Some e, db)
  | (Ok c, db) =>
      if card_blocked c then (false, "blocked"%string, None, db)
      else if negb (card_active c) then (false, "inactive"%string, None, db)
      else if balance_cents c <=? 0 then (false, "insufficient funds"%string, None, db)
      else (true, "ok"%string, None, db)
  end.

(** ** pa.go *)

Definition CardHasMinFunds (cardID : string) (minCents : Z) : DB Tables -> bool * string * option SQLError * DB Tables := fun db =>
  match cardState cardID db with
  | (Err ErrNoRows, db) => (false, "unknown card"%string, None, db)
  | (Err e, db) => (false, "db error"%string, Some e, db)
  | (Ok c, db) =>
      if card_blocked c then (false, "blocked"%string, None, db)
      else if negb (card_active c) then (false, "inactive"%string, None, db)
      else if balance_cents c <? minCents then (false, "insufficient funds"%string, None, db)
      else (true, "ok"%string, None, db)
  end.

(** [pctr_tokens] is kept by its unique [card_id]; [token] is its primary key. *)
Definition tokenUsed (token : string) (m : gmap string string) : bool :=
  existsb (fun kv => String.eqb kv.2 token) (map_to_list m).

Definition selectToken (cardID : string) : Store string :=
  QueryRow (fun _ t => match pctr_tokens t !! cardID with Some token => [token] | None => [] end).

Definition insertToken (token cardID : string) : Store unit :=
  ExecContext (fun _ t =>
    match pctr_tokens t !! cardID with
    | Some _ => Some t
    | None => if tokenUsed token (pctr_tokens t) then None else Some (set_pctr_tokens (<[cardID := token]> (pctr_tokens t)) t)
    end).

(** [random] is what [rand.Read] puts in the 16 bytes, or its failure. *)
Definition GetOrCreateToken (random : option (list Z)) (cardID : string) : Store string := fun db =>
  match selectToken cardID db with
  | (Ok token, db) => (Ok token, db)
  | (Err ErrNoRows, db) =>
      match random with
      | None => (Err Failed, db)
      | Some b => (insertToken (EncodeToString b) cardID;;; selectToken cardID) db
      end
  | (Err e, db) => (Err e, db)
  end.

Record PADebt := mkPADebt { Token : string; AmountCents : Z }.

Definition InsertDebts (debts : list PADebt) : Store unit :=
  forRange (fun d =>
    if empty (Token d) || (AmountCents d =? 0) then ret tt
    else ExecContext (fun n t =>
      (fun m => set_pa_debts m t) <$> insertSerial (serial_at n) (mkDebt (Token d) (AmountCents d) None) (pa_debts t))) debts.

Definition outstanding (m : gmap Z DebtRow) : list (Z * DebtRow) :=
  List.filter (fun kd => match settled_at kd.2 with None => true | Some _ => false end) (map_to_list m).

Definition owedBy (token : string) (ds : list (Z * DebtRow)) : Z :=
  foldr (fun kd s => if String.eqb (debt_token kd.2) token then amount_cents kd.2 + s else s) 0 ds.

Definition by_text {A} (key : A -> string) (x y : A) : Prop := text_le (key x) (key y).
#[local] Instance by_text_dec {A} (key : A -> string) : RelDecision (by_text key) := fun x y => text_le_dec (key x) (key y).

(** [SELECT token, SUM(amount), card_id ... JOIN ... GROUP BY token, card_id ORDER BY card_id] *)
Definition owedRows (t : Tables) : list (string * Z * string) :=
  let ds := outstanding (pa_debts t) in
  (fun ct => (ct.2, owedBy ct.2 ds, ct.1)) <$>
    merge_sort (by_text fst)
      (List.filter (fun ct => existsb (fun kd => String.eqb (debt_token kd.2) ct.2) ds) (map_to_list (pctr_tokens t))).

(** [rows.Scan] of the sums into [int64] *)
Definition scanSums {A} (sum : A -> Z) (rows : list A) : Store (list A) :=
  if forallb (fun r => int64_ok (sum r)) rows then ret rows else fail Failed.

(** [byCard\[cardID\] += owed] for each row *)
Definition addOwed (byCard : gmap string Z) (row : string * Z * string) : gmap string Z :=
  let '(_, owed, cardID) := row in <[cardID := wrap64 (default 0 (byCard !! cardID) + owed)]> byCard.

(** The two queries of [BuildRestitution], each a statement of its own *)
Definition restitutionRows : Store (list (string * Z * string)) :=
  rows <- QueryAll (fun _ => owedRows);; scanSums (fun r => r.1.2) rows.
Definition restitutionIds : Store (list Z) :=
  QueryUnchecked (fun n t => row_order n _ (fst <$> outstanding (pa_debts t))).

(** [rng] is the order in which Go ranges over the map.  The caller gets the
    rows even when the second query fails. *)
Definition BuildRestitution (rng : gmap string Z -> list (string * Z)) : DB Tables -> list (string * Z) * result SQLError (list Z) * DB Tables := fun db =>
  match restitutionRows db with
  | (Err e, db) => ([], Err e, db)
  | (Ok rows, db) =>
      let byCard := foldl addOwed ∅ rows in
      let '(ids, db) := restitutionIds db in
      (rng byCard, ids, db)
  end.

Definition settle (now : Z) (d : DebtRow) : DebtRow := mkDebt (debt_token d) (amount_cents d) (Some now).

Definition MarkDebtsExported (ids : list Z) : Store unit :=
  match ids with
  | [] => ret tt
  | _ =>
      forRange (fun chunk => ExecContext (fun n t =>
        Some (set_pa_debts (foldl (fun m id => alter (settle (stored_time (now_at n))) id m) (pa_debts t) chunk) t)))
        (chunksOf (length ids) 499 ids)
  end.
End CardDB.
