(* ===== verification/Journeys.v ===== *)
(** * Simulation/carddb/cs.go and pctr.go: taps, journeys, debts, tickets

    The inserts, the two journey constructions with their transactions, the
    debts of the back office, and the card system's tickets and manifests. *)

From Stdlib Require Import Ascii String.
From S2P Require Import Prelude.
From stdpp Require Import list sorting pretty.
From S2P Require Import SQL CardDB.
Local Open Scope Z_scope.
Local Open Scope tds_scope.

(** ** Taps: [CSTransaction] and [PCTRTransaction] *)

Record CSTransaction := mkCSTx {
  TransactionID : string; Owner : string; GateID : string; StationID : string; TapTime : Z; Allowed : bool; Reason : string }.

Record StationCost := mkStationCost { FromStation : string; ToStation : string; CostCents : Z }.

Record unprocessedRow := mkUnprocessed { id : string; station : string; time : Z }.

Definition by_time (x y : unprocessedRow) : Prop := time x <= time y.
#[export] Instance by_time_dec : RelDecision by_time := fun x y => Z_le_dec (time x) (time y).

(** The tap table a journey construction works on, and what it does with the
    cost of a journey *)
Record Book := mkBook {
  taps_of : Tables -> gmap string TapRow;
  set_taps : gmap string TapRow -> Tables -> Tables;
  charge : nat -> string -> Z -> Tables -> option Tables }.

Definition is_open (owner : string) (r : TapRow) : bool := String.eqb (tap_owner r) owner && negb (processed r).

Definition openRows (owner : string) (m : gmap string TapRow) : list unprocessedRow :=
  (fun kr => mkUnprocessed kr.1 (station_id kr.2) (tap_time kr.2)) <$>
    List.filter (fun kr => is_open owner kr.2) (map_to_list m).

Definition processRow (now cost : Z) (err : option string) (r : TapRow) : TapRow :=
  mkTap (tap_owner r) (gate_id r) (station_id r) (tap_time r) (allowed r) (reason r) true (Some now) (Some cost) err.

(** [UPDATE ... SET processed=TRUE, ... WHERE transaction_id IN ($1, $2)] *)
Definition markPair (now : Z) (i j : string) (cost : Z) (err : option string) (m : gmap string TapRow) : gmap string TapRow :=
  alter (processRow now cost err) j (if String.eqb i j then m else alter (processRow now cost err) i m).

(** [UPDATE cards SET balance_cents = balance_cents - $1 WHERE card_id = $2] *)
Definition debitCard (_ : nat) (cardID : string) (cost : Z) (t : Tables) : option Tables :=
  match cards t !! cardID with
  | None => Some t
  | Some c =>
      let b := balance_cents c - cost in
      if int64_ok b then Some (set_cards (<[cardID := mkCard (card_active c) (card_blocked c) b]> (cards t)) t) else None
  end.

Section Journeys.
Context `{Server}.
Context (jsonb : string -> option string).
Abbreviation Store A := (Call (DB Tables) A).
Abbreviation InTx A := (Call (Tx Tables * DB Tables) A).

(** [INSERT INTO pctr_debts ... VALUES ($1, $2, NOW(), FALSE)] *)
Definition insertDebt (n : nat) (token : string) (cost : Z) (t : Tables) : option Tables :=
  (fun m => set_pctr_debts m t) <$> insertSerial (serial_at n) (mkDebt token cost None) (pctr_debts t).

Definition CSBook : Book := mkBook transactions set_transactions debitCard.
Definition PCTRBook : Book := mkBook pctr_transactions set_pctr_transactions insertDebt.

(** ** Inserts *)

Definition newRow (tx : CSTransaction) : TapRow :=
  mkTap (Owner tx) (GateID tx) (StationID tx) (stored_time (TapTime tx)) (Allowed tx) (Reason tx) false None None None.

Definition incomplete (tx : CSTransaction) : bool :=
  empty (TransactionID tx) || empty (Owner tx) || empty (GateID tx) || empty (StationID tx) || IsZero (TapTime tx).

Definition insertTap (b : Book) (tx : CSTransaction) : Store unit :=
  if incomplete tx then ret tt
  else ExecContext (fun _ t => Some (set_taps b (insertNew (TransactionID tx) (newRow tx) (taps_of b t)) t)).

Definition InsertCSTransactions (txs : list CSTransaction) : Store unit := forRange (insertTap CSBook) txs.
Definition InsertPCTRTransactions (txs : list CSTransaction) : Store unit := forRange (insertTap PCTRBook) txs.

Definition SeedStationCosts (costs : list StationCost) : Store unit :=
  forRange (fun c =>
    if empty (FromStation c) || empty (ToStation c) then ret tt
    else if CostCents c <? 0 then ret tt
    else ExecContext (fun _ t =>
      Some (set_station_costs (insertNew (FromStation c, ToStation c) (CostCents c) (station_costs t)) t))) costs.

(** ** Journey construction *)

Definition getStationCostCentsTx (a b : string) : InTx (Z * bool) := fun s =>
  match txQueryRow (fun n t => row_order n _ (snd <$>
          List.filter (fun kc => bool_decide (kc.1 = (a, b)) || bool_decide (kc.1 = (b, a))) (map_to_list (station_costs t)))) s with
  | (Ok cost, s) => (Ok (cost, true), s)
  | (Err ErrNoRows, s) => (Ok (0, false), s)
  | (Err e, s) => (Err e, s)
  end.

(** One pair of taps: whether it counts as a journey *)
Definition pairStep (b : Book) (owner : string) (from to : unprocessedRow) : InTx bool :=
  costok <- getStationCostCentsTx (station from) (station to);;
  let '(cost, ok) := costok in
  if negb ok then
    txExec (fun n t => Some (set_taps b (markPair (now_at n) (id from) (id to) 0 (Some "missing cost"%string) (taps_of b t)) t));;;
    ret false
  else
    txExec (fun n t => charge b n owner cost t);;;
    txExec (fun n t => Some (set_taps b (markPair (now_at n) (id from) (id to) cost None (taps_of b t)) t));;;
    ret true.

(** [for i := 0; i+1 < len(taps); i += 2] with the running number of journeys *)
Fixpoint processPairs (b : Book) (owner : string) (taps : list unprocessedRow) (journeys : Z)
    (s : Tx Tables * DB Tables) : Z * result SQLError unit * (Tx Tables * DB Tables) :=
  match taps with
  | from :: to :: taps =>
      match pairStep b owner from to s with
      | (Err e, s) => (journeys, Err e, s)
      | (Ok counted, s) => processPairs b owner taps (if counted then journeys + 1 else journeys) s
      end
  | _ => (journeys, Ok tt, s)
  end.

(** From the locked read of the taps to the commit; [Ok] goes on with the
    next owner. *)
Definition processOwner (b : Book) (owner : string) (journeys : Z) (tx : Tx Tables) (db : DB Tables)
  : Z * result SQLError unit * DB Tables :=
  match txQueryUnchecked (fun n t => merge_sort by_time (row_order n _ (openRows owner (taps_of b t)))) (tx, db) with
  | (Err e, (_, db)) => (journeys, Err e, db)
  | (Ok taps, (tx, db)) =>
      if (length taps <? 2)%nat then (journeys, Ok tt, db)
      else
        match processPairs b owner taps journeys (tx, db) with
        | (journeys, Err e, (_, db)) => (journeys, Err e, db)
        | (journeys, Ok tt, (tx, db)) =>
            let '(r, db) := Commit tx db in (journeys, r, db)
        end
  end.

(** Owners with at least two unprocessed taps, [ORDER BY ... ASC] *)
Definition openOwners (m : gmap string TapRow) : list string :=
  merge_sort text_le
    (List.filter (fun o => (2 <=? length (openRows o m))%nat) (remove_dups ((fun kr => tap_owner kr.2) <$> map_to_list m))).

Definition lockCard (cardID : string) : InTx Z :=
  txQueryRow (fun _ t => match cards t !! cardID with Some c => [balance_cents c] | None => [] end).

(** [UPDATE transactions SET ... error_reason='unknown card' WHERE card_id=$1 AND processed=FALSE] *)
Definition markUnknown (cardID : string) : InTx unit :=
  txExec (fun n t => Some (set_transactions
    ((fun r => if is_open cardID r then processRow (now_at n) 0 (Some "unknown card"%string) r else r) <$> transactions t) t)).

Definition processCard (cardID : string) (journeys : Z) (db : DB Tables) : Z * result SQLError unit * DB Tables :=
  if cancelled_at (tick db) then (journeys, Err ContextDone, db)
  else
    match BeginTx db with
    | (Err e, db) => (journeys, Err e, db)
    | (Ok tx, db) =>
        match lockCard cardID (tx, db) with
        | (Err e, (tx, db)) =>
            let tx := Rollback tx in
            match e with
            | ErrNoRows =>
                let '(_, (tx, db)) := markUnknown cardID (tx, db) in
                let '(_, db) := Commit tx db in
                (journeys, Ok tt, db)
            | _ => (journeys, Err e, db)
            end
        | (Ok curBal, (tx, db)) => processOwner CSBook cardID journeys tx db
        end
    end.

Definition processToken (token : string) (journeys : Z) (db : DB Tables) : Z * result SQLError unit * DB Tables :=
  match BeginTx db with
  | (Err e, db) => (journeys, Err e, db)
  | (Ok tx, db) => processOwner PCTRBook token journeys tx db
  end.

(** The loop over the owners: stops at the first error *)
Fixpoint forOwners (step : string -> Z -> DB Tables -> Z * result SQLError unit * DB Tables) (owners : list string)
    (journeys : Z) (db : DB Tables) : Z * result SQLError unit * DB Tables :=
  match owners with
  | [] => (journeys, Ok tt, db)
  | o :: owners =>
      match step o journeys db with
      | (journeys, Ok tt, db) => forOwners step owners journeys db
      | (journeys, Err e, db) => (journeys, Err e, db)
      end
  end.

Definition RunJourneyConstruction (db : DB Tables) : Z * result SQLError unit * DB Tables :=
  match QueryAll (fun _ t => openOwners (transactions t)) db with
  | (Err e, db) => (0, Err e, db)
  | (Ok cardIDs, db) => forOwners processCard cardIDs 0 db
  end.

Definition RunPCTRJourneyConstruction (db : DB Tables) : Z * result SQLError unit * DB Tables :=
  match QueryAll (fun _ t => openOwners (pctr_transactions t)) db with
  | (Err e, db) => (0, Err e, db)
  | (Ok tokens, db) => forOwners processToken tokens 0 db
  end.

(** ** Debts of the back office *)

(** [SELECT token, SUM(amount_cents) ... WHERE reported = FALSE GROUP BY token ORDER BY token] *)
Definition unreported (t : Tables) : list (string * Z) :=
  let ds := outstanding (pctr_debts t) in
  (fun token => (token, owedBy token ds)) <$> merge_sort text_le (remove_dups ((fun kd => debt_token kd.2) <$> ds)).

Definition GetUnreportedDebts (db : DB Tables) : list (string * Z) * result SQLError (list Z) * DB Tables :=
  match (rows <- QueryAll (fun _ => unreported);; scanSums snd rows) db with
  | (Err e, db) => ([], Err e, db)
  | (Ok out, db) =>
      let '(ids, db) := QueryUnchecked (fun n t => row_order n _ (fst <$> outstanding (pctr_debts t))) db in
      (out, ids, db)
  end.

Definition settleOpen (now : Z) (d : DebtRow) : DebtRow :=
  match settled_at d with None => settle now d | Some _ => d end.

Definition MarkDebtsReported (ids : list Z) : Store unit :=
  match ids with
  | [] => ret tt
  | _ => ExecContext (fun n t => Some (set_pctr_debts (settleOpen (now_at n) <$> pctr_debts t) t))
  end.

(** ** Tickets *)

Definition InsertTicket (t : Ticket) (now : Z) : Store Z :=
  let created := if IsZero (CreatedAt t) then now else CreatedAt t in
  run (fun n tb =>
    (fun m => (serial_at n, set_tickets m tb)) <$>
      insertSerial (serial_at n)
        (mkTicket (tkStationID t) (stored_time (TrainTime t)) (Passenger t) (stored_time created) (tkActive t)) (tickets tb)).

Definition passengerNames : list string :=
  ["Alice"; "Bob"; "Charlie"; "Diana"; "Eve"; "Frank"; "Grace"; "Hank"; "Ivy"; "Jack"]%string.

Definition minute : Z := 60000000000.

Definition seedTicket (now : Z) (min : nat) (stationID : string) : Ticket :=
  let passenger := default ""%string (passengerNames !! ((min + String.length stationID) mod length passengerNames)%nat) in
  mkTicket stationID (now + Z.of_nat min * minute) (passenger ++ "-" ++ pretty min) now true.

Definition SeedTickets (now : Z) (stationIDs : list string) : Store unit :=
  match stationIDs with
  | [] => ret tt
  | _ =>
      forRange (fun t => InsertTicket t now;;; ret tt)
        (mjoin ((fun min => seedTicket now min <$> stationIDs) <$> seq 1 15))
  end.

Definition ticketRows (p : Ticket -> bool) (t : Tables) : list (Z * Ticket) :=
  List.filter (fun kt => p kt.2) (map_to_list (tickets t)).

Definition by_station (x y : Z * Ticket) : Prop := text_le (tkStationID x.2) (tkStationID y.2).
#[export] Instance by_station_dec : RelDecision by_station := fun x y => text_le_dec (tkStationID x.2) (tkStationID y.2).
Definition by_created (x y : Z * Ticket) : Prop := CreatedAt x.2 <= CreatedAt y.2.
#[export] Instance by_created_dec : RelDecision by_created := fun x y => Z_le_dec (CreatedAt x.2) (CreatedAt y.2).

Definition GetActiveTicketsWithin (now window : Z) : Store (list (Z * Ticket)) :=
  QueryAll (fun n t => merge_sort by_station (row_order n _ (ticketRows (fun k =>
    tkActive k && (stored_time now <=? TrainTime k) && (TrainTime k <=? stored_time (now + window))) t))).

Definition GetTicketsCreatedSince (since : Z) : Store (list (Z * Ticket)) :=
  QueryAll (fun n t => merge_sort by_created (row_order n _ (ticketRows (fun k => stored_time since <? CreatedAt k) t))).

(** ** Manifests *)

Definition InsertManifest (mid : string) (generated : Z) (payload : string) : Store unit :=
  ExecContext (fun _ t =>
    (fun p => set_manifests (insertNew mid (mkManifest (stored_time generated) p) (manifests t)) t) <$> jsonb payload).

Definition by_generated (x y : string * Manifest) : Prop := Generated x.2 <= Generated y.2.
#[export] Instance by_generated_dec : RelDecision by_generated := fun x y => Z_le_dec (Generated x.2) (Generated y.2).

Definition GetManifestsSince (since : Z) : Store (list (string * Manifest)) :=
  QueryAll (fun n t => merge_sort by_generated (row_order n _
    (List.filter (fun km => stored_time since <? Generated km.2) (map_to_list (manifests t))))).

Definition GetManifestByID (mid : string) : Store Manifest :=
  QueryRow (fun _ t => match manifests t !! mid with Some m => [m] | None => [] end).
End Journeys.
