(* ===== verification/JourneysFacts.v ===== *)
(** * Journeys: money is conserved, taps are settled once

    Everything here holds for every behaviour of the database server: any
    statement may fail, before or after it took effect. *)

From Stdlib Require Import Ascii String.
From S2P Require Import Prelude.
From stdpp Require Import list sorting.
From S2P Require Import SQL CardDB Journeys.
Local Open Scope Z_scope.

(** ** Accounts *)

(** What a tap row says its owner was charged *)
Definition cost_of (o : string) (r : TapRow) : Z :=
  if String.eqb (tap_owner r) o then default 0 (journey_cost_cents r) else 0.
Definition charged (o : string) (m : gmap string TapRow) : Z := msum (cost_of o) m.

Definition tap_wf (r : TapRow) : Prop := processed r = false -> journey_cost_cents r = None.
Definition taps_wf (m : gmap string TapRow) : Prop := forall i r, m !! i = Some r -> tap_wf r.

Definition costs_nonneg (t : Tables) : Prop := forall p cost, station_costs t !! p = Some cost -> 0 <= cost.

(** What a journey construction relies on in its book: where the money goes,
    and that neither write disturbs the other's columns. *)
Class BookLaws (b : Book) := {
  paid : string -> Tables -> Z;
  chargeable : string -> Tables -> Prop;
  sound : Tables -> Prop;
  kept : string -> Tables -> Z;
  taps_set : forall m t, taps_of b (set_taps b m t) = m;
  costs_set : forall m t, station_costs (set_taps b m t) = station_costs t;
  paid_set : forall o m t, paid o (set_taps b m t) = paid o t;
  chargeable_set : forall o m t, chargeable o (set_taps b m t) <-> chargeable o t;
  sound_set : forall m t, sound t -> sound (set_taps b m t);
  kept_set : forall o m t, kept o (set_taps b m t) = kept o t;
  charge_kept : forall n o c t t' o', charge b n o c t = Some t' -> kept o' t' = kept o' t;
  charge_sound : forall n o c t t', charge b n o c t = Some t' -> 0 <= c -> sound t -> sound t';
  charge_taps : forall n o c t t', charge b n o c t = Some t' -> taps_of b t' = taps_of b t;
  charge_costs : forall n o c t t', charge b n o c t = Some t' -> station_costs t' = station_costs t;
  charge_chargeable : forall n o c t t' o', charge b n o c t = Some t' -> chargeable o' t' <-> chargeable o' t;
  charge_paid : forall n o c t t', charge b n o c t = Some t' -> chargeable o t -> paid o t' = paid o t + c;
  charge_other : forall n o c t t' o', charge b n o c t = Some t' -> o' <> o -> paid o' t' = paid o' t }.

Definition cardBalance (o : string) (t : Tables) : Z :=
  match cards t !! o with Some c => balance_cents c | None => 0 end.

#[export] Program Instance CSLaws : BookLaws CSBook := {
  paid := fun o t => - cardBalance o t;
  chargeable := fun o t => is_Some (cards t !! o);
  sound := fun _ => True;
  kept := fun _ _ => 0 }.
Solve Obligations with done.
Next Obligation.
  intros n o c t t'. simpl. unfold debitCard. destruct (cards t !! o); [|by intros [= <-]].
  destruct (int64_ok _); by intros [= <-].
Qed.
Next Obligation.
  intros n o c t t'. simpl. unfold debitCard. destruct (cards t !! o); [|by intros [= <-]].
  destruct (int64_ok _); by intros [= <-].
Qed.
Next Obligation.
  intros n o c t t' o'. simpl. unfold debitCard. destruct (cards t !! o) eqn:E; [|by intros [= <-]].
  destruct (int64_ok _); [|done]. intros [= <-]. simpl. rewrite lookup_insert_is_Some. split; [|destruct (decide (o = o')); by auto].
  intros [->|[_ ?]]; [by rewrite E|done].
Qed.
Next Obligation.
  intros n o c t t'. simpl. unfold debitCard, cardBalance. intros E [card Ec]. rewrite Ec in *.
  destruct (int64_ok _); [|done]. injection E as <-. simpl. rewrite lookup_insert_eq. simpl. lia.
Qed.
Next Obligation.
  intros n o c t t' o'. simpl. unfold debitCard, cardBalance. destruct (cards t !! o); [|by intros [= <-]].
  destruct (int64_ok _); [|done]. intros [= <-] Hne. simpl. by rewrite lookup_insert_ne.
Qed.

(** The debts of a token, reported or not *)
Definition debt_of (o : string) (d : DebtRow) : Z := if String.eqb (debt_token d) o then amount_cents d else 0.
Definition totalDebt (o : string) (t : Tables) : Z := msum (debt_of o) (pctr_debts t).

(** Those the back office has marked as reported, and the others *)
Definition reported_of (token : string) (d : DebtRow) : Z := match settled_at d with Some _ => debt_of token d | None => 0 end.
Definition open_of (token : string) (d : DebtRow) : Z := match settled_at d with Some _ => 0 | None => debt_of token d end.
Definition reportedDebt (token : string) (t : Tables) : Z := msum (reported_of token) (pctr_debts t).
Definition openDebt (token : string) (t : Tables) : Z := msum (open_of token) (pctr_debts t).

Lemma insertDebt_inv `{Server} n o c t t' : insertDebt n o c t = Some t' ->
  exists k, pctr_debts t !! k = None /\ t' = set_pctr_debts (<[k := mkDebt o c None]> (pctr_debts t)) t.
Proof.
  unfold insertDebt, insertSerial. destruct (_ !! serial_at n) eqn:E; [done|]. intros [= <-]. by eexists.
Qed.

#[export] Program Instance PCTRLaws `{Server} : BookLaws PCTRBook := {
  paid := totalDebt;
  chargeable := fun _ _ => True;
  sound := fun t => forall k d, pctr_debts t !! k = Some d -> 0 <= amount_cents d;
  kept := reportedDebt }.
Solve Obligations with done.
Next Obligation.
  intros ? n o c t t' o' (k & E & ->)%insertDebt_inv. unfold reportedDebt. simpl. by rewrite msum_insert.
Qed.
Next Obligation.
  intros ? n o c t t' (k & E & ->)%insertDebt_inv Hc Hs i d. simpl. intros [[_ <-]|[_ Hd]]%lookup_insert_Some; [done|by apply (Hs i)].
Qed.
Next Obligation. by intros ? n o c t t' (k & _ & ->)%insertDebt_inv. Qed.
Next Obligation. by intros ? n o c t t' (k & _ & ->)%insertDebt_inv. Qed.
Next Obligation.
  intros ? n o c t t' (k & E & ->)%insertDebt_inv _. unfold totalDebt. simpl. rewrite msum_insert by done.
  unfold debt_of at 1. simpl. rewrite String.eqb_refl. lia.
Qed.
Next Obligation.
  intros ? n o c t t' o' (k & E & ->)%insertDebt_inv Hne. unfold totalDebt. simpl. rewrite msum_insert by done.
  unfold debt_of at 1. simpl. destruct (String.eqb_spec o o'); [congruence|]. lia.
Qed.

(** Induction on a list two elements at a time *)
Lemma pairs_ind {A} (P : list A -> Prop) : P [] -> (forall u, P [u]) -> (forall u v l, P l -> P (u :: v :: l)) -> forall l, P l.
Proof.
  intros H0 H1 H2 l. enough (P l /\ forall u, P (u :: l)) as [? _] by done.
  induction l as [|v l [IH1 IH2]]; [by auto|]. by auto.
Qed.

Section Book.
Context `{Server} (b : Book) `{!BookLaws b}.

(** Twice what the owner paid, less what its taps say: both taps of a journey
    carry its cost. *)
Definition account (o : string) (t : Tables) : Z := 2 * paid o t - charged o (taps_of b t).

(** A row is left alone, or an unprocessed one becomes processed. *)
Definition row_step (r r' : TapRow) : Prop :=
  r' = r \/ processed r = false /\ exists now cost err, r' = processRow now cost err r.

(** What a journey construction may do to the tables *)
Record moves (t t' : Tables) : Prop := {
  mv_wf : taps_wf (taps_of b t) -> taps_wf (taps_of b t');
  mv_account : forall o, taps_wf (taps_of b t) -> account o t' = account o t;
  mv_rows : forall i, option_Forall2 row_step (taps_of b t !! i) (taps_of b t' !! i);
  mv_unpayable : forall i r, taps_of b t !! i = Some r -> ~ chargeable (tap_owner r) t -> taps_of b t' !! i = Some r;
  mv_sound : costs_nonneg t -> sound t -> sound t';
  mv_kept : forall o, kept o t' = kept o t;
  mv_costs : station_costs t' = station_costs t;
  mv_chargeable : forall o, chargeable o t' <-> chargeable o t }.

Lemma row_step_refl r : row_step r r.
Proof. by left. Qed.

Lemma row_step_trans r1 r2 r3 : row_step r1 r2 -> row_step r2 r3 -> row_step r1 r3.
Proof.
  intros [->|(H1 & now & c & e & ->)]; [done|]. intros [->|(H2 & _)]; [|done]. right. by eauto 6.
Qed.

#[export] Instance moves_preorder : PreOrder moves.
Proof.
  split.
  - intros t. split; try done. intros i. destruct (taps_of b t !! i); constructor. apply row_step_refl.
  - intros t1 t2 t3 H1 H2. destruct H1 as [w1 a1 r1 u1 s1 k1 c1 p1], H2 as [w2 a2 r2 u2 s2 k2 c2 p2]. split.
    + by auto.
    + intros o Hw. rewrite a2 by auto. by apply a1.
    + intros i. specialize (r1 i). specialize (r2 i). destruct r1 as [x y Hxy|]; [|done].
      inversion r2 as [y' z Hyz|]; subst. constructor. by eapply row_step_trans.
    + intros i r E Hn. apply u2; [by apply u1|]. by rewrite p1.
    + intros Hc Hs. apply s2; [|by apply s1]. unfold costs_nonneg. by rewrite c1.
    + intros o. by rewrite k2.
    + by rewrite c2.
    + intros o. by rewrite p2.
Qed.

(** ** One pair *)

(** The two taps of a pair are distinct open rows of the owner. *)
Definition open_row (o : string) (m : gmap string TapRow) (u : unprocessedRow) : Prop :=
  exists r, m !! id u = Some r /\ is_open o r = true /\ station u = station_id r /\ time u = tap_time r.

Lemma is_open_spec o r : is_open o r = true <-> tap_owner r = o /\ processed r = false.
Proof. unfold is_open. rewrite andb_true_iff, String.eqb_eq, negb_true_iff. done. Qed.

Lemma charged_process o o' now cost err m i r : m !! i = Some r -> is_open o r = true -> tap_wf r ->
  charged o' (alter (processRow now cost err) i m) = charged o' m + (if String.eqb o o' then cost else 0).
Proof.
  intros E [Ho Hp]%is_open_spec Hw. unfold charged. rewrite (msum_alter _ _ _ _ _ E).
  unfold cost_of. simpl. rewrite (Hw Hp), Ho. simpl. destruct (String.eqb o o'); lia.
Qed.

Lemma process_wf now cost err m i : taps_wf m -> taps_wf (alter (processRow now cost err) i m).
Proof.
  intros Hm j r. destruct (decide (i = j)) as [<-|Hne].
  - rewrite lookup_alter_eq. destruct (m !! i); [|done]. by intros [= <-].
  - rewrite lookup_alter_ne by done. apply Hm.
Qed.

Lemma markPair_ne now i j cost err m : i <> j ->
  markPair now i j cost err m = alter (processRow now cost err) j (alter (processRow now cost err) i m).
Proof. intros Hij%String.eqb_neq. unfold markPair. by rewrite Hij. Qed.

Lemma markPair_lookup now i j cost err m k : i <> j ->
  markPair now i j cost err m !! k =
  (if decide (k = i \/ k = j) then processRow now cost err <$> m !! k else m !! k).
Proof.
  intros Hij. rewrite markPair_ne by done.
  destruct (decide (k = j)) as [->|Hj].
  - rewrite lookup_alter_eq, lookup_alter_ne by done. by rewrite decide_True by auto.
  - rewrite lookup_alter_ne by done. destruct (decide (k = i)) as [->|Hi].
    + rewrite lookup_alter_eq, decide_True by auto. done.
    + rewrite lookup_alter_ne, decide_False by (done || tauto). done.
Qed.

(** Marking a pair at the cost its owner paid *)
Lemma mark_moves o t t1 now cost err u v : id u <> id v -> chargeable o t ->
  open_row o (taps_of b t) u -> open_row o (taps_of b t) v ->
  taps_of b t1 = taps_of b t -> station_costs t1 = station_costs t -> (forall o', chargeable o' t1 <-> chargeable o' t) ->
  (forall o', paid o' t1 = paid o' t + (if String.eqb o o' then cost else 0)) ->
  (costs_nonneg t -> sound t -> sound t1) -> (forall o', kept o' t1 = kept o' t) ->
  moves t (set_taps b (markPair now (id u) (id v) cost err (taps_of b t1)) t1).
Proof.
  intros Hne Hch (r & Er & Hr & _) (q & Eq & Hq & _) Ht1 Hc1 Hch1 Hp1 Hs1 Hk1. rewrite Ht1.
  pose proof (proj1 (is_open_spec _ _) Hr) as [Hro Hrp]. pose proof (proj1 (is_open_spec _ _) Hq) as [Hqo Hqp].
  set (m := taps_of b t) in *. split; rewrite ?taps_set, ?costs_set.
  - intros Hw. rewrite markPair_ne by done. by do 2 apply process_wf.
  - intros o' Hw. unfold account. rewrite taps_set, paid_set, Hp1, markPair_ne by done. fold m.
    rewrite (charged_process o o' _ _ _ _ _ q); [|by rewrite lookup_alter_ne|done|by apply (Hw (id v))].
    rewrite (charged_process o o' _ _ _ _ _ r); [|done|done|by apply (Hw (id u))]. destruct (String.eqb o o'); lia.
  - intros k. fold m. rewrite markPair_lookup by done. destruct (decide _) as [Hk|Hk].
    + destruct Hk as [->| ->]; rewrite ?Er, ?Eq; constructor; right; by eauto 6.
    + destruct (m !! k); constructor. apply row_step_refl.
  - intros k s Es Hns. fold m in Es. rewrite markPair_lookup by done. rewrite decide_False; [done|].
    intros [->| ->]; congruence.
  - intros Hc Hs. by apply sound_set, Hs1.
  - intros o'. by rewrite kept_set.
  - done.
  - intros o'. by rewrite chargeable_set.
Qed.

(** The effect of one pair *)
Definition paired (o : string) (u v : unprocessedRow) (counted : bool) (t t' : Tables) : Prop :=
  exists now cost err t1,
    t' = set_taps b (markPair now (id u) (id v) cost err (taps_of b t1)) t1 /\
    taps_of b t1 = taps_of b t /\ station_costs t1 = station_costs t /\ (forall o', chargeable o' t1 <-> chargeable o' t) /\
    (forall o', paid o' t1 = paid o' t + (if String.eqb o o' then cost else 0)) /\
    (costs_nonneg t -> sound t -> sound t1) /\ (forall o', kept o' t1 = kept o' t) /\
    (if counted then err = None /\ (station_costs t !! (station u, station v) = Some cost \/ station_costs t !! (station v, station u) = Some cost)
     else err = Some "missing cost"%string /\ cost = 0 /\
       station_costs t !! (station u, station v) = None /\ station_costs t !! (station v, station u) = None).

Lemma charge_amount n o c t t' : charge b n o c t = Some t' -> chargeable o t ->
  forall o', paid o' t' = paid o' t + (if String.eqb o o' then c else 0).
Proof.
  intros E Hch o'. destruct (String.eqb_spec o o') as [<-|Hne].
  - by apply (charge_paid n o).
  - rewrite (charge_other n o c t t'); [lia|done|done].
Qed.

Lemma paired_moves o u v c t t' : id u <> id v -> chargeable o t ->
  open_row o (taps_of b t) u -> open_row o (taps_of b t) v -> paired o u v c t t' -> moves t t'.
Proof. intros Hne Hch Hu Hv (now & cost & err & t1 & -> & H1 & H2 & H3 & H4 & H5 & H6 & _). by eapply mark_moves. Qed.

Lemma paired_taps o u v c t t' : id u <> id v -> paired o u v c t t' ->
  exists now cost err, forall k, taps_of b t' !! k =
    (if decide (k = id u \/ k = id v) then processRow now cost err <$> taps_of b t !! k else taps_of b t !! k).
Proof.
  intros Hne (now & cost & err & t1 & -> & H1 & _). exists now, cost, err. intros k.
  by rewrite taps_set, markPair_lookup, H1 by done.
Qed.

Lemma paired_open o u v c t t' w : id u <> id v -> id w <> id u -> id w <> id v -> paired o u v c t t' ->
  open_row o (taps_of b t) w -> open_row o (taps_of b t') w.
Proof.
  intros Hne Hwu Hwv (now & cost & err & E)%paired_taps (r & Er & Hr); [|done]. exists r. split; [|done].
  rewrite E, decide_False; [done|]. by intros [|].
Qed.

Lemma paired_rest o u v c t t' taps : id u <> id v -> id u ∉ id <$> taps -> id v ∉ id <$> taps -> paired o u v c t t' ->
  Forall (open_row o (taps_of b t)) taps -> Forall (open_row o (taps_of b t')) taps.
Proof.
  intros Huv Hu Hv Hp Ho. rewrite Forall_forall in *. intros w Hw.
  eapply (paired_open o u v c t t'); [done|..|done|by apply Ho]; intros E.
  - apply Hu. rewrite <- E. by apply list_elem_of_fmap_2.
  - apply Hv. rewrite <- E. by apply list_elem_of_fmap_2.
Qed.

Lemma cost_row n x y t cost : cost ∈ row_order n _ (snd <$>
    List.filter (fun kc : string * string * Z => bool_decide (kc.1 = (x, y)) || bool_decide (kc.1 = (y, x))) (map_to_list (station_costs t))) ->
  station_costs t !! (x, y) = Some cost \/ station_costs t !! (y, x) = Some cost.
Proof.
  rewrite row_order_perm. intros ([k c] & -> & Hin)%list_elem_of_fmap. apply list_elem_of_In, filter_In in Hin as [Hin Hk].
  apply list_elem_of_In, elem_of_map_to_list in Hin. simpl in Hk. apply orb_true_iff in Hk as [Hk|Hk];
    apply bool_decide_eq_true in Hk; simpl in Hk; subst k; by auto.
Qed.

Lemma no_cost_row n x y t : row_order n _ (snd <$>
    List.filter (fun kc : string * string * Z => bool_decide (kc.1 = (x, y)) || bool_decide (kc.1 = (y, x))) (map_to_list (station_costs t))) = [] ->
  station_costs t !! (x, y) = None /\ station_costs t !! (y, x) = None.
Proof.
  intros E. set (l := List.filter _ _) in E.
  assert (Hl : l = []).
  { apply (fmap_nil_inv snd). apply Permutation_nil. rewrite <- E. by rewrite row_order_perm. }
  assert (Hno : forall k c, station_costs t !! k = Some c -> k = (x, y) \/ k = (y, x) -> False).
  { intros k c Hk Hor. assert ((k, c) ∈ l) as Hin; [|rewrite Hl in Hin; by apply not_elem_of_nil in Hin].
    apply list_elem_of_In, filter_In. split; [by apply list_elem_of_In, elem_of_map_to_list|].
    apply orb_true_iff. simpl. rewrite !bool_decide_eq_true. done. }
  split; apply eq_None_not_Some; intros [c Hc]; eapply Hno; by eauto.
Qed.

Lemma pairStep_Ok o u v c tx db tx' db' : chargeable o (work tx) ->
  pairStep b o u v (tx, db) = (Ok c, (tx', db')) ->
  tables db' = tables db /\ aborted tx' = false /\ done tx' = false /\ paired o u v c (work tx) (work tx').
Proof.
  intros Hch ((cost & ok) & [tx1 db1] & Ecost & E)%bind_Ok. unfold getStationCostCentsTx in Ecost.
  destruct (txQueryRow _ (tx, db)) as [[c0|e] [tx0 db0]] eqn:E0; apply txQueryRow_spec in E0 as (Ht0 & Hw0 & H0).
  - injection Ecost as <- <- <- <-. destruct H0 as (Hc & _). simpl in E.
    apply bind_Ok in E as (? & [tx2 db2] & E2 & E). apply bind_Ok in E as (? & [tx3 db3] & E3 & E). injection E as <- <- <-.
    apply txExec_Ok in E2 as (Ht2 & E2 & _). apply txExec_Ok in E3 as (Ht3 & E3 & Ha & Hd).
    rewrite Hw0 in E2. split_and!; [congruence|done..|]. eexists _, c0, None, (work tx2). injection E3 as <-. split_and!; [done| | | | | | | |].
    + by apply (charge_taps _ _ _ _ _ E2).
    + by apply (charge_costs _ _ _ _ _ E2).
    + intros o'. by apply (charge_chargeable _ _ _ _ _ o' E2).
    + by eapply charge_amount.
    + intros Hnn Hs. apply (charge_sound _ _ _ _ _ E2); [|done]. apply cost_row in Hc as [Hc|Hc]; by apply (Hnn _ _ Hc).
    + intros o'. by apply (charge_kept _ _ _ _ _ o' E2).
    + done.
    + by eapply cost_row.
  - destruct e; try done. injection Ecost as <- <- <- <-. simpl in E.
    apply bind_Ok in E as (? & [tx2 db2] & E2 & E). injection E as <- <- <-.
    apply txExec_Ok in E2 as (Ht2 & E2 & Ha & Hd). injection E2 as <-. rewrite Hw0.
    destruct (H0 eq_refl) as [Hnone _].
    split_and!; [congruence|done..|]. eexists _, 0, _, (work tx). split_and!; [done..| |done|done|done|done| |].
    + intros o'. destruct (String.eqb o o'); lia.
    + apply (no_cost_row _ _ _ _ Hnone).
    + apply (no_cost_row _ _ _ _ Hnone).
Qed.

Lemma getStationCost_isolated x y : isolated (getStationCostCentsTx x y).
Proof.
  intros s. unfold getStationCostCentsTx.
  match goal with |- context [txQueryRow ?f s] => pose proof (isolated_txQueryRow f s) as Hi; destruct (txQueryRow f s) as [[c|[]] s1] end; done.
Qed.

Lemma pairStep_isolated o u v : isolated (pairStep b o u v).
Proof.
  apply isolated_bind; [apply getStationCost_isolated|]. intros [cost [|]]; unfold txExec; simpl; by auto 6 with sql.
Qed.

Lemma pairStep_frame o u v tx db r tx' db' : pairStep b o u v (tx, db) = (r, (tx', db')) -> tables db' = tables db.
Proof. intros E. pose proof (pairStep_isolated o u v (tx, db)) as Hi. by rewrite E in Hi. Qed.

(** ** All pairs of an owner *)

Lemma processPairs_frame o taps j tx db j' r tx' db' :
  processPairs b o taps j (tx, db) = (j', r, (tx', db')) -> tables db' = tables db.
Proof.
  revert j tx db. induction taps as [|u|u v taps IH] using pairs_ind; intros j tx db; [by intros [= _ _ _ <-]..|].
  cbn [processPairs].
  destruct (pairStep b o u v (tx, db)) as [[c|e] [tx1 db1]] eqn:E; apply pairStep_frame in E.
  - intros Hp. etrans; [by eapply IH|done].
  - by intros [= _ _ _ <-].
Qed.

(** The pairs of a list of taps, in order, with what each left *)
Inductive settled (o : string) : list unprocessedRow -> Z -> Tables -> Tables -> Prop :=
| settled_nil t : settled o [] 0 t t
| settled_one u t : settled o [u] 0 t t
| settled_pair u v taps c j t t1 t' :
    paired o u v c t t1 -> settled o taps j t1 t' -> settled o (u :: v :: taps) ((if c then 1 else 0) + j) t t'.

Lemma processPairs_settled o taps j tx db j' tx' db' : chargeable o (work tx) ->
  processPairs b o taps j (tx, db) = (j', Ok tt, (tx', db')) -> settled o taps (j' - j) (work tx) (work tx').
Proof.
  revert j tx db. induction taps as [|u|u v taps IH] using pairs_ind; intros j tx db Hch.
  1-2: intros [= <- <- _]; rewrite Z.sub_diag; constructor.
  cbn [processPairs]. destruct (pairStep b o u v (tx, db)) as [[c|e] [tx1 db1]] eqn:E; [|done].
  apply pairStep_Ok in E as (_ & _ & _ & E); [|done]. intros Hp.
  assert (Hch1 : chargeable o (work tx1)).
  { destruct E as (now & cost & err & t1 & -> & _ & _ & H3 & _). rewrite chargeable_set. by apply H3. }
  apply IH in Hp; [|done]. replace (j' - j) with ((if c then 1 else 0) + (j' - (if c then j + 1 else j))) by (destruct c; lia).
  by econstructor.
Qed.

Lemma settled_moves o taps j t t' : NoDup (id <$> taps) -> chargeable o t -> Forall (open_row o (taps_of b t)) taps ->
  settled o taps j t t' -> moves t t'.
Proof.
  intros Hnd Hch Ho Hs. induction Hs as [t|u t|u v taps c j t t1 t' Hp Hs IH]; [done..|].
  rewrite !fmap_cons, !NoDup_cons in Hnd. destruct Hnd as (Hu & Hv & Hnd). apply not_elem_of_cons in Hu as [Huv Hu].
  rewrite !Forall_cons in Ho. destruct Ho as (Ou & Ov & Ho).
  assert (Hm : moves t t1) by (by eapply paired_moves). etrans; [done|]. apply IH; [done|by apply (mv_chargeable _ _ Hm)|].
  by eapply paired_rest.
Qed.

(** The taps that are in a pair, and the rows they become *)
Fixpoint inPairs (taps : list unprocessedRow) : list unprocessedRow :=
  match taps with u :: v :: taps => u :: v :: inPairs taps | _ => [] end.

Lemma inPairs_take taps : inPairs taps = take (2 * (length taps / 2)) taps.
Proof.
  induction taps as [|u|u v taps IH] using pairs_ind; [done..|]. cbn [inPairs length].
  replace (S (S (length taps)) / 2)%nat with (S (length taps / 2)) by (rewrite <- (Nat.div_add_l 1 2) by done; f_equal; lia).
  rewrite IH. replace (2 * S (length taps / 2))%nat with (S (S (2 * (length taps / 2)))) by lia. done.
Qed.

(** How a pair of taps is recorded: both rows carry the same cost, the one of
    their two stations when there is one, and are otherwise as they were. *)
Definition recorded (t : Tables) (u v : unprocessedRow) (m : gmap string TapRow) : Prop :=
  exists now cost err r s, taps_of b t !! id u = Some r /\ taps_of b t !! id v = Some s /\
    m !! id u = Some (processRow now cost err r) /\ m !! id v = Some (processRow now cost err s) /\
    (err = None /\ (station_costs t !! (station u, station v) = Some cost \/ station_costs t !! (station v, station u) = Some cost) \/
     err = Some "missing cost"%string /\ cost = 0 /\
       station_costs t !! (station u, station v) = None /\ station_costs t !! (station v, station u) = None).

Fixpoint all_recorded (t : Tables) (taps : list unprocessedRow) (m : gmap string TapRow) : Prop :=
  match taps with
  | u :: v :: taps => recorded t u v m /\ all_recorded t taps m
  | _ => True
  end.

Lemma settled_rest o taps j t t' k : NoDup (id <$> taps) -> k ∉ id <$> inPairs taps -> settled o taps j t t' ->
  taps_of b t' !! k = taps_of b t !! k.
Proof.
  intros Hnd Hk Hs. induction Hs as [t|u t|u v taps c j t t1 t' Hp Hs IH]; [done..|].
  rewrite !fmap_cons, !NoDup_cons in Hnd. destruct Hnd as (Hu & Hv & Hnd). apply not_elem_of_cons in Hu as [Huv Hu].
  cbn [inPairs] in Hk. rewrite !fmap_cons, !not_elem_of_cons in Hk. destruct Hk as (Hku & Hkv & Hk).
  rewrite (IH Hnd Hk). destruct (paired_taps _ _ _ _ _ _ Huv Hp) as (now & cost & err & E).
  rewrite E, decide_False; [done|]. by intros [|].
Qed.

Lemma inPairs_incl taps u : u ∈ inPairs taps -> u ∈ taps.
Proof. rewrite inPairs_take. intros Hu. eapply elem_of_sublist; [done|apply sublist_take]. Qed.

Lemma settled_costs o taps j t t' : settled o taps j t t' -> station_costs t' = station_costs t.
Proof.
  intros Hs. induction Hs as [t|u t|u v taps c j t t1 t' Hp Hs IH]; [done..|].
  destruct Hp as (now & cost & err & t2 & -> & _ & E & _). by rewrite IH, costs_set.
Qed.

Lemma all_recorded_from t1 t2 taps m : station_costs t1 = station_costs t2 ->
  Forall (fun u => taps_of b t1 !! id u = taps_of b t2 !! id u) taps -> all_recorded t1 taps m -> all_recorded t2 taps m.
Proof.
  intros E. induction taps as [|u|u v taps IH] using pairs_ind; [done..|]. cbn [all_recorded].
  rewrite !Forall_cons. unfold recorded. rewrite E. intros (-> & -> & Ht) [H1 H2]. split; [done|by apply IH].
Qed.

Lemma paired_same o u v c t t' taps : id u <> id v -> id u ∉ id <$> taps -> id v ∉ id <$> taps -> paired o u v c t t' ->
  Forall (fun w => taps_of b t' !! id w = taps_of b t !! id w) taps.
Proof.
  intros Huv Hu Hv (now & cost & err & E)%paired_taps; [|done]. apply Forall_forall. intros w Hw. rewrite E, decide_False; [done|].
  intros [Hk|Hk]; [apply Hu|apply Hv]; rewrite <- Hk; by apply list_elem_of_fmap_2.
Qed.

Lemma settled_recorded o taps j t t' : NoDup (id <$> taps) -> Forall (open_row o (taps_of b t)) taps ->
  settled o taps j t t' -> all_recorded t taps (taps_of b t').
Proof.
  intros Hnd Ho Hs. induction Hs as [t|u t|u v taps c j t t1 t' Hp Hs IH]; [done..|]. cbn [all_recorded].
  rewrite !fmap_cons, !NoDup_cons in Hnd. destruct Hnd as (Hu & Hv & Hnd). apply not_elem_of_cons in Hu as [Huv Hu].
  rewrite !Forall_cons in Ho. destruct Ho as ((r & Er & _) & (s & Es & _) & Ho). split.
  - destruct Hp as (now & cost & err & t2 & -> & E2 & Ec & _ & _ & _ & _ & Hc).
    assert (Hin : forall w, w ∉ id <$> taps -> w ∉ id <$> inPairs taps).
    { intros w Hw. contradict Hw. apply list_elem_of_fmap in Hw as (x & -> & Hx). by apply list_elem_of_fmap_2, inPairs_incl. }
    exists now, cost, err, r, s. 
    rewrite (settled_rest _ _ _ _ _ _ Hnd (Hin _ Hu) Hs), (settled_rest _ _ _ _ _ _ Hnd (Hin _ Hv) Hs).
    rewrite taps_set, !markPair_lookup, E2, Er, Es by done. rewrite !decide_True by auto. split_and!; [done..|].
    destruct c; [left|right]; apply Hc.
  - eapply all_recorded_from; [|by eapply paired_same|apply IH; [done|]].
    + destruct Hp as (now & cost & err & t2 & -> & _ & E & _). by rewrite costs_set.
    + by eapply paired_rest.
Qed.

(** ** The taps read for an owner *)

Lemma openRows_ids o m : NoDup (id <$> openRows o m).
Proof.
  unfold openRows. rewrite <- list_fmap_compose. simpl.
  eapply sublist_NoDup; [apply (NoDup_fst_map_to_list m)|]. apply fmap_sublist, filter_sublist.
Qed.

Lemma elem_openRows o m u : u ∈ openRows o m <-> open_row o m u.
Proof.
  unfold openRows, open_row. rewrite list_elem_of_fmap. split.
  - intros ([k r] & -> & Hin). apply list_elem_of_In, filter_In in Hin as [Hin Hr].
    apply list_elem_of_In, elem_of_map_to_list in Hin. by exists r.
  - intros (r & Er & Hr & Es & Et). exists (id u, r). destruct u. simpl in *. subst. split; [done|].
    apply list_elem_of_In, filter_In. split; [|done]. by apply list_elem_of_In, elem_of_map_to_list.
Qed.

(** The rows as the transaction reads them *)
Definition tapsRead (n : nat) (o : string) (t : Tables) : list unprocessedRow :=
  merge_sort by_time (row_order n _ (openRows o (taps_of b t))).

Lemma tapsRead_perm n o t : tapsRead n o t ≡ₚ openRows o (taps_of b t).
Proof. unfold tapsRead. by rewrite merge_sort_Permutation, row_order_perm. Qed.

Lemma taken_rows n o t k : NoDup (id <$> take k (tapsRead n o t)) /\ Forall (open_row o (taps_of b t)) (take k (tapsRead n o t)).
Proof.
  split.
  - rewrite fmap_take. eapply sublist_NoDup; [|apply sublist_take]. rewrite tapsRead_perm. apply openRows_ids.
  - apply Forall_take, Forall_forall. intros u. by rewrite tapsRead_perm, elem_openRows.
Qed.

(** Whatever fails, what one owner's transaction leaves is a legal move. *)
Lemma processOwner_moves o j tx db j' r db' : work tx = tables db -> chargeable o (tables db) ->
  processOwner b o j tx db = (j', r, db') -> moves (tables db) (tables db').
Proof.
  intros Hw Hch. unfold processOwner.
  destruct (txQueryUnchecked _ (tx, db)) as [[taps|e] [tx1 db1]] eqn:E; apply txQueryUnchecked_spec in E as (Ht1 & Hw1 & E);
    [|by intros [= _ _ <-]; rewrite Ht1].
  destruct (E taps eq_refl) as (_ & k & Hk). destruct (Nat.ltb_spec (length taps) 2); [by intros [= _ _ <-]; rewrite Ht1|].
  destruct (processPairs b o taps j (tx1, db1)) as [[j1 [[]|e]] [tx2 db2]] eqn:Ep; pose proof (processPairs_frame _ _ _ _ _ _ _ _ _ Ep) as Ht2.
  - destruct (Commit tx2 db2) as [rc db3] eqn:Ec. intros [= _ _ <-]. apply Commit_spec in Ec as [[->|[_ ->]] _].
    + by rewrite Ht2, Ht1.
    + destruct (taken_rows (tick db) o (tables db) k) as [Hnd Hop].
      rewrite Hw in Hk, Hw1. fold (tapsRead (tick db) o (tables db)) in Hk. subst taps.
      apply processPairs_settled in Ep; [|by rewrite Hw1]. rewrite Hw1 in Ep. by eapply settled_moves.
  - intros [= _ _ <-]. by rewrite Ht2, Ht1.
Qed.

Lemma forOwners_moves step : (forall o j db j' r db', step o j db = (j', r, db') -> moves (tables db) (tables db')) ->
  forall os j db j' r db', forOwners step os j db = (j', r, db') -> moves (tables db) (tables db').
Proof.
  intros Hs. induction os as [|o os IH]; intros j db j' r db'; [by intros [= _ _ <-]|]. simpl.
  destruct (step o j db) as [[j1 [[]|e]] db1] eqn:E; apply Hs in E.
  - intros Ef%IH. by etrans.
  - by intros [= _ _ <-].
Qed.
End Book.

Section Runs.
Context `{Server}.

Lemma processCard_moves o j db j' r db' : processCard o j db = (j', r, db') -> moves CSBook (tables db) (tables db').
Proof.
  unfold processCard. destruct (cancelled_at (tick db)); [by intros [= _ _ <-]|].
  destruct (BeginTx db) as [[tx|e] db1] eqn:Eb; apply BeginTx_spec in Eb as [Ht1 Hb].
  - rewrite (Hb tx eq_refl).
    destruct (lockCard o (_, db1)) as [[bal|e] [tx2 db2]] eqn:El; apply txQueryRow_spec in El as (Ht2 & Hw2 & El).
    + simpl in Hw2. rewrite <- Ht1, <- Ht2. apply processOwner_moves; [by rewrite Ht2, Hw2|].
      simpl. rewrite Ht2, Ht1. destruct El as [El _]. simpl in El. destruct (cards (tables db) !! o); [by eauto|by apply not_elem_of_nil in El].
    + destruct e; intros [= _ _ <-]; by rewrite Ht2, Ht1.
  - intros [= _ _ <-]. by rewrite Ht1.
Qed.

Lemma processToken_moves o j db j' r db' : processToken o j db = (j', r, db') -> moves PCTRBook (tables db) (tables db').
Proof.
  unfold processToken. destruct (BeginTx db) as [[tx|e] db1] eqn:Eb; apply BeginTx_spec in Eb as [Ht1 Hb].
  - rewrite (Hb tx eq_refl), <- Ht1. by apply processOwner_moves.
  - intros [= _ _ <-]. by rewrite Ht1.
Qed.

Lemma RunJourney_moves db j r db' : RunJourneyConstruction db = (j, r, db') -> moves CSBook (tables db) (tables db').
Proof.
  unfold RunJourneyConstruction. destruct (QueryAll _ db) as [[os|e] db1] eqn:E; apply QueryAll_spec in E as [<- _].
  - apply forOwners_moves, processCard_moves.
  - by intros [= _ _ <-].
Qed.

Lemma RunPCTR_moves db j r db' : RunPCTRJourneyConstruction db = (j, r, db') -> moves PCTRBook (tables db) (tables db').
Proof.
  unfold RunPCTRJourneyConstruction. destruct (QueryAll _ db) as [[os|e] db1] eqn:E; apply QueryAll_spec in E as [<- _].
  - apply forOwners_moves, processToken_moves.
  - by intros [= _ _ <-].
Qed.
End Runs.

(** ** The card system's money *)

(** C32: money is conserved by a run of the journey construction, whatever
    statement, commit or acknowledgement fails and wherever the run stops.
    For every card, twice its balance plus the costs recorded on its taps is
    what it was, so a debit and the marking of its two taps happen together or
    not at all; no tap appears or disappears; and a tap that was processed is
    never touched again, so no journey is charged twice. *)
Theorem journey_conserves_money `{Server} db j r db' :
  taps_wf (transactions (tables db)) -> RunJourneyConstruction db = (j, r, db') ->
  (forall card, 2 * cardBalance card (tables db') + charged card (transactions (tables db')) =
                2 * cardBalance card (tables db) + charged card (transactions (tables db))) /\
  (forall i, is_Some (transactions (tables db') !! i) <-> is_Some (transactions (tables db) !! i)) /\
  (forall i row, transactions (tables db) !! i = Some row -> processed row = true -> transactions (tables db') !! i = Some row) /\
  taps_wf (transactions (tables db')).
Proof.
  intros Hw [Hwf Hacc Hrows _ _ _ _ _]%RunJourney_moves. simpl in *. split_and!.
  - intros card. specialize (Hacc card Hw). unfold account in Hacc. simpl in Hacc. lia.
  - intros i. specialize (Hrows i). inversion Hrows as [x y Hxy E1 E2|E1 E2]; [|done]. split; by eauto.
  - intros i row E Hp. specialize (Hrows i). rewrite E in Hrows. inversion Hrows as [x y [->|[Hx _]] E1 E2|]; congruence.
  - by apply Hwf.
Qed.

(** The taps of a card the system does not know are never settled.  The
    code means to mark them processed with the reason "unknown card", but
    sends the update on the transaction it has just rolled back: whatever the
    database does, their rows stay as they are, and every later run reads
    them again. *)
Theorem unknown_card_taps_stuck `{Server} db j r db' i row :
  RunJourneyConstruction db = (j, r, db') ->
  transactions (tables db) !! i = Some row -> cards (tables db) !! tap_owner row = None ->
  transactions (tables db') !! i = Some row.
Proof.
  intros Hm%RunJourney_moves E Hc. apply (mv_unpayable _ _ _ Hm); [done|]. simpl. rewrite Hc. by intros [? ?].
Qed.

Definition demo_tap (owner station : string) (time : Z) : TapRow :=
  mkTap owner "g" station time true "ok" false None None None.

Definition demo_tables : Tables :=
  mkTables {["c" := mkCard true false 500]}
    (list_to_map [("1", demo_tap "c" "A" 1000); ("2", demo_tap "c" "B" 2000); ("3", demo_tap "c" "A" 3000);
                  ("4", demo_tap "x" "A" 1000); ("5", demo_tap "x" "B" 2000)]%string)
    {[("B", "A")%string := 120]} ∅ ∅ ∅ ∅ ∅ ∅.

Lemma demo_taps_wf : taps_wf (transactions demo_tables).
Proof. apply map_Forall_to_list. repeat constructor. Qed.

(** The acknowledgement of the commit for the known card is lost: the run
    fails and yet the journey is charged, once. *)
Lemma journey_conserves_money_witness :
  let run := RunJourneyConstruction (H := demo_server [Runs; Runs; Runs; Runs; Runs; Runs; Runs; AckLost]) (mkDB demo_tables 0) in
  run.1.2 = Err Failed /\ cardBalance "c" (tables run.2) = 380 /\
  2 * cardBalance "c" (tables run.2) + charged "c" (transactions (tables run.2)) = 1000.
Proof.
  intros run. split; [by vm_compute|]. split; [by vm_compute|]. destruct run as [[j r] db'] eqn:E.
  destruct (journey_conserves_money (H := demo_server _) (mkDB demo_tables 0) _ _ _ demo_taps_wf E) as [Hc _].
  etrans; [apply (Hc "c"%string)|]. by vm_compute.
Defined.

Lemma unknown_card_taps_stuck_witness :
  transactions (tables (RunJourneyConstruction (H := demo_server []) (mkDB demo_tables 0)).2) !! "4"%string = Some (demo_tap "x" "A" 1000).
Proof.
  destruct (RunJourneyConstruction _) as [[j r] db'] eqn:E.
  by apply (unknown_card_taps_stuck (H := demo_server []) _ _ _ _ "4"%string (demo_tap "x" "A" 1000) E).
Defined.
