(* ===== verification/JourneysLive.v ===== *)
(** * Journeys: when the database answers, every known card is settled

    The progress half of [JourneysFacts.v]: with no fault a journey
    construction ends without an error and leaves each known card at most its
    latest tap. *)

From Stdlib Require Import Ascii String.
From S2P Require Import Prelude.
From stdpp Require Import list sorting.
From S2P Require Import SQL CardDB Journeys JourneysFacts.
Local Open Scope Z_scope.

Section Quiet.
Context `{Server} (b : Book) `{!BookLaws b}.
Context (quiet : forall n, fault_at n = Runs).

(** That [k] more journeys of an owner can be charged *)
Context (able : string -> nat -> Tables -> Prop).
Context (able_charge : forall n o k p cost t, able o (S k) t -> station_costs t !! p = Some cost ->
  exists t', charge b n o cost t = Some t' /\ able o k t').
Context (able_set : forall o k m t, able o k t -> able o k (set_taps b m t)).
Context (able_S : forall o k t, able o (S k) t -> able o k t).

Lemma txExec_runs (f : nat -> Tables -> option Tables) t t' (db : DB Tables) : f (tick db) t = Some t' ->
  txExec f (mkTx t false false, db) = (Ok tt, (mkTx t' false false, mkDB (tables db) (S (tick db)))).
Proof. intros E. apply txRun_runs; [done|]. by rewrite E. Qed.

Lemma getStationCost_runs x y t (db : DB Tables) :
  exists cost ok, getStationCostCentsTx x y (mkTx t false false, db) = (Ok (cost, ok), (mkTx t false false, mkDB (tables db) (S (tick db)))) /\
    (ok = true -> exists p, station_costs t !! p = Some cost).
Proof.
  unfold getStationCostCentsTx, txQueryRow, bind.
  erewrite txRun_runs by (done || reflexivity). set (l := row_order _ _ _).
  destruct l as [|cost l'] eqn:E; [by exists 0, false|]. exists cost, true. split; [done|]. intros _.
  assert (Hin : cost ∈ l) by (rewrite E; left). apply cost_row in Hin as [Hin|Hin]; by eauto.
Qed.

Lemma pairStep_runs o k u v t (db : DB Tables) : able o (S k) t ->
  exists c t' db', pairStep b o u v (mkTx t false false, db) = (Ok c, (mkTx t' false false, db')) /\ able o k t'.
Proof.
  intros Ha. unfold pairStep. destruct (getStationCost_runs (station u) (station v) t db) as (cost & ok & E & Hok).
  rewrite (bind_runs _ _ _ _ _ E). destruct ok; cbn [negb].
  - destruct (Hok eq_refl) as [p Hp]. destruct (able_charge (S (tick db)) o k p cost t Ha Hp) as (t1 & Ec & Ha1).
    erewrite bind_runs by (apply txExec_runs; exact Ec). erewrite bind_runs by (apply txExec_runs; reflexivity).
    eexists true, _, _. split; [reflexivity|]. by apply able_set.
  - erewrite bind_runs by (apply txExec_runs; reflexivity).
    eexists false, _, _. split; [reflexivity|]. by apply able_set, able_S.
Qed.

Lemma processPairs_runs o taps j t (db : DB Tables) : able o (length taps) t ->
  exists j' t' db', processPairs b o taps j (mkTx t false false, db) = (j', Ok tt, (mkTx t' false false, db')).
Proof.
  revert j t db. induction taps as [|u|u v taps IH] using pairs_ind; intros j t db Ha; [by eauto..|]. cbn [processPairs].
  destruct (pairStep_runs o (S (length taps)) u v t db Ha) as (c & t1 & db1 & -> & Ha1). by apply IH, able_S.
Qed.

Lemma processOwner_runs o j (db : DB Tables) : chargeable o (tables db) -> able o (length (openRows o (taps_of b (tables db)))) (tables db) ->
  exists j' db', processOwner b o j (mkTx (tables db) false false) db = (j', Ok tt, db') /\
    exists n i, settled b o (tapsRead b n o (tables db)) i (tables db) (tables db').
Proof.
  intros Hch Ha. unfold processOwner, txQueryUnchecked. rewrite quiet. erewrite txRun_runs by (done || reflexivity).
  fold (tapsRead b (tick db) o (tables db)). set (taps := tapsRead b (tick db) o (tables db)).
  assert (Hlen : length taps = length (openRows o (taps_of b (tables db)))) by (by apply Permutation_length, tapsRead_perm).
  destruct (Nat.ltb_spec (length taps) 2).
  - eexists j, _. split; [done|]. exists (tick db), 0. simpl. fold taps. destruct taps as [|u [|]]; simpl in *; try constructor. lia.
  - rewrite <- Hlen in Ha. set (db1 := mkDB _ _). destruct (processPairs_runs o taps j (tables db) db1 Ha) as (j' & t' & db2 & E).
    rewrite E. unfold Commit. simpl. rewrite quiet. eexists j', _. split; [done|]. exists (tick db), (j' - j). simpl. fold taps.
    by apply (processPairs_settled b) in E.
Qed.
End Quiet.

(** ** What a settled owner looks like *)

Section Served.
Context `{Server} (b : Book) `{!BookLaws b}.

(** The open taps of [o], in some order by time, are paired off from the
    front; an odd one out, the latest, stays open. *)
Definition served (o : string) (t t' : Tables) : Prop :=
  exists order, order ≡ₚ openRows o (taps_of b t) /\ StronglySorted by_time order /\
    openRows o (taps_of b t') ≡ₚ drop (2 * (length order / 2)) order /\ all_recorded b t order (taps_of b t').

#[local] Instance by_time_total : Total by_time.
Proof. intros x y. unfold by_time. lia. Qed.
#[local] Instance by_time_trans : Transitive by_time.
Proof. intros x y z. unfold by_time. lia. Qed.

Lemma tapsRead_sorted n o t : StronglySorted by_time (tapsRead b n o t).
Proof. apply StronglySorted_merge_sort; apply _. Qed.

Lemma recorded_processed t taps m k : all_recorded b t taps m -> k ∈ id <$> inPairs taps ->
  exists r, m !! k = Some r /\ processed r = true.
Proof.
  induction taps as [|u|u v taps IH] using pairs_ind; [intros _ Hk; by apply not_elem_of_nil in Hk..|].
  cbn [all_recorded inPairs]. intros [(now & cost & err & r & s & _ & _ & Er & Es & _) Hrec].
  rewrite !fmap_cons, !elem_of_cons. intros [->|[->|Hk]]; [by eauto..|by apply IH].
Qed.

Lemma settled_served o n j t t' : settled b o (tapsRead b n o t) j t t' -> served o t t'.
Proof.
  set (order := tapsRead b n o t). intros Hs. exists order.
  assert (Hperm : order ≡ₚ openRows o (taps_of b t)) by apply tapsRead_perm.
  assert (Hnd : NoDup (id <$> order)) by (rewrite Hperm; apply openRows_ids).
  assert (Hop : Forall (open_row o (taps_of b t)) order).
  { apply Forall_forall. intros u. by rewrite Hperm, elem_openRows. }
  pose proof (settled_recorded b o order j t t' Hnd Hop Hs) as Hrec.
  assert (Hsplit : order = inPairs order ++ drop (2 * (length order / 2)) order) by (by rewrite inPairs_take, take_drop).
  split_and!; [done|apply tapsRead_sorted| |done].
  assert (Hnd' := Hnd). rewrite Hsplit, fmap_app, NoDup_app in Hnd'. destruct Hnd' as (_ & Hdisj & Hndd).
  apply NoDup_Permutation; [by eapply NoDup_fmap_1, openRows_ids|by eapply NoDup_fmap_1|]. intros u. rewrite elem_openRows. split.
  - intros (r & Er & Hr & Hu). destruct (decide (id u ∈ id <$> inPairs order)) as [Hin|Hin].
    { destruct (recorded_processed t order _ _ Hrec Hin) as (r' & Er' & Hr'). apply is_open_spec in Hr as [_ Hr]. congruence. }
    rewrite (settled_rest b o order j t t' _ Hnd Hin Hs) in Er.
    assert (Hu' : u ∈ order) by (rewrite Hperm, elem_openRows; by exists r).
    rewrite Hsplit in Hu'. apply elem_of_app in Hu' as [Hu'|Hu']; [|done]. destruct Hin. by apply list_elem_of_fmap_2.
  - intros Hu. assert (Ho : open_row o (taps_of b t) u).
    { rewrite Forall_forall in Hop. apply Hop. rewrite Hsplit. apply elem_of_app. by right. }
    destruct Ho as (r & Er & Hr). exists r. split; [|done]. rewrite (settled_rest b o order j t t' _ Hnd); [done| |done].
    intros Hin. apply (Hdisj _ Hin). by apply list_elem_of_fmap_2.
Qed.

(** The rows of an owner are the same in two states. *)
Definition same_rows (o : string) (t t' : Tables) : Prop :=
  forall k r, tap_owner r = o -> taps_of b t !! k = Some r <-> taps_of b t' !! k = Some r.

Lemma same_rows_open o t t' : same_rows o t t' -> openRows o (taps_of b t) ≡ₚ openRows o (taps_of b t').
Proof.
  intros Hs. apply NoDup_Permutation; [by eapply NoDup_fmap_1, openRows_ids..|]. intros u. rewrite !elem_openRows.
  unfold open_row. split; intros (r & Er & Hr & Hu); exists r; (split; [|done]); apply is_open_spec in Hr as [Ho _]; by apply (Hs _ r Ho).
Qed.

Lemma settled_others o o' taps j t t' : o' <> o -> chargeable o t -> NoDup (id <$> taps) ->
  Forall (open_row o (taps_of b t)) taps -> settled b o taps j t t' -> same_rows o' t t'.
Proof.
  intros Hne Hch Hnd Hop Hs k r Hr. destruct (decide (k ∈ id <$> inPairs taps)) as [Hin|Hin].
  - pose proof (mv_rows b _ _ (settled_moves b o taps j t t' Hnd Hch Hop Hs) k) as Hk.
    apply list_elem_of_fmap in Hin as (u & -> & Hu%inPairs_incl). rewrite Forall_forall in Hop.
    destruct (Hop u Hu) as (s & Es & [Hs1 _]%is_open_spec & _). rewrite Es in *. split; [congruence|].
    intros E. rewrite E in Hk. inversion Hk as [? ? [->|(_ & now & c & e & ->)]|]; subst; done.
  - by rewrite (settled_rest b o taps j t t' k Hnd Hin Hs).
Qed.

Lemma served_after o t0 t1 t2 : same_rows o t1 t2 -> served o t0 t1 -> served o t0 t2.
Proof.
  intros Hs (order & Hp & Hst & Hd & Hrec). exists order. split_and!; [done..| |].
  - by rewrite <- (same_rows_open o t1 t2).
  - assert (Hop : Forall (open_row o (taps_of b t0)) order).
    { apply Forall_forall. intros u. by rewrite Hp, elem_openRows. }
    clear Hp Hst Hd. induction order as [|u|u v l IH] using pairs_ind; [done..|]. rewrite !Forall_cons in Hop.
    destruct Hop as ((r0 & Er0 & [Hr0 _]%is_open_spec & _) & (s0 & Es0 & [Hs0 _]%is_open_spec & _) & Hl).
    destruct Hrec as [(now & cost & err & r & s & E1 & E2 & E3 & E4 & Hc) Hrec]. split; [|by apply IH].
    assert (r = r0) as -> by congruence. assert (s = s0) as -> by congruence.
    exists now, cost, err, r0, s0. split_and!; [done|done| | |done].
    + by apply (Hs _ (processRow now cost err r0)).
    + by apply (Hs _ (processRow now cost err s0)).
Qed.

Lemma served_before o t0 t1 t2 : station_costs t1 = station_costs t0 -> same_rows o t0 t1 -> served o t1 t2 -> served o t0 t2.
Proof.
  intros Ec Hs (order & Hp & Hst & Hd & Hrec). exists order. split_and!; [by rewrite (same_rows_open o t0 t1)|done..|].
  apply (all_recorded_from b t1 t0); [done| |done]. apply Forall_forall. intros u. rewrite Hp, elem_openRows.
  intros (r & Er & [Hr _]%is_open_spec & _). rewrite Er. symmetry. by apply (Hs _ r Hr).
Qed.

Lemma settled_paid o taps j t t' : settled b o taps j t t' -> chargeable o t ->
  (forall o', o' <> o -> paid o' t' = paid o' t) /\ (forall o', chargeable o' t' <-> chargeable o' t).
Proof.
  intros Hs. induction Hs as [t|u t|u v taps c j t t1 t' Hp Hs IH]; intros Hch; [done..|].
  destruct Hp as (now & cost & err & t2 & -> & _ & _ & H3 & H4 & _).
  destruct IH as [IH1 IH2]; [rewrite chargeable_set; by apply H3|]. split.
  - intros o' Hne. rewrite IH1, paid_set, H4 by done. destruct (String.eqb_spec o o'); [congruence|lia].
  - intros o'. by rewrite IH2, chargeable_set, H3.
Qed.

Lemma same_rows_refl o t : same_rows o t t.
Proof. done. Qed.
Lemma same_rows_trans o t1 t2 t3 : same_rows o t1 t2 -> same_rows o t2 t3 -> same_rows o t1 t3.
Proof. intros H1 H2 k r Hr. rewrite (H1 k r Hr). by apply H2. Qed.
End Served.

(** ** The card system *)

(** [k] journeys of at most [M] cents keep the balance of a known card in the
    range of its column. *)
Definition solvent (M : Z) (c : string) (k : nat) (t : Tables) : Prop :=
  0 <= M /\ (forall p cost, station_costs t !! p = Some cost -> 0 <= cost <= M) /\ is_Some (cards t !! c) /\
  int64_min + Z.of_nat k * M <= cardBalance c t <= int64_max.

Lemma solvent_charge M n c k p cost t : solvent M c (S k) t -> station_costs t !! p = Some cost ->
  exists t', charge CSBook n c cost t = Some t' /\ solvent M c k t'.
Proof.
  intros (HM & Hc & [card Ecard] & Hb) Hp. specialize (Hc _ _ Hp) as Hcost. unfold cardBalance in Hb. rewrite Ecard in Hb. simpl.
  unfold debitCard. rewrite Ecard. assert (Hok : int64_ok (balance_cents card - cost) = true).
  { unfold int64_ok. apply andb_true_iff. rewrite !Z.leb_le. nia. }
  rewrite Hok. eexists. split; [done|]. unfold solvent, cardBalance. simpl. rewrite lookup_insert_eq. simpl.
  split_and!; by eauto || lia.
Qed.

Lemma solvent_S M c k t : solvent M c (S k) t -> solvent M c k t.
Proof. intros (HM & Hc & Hcard & Hb). split_and!; [done..|lia|lia]. Qed.

Section CS.
Context `{Server}.
Context (quiet : forall n, fault_at n = Runs) (running : forall n, cancelled_at n = false).

Lemma processCard_runs M o j (db : DB Tables) :
  (is_Some (cards (tables db) !! o) -> solvent M o (length (openRows o (transactions (tables db)))) (tables db)) ->
  exists j' db', processCard o j db = (j', Ok tt, db') /\
    (is_Some (cards (tables db) !! o) /\ (exists n i, settled CSBook o (tapsRead CSBook n o (tables db)) i (tables db) (tables db')) \/
     cards (tables db) !! o = None /\ tables db' = tables db).
Proof.
  intros Hs. unfold processCard, BeginTx. rewrite running. unfold run at 1. rewrite quiet. cbv beta iota. unfold lockCard, txQueryRow.
  erewrite bind_runs by (apply txRun_runs; [done|reflexivity]). simpl. destruct (cards (tables db) !! o) as [card|] eqn:Ec.
  - set (db1 := mkDB (tables db) _).
    destruct (processOwner_runs CSBook quiet (solvent M) (solvent_charge M) ltac:(done) (solvent_S M) o j db1) as (j' & db' & E & Hset).
    + simpl. by rewrite Ec.
    + by apply Hs.
    + exists j', db'. split; [exact E|]. left. split; [by eauto|exact Hset].
  - by eauto 8.
Qed.

Lemma settled_effect o n i t t' : is_Some (cards t !! o) -> settled CSBook o (tapsRead CSBook n o t) i t t' ->
  served CSBook o t t' /\ (forall o', o' <> o -> same_rows CSBook o' t t' /\ cardBalance o' t' = cardBalance o' t) /\
  (forall o', is_Some (cards t' !! o') <-> is_Some (cards t !! o')) /\ station_costs t' = station_costs t.
Proof.
  intros Hch Hs. destruct (taken_rows CSBook n o t (length (tapsRead CSBook n o t))) as [Hnd Hop]. rewrite firstn_all in Hnd, Hop.
  destruct (settled_paid CSBook _ _ _ _ _ Hs Hch) as [Hp Hc]. split_and!.
  - by eapply settled_served.
  - intros o' Hne. split; [by eapply settled_others|]. specialize (Hp o' Hne). simpl in Hp. lia.
  - done.
  - apply (settled_costs CSBook _ _ _ _ _ Hs).
Qed.

Lemma forOwners_runs M os j (db : DB Tables) : NoDup os ->
  (forall c, c ∈ os -> is_Some (cards (tables db) !! c) -> solvent M c (length (openRows c (transactions (tables db)))) (tables db)) ->
  exists j' db', forOwners processCard os j db = (j', Ok tt, db') /\
    (forall c, c ∈ os -> is_Some (cards (tables db) !! c) -> served CSBook c (tables db) (tables db')) /\
    (forall c, c ∉ os -> same_rows CSBook c (tables db) (tables db')).
Proof.
  intros Hnd. revert j db. induction Hnd as [|o os Ho Hnd IH]; intros j db Hs.
  { exists j, db. split_and!; [done| |done]. intros c Hc. by apply not_elem_of_nil in Hc. }
  cbn [forOwners]. destruct (processCard_runs M o j db) as (j1 & db1 & -> & Hcase); [apply Hs; left|].
  assert (Heff : (is_Some (cards (tables db) !! o) -> served CSBook o (tables db) (tables db1)) /\
    (forall o', o' <> o -> same_rows CSBook o' (tables db) (tables db1) /\ cardBalance o' (tables db1) = cardBalance o' (tables db)) /\
    (forall o', is_Some (cards (tables db1) !! o') <-> is_Some (cards (tables db) !! o')) /\
    station_costs (tables db1) = station_costs (tables db)).
  { destruct Hcase as [[Hk (n & i & Hset)]|[Hn Ht]].
    - destruct (settled_effect _ _ _ _ _ Hk Hset) as (H1 & H2 & H3 & H4). by split_and!.
    - rewrite Ht, Hn. split_and!; [by intros [? ?]|done..]. }
  destruct Heff as (Hserved & Hothers & Hcards & Hcosts).
  destruct (IH j1 db1) as (j2 & db2 & E & Hin & Hout).
  { intros c Hc Hk. rewrite Hcards in Hk. assert (Hne : c <> o) by (by intros ->). destruct (Hothers c Hne) as [Hrows Hbal].
    destruct (Hs c ltac:(by right) Hk) as (HM & Hco & _ & Hb). pose proof (Permutation_length (same_rows_open _ _ _ _ Hrows)) as Hlen.
    split_and!; [done|by rewrite Hcosts|by rewrite Hcards|simpl in *; lia..]. }
  exists j2, db2. split_and!; [done| |].
  - intros c [->|Hc]%elem_of_cons Hk.
    + eapply served_after; [by apply Hout|by apply Hserved].
    + assert (Hne : c <> o) by (by intros ->). eapply served_before; [done|by apply Hothers|]. apply Hin; [done|]. by rewrite Hcards.
  - intros c [Hne Hc]%not_elem_of_cons. eapply same_rows_trans; [by apply Hothers|by apply Hout].
Qed.

Lemma openOwners_NoDup m : NoDup (openOwners m).
Proof.
  unfold openOwners. rewrite merge_sort_Permutation. eapply sublist_NoDup; [apply NoDup_remove_dups|apply filter_sublist].
Qed.

Lemma openOwners_out c m : c ∉ openOwners m -> (length (openRows c m) < 2)%nat.
Proof.
  intros Hc. destruct (decide (2 <= length (openRows c m))%nat) as [H2|]; [|lia]. destruct Hc.
  unfold openOwners. rewrite merge_sort_Permutation. apply list_elem_of_In, filter_In. split; [|by apply Nat.leb_le].
  apply list_elem_of_In, elem_of_remove_dups. destruct (openRows c m) as [|u l] eqn:E; simpl in H2; [lia|].
  assert (Hu : u ∈ openRows c m) by (rewrite E; left). apply elem_openRows in Hu as (r & Er & [<- _]%is_open_spec & _).
  apply list_elem_of_fmap. exists (id u, r). split; [done|]. by apply elem_of_map_to_list.
Qed.

Lemma few_served c t t' : (length (openRows c (transactions t)) < 2)%nat -> same_rows CSBook c t t' -> served CSBook c t t'.
Proof.
  intros Hl Hs. exists (openRows c (transactions t)). pose proof (same_rows_open _ _ _ _ Hs) as Hp. simpl in Hp.
  simpl. rewrite <- Hp. destruct (openRows c (transactions t)) as [|u [|]]; simpl in Hl; [..|lia]; split_and!; by repeat constructor.
Qed.
End CS.

(** C33: journeys are constructed completely.  When the database answers every
    statement, the context is not cancelled and no balance can leave the range
    of its column, a run ends without an error, and for every known card the
    open taps, taken in the order of their times, are settled in pairs: both
    rows of a pair get the cost between their two stations in either
    direction, or 0 and the reason "missing cost" when there is none, and
    nothing else of them changes.  At most one tap stays open, a latest one. *)
Theorem journeys_complete `{Server} M db :
  (forall n, fault_at n = Runs) -> (forall n, cancelled_at n = false) -> 0 <= M ->
  (forall p cost, station_costs (tables db) !! p = Some cost -> 0 <= cost <= M) ->
  (forall c, is_Some (cards (tables db) !! c) ->
    int64_min + Z.of_nat (length (openRows c (transactions (tables db)))) * M <= cardBalance c (tables db) <= int64_max) ->
  exists j db', RunJourneyConstruction db = (j, Ok tt, db') /\
    forall c, is_Some (cards (tables db) !! c) -> served CSBook c (tables db) (tables db').
Proof.
  intros Hq Hr HM Hcost Hbal. unfold RunJourneyConstruction. rewrite QueryAll_runs by done. set (db1 := mkDB _ _).
  set (os := openOwners (transactions (tables db))).
  destruct (forOwners_runs Hq Hr M os 0 db1) as (j & db' & E & Hin & Hout); [apply openOwners_NoDup| |].
  { intros c _ Hc. split_and!; [done..|apply (Hbal c Hc)|apply (Hbal c Hc)]. }
  exists j, db'. split; [done|]. intros c Hc. destruct (decide (c ∈ os)) as [Hos|Hos]; [by apply Hin|].
  apply few_served; [by apply openOwners_out|by apply Hout].
Qed.

Lemma journeys_complete_witness :
  exists db', (RunJourneyConstruction (H := demo_server []) (mkDB demo_tables 0)) = (1, Ok tt, db') /\
    length (openRows "c" (transactions (tables db'))) = 1%nat.
Proof.
  destruct (journeys_complete (H := demo_server []) 120 (mkDB demo_tables 0)) as (j & db' & E & Hs).
  - done.
  - done.
  - done.
  - intros p cost Hp. simpl in Hp. apply lookup_singleton_Some in Hp as [_ <-]. lia.
  - intros c [card Hc]. simpl in Hc. apply lookup_singleton_Some in Hc as [<- _]. vm_compute. by split; intros [=].
  - exists db'. split.
    { assert (Hj : (RunJourneyConstruction (H := demo_server []) (mkDB demo_tables 0)).1.1 = 1) by (by vm_compute).
      rewrite E in *. simpl in Hj. by subst j. }
    destruct (Hs "c"%string) as (order & Hp & _ & Hd & _); [by eexists|].
    apply Permutation_length in Hp. etrans; [exact (Permutation_length Hd)|]. rewrite length_drop, Hp. by vm_compute.
Defined.
