(* ===== verification/Taps.v ===== *)
(** * Taps arrive once; the back office's debts are its journeys

    Facts about the inserts of Simulation/carddb and about every history of
    the back office's database. *)

From Stdlib Require Import Ascii String.
From S2P Require Import Prelude.
From stdpp Require Import list sorting relations.
From S2P Require Import SQL CardDB Journeys JourneysFacts.
Local Open Scope Z_scope.

(** ** Inserts *)

Section Inserts.
Context `{Server} (b : Book) `{!BookLaws b}.

(** What a batch adds to a tap table *)
Definition addTap (m : gmap string TapRow) (tx : CSTransaction) : gmap string TapRow :=
  if incomplete tx then m else insertNew (TransactionID tx) (newRow tx) m.

Lemma insertNew_old {K V} `{Countable K} (k : K) (v : V) m i x : m !! i = Some x -> insertNew k v m !! i = Some x.
Proof.
  intros E. unfold insertNew. destruct (m !! k) eqn:Ek; [done|]. rewrite lookup_insert_ne; [done|congruence].
Qed.

Lemma insertNew_new {K V} `{Countable K} (k : K) (v : V) m i x :
  m !! i = None -> insertNew k v m !! i = Some x -> i = k /\ x = v.
Proof.
  unfold insertNew. destruct (m !! k) eqn:Ek; [congruence|]. intros E. rewrite lookup_insert_Some. intros [[<- <-]|[_ ?]]; [done|congruence].
Qed.

Lemma insertNew_key {K V} `{Countable K} (k : K) (v : V) m : is_Some (insertNew k v m !! k).
Proof. unfold insertNew. destruct (m !! k) eqn:Ek; [by rewrite Ek|]. rewrite lookup_insert_eq. by eauto. Qed.

Lemma insertNew_twice {K V} `{Countable K} (k : K) (v : V) m : is_Some (m !! k) -> insertNew k v m = m.
Proof. intros [x E]. unfold insertNew. by rewrite E. Qed.

Lemma addTap_old m tx i r : m !! i = Some r -> addTap m tx !! i = Some r.
Proof. unfold addTap. destruct (incomplete tx); [done|]. apply insertNew_old. Qed.

Lemma addTaps_old txs m i r : m !! i = Some r -> foldl addTap m txs !! i = Some r.
Proof. revert m. induction txs as [|tx txs IH]; intros m E; [done|]. by apply IH, addTap_old. Qed.

(** A row a batch adds is the one of its first tap with that id. *)
Lemma addTaps_new txs m i r : m !! i = None -> foldl addTap m txs !! i = Some r ->
  exists tx, tx ∈ txs /\ incomplete tx = false /\ TransactionID tx = i /\ r = newRow tx.
Proof.
  revert m. induction txs as [|tx txs IH]; intros m E; simpl; [congruence|]. intros E'.
  destruct (addTap m tx !! i) as [x|] eqn:Ex.
  - rewrite (addTaps_old _ _ _ _ Ex) in E'. injection E' as <-. unfold addTap in Ex. destruct (incomplete tx) eqn:Ei; [congruence|].
    destruct (insertNew_new _ _ _ _ _ E Ex) as [-> ->]. exists tx. split_and!; [left|done..].
  - destruct (IH _ Ex E') as (y & Hy & ?). exists y. split; [by right|done].
Qed.

Lemma addTaps_present txs m tx : tx ∈ txs -> incomplete tx = false -> is_Some (foldl addTap m txs !! TransactionID tx).
Proof.
  revert m. induction txs as [|x txs IH]; intros m Hin Hc; [by apply not_elem_of_nil in Hin|]. simpl.
  apply elem_of_cons in Hin as [->|Hin]; [|by apply IH].
  destruct (insertNew_key (TransactionID x) (newRow x) m) as [r Er]. exists r. apply addTaps_old. unfold addTap. by rewrite Hc.
Qed.

(** Taps already there change nothing, so a batch can be sent again. *)
Lemma addTaps_noop txs m : (forall tx, tx ∈ txs -> incomplete tx = false -> is_Some (m !! TransactionID tx)) -> foldl addTap m txs = m.
Proof.
  induction txs as [|tx txs IH]; intros Hp; [done|]. simpl. unfold addTap at 2. destruct (incomplete tx) eqn:Ei.
  - apply IH. intros y Hy. apply Hp. by right.
  - rewrite insertNew_twice by (apply Hp; [left|done]). apply IH. intros y Hy. apply Hp. by right.
Qed.

Lemma addTaps_again k txs m : foldl addTap (foldl addTap m (take k txs)) txs = foldl addTap m txs.
Proof.
  rewrite <- (take_drop k txs) at 2 3. rewrite !foldl_app. f_equal. apply addTaps_noop. intros tx. apply addTaps_present.
Qed.

(** Whatever happens, an insert leaves a prefix of its batch. *)
Lemma insertTap_spec tx db r db' : insertTap b tx db = (r, db') ->
  (tables db' = tables db \/ taps_of b (tables db') = addTap (taps_of b (tables db)) tx /\ tables db' = set_taps b (taps_of b (tables db')) (tables db)) /\
  (r = Ok tt -> taps_of b (tables db') = addTap (taps_of b (tables db)) tx).
Proof.
  unfold insertTap, addTap. destruct (incomplete tx) eqn:Ei; [intros [= <- <-]; split; [by left|done]|].
  intros E. unfold ExecContext in E. apply run_spec in E as [H1 H2]. split.
  - destruct H1 as [->|[a [= _ <-]]]; [by left|right]. by rewrite taps_set.
  - intros ->. specialize (H2 tt eq_refl). injection H2 as <-. by rewrite taps_set.
Qed.

Lemma insertTaps_spec txs db r db' : forRange (insertTap b) txs db = (r, db') ->
  exists k, taps_of b (tables db') = foldl addTap (taps_of b (tables db)) (take k txs) /\ (r = Ok tt -> take k txs = txs).
Proof.
  revert db. induction txs as [|tx txs IH]; intros db; simpl; [intros [= <- <-]; by exists 0%nat|].
  unfold bind. destruct (insertTap b tx db) as [[[]|e] db1] eqn:E; apply insertTap_spec in E as [Ha Hok].
  - intros E. destruct (IH _ E) as (k & Hk & Hr). exists (S k). simpl. rewrite Hk, Hok by done. split; [done|].
    intros Hr'. by rewrite (Hr Hr').
  - intros [= <- <-]. destruct Ha as [->|[-> _]]; [by exists 0%nat|]. exists 1%nat. simpl. by destruct txs.
Qed.
End Inserts.

(** A batch of taps takes effect once, however often it is sent.  After
    any attempt to insert it, whatever failed, the rows that were in the
    table are as they were (a tap already turned into a journey is not opened
    again) and every new row is a complete tap of the batch, unprocessed;
    after an attempt that reports success every complete tap is there; and a
    successful attempt after a failed one leaves the table that one
    successful attempt would have left. *)
Theorem insert_exactly_once `{Server} txs db r1 db1 db2 :
  InsertCSTransactions txs db = (r1, db1) -> InsertCSTransactions txs db1 = (Ok tt, db2) ->
  (forall i row, transactions (tables db) !! i = Some row -> transactions (tables db1) !! i = Some row) /\
  (forall i row, transactions (tables db) !! i = None -> transactions (tables db1) !! i = Some row ->
    exists tx, tx ∈ txs /\ incomplete tx = false /\ TransactionID tx = i /\ row = newRow tx) /\
  (forall tx, tx ∈ txs -> incomplete tx = false -> is_Some (transactions (tables db2) !! TransactionID tx)) /\
  transactions (tables db2) = foldl addTap (transactions (tables db)) txs.
Proof.
  intros (k & E1 & _)%(insertTaps_spec CSBook) (k2 & E2 & Hk2)%(insertTaps_spec CSBook).
  rewrite (Hk2 eq_refl) in E2. simpl in *. rewrite E1 in *. split_and!.
  - intros i row. apply addTaps_old.
  - intros i row E E'. destruct (addTaps_new _ _ _ _ E E') as (tx & Hin & Htx). exists tx. split; [|done].
    eapply elem_of_sublist; [done|apply sublist_take].
  - rewrite E2. intros tx. apply addTaps_present.
  - by rewrite E2, addTaps_again.
Qed.

Definition demo_batch : list CSTransaction :=
  [mkCSTx "7" "c" "g" "A" 5000 true "ok"; mkCSTx "" "c" "g" "A" 5000 true "ok"; mkCSTx "1" "c" "g" "B" 9000 true "ok";
   mkCSTx "8" "c" "g" "B" 6000 true "ok"]%string.

(** The second of the three statements runs, but its answer is lost. *)
Lemma insert_exactly_once_witness :
  (InsertCSTransactions (H := demo_server [Runs; AckLost]) demo_batch (mkDB demo_tables 0)).1 = Err Failed /\
  is_Some (transactions (tables (InsertCSTransactions (H := demo_server [Runs; AckLost]) demo_batch
    (InsertCSTransactions (H := demo_server [Runs; AckLost]) demo_batch (mkDB demo_tables 0)).2).2) !! "8"%string).
Proof.
  split; [by vm_compute|].
  destruct (InsertCSTransactions demo_batch (mkDB demo_tables 0)) as [r1 db1] eqn:E1.
  destruct (InsertCSTransactions demo_batch (r1, db1).2) as [r2 db2] eqn:E2.
  assert (Hr : r2 = Ok tt).
  { replace r2 with ((InsertCSTransactions (H := demo_server [Runs; AckLost]) demo_batch
      (InsertCSTransactions (H := demo_server [Runs; AckLost]) demo_batch (mkDB demo_tables 0)).2).1) by (by rewrite E1, E2). by vm_compute. }
  subst r2. destruct (insert_exactly_once (H := demo_server _) _ _ _ _ _ E1 E2) as (_ & _ & Hall & _).
  apply (Hall (mkCSTx "8" "c" "g" "B" 6000 true "ok")); [|done]. by do 3 right; left.
Defined.

(** ** The back office *)

Section Ledger.
Context `{Server}.

(** Everything the back office does to its database, in any order *)
Inductive bo_step (db : DB Tables) : DB Tables -> Prop :=
| bo_batch txs : bo_step db (InsertPCTRTransactions txs db).2
| bo_costs costs : bo_step db (SeedStationCosts costs db).2
| bo_journeys : bo_step db (RunPCTRJourneyConstruction db).2
| bo_debts : bo_step db (GetUnreportedDebts db).2
| bo_reported ids : bo_step db (MarkDebtsReported ids db).2.

Definition ledger_ok (t : Tables) : Prop :=
  taps_wf (pctr_transactions t) /\ forall token, 2 * totalDebt token t = charged token (pctr_transactions t).

Lemma addTap_ledger m tx : taps_wf m -> taps_wf (addTap m tx) /\ forall o, charged o (addTap m tx) = charged o m.
Proof.
  intros Hw. unfold addTap, insertNew. destruct (incomplete tx); [done|]. destruct (m !! TransactionID tx) eqn:E; [done|]. split.
  - intros i r [[_ <-]|[_ Hr]]%lookup_insert_Some; [done|by apply (Hw i)].
  - intros o. unfold charged. rewrite msum_insert by done. unfold cost_of at 1. simpl. by destruct (String.eqb _ _).
Qed.

Lemma addTaps_ledger txs m : taps_wf m -> taps_wf (foldl addTap m txs) /\ forall o, charged o (foldl addTap m txs) = charged o m.
Proof.
  revert m. induction txs as [|tx txs IH]; intros m Hw; [done|]. destruct (addTap_ledger m tx Hw) as [Hw1 Hc1].
  destruct (IH _ Hw1) as [Hw2 Hc2]. split; [done|]. intros o. simpl. by rewrite Hc2, Hc1.
Qed.

Lemma insertTaps_frame txs db r db' : forRange (insertTap PCTRBook) txs db = (r, db') ->
  pctr_debts (tables db') = pctr_debts (tables db) /\ station_costs (tables db') = station_costs (tables db).
Proof.
  revert db. induction txs as [|tx txs IH]; intros db; simpl; [by intros [= _ <-]|]. unfold bind.
  destruct (insertTap PCTRBook tx db) as [[[]|e] db1] eqn:E; apply (insertTap_spec PCTRBook) in E as [Ha _].
  - intros E. destruct (IH _ E) as [-> ->]. by destruct Ha as [->|[_ ->]].
  - intros [= _ <-]. by destruct Ha as [->|[_ ->]].
Qed.

Lemma costs_frame costs db r db' : SeedStationCosts costs db = (r, db') ->
  pctr_debts (tables db') = pctr_debts (tables db) /\ pctr_transactions (tables db') = pctr_transactions (tables db) /\
  (costs_nonneg (tables db) -> costs_nonneg (tables db')).
Proof.
  unfold SeedStationCosts. revert db. induction costs as [|c costs IH]; intros db; simpl; [by intros [= _ <-]|]. unfold bind.
  destruct (_ || _); [by apply IH|]. destruct (Z.ltb_spec (CostCents c) 0); [by apply IH|]. unfold ExecContext.
  match goal with |- context [run ?f db] => destruct (run f db) as [r1 db1] eqn:E; apply run_spec in E as [Ha _] end.
  assert (H1 : pctr_debts (tables db1) = pctr_debts (tables db) /\ pctr_transactions (tables db1) = pctr_transactions (tables db) /\
    (costs_nonneg (tables db) -> costs_nonneg (tables db1))).
  { destruct Ha as [->|[a [= _ <-]]]; [done|]. split_and!; [done..|]. intros Hn p x. simpl. unfold insertNew.
    destruct (station_costs (tables db) !! _); [apply Hn|]. intros [[_ <-]|[_ Hx]]%lookup_insert_Some; [done|by apply (Hn p)]. }
  destruct H1 as (Hd1 & Ht1 & Hc1). destruct r1 as [[]|e]; [|by intros [= _ <-]].
  intros (-> & -> & Hc)%IH. by split_and!; [..|auto].
Qed.

Lemma settleOpen_sum now o (m : gmap Z DebtRow) : msum (debt_of o) (settleOpen now <$> m) = msum (debt_of o) m.
Proof.
  induction m as [|k d m E IH] using map_ind; [by rewrite fmap_empty|].
  rewrite fmap_insert, !msum_insert; [|done|by rewrite lookup_fmap, E]. rewrite IH. f_equal.
  unfold settleOpen, debt_of. by destruct (settled_at d).
Qed.

Lemma QueryUnchecked_tables {A} (f : nat -> Tables -> list A) db r db' : QueryUnchecked f db = (r, db') -> tables db' = tables db.
Proof. unfold QueryUnchecked. destruct (fault_at (tick db)); try (by intros [-> _]%QueryAll_spec). by intros [= _ <-]. Qed.

Lemma GetUnreported_tables db : tables (GetUnreportedDebts db).2 = tables db.
Proof.
  unfold GetUnreportedDebts, bind, scanSums, ret, fail. destruct (QueryAll _ db) as [[rows|e] db1] eqn:E; apply QueryAll_spec in E as [Ht _]; [|done].
  destruct (forallb _ rows); [|done]. cbv beta iota. destruct (QueryUnchecked (A := Z) _ db1) as [ids db2] eqn:E2.
  apply QueryUnchecked_tables in E2. simpl. congruence.
Qed.

Lemma bo_step_ledger db db' : bo_step db db' -> ledger_ok (tables db) -> ledger_ok (tables db').
Proof.
  intros Hs [Hw Hl]. destruct Hs as [txs|costs| | |ids].
  - destruct (InsertPCTRTransactions txs db) as [r db'] eqn:E. simpl. destruct (insertTaps_frame _ _ _ _ E) as [Hd _].
    apply (insertTaps_spec PCTRBook) in E as (k & Ht & _). simpl in Ht. destruct (addTaps_ledger (take k txs) _ Hw) as [Hw' Hc'].
    split; [by rewrite Ht|]. intros o. unfold totalDebt in *. by rewrite Hd, Ht, Hc'.
  - destruct (SeedStationCosts costs db) as [r db'] eqn:E. apply costs_frame in E as (Hd & Ht & _). simpl. unfold ledger_ok, totalDebt. by rewrite Hd, Ht.
  - destruct (RunPCTRJourneyConstruction db) as [[j r] db'] eqn:E. simpl. apply RunPCTR_moves in E as [Hwf Hacc _ _ _ _ _ _]. simpl in *.
    split; [by apply Hwf|]. intros o. specialize (Hacc o Hw). specialize (Hl o). unfold account in Hacc. simpl in Hacc. lia.
  - by rewrite GetUnreported_tables.
  - unfold MarkDebtsReported. destruct ids as [|i ids]; [done|]. unfold ExecContext. destruct (run _ db) as [r db'] eqn:E.
    apply run_spec in E as [[Ht|[a [= _ Ht]]] _]; simpl; [by rewrite Ht|]. rewrite <- Ht. split; [done|]. intros o. unfold totalDebt. simpl.
    rewrite settleOpen_sum. apply Hl.
Qed.
End Ledger.

(** C38: in every history of the back office's database, with any faults, the
    debts of a token, reported or not, add up to the cost of its journeys:
    each journey counted once, on its two taps. *)
Theorem back_office_ledger `{Server} db db' : ledger_ok (tables db) -> rtc bo_step db db' -> ledger_ok (tables db').
Proof. intros Hl Hs. induction Hs as [|x y z Hxy _ IH]; [done|]. apply IH. by eapply bo_step_ledger. Qed.

Definition empty_tables : Tables := mkTables ∅ ∅ ∅ ∅ ∅ ∅ ∅ ∅ ∅.

Lemma back_office_ledger_witness :
  let db1 := (SeedStationCosts (H := demo_server []) [mkStationCost "A" "B" 150] (mkDB empty_tables 0)).2 in
  let db2 := (InsertPCTRTransactions (H := demo_server []) demo_batch db1).2 in
  let db3 := (RunPCTRJourneyConstruction (H := demo_server []) db2).2 in
  ledger_ok (tables db3) /\ totalDebt "c" (tables db3) = 150.
Proof.
  intros db1 db2 db3. split; [|by vm_compute]. apply (back_office_ledger (H := demo_server []) (mkDB empty_tables 0)).
  - split; [|done]. intros i r E. simpl in E. by rewrite lookup_empty in E.
  - eapply rtc_l; [apply bo_costs|]. eapply rtc_l; [apply bo_batch|]. eapply rtc_l; [apply bo_journeys|]. apply rtc_refl.
Defined.
