(* ===== verification/Debts.v ===== *)
(** * Tokens, debts and restitution: Simulation/pa and Simulation/pctrbo

    The handlers of the payment authority after their request is decoded, the
    back office's reporting cycle between the two databases, and what they
    guarantee together.  The request and its answer may each be lost, and
    every statement of either database may fail. *)

From Stdlib Require Import Ascii String.
From S2P Require Import Prelude.
From stdpp Require Import list sorting relations.
From S2P Require Import SQL CardDB Journeys JourneysFacts Taps.
Local Open Scope Z_scope.
Local Open Scope tds_scope.

(** ** The payment authority's handlers *)

(** The response to a restitution also names the file, which the handler
    returns here as the file's rows. *)
Record TokenizeResponse := mkTokenize { tkOK : bool; tkToken : string; tkReason : string }.
Record DebtsResponse := mkDebts { Accepted : bool; Received : Z }.
Record RestitutionResponse := mkRestitution { Rows : Z; TotalCents : Z }.

Section PA.
Context `{Server}.

(** [/tokenize], once the card id is decrypted and not empty *)
Definition tokenize (minFundsCents : Z) (random : option (list Z)) (cardID : string) (db : DB Tables) : Z * TokenizeResponse * DB Tables :=
  match CardHasMinFunds cardID minFundsCents db with
  | (_, _, Some _, db) => (503, mkTokenize false "" "db error", db)
  | (false, reason, None, db) => (200, mkTokenize false "" reason, db)
  | (true, _, None, db) =>
      match GetOrCreateToken random cardID db with
      | (Err _, db) => (503, mkTokenize false "" "db error", db)
      | (Ok token, db) => (200, mkTokenize true token "ok", db)
      end
  end.

(** [/debts], once the body is decoded *)
Definition debtsHandler (debts : list PADebt) (db : DB Tables) : Z * DebtsResponse * DB Tables :=
  match InsertDebts debts db with
  | (Err _, db) => (503, mkDebts false 0, db)
  | (Ok _, db) => (200, mkDebts true (Z.of_nat (length debts)), db)
  end.

(** What the file system does with the directory and the file *)
Inductive FS := FileWritten | MkdirFailed | CreateFailed.

(** [/restitution]: the status, the rows of the file if there is one, the
    response; the outcome of marking is ignored. *)
Definition restitution (rng : gmap string Z -> list (string * Z)) (fs : FS) (db : DB Tables)
  : Z * option (list (string * Z)) * RestitutionResponse * DB Tables :=
  match BuildRestitution rng db with
  | (_, Err _, db) => (503, None, mkRestitution 0 0, db)
  | ([], Ok _, db) => (200, None, mkRestitution 0 0, db)
  | (rows, Ok ids, db) =>
      match fs with
      | MkdirFailed | CreateFailed => (500, None, mkRestitution 0 0, db)
      | FileWritten =>
          let total := foldl (fun total row => wrap64 (total + row.2)) 0 rows in
          let '(_, db) := MarkDebtsExported ids db in
          (200, Some rows, mkRestitution (Z.of_nat (length rows)) total, db)
      end
  end.
End PA.

(** ** The back office's cycle *)

Inductive cycle_end := JourneyError | DebtsError | NothingOwed | NoPA | PostFailed | Marked (ids : list Z) (r : result SQLError unit).

(** One tick: [resolved] says whether the authority's address was found,
    [sent] whether the request reached it and [acked] whether its answer came
    back. *)
Definition reportCycle (BO PA : Server) (resolved sent acked : bool) (bo pa : DB Tables) : cycle_end * DB Tables * DB Tables :=
  match RunPCTRJourneyConstruction (H := BO) bo with
  | (_, Err _, bo) => (JourneyError, bo, pa)
  | (journeys, Ok _, bo) =>
      match GetUnreportedDebts (H := BO) bo with
      | (_, Err _, bo) => (DebtsError, bo, pa)
      | ([], Ok _, bo) => (NothingOwed, bo, pa)
      | (owed, Ok ids, bo) =>
          if negb resolved then (NoPA, bo, pa)
          else if negb sent then (PostFailed, bo, pa)
          else
            let debts := (fun o => mkPADebt o.1 o.2) <$> owed in
            let '(status, _, pa) := debtsHandler (H := PA) debts pa in
            if negb ((200 <=? status) && (status <? 300)) || negb acked then (PostFailed, bo, pa)
            else let '(r, bo) := MarkDebtsReported (H := BO) ids bo in (Marked ids r, bo, pa)
      end
  end.

(** ** Tokens *)

Definition tokens_inj (m : gmap string string) : Prop :=
  forall c1 c2 token, m !! c1 = Some token -> m !! c2 = Some token -> c1 = c2.

Section Tokens.
Context `{Server}.

Lemma tokenUsed_false token m c : tokenUsed token m = false -> m !! c = Some token -> False.
Proof.
  intros Hu E. apply not_true_iff_false in Hu. apply Hu. apply existsb_exists. exists (c, token).
  split; [by apply list_elem_of_In, elem_of_map_to_list|apply String.eqb_refl].
Qed.

Lemma selectToken_spec c db r db' : selectToken c db = (r, db') ->
  tables db' = tables db /\ (forall token, r = Ok token -> pctr_tokens (tables db) !! c = Some token).
Proof.
  unfold selectToken, QueryRow. unfold bind. destruct (QueryAll _ db) as [[rows|e] db1] eqn:E; apply QueryAll_spec in E as [Ht Hr].
  - specialize (Hr rows eq_refl). subst rows. destruct (pctr_tokens (tables db) !! c); intros [= <- <-]; split; [done|by intros ? [= <-]|done..].
  - by intros [= <- <-].
Qed.

Lemma insertToken_spec token c db r db' : insertToken token c db = (r, db') -> tokens_inj (pctr_tokens (tables db)) ->
  tokens_inj (pctr_tokens (tables db')) /\ pctr_tokens (tables db) ⊆ pctr_tokens (tables db') /\ cards (tables db') = cards (tables db).
Proof.
  intros E Hi. unfold insertToken, ExecContext in E. apply run_spec in E as [[->|[a E]] _]; [done|].
  destruct (pctr_tokens (tables db) !! c) as [t0|] eqn:Ec; [injection E as _ <-; done|].
  destruct (tokenUsed token _) eqn:Eu; [done|]. injection E as _ <-. simpl. split_and!; [|by apply insert_subseteq|done].
  intros c1 c2 tok. rewrite !lookup_insert_Some. intros [[<- <-]|[? E1]] [[<- E2]|[? E2]]; try done.
  - by destruct (tokenUsed_false _ _ _ Eu E2).
  - subst. by destruct (tokenUsed_false _ _ _ Eu E1).
  - by eapply Hi.
Qed.

Lemma GetOrCreateToken_spec random c db r db' : GetOrCreateToken random c db = (r, db') -> tokens_inj (pctr_tokens (tables db)) ->
  tokens_inj (pctr_tokens (tables db')) /\ pctr_tokens (tables db) ⊆ pctr_tokens (tables db') /\
  (forall token, r = Ok token -> pctr_tokens (tables db') !! c = Some token).
Proof.
  intros E Hi. unfold GetOrCreateToken in E. destruct (selectToken c db) as [r1 db1] eqn:E1; apply selectToken_spec in E1 as [Ht1 Hr1].
  destruct r1 as [token|e].
  { injection E as <- <-. rewrite Ht1. split_and!; [done..|]. intros ? [= <-]. by apply Hr1. }
  destruct e; try (injection E as <- <-; by rewrite Ht1).
  destruct random as [bs|]; [|injection E as <- <-; by rewrite Ht1].
  unfold bind in E. destruct (insertToken _ c db1) as [r2 db2] eqn:E2. apply insertToken_spec in E2 as (Hi2 & Hs2 & _); [|by rewrite Ht1].
  rewrite Ht1 in Hs2. destruct r2 as [u|e]; [|by injection E as <- <-].
  apply selectToken_spec in E as [Ht3 Hr3]. rewrite Ht3. by split_and!.
Qed.
End Tokens.

(** C40: tokens stand for cards one to one, for good.  Whatever the database
    does, a call of the authority's token handler keeps every token that was
    given out, never gives two cards the same one, and when it answers with a
    token, that token is the card's in the table and the card is known,
    active, not blocked and holds the minimum. *)
Theorem tokens_one_to_one `{Server} minFunds random card db status resp db' :
  tokens_inj (pctr_tokens (tables db)) -> tokenize minFunds random card db = (status, resp, db') ->
  tokens_inj (pctr_tokens (tables db')) /\ pctr_tokens (tables db) ⊆ pctr_tokens (tables db') /\
  (tkOK resp = true -> status = 200 /\ pctr_tokens (tables db') !! card = Some (tkToken resp) /\
    exists row, cards (tables db) !! card = Some row /\ card_active row = true /\ card_blocked row = false /\ minFunds <= balance_cents row).
Proof.
  intros Hi E. unfold tokenize, CardHasMinFunds, cardState, QueryRow, bind in E.
  destruct (QueryAll _ db) as [[rows|e] db1] eqn:Eq; apply QueryAll_spec in Eq as [Ht Hr].
  2: { destruct e; injection E as <- <- <-; by rewrite Ht. }
  specialize (Hr rows eq_refl). subst rows. destruct (cards (tables db) !! card) as [row|] eqn:Ec; simpl in E;
    [|injection E as <- <- <-; by rewrite Ht].
  destruct (card_blocked row) eqn:Eb; [injection E as <- <- <-; by rewrite Ht|].
  destruct (card_active row) eqn:Ea; simpl in E; [|injection E as <- <- <-; by rewrite Ht].
  destruct (Z.ltb_spec (balance_cents row) minFunds); [injection E as <- <- <-; by rewrite Ht|].
  destruct (GetOrCreateToken random card db1) as [r2 db2] eqn:E2. apply GetOrCreateToken_spec in E2 as (Hi2 & Hs2 & Hok); [|by rewrite Ht].
  rewrite Ht in Hs2. destruct r2 as [token|e]; injection E as <- <- <-; split_and!; try done.
  intros _. split_and!; [done|by apply Hok|]. exists row. by split_and!.
Qed.

(** The token insert runs but its answer is lost; the next call finds it. *)
Lemma tokens_one_to_one_witness :
  let db1 := (tokenize (H := demo_server [Runs; Runs; AckLost]) 1 (Some [171; 5]) "c" (mkDB demo_tables 0)).2 in
  pctr_tokens (tables db1) !! "c"%string = Some "ab05"%string /\
  tokens_inj (pctr_tokens (tables (tokenize (H := demo_server [Runs; Runs; AckLost]) 1 (Some [1; 2]) "c" db1).2)).
Proof.
  intros db1. split; [by vm_compute|].
  destruct (tokenize (H := demo_server [Runs; Runs; AckLost]) 1 (Some [171; 5]) "c" (mkDB demo_tables 0)) as [[s0 r0] d0] eqn:E0.
  destruct (tokenize (H := demo_server [Runs; Runs; AckLost]) 1 (Some [1; 2]) "c" db1) as [[s1 r1] d1] eqn:E1.
  assert (H0 : tokens_inj (pctr_tokens (tables db1))).
  { refine (proj1 (tokens_one_to_one (H := demo_server _) _ _ _ _ s0 r0 _ _ E0)). intros c1 c2 token Hc. simpl in Hc. by rewrite lookup_empty in Hc. }
  exact (proj1 (tokens_one_to_one (H := demo_server _) _ _ _ _ _ _ _ H0 E1)).
Defined.

(** ** Sums of debts *)

Definition paDebt (token : string) (t : Tables) : Z := msum (debt_of token) (pa_debts t).

Lemma msum_list {K V} `{Countable K} (f : V -> Z) (m : gmap K V) : msum f m = foldr (fun kv s => f kv.2 + s) 0 (map_to_list m).
Proof. unfold msum. rewrite map_fold_foldr. induction (map_to_list m) as [|[k v] l IH]; simpl; by rewrite ?IH. Qed.

Lemma owedBy_open token m : owedBy token (outstanding m) = msum (open_of token) m.
Proof.
  rewrite msum_list. unfold outstanding. induction (map_to_list m) as [|[k d] l IH]; [done|]. simpl. unfold open_of at 1.
  destruct (settled_at d) eqn:E; simpl; [by rewrite IH|]. rewrite IH. unfold debt_of. destruct (String.eqb _ _); lia.
Qed.

Lemma reported_frame (m m' : gmap Z DebtRow) token now : m' = settleOpen now <$> m ->
  msum (open_of token) m' = 0 /\ msum (reported_of token) m' = msum (reported_of token) m + msum (open_of token) m.
Proof.
  intros ->. induction m as [|k d m E IH] using map_ind; [by rewrite fmap_empty, !msum_empty|].
  rewrite fmap_insert, !msum_insert; [|done..|by rewrite lookup_fmap, E|by rewrite lookup_fmap, E].
  destruct IH as [-> ->]. unfold settleOpen, open_of, reported_of, debt_of. destruct (settled_at d) eqn:Es; simpl; rewrite ?Es; lia.
Qed.

(** What a list of debts says of a token; the handler drops empty tokens. *)
Definition listed (token : string) (ds : list PADebt) : Z :=
  foldr (fun d s => if String.eqb (Token d) token then AmountCents d + s else s) 0 ds.

Lemma listed_range token ds k : Forall (fun d => 0 <= AmountCents d) ds -> 0 <= listed token (take k ds) <= listed token ds.
Proof.
  intros Hd. revert k. induction Hd as [|d ds Hd Hds IH]; intros [|k]; simpl; [lia..| |].
  - specialize (IH 0%nat). rewrite take_0 in IH. simpl in IH. destruct (String.eqb _ _); lia.
  - specialize (IH k). destruct (String.eqb _ _); lia.
Qed.

Section Insert.
Context `{Server}.

Lemma InsertDebts_spec token ds db r db' : token <> ""%string -> InsertDebts ds db = (r, db') ->
  exists k, paDebt token (tables db') = paDebt token (tables db) + listed token (take k ds) /\ (r = Ok tt -> take k ds = ds).
Proof.
  intros Hne. unfold InsertDebts. revert db. induction ds as [|d ds IH]; intros db; simpl.
  { intros [= <- <-]. exists 0%nat. split; [simpl; lia|done]. }
  unfold bind. destruct (empty (Token d) || (AmountCents d =? 0)) eqn:Es.
  - simpl. intros E. destruct (IH _ E) as (k & Hk & Hr). exists (S k). simpl. split; [|intros Hr'; by rewrite (Hr Hr')].
    rewrite Hk. apply orb_true_iff in Es as [Es%String.eqb_eq|Es%Z.eqb_eq].
    + destruct (String.eqb_spec (Token d) token); [congruence|lia].
    + destruct (String.eqb _ _); lia.
  - unfold ExecContext. destruct (run _ db) as [[[]|e] db1] eqn:E; apply run_spec in E as [H1 H2].
    + specialize (H2 tt eq_refl). intros E. destruct (IH _ E) as (k & Hk & Hr). exists (S k). simpl.
      split; [|intros Hr'; by rewrite (Hr Hr')]. rewrite Hk. unfold insertSerial in H2. destruct (pa_debts (tables db) !! _) eqn:En; [done|].
      injection H2 as <-. unfold paDebt. simpl. rewrite msum_insert by done. unfold debt_of at 1. simpl. destruct (String.eqb _ _); lia.
    + intros [= <- <-]. destruct H1 as [->|[a H1]]; [exists 0%nat; split; [simpl; lia|done]|]. exists 1%nat. split; [|done].
      unfold insertSerial in H1. destruct (pa_debts (tables db) !! _) eqn:En; [done|]. injection H1 as _ <-.
      unfold paDebt. simpl. rewrite msum_insert by done. unfold debt_of at 1. simpl. destruct ds; simpl; destruct (String.eqb _ _); lia.
Qed.

(** What is read of the unreported debts *)
Definition owedList (rows : list (string * Z)) : list PADebt := (fun o => mkPADebt o.1 o.2) <$> rows.

Lemma listed_unreported token t : listed token (owedList (unreported t)) = openDebt token t.
Proof.
  unfold unreported, openDebt. rewrite <- owedBy_open. set (ds := outstanding (pctr_debts t)). unfold owedList. rewrite <- list_fmap_compose.
  assert (Hout : forall l, token ∉ l -> listed token (((fun o : string * Z => mkPADebt o.1 o.2) ∘ (fun tok => (tok, owedBy tok ds))) <$> l) = 0).
  { induction l as [|x l IH]; [done|]. intros [Hx Hl]%not_elem_of_cons. simpl. destruct (String.eqb_spec x token); [congruence|by apply IH]. }
  set (toks := merge_sort text_le (remove_dups ((fun kd => debt_token kd.2) <$> ds))).
  assert (Hnd : NoDup toks) by (unfold toks; rewrite merge_sort_Permutation; apply NoDup_remove_dups).
  assert (Hin : token ∈ toks \/ owedBy token ds = 0).
  { destruct (decide (token ∈ toks)) as [|Hn]; [by left|right]. unfold toks in Hn. rewrite merge_sort_Permutation, elem_of_remove_dups in Hn.
    clear -Hn. induction ds as [|kd ds IH]; [done|]. simpl in *. apply not_elem_of_cons in Hn as [Hx Hn].
    destruct (String.eqb_spec (debt_token kd.2) token); [congruence|by apply IH]. }
  clearbody toks. destruct (decide (token ∈ toks)) as [Ht|Ht]; [|rewrite Hout by done; destruct Hin as [?| ->]; done]. clear Hin.
  induction Hnd as [|x l Hx Hnd IH]; [by apply not_elem_of_nil in Ht|]. simpl. apply elem_of_cons in Ht as [->|Ht].
  - rewrite String.eqb_refl, Hout by done. lia.
  - destruct (String.eqb_spec x token) as [->|]; [done|by apply IH].
Qed.

Lemma GetUnreported_rows db owed ids db' : GetUnreportedDebts db = (owed, Ok ids, db') -> owed = unreported (tables db) /\ tables db' = tables db.
Proof.
  intros E. pose proof (GetUnreported_tables db) as Ht. rewrite E in Ht. split; [|done].
  unfold GetUnreportedDebts, bind, scanSums, ret, fail in E. destruct (QueryAll _ db) as [[rows|e] db1] eqn:Eq; [|done].
  apply QueryAll_spec in Eq as [_ Hr]. specialize (Hr rows eq_refl). destruct (forallb _ rows); [|done].
  destruct (QueryUnchecked (A := Z) _ db1) as [i d]. injection E as <- _ _. done.
Qed.

Lemma unreported_nonneg t : (forall k d, pctr_debts t !! k = Some d -> 0 <= amount_cents d) -> Forall (fun d => 0 <= AmountCents d) (owedList (unreported t)).
Proof.
  intros Hd. apply Forall_fmap, Forall_fmap, Forall_true. intros token. simpl. rewrite owedBy_open.
  apply (msum_nonneg (open_of token)). intros k d E. unfold open_of, debt_of. specialize (Hd k d E). destruct (settled_at d); [lia|]. destruct (String.eqb (debt_token d) token); lia.
Qed.
End Insert.

(** ** Reporting *)

Section Report.
Context (BO PA : Server).

(** What the two databases agree on: what the back office counts as reported
    has reached the authority. *)
Record report_inv (bo pa : Tables) : Prop := {
  ri_costs : costs_nonneg bo;
  ri_debts : forall k d, pctr_debts bo !! k = Some d -> 0 <= amount_cents d;
  ri_reported : forall token, token <> ""%string -> reportedDebt token bo <= paDebt token pa }.

(** One round of the cycle: the journeys, then either nothing more, or the
    insert of what is unreported at the authority and, only after it
    succeeded, the marking. *)
Lemma cycle_spec resolved sent acked bo pa e bo' pa' :
  reportCycle BO PA resolved sent acked bo pa = (e, bo', pa') ->
  exists bo1, moves (PCTRBook (H := BO)) (tables bo) bo1 /\
    ((tables bo' = bo1 /\ tables pa' = tables pa /\ (forall ids r, e <> Marked ids r)) \/
     exists r dbp, InsertDebts (H := PA) (owedList (unreported (H := BO) bo1)) pa = (r, dbp) /\ tables pa' = tables dbp /\
       (tables bo' = bo1 /\ (forall ids, e = Marked ids (Ok tt) -> ids = []) \/
        r = Ok tt /\ exists now, tables bo' = set_pctr_debts (settleOpen now <$> pctr_debts bo1) bo1)).
Proof.
  unfold reportCycle. destruct (RunPCTRJourneyConstruction (H := BO) bo) as [[j rj] bo1] eqn:Ej. pose proof (RunPCTR_moves _ _ _ _ Ej) as Hm.
  destruct rj as [u|er]; [|intros [= <- <- <-]; exists (tables bo1); split; [done|by left]].
  destruct (GetUnreportedDebts (H := BO) bo1) as [[owed ri] bo2] eqn:Eg.
  assert (Ht2 : tables bo2 = tables bo1) by (rewrite <- (GetUnreported_tables (H := BO) bo1); by rewrite Eg).
  match goal with |- _ -> ?G => assert (Hstop : forall e0, (forall ids r, e0 <> Marked ids r) -> (e0, bo2, pa) = (e, bo', pa') -> G) end.
  { intros e0 He0 [= <- <- <-]. exists (tables bo1). split; [done|by left]. }
  destruct ri as [ids|er]; [|by destruct owed; apply Hstop].
  apply GetUnreported_rows in Eg as [-> _]. destruct (unreported (H := BO) (tables bo1)) as [|o os] eqn:Eu; [by apply Hstop|]. rewrite <- Eu.
  destruct resolved; [|by apply Hstop]. destruct sent; [|by apply Hstop]. simpl negb. cbv iota. clear Hstop.
  unfold debtsHandler. fold (owedList (unreported (H := BO) (tables bo1))).
  destruct (InsertDebts (H := PA) (owedList (unreported (H := BO) (tables bo1))) pa) as [rp pa1] eqn:Ep. intros E. exists (tables bo1). split; [done|right].
  exists rp, pa1. split; [done|]. destruct rp as [[]|er]; [|injection E as <- <- <-; split; [done|by left]]. simpl in E.
  destruct acked; [|injection E as <- <- <-; split; [done|by left]]. simpl in E. unfold MarkDebtsReported in E.
  destruct ids as [|i ids]; [injection E as <- <- <-; split; [done|left; split; [done|by intros ? [= <-]]]|].
  unfold ExecContext in E. destruct (run _ bo2) as [rm bo3] eqn:Em. injection E as <- <- <-. split; [done|].
  apply run_spec in Em as [H1 H2]. destruct rm as [[]|er].
  - right. split; [done|]. specialize (H2 tt eq_refl). injection H2 as <-. rewrite Ht2. by eauto.
  - destruct H1 as [->|[a [= _ <-]]]; [left; by rewrite Ht2|right]. rewrite Ht2. by eauto.
Qed.

Lemma openDebt_nonneg token t : (forall k d, pctr_debts t !! k = Some d -> 0 <= amount_cents d) -> 0 <= openDebt token t.
Proof.
  intros Hd. apply msum_nonneg. intros k d E. unfold open_of, debt_of. specialize (Hd k d E).
  destruct (settled_at d); [lia|]. destruct (String.eqb (debt_token d) token); lia.
Qed.

Lemma cycle_inv resolved sent acked bo pa e bo' pa' :
  reportCycle BO PA resolved sent acked bo pa = (e, bo', pa') -> report_inv (tables bo) (tables pa) -> report_inv (tables bo') (tables pa').
Proof.
  intros (bo1 & Hm & Hcase)%cycle_spec [Hc Hd Hr].
  pose proof (mv_costs _ _ _ Hm) as Ec. pose proof (mv_sound _ _ _ Hm Hc Hd) as Hd1. pose proof (mv_kept _ _ _ Hm) as Hk. simpl in Hd1, Hk.
  destruct Hcase as [(-> & -> & _)|(r & dbp & Ei & -> & Hb)].
  { split; [by unfold costs_nonneg; rewrite Ec|done|]. intros token Hne. rewrite Hk. by apply Hr. }
  assert (Hrange : forall token k, 0 <= listed token (take k (owedList (unreported (H := BO) bo1))) <= openDebt token bo1).
  { intros token k. rewrite <- (listed_unreported (H := BO)). by apply listed_range, unreported_nonneg. }
  destruct Hb as [[-> _]|(-> & now & ->)].
  - split; [by unfold costs_nonneg; rewrite Ec|done|]. intros token Hne. specialize (Hr token Hne). rewrite Hk.
    destruct (InsertDebts_spec token _ _ _ _ Hne Ei) as (k & -> & _). specialize (Hrange token k). lia.
  - split.
    + unfold costs_nonneg. simpl. by rewrite Ec.
    + intros k d. simpl. rewrite lookup_fmap_Some. intros (d0 & <- & E0). unfold settleOpen. destruct (settled_at d0); exact (Hd1 k d0 E0).
    + intros token Hne. specialize (Hr token Hne). destruct (InsertDebts_spec token _ _ _ _ Hne Ei) as (k & -> & Hall).
      rewrite (Hall eq_refl), (listed_unreported (H := BO)). unfold reportedDebt at 1. simpl.
      destruct (reported_frame (pctr_debts bo1) _ token now eq_refl) as [_ ->]. specialize (Hk token). unfold reportedDebt, openDebt in *. lia.
Qed.

(** Everything that happens to the two databases, in any order *)
Inductive rep_step : DB Tables * DB Tables -> DB Tables * DB Tables -> Prop :=
| rep_cycle resolved sent acked bo pa e bo' pa' :
    reportCycle BO PA resolved sent acked bo pa = (e, bo', pa') -> rep_step (bo, pa) (bo', pa')
| rep_batch txs bo pa : rep_step (bo, pa) ((InsertPCTRTransactions (H := BO) txs bo).2, pa)
| rep_costs costs bo pa : rep_step (bo, pa) ((SeedStationCosts (H := BO) costs bo).2, pa)
| rep_tokenize minFunds random card bo pa : rep_step (bo, pa) (bo, (tokenize (H := PA) minFunds random card pa).2)
| rep_restitution rng fs bo pa : rep_step (bo, pa) (bo, (restitution (H := PA) rng fs pa).2).

Lemma settled_debts (m : gmap Z DebtRow) now ids token : msum (debt_of token) (foldl (fun m id => alter (settle now) id m) m ids) = msum (debt_of token) m.
Proof.
  revert m. induction ids as [|i ids IH]; intros m; [done|]. simpl. rewrite IH. destruct (m !! i) as [d|] eqn:E.
  - rewrite (msum_alter _ _ _ _ _ E). unfold debt_of. simpl. lia.
  - rewrite alter_id; [done|congruence].
Qed.

Lemma MarkExported_debts ids db token : paDebt token (tables (MarkDebtsExported (H := PA) ids db).2) = paDebt token (tables db).
Proof.
  unfold MarkDebtsExported. destruct ids as [|i ids]; [done|]. generalize (chunksOf (length (i :: ids)) 499 (i :: ids)). intros chunks.
  revert db. induction chunks as [|c chunks IH]; intros db; [done|]. simpl. unfold bind, ExecContext.
  match goal with |- context [run ?f db] => destruct (run f db) as [r1 db1] eqn:E; apply run_spec in E as [Ha _] end.
  assert (H1 : paDebt token (tables db1) = paDebt token (tables db)).
  { destruct Ha as [->|[a [= _ <-]]]; [done|]. unfold paDebt. simpl. apply settled_debts. }
  destruct r1 as [[]|e]; [|done]. by rewrite <- H1.
Qed.

Lemma Build_tables rng db : tables (BuildRestitution (H := PA) rng db).2 = tables db.
Proof.
  unfold BuildRestitution, restitutionRows, bind, scanSums, ret, fail.
  destruct (QueryAll _ db) as [[rows|e] db1] eqn:E; apply QueryAll_spec in E as [Ht _]; [|done].
  destruct (forallb _ rows); [|done]. unfold restitutionIds. destruct (QueryUnchecked (A := Z) _ db1) as [ids db2] eqn:E2.
  apply QueryUnchecked_tables in E2. simpl. congruence.
Qed.

Lemma restitution_debts rng fs db token : paDebt token (tables (restitution (H := PA) rng fs db).2) = paDebt token (tables db).
Proof.
  unfold restitution. pose proof (Build_tables rng db) as Ht. destruct (BuildRestitution rng db) as [[rows [ids|e]] db1]; simpl in Ht.
  - destruct rows as [|row rows]; simpl; [by rewrite Ht|]. destruct fs; [|simpl; by rewrite Ht..].
    pose proof (MarkExported_debts ids db1 token) as Hm. destruct (MarkDebtsExported ids db1) as [r db2]. simpl in *. by rewrite Hm, Ht.
  - by destruct rows; simpl; rewrite Ht.
Qed.

Lemma insertToken_debts token c db : pa_debts (tables (insertToken (H := PA) token c db).2) = pa_debts (tables db).
Proof.
  unfold insertToken, ExecContext. match goal with |- context [run ?f db] => destruct (run f db) as [r db'] eqn:E; apply run_spec in E as [Ha _] end.
  simpl. destruct Ha as [->|[a E]]; [done|]. destruct (pctr_tokens (tables db) !! c); [by injection E as _ <-|].
  destruct (tokenUsed _ _); [done|]. by injection E as _ <-.
Qed.

Lemma tokenize_debts minFunds random c db : pa_debts (tables (tokenize (H := PA) minFunds random c db).2) = pa_debts (tables db).
Proof.
  unfold tokenize, CardHasMinFunds, cardState, QueryRow, bind.
  destruct (QueryAll _ db) as [[rows|e] db1] eqn:Eq; apply QueryAll_spec in Eq as [Ht _]; [|destruct e; simpl; by rewrite Ht].
  destruct rows as [|row rows]; simpl; [by rewrite Ht|]. destruct (card_blocked row); [by rewrite <- Ht|].
  destruct (card_active row); [|by rewrite <- Ht]. simpl. destruct (_ <? _); [by rewrite <- Ht|]. rewrite <- Ht. unfold GetOrCreateToken.
  destruct (selectToken c db1) as [r2 db2] eqn:E2. apply selectToken_spec in E2 as [Ht2 _]. destruct r2 as [token|[]]; simpl; try (by rewrite Ht2).
  destruct random as [bs|]; simpl; [|by rewrite Ht2]. unfold bind. pose proof (insertToken_debts (EncodeToString bs) c db2) as Hi.
  destruct (insertToken _ c db2) as [[u|e] db3]; simpl in Hi; [|simpl; by rewrite Hi, Ht2].
  destruct (selectToken c db3) as [r4 db4] eqn:E4. apply selectToken_spec in E4 as [Ht4 _]. destruct r4; simpl; by rewrite Ht4, Hi, Ht2.
Qed.

Lemma rep_step_inv s s' : rep_step s s' -> report_inv (tables s.1) (tables s.2) -> report_inv (tables s'.1) (tables s'.2).
Proof.
  intros Hs. destruct Hs as [? ? ? ? ? ? ? ? E|txs bo pa|costs bo pa|? ? ? bo pa|? ? bo pa]; simpl; intros Hi.
  - by eapply cycle_inv.
  - destruct (InsertPCTRTransactions (H := BO) txs bo) as [r bo'] eqn:E. apply insertTaps_frame in E as [Ed Ec]. simpl.
    destruct Hi as [Hc Hd Hr]. split; [by unfold costs_nonneg; rewrite Ec|by rewrite Ed|]. unfold reportedDebt in *. by rewrite Ed.
  - destruct (SeedStationCosts (H := BO) costs bo) as [r bo'] eqn:E. apply costs_frame in E as (Ed & _ & Ec). simpl.
    destruct Hi as [Hc Hd Hr]. split; [by apply Ec|by rewrite Ed|]. unfold reportedDebt in *. by rewrite Ed.
  - destruct Hi as [Hc Hd Hr]. split; [done..|]. unfold paDebt in *. by rewrite tokenize_debts.
  - destruct Hi as [Hc Hd Hr]. split; [done..|]. intros token Hne. rewrite restitution_debts. by apply Hr.
Qed.

Lemma rep_run_inv s s' : rtc rep_step s s' -> report_inv (tables s.1) (tables s.2) -> report_inv (tables s'.1) (tables s'.2).
Proof. induction 1 as [|x y z Hxy _ IH]; [done|]. intros Hx. by apply IH, (rep_step_inv x). Qed.
End Report.

(** C37: no debt is lost between the back office and the payment authority.  In
    every history of the two databases, whatever statement fails on either
    side and whether a request or its answer is lost, the debts the back
    office counts as reported for a token are at most those the authority has
    received for it; and a reporting cycle that ends with its debts marked
    leaves none unreported and has added at both sides exactly the same
    amount. *)
Theorem debts_never_lost (BO PA : Server) bo0 pa0 bo pa :
  report_inv (tables bo0) (tables pa0) -> rtc (rep_step BO PA) (bo0, pa0) (bo, pa) ->
  (forall token, token <> ""%string -> reportedDebt token (tables bo) <= paDebt token (tables pa)) /\
  (forall resolved sent acked ids bo' pa' token,
    reportCycle BO PA resolved sent acked bo pa = (Marked ids (Ok tt), bo', pa') -> ids <> [] -> token <> ""%string ->
    openDebt token (tables bo') = 0 /\
    paDebt token (tables pa') - paDebt token (tables pa) = reportedDebt token (tables bo') - reportedDebt token (tables bo)).
Proof.
  intros Hi Hs. pose proof (rep_run_inv _ _ _ _ Hs Hi) as Hinv. simpl in Hinv.
  split; [apply (ri_reported _ _ Hinv)|]. intros resolved sent acked ids bo' pa' token (bo1 & Hm & Hcase)%cycle_spec Hids Hne.
  destruct Hcase as [(_ & _ & Hn)|(r & dbp & Ei & Ep & [[_ Hn]|(-> & now & Eb)])]; [by destruct (Hn ids (Ok tt))|by destruct Hids; apply Hn|].
  destruct (InsertDebts_spec token _ _ _ _ Hne Ei) as (k & Hk & Hall). rewrite Ep, Hk, (Hall eq_refl), listed_unreported, Eb.
  unfold openDebt at 1, reportedDebt at 1. simpl. destruct (reported_frame (pctr_debts bo1) _ token now eq_refl) as [-> ->].
  split; [done|]. pose proof (mv_kept _ _ _ Hm token) as Hkept. simpl in Hkept. unfold reportedDebt, openDebt in *. lia.
Qed.

Definition demo_bo : DB Tables :=
  (InsertPCTRTransactions (H := demo_server []) demo_batch
    (SeedStationCosts (H := demo_server []) [mkStationCost "A" "B" 150] (mkDB empty_tables 0)).2).2.

Lemma debts_never_lost_witness :
  let '(e, bo', pa') := reportCycle (demo_server []) (demo_server []) true true true demo_bo (mkDB empty_tables 0) in
  openDebt "c" (tables bo') = 0 /\ paDebt "c" (tables pa') - 0 = reportedDebt "c" (tables bo') - 0.
Proof.
  destruct (reportCycle _ _ _ _ _ _ _) as [[e bo'] pa'] eqn:E.
  assert (He : e = Marked [8] (Ok tt)).
  { replace e with ((reportCycle (demo_server []) (demo_server []) true true true demo_bo (mkDB empty_tables 0)).1.1) by (by rewrite E).
    vm_compute. reflexivity. }
  subst e. refine (proj2 (debts_never_lost (demo_server []) (demo_server []) (mkDB empty_tables 0) (mkDB empty_tables 0) demo_bo (mkDB empty_tables 0) _ _)
    true true true [8] bo' pa' "c"%string E _ _); [|..|done|done].
  - split; [intros ? ? Hx|intros ? ? Hx|done]; simpl in Hx; by rewrite lookup_empty in Hx.
  - eapply rtc_l; [apply rep_costs|]. eapply rtc_l; [apply rep_batch|]. apply rtc_refl.
Defined.

(** The marking fails after the authority took the debts: the next cycle reports the same debt again, and the authority, which cannot
    tell, charges the journey twice. *)
Theorem report_may_double :
  let lossy := demo_server (repeat Runs 13 ++ [Lost]) in
  let '(e1, bo1, pa1) := reportCycle lossy (demo_server []) true true true demo_bo (mkDB empty_tables 0) in
  let '(e2, bo2, pa2) := reportCycle lossy (demo_server []) true true true bo1 pa1 in
  totalDebt "c" (tables bo2) = 150 /\ paDebt "c" (tables pa2) = 300.
Proof. vm_compute. split; reflexivity. Qed.

(** ** Restitution *)

Section Restitution.
Context `{Server}.
Context (quiet : forall n, fault_at n = Runs).

(** What a card owes: the open debts of its token *)
Definition cardOwes (c : string) (t : Tables) : option Z :=
  match pctr_tokens t !! c with
  | Some token =>
      if existsb (fun kd => String.eqb (debt_token kd.2) token) (outstanding (pa_debts t))
      then Some (owedBy token (outstanding (pa_debts t))) else None
  | None => None
  end.

Lemma elem_owedRows t row : row ∈ owedRows t <->
  exists c token, row = (token, owedBy token (outstanding (pa_debts t)), c) /\ pctr_tokens t !! c = Some token /\
    existsb (fun kd => String.eqb (debt_token kd.2) token) (outstanding (pa_debts t)) = true.
Proof.
  unfold owedRows. rewrite list_elem_of_fmap. split.
  - intros ([c token] & -> & Hin). rewrite merge_sort_Permutation in Hin. apply list_elem_of_In, filter_In in Hin as [Hin Hf].
    apply list_elem_of_In, elem_of_map_to_list in Hin. by exists c, token.
  - intros (c & token & -> & Ht & Hf). exists (c, token). split; [done|]. rewrite merge_sort_Permutation.
    apply list_elem_of_In, filter_In. split; [|done]. by apply list_elem_of_In, elem_of_map_to_list.
Qed.

Lemma owedRows_cards t : NoDup (snd <$> owedRows t).
Proof.
  unfold owedRows. rewrite <- list_fmap_compose. simpl. rewrite merge_sort_Permutation.
  eapply sublist_NoDup; [apply (NoDup_fst_map_to_list (pctr_tokens t))|]. apply fmap_sublist, filter_sublist.
Qed.

Lemma addOwed_out rows m c : c ∉ snd <$> rows -> foldl addOwed m rows !! c = m !! c.
Proof.
  revert m. induction rows as [|[[token owed] c'] rows IH]; intros m Hc; [done|]. simpl. rewrite fmap_cons in Hc.
  apply not_elem_of_cons in Hc as [Hne Hc]. simpl in Hne. rewrite IH by done. by rewrite lookup_insert_ne.
Qed.

Lemma addOwed_in rows m token owed c : NoDup (snd <$> rows) -> (token, owed, c) ∈ rows -> in_int64 owed ->
  m !! c = None -> foldl addOwed m rows !! c = Some owed.
Proof.
  revert m. induction rows as [|[[token' owed'] c'] rows IH]; intros m Hnd Hin Hok Hm; [by apply not_elem_of_nil in Hin|]. simpl.
  rewrite fmap_cons in Hnd. apply NoDup_cons in Hnd as [Hc' Hnd]. simpl in Hc'. apply elem_of_cons in Hin as [[= <- <- <-]|Hin].
  - rewrite addOwed_out by done. rewrite lookup_insert_eq, Hm. simpl. by rewrite wrap64_id.
  - apply IH; [done..|]. rewrite lookup_insert_ne; [done|]. intros ->. apply Hc'. apply list_elem_of_fmap. by exists (token, owed, c).
Qed.

(** A card owes an amount iff the join has a row with it. *)
Lemma cardOwes_row t c amount : cardOwes c t = Some amount <-> exists r, (c, amount) = (r.2, r.1.2) /\ r ∈ owedRows t.
Proof.
  unfold cardOwes. split.
  - destruct (pctr_tokens t !! c) as [token|] eqn:Et; [|done]. destruct (existsb _ _) eqn:Ee; [|done]. intros [= <-].
    exists (token, owedBy token (outstanding (pa_debts t)), c). split; [done|]. apply elem_owedRows. by exists c, token.
  - intros (r & [= -> ->] & (c' & token & -> & Ht & Hf)%elem_owedRows). simpl. by rewrite Ht, Hf.
Qed.

(** Without overflow the map handed to the file is exactly what is owed. *)
Lemma byCard_spec t c : forallb (fun r => int64_ok r.1.2) (owedRows t) = true ->
  foldl addOwed ∅ (owedRows t) !! c = cardOwes c t.
Proof.
  intros Hok. unfold cardOwes. destruct (pctr_tokens t !! c) as [token|] eqn:Et.
  - destruct (existsb _ _) eqn:Ee.
    + assert (Hin : (token, owedBy token (outstanding (pa_debts t)), c) ∈ owedRows t) by (apply elem_owedRows; by exists c, token).
      eapply addOwed_in; [apply owedRows_cards|exact Hin| |apply lookup_empty]. rewrite forallb_forall in Hok.
      apply list_elem_of_In, Hok, andb_true_iff in Hin as [H1%Z.leb_le H2%Z.leb_le]. done.
    + rewrite addOwed_out, lookup_empty; [done|]. intros ([[? ?] ?] & -> & (c' & token' & [= -> -> ->] & Ht & Hf)%elem_owedRows)%list_elem_of_fmap.
      simpl in Et. rewrite Ht in Et. injection Et as ->. congruence.
  - rewrite addOwed_out, lookup_empty; [done|]. intros ([[? ?] ?] & -> & (c' & token' & [= -> -> ->] & Ht & Hf)%elem_owedRows)%list_elem_of_fmap.
    simpl in Et. congruence.
Qed.

(** ** Marking in chunks *)

Lemma chunksOf_concat {A} n (l : list A) fuel : (length l <= fuel)%nat -> mjoin (chunksOf fuel n l) = l.
Proof.
  revert l. induction fuel as [|fuel IH]; intros l Hl; [by destruct l; simpl in Hl; [|lia]|].
  destruct l as [|x l]; [done|]. cbn [chunksOf]. cbn [mjoin list_join]. fold (mjoin (M := list) (A := A)). rewrite IH, take_drop; [done|]. rewrite length_drop. simpl in *. lia.
Qed.

Definition marked_by (ids : list Z) (m m' : gmap Z DebtRow) : Prop :=
  forall k, option_Forall2 (fun d d' => debt_token d' = debt_token d /\ amount_cents d' = amount_cents d /\
    (k ∈ ids -> is_Some (settled_at d')) /\ (is_Some (settled_at d) -> is_Some (settled_at d'))) (m !! k) (m' !! k).

Lemma marked_chunk now ids m : marked_by ids m (foldl (fun m id => alter (settle now) id m) m ids).
Proof.
  revert m. induction ids as [|i ids IH]; intros m k; simpl.
  { destruct (m !! k); constructor. split_and!; try done. intros Hk. by apply not_elem_of_nil in Hk. }
  specialize (IH (alter (settle now) i m) k). destruct (decide (i = k)) as [->|Hne].
  - rewrite lookup_alter_eq in IH. destruct (m !! k) as [d|]; simpl in IH; inversion IH as [x y (H1 & H2 & H3 & H4) Hx Hy|]; subst; constructor.
    split_and!; [done..| |]; intros _; apply H4; by eauto.
  - rewrite lookup_alter_ne in IH by done. destruct (m !! k) as [d|]; inversion IH as [x y (H1 & H2 & H3 & H4) Hx Hy|]; subst; constructor.
    split_and!; try done. intros [->|Hk]%elem_of_cons; [done|by apply H3].
Qed.

Lemma marked_trans ids1 ids2 m1 m2 m3 : marked_by ids1 m1 m2 -> marked_by ids2 m2 m3 -> marked_by (ids1 ++ ids2) m1 m3.
Proof.
  intros Ha Hb k. specialize (Ha k). specialize (Hb k). destruct Ha as [x y (A1 & A2 & A3 & A4)|]; [|by inversion Hb; constructor].
  inversion Hb as [? z (B1 & B2 & B3 & B4)|]; subst. constructor. split_and!; [congruence..| |by auto].
  intros [Hk|Hk]%elem_of_app; by auto.
Qed.

Lemma markChunks_runs chunks db : exists db',
  forRange (fun chunk => ExecContext (fun n t =>
    Some (set_pa_debts (foldl (fun m id => alter (settle (stored_time (now_at n))) id m) (pa_debts t) chunk) t))) chunks db = (Ok tt, db') /\
  marked_by (mjoin chunks) (pa_debts (tables db)) (pa_debts (tables db')).
Proof.
  revert db. induction chunks as [|c chunks IH]; intros db; [exists db; split; [done|]; apply (marked_chunk 0 [])|].
  cbn [forRange]. erewrite bind_runs by (unfold ExecContext, run; by rewrite quiet).
  match goal with |- context [forRange _ _ ?db1] => destruct (IH db1) as (db' & E & Hm) end. exists db'. split; [exact E|].
  eapply marked_trans; [|exact Hm]. simpl. apply marked_chunk.
Qed.

Lemma MarkExported_runs ids db : exists db', MarkDebtsExported ids db = (Ok tt, db') /\ marked_by ids (pa_debts (tables db)) (pa_debts (tables db')).
Proof.
  destruct (markChunks_runs (chunksOf (length ids) 499 ids) db) as (db' & E & Hm). rewrite chunksOf_concat in Hm by done.
  unfold MarkDebtsExported. destruct ids as [|i ids]; [exists db; split; [done|]; apply (marked_chunk 0 [])|]. by exists db'.
Qed.
(** ** The balance of a restitution *)

Definition totalCents (ds : list (Z * DebtRow)) : Z := foldr (fun kd s => amount_cents kd.2 + s) 0 ds.

(** Whether a token belongs to a card *)
Definition hasCard (t : Tables) (token : string) : bool := existsb (fun ct => String.eqb ct.2 token) (map_to_list (pctr_tokens t)).

(** The open debts no row of the file can hold: their token has no card *)
Definition unclaimed (t : Tables) : list (Z * DebtRow) :=
  List.filter (fun kd => negb (hasCard t (debt_token kd.2))) (outstanding (pa_debts t)).

Lemma hasCard_spec t token : hasCard t token = true <-> exists c, pctr_tokens t !! c = Some token.
Proof.
  unfold hasCard. rewrite existsb_exists. split.
  - intros ([c tk] & Hin%list_elem_of_In%elem_of_map_to_list & E%String.eqb_eq). simpl in E. subst. eauto.
  - intros [c Hc]. exists (c, token). split; [by apply list_elem_of_In, elem_of_map_to_list|apply String.eqb_refl].
Qed.

Definition sumOf (l : list Z) : Z := foldr Z.add 0 l.

Lemma sumOf_perm l l' : l ≡ₚ l' -> sumOf l = sumOf l'.
Proof. unfold sumOf. induction 1; simpl; lia. Qed.

(** One debt, shared among distinct tokens *)
Lemma sum_one d (ts : list string) : NoDup ts ->
  sumOf ((fun tk => if String.eqb (debt_token d) tk then amount_cents d else 0) <$> ts)
  = if existsb (String.eqb (debt_token d)) ts then amount_cents d else 0.
Proof.
  induction 1 as [|tk ts Hin Hnd IH]; [done|]. cbn [fmap list_fmap existsb]. change (sumOf (?x :: ?l)) with (x + sumOf l).
  rewrite IH. destruct (String.eqb_spec (debt_token d) tk) as [<-|]; simpl; [|done].
  destruct (existsb (String.eqb (debt_token d)) ts) eqn:E; [|lia]. apply existsb_exists in E as (x & Hx%list_elem_of_In & <-%String.eqb_eq). done.
Qed.

Lemma sum_owed ds ts : NoDup ts ->
  sumOf ((fun tk => owedBy tk ds) <$> ts) = foldr (fun kd s => (if existsb (String.eqb (debt_token kd.2)) ts then amount_cents kd.2 else 0) + s) 0 ds.
Proof.
  intros Hnd. induction ds as [|[k d] ds IH]; cbn [foldr snd].
  { clear. induction ts as [|tk ts IH]; [done|]. cbn [fmap list_fmap]. change (sumOf (?x :: ?l)) with (x + sumOf l). by rewrite IH. }
  rewrite <-IH. rewrite <-(sum_one d ts Hnd). clear. induction ts as [|tk ts IH]; [done|]. cbn [fmap list_fmap]. change (sumOf (?x :: ?l)) with (x + sumOf l).
  rewrite IH. unfold owedBy at 1. cbn [foldr snd]. fold (owedBy tk ds). destruct (String.eqb (debt_token d) tk); lia.
Qed.

(** What the rows hold and what has no card is all that is open. *)
Lemma owedRows_balance t : tokens_inj (pctr_tokens t) ->
  sumOf ((fun r => r.1.2) <$> owedRows t) + totalCents (unclaimed t) = totalCents (outstanding (pa_debts t)).
Proof.
  intros Hinj. set (ds := outstanding (pa_debts t)). set (ts := (fun r => r.1.1) <$> owedRows t).
  assert (Hsum : (fun r => r.1.2) <$> owedRows t = (fun tk => owedBy tk ds) <$> ts).
  { unfold ts, owedRows. rewrite <-!list_fmap_compose. done. }
  assert (Hnd : NoDup ts).
  { unfold ts, owedRows. rewrite <-list_fmap_compose. apply NoDup_fmap_2_strong.
    - intros [c1 t1] [c2 t2] H1 H2 E. simpl in E. subst t2. rewrite merge_sort_Permutation in H1, H2.
      apply list_elem_of_In, filter_In in H1 as [H1 _], H2 as [H2 _]. apply list_elem_of_In, elem_of_map_to_list in H1, H2.
      f_equal. by eapply Hinj.
    - rewrite merge_sort_Permutation. eapply sublist_NoDup; [apply NoDup_map_to_list|apply filter_sublist]. }
  rewrite Hsum, sum_owed by done. unfold unclaimed. fold ds.
  assert (Hin : forall kd, kd ∈ ds -> existsb (String.eqb (debt_token kd.2)) ts = hasCard t (debt_token kd.2)).
  { intros kd Hkd. apply eq_true_iff_eq. rewrite hasCard_spec, existsb_exists. split.
    - intros (tk & Htk%list_elem_of_In & <-%String.eqb_eq). unfold ts in Htk. apply list_elem_of_fmap in Htk as (r & Er & (c & tk & -> & Hc & _)%elem_owedRows).
      exists c. by rewrite Er.
    - intros [c Hc]. exists (debt_token kd.2). split; [|apply String.eqb_refl]. apply list_elem_of_In, list_elem_of_fmap.
      exists (debt_token kd.2, owedBy (debt_token kd.2) ds, c). split; [done|]. apply elem_owedRows. exists c, (debt_token kd.2). split_and!; [done|done|].
      apply existsb_exists. exists kd. split; [by apply list_elem_of_In|apply String.eqb_refl]. }
  clearbody ds. clear Hsum Hnd. induction ds as [|kd ds IH]; [done|]. cbn [foldr List.filter totalCents].
  rewrite (Hin kd ltac:(left)). specialize (IH ltac:(intros; apply Hin; by right)). unfold totalCents in *.
  destruct (hasCard t (debt_token kd.2)); cbn [negb foldr]; lia.
Qed.

End Restitution.

(** C39: restitution pays what the cards owe.  When the database answers every
    statement, no total exceeds an int64 and the file can be written, the
    file lists exactly the cards that have open debts on their token, each
    once and with the sum of those debts (in whatever order Go ranges over its
    map).  Afterwards every debt that was open is marked as exported, with
    its token and amount as they were: none can be paid twice.  That includes
    the debts whose token no card has, which no row holds: with one card per
    token, what the rows pay and these debts are together all that was open,
    so exactly the latter are closed unpaid ([unknown_token_written_off]). *)
Theorem restitution_exact `{Server} rng db status file resp db' :
  (forall n, fault_at n = Runs) -> (forall m, rng m ≡ₚ map_to_list m) ->
  forallb (fun r => int64_ok r.1.2) (owedRows (tables db)) = true ->
  restitution rng FileWritten db = (status, Some file, resp, db') ->
  status = 200 /\ NoDup file.*1 /\
  (forall c amount, (c, amount) ∈ file <-> cardOwes c (tables db) = Some amount) /\
  (forall k d, pa_debts (tables db) !! k = Some d -> exists d', pa_debts (tables db') !! k = Some d' /\
    debt_token d' = debt_token d /\ amount_cents d' = amount_cents d /\ is_Some (settled_at d')) /\
  (tokens_inj (pctr_tokens (tables db)) ->
    sumOf file.*2 + totalCents (unclaimed (tables db)) = totalCents (outstanding (pa_debts (tables db)))).
Proof.
  intros Hq Hrng Hok. unfold restitution, BuildRestitution, restitutionRows, bind. rewrite QueryAll_runs by done.
  unfold scanSums. rewrite Hok. unfold ret. cbv beta iota. unfold restitutionIds, QueryUnchecked. cbn [tick]. rewrite Hq, QueryAll_runs by done.
  set (byCard := foldl addOwed ∅ (owedRows (tables db))). destruct (rng byCard) as [|row rows] eqn:Er; [done|].
  cbn [tables tick]. set (db2 := mkDB (tables db) (S (S (tick db)))). set (ids := row_order _ _ _).
  destruct (MarkExported_runs Hq ids db2) as (db3 & -> & Hm). intros [= <- <- <- <-].
  assert (Hfile : row :: rows ≡ₚ map_to_list byCard) by (by rewrite <- Er).
  assert (Hnd : NoDup (row :: rows).*1) by (rewrite Hfile; apply NoDup_fst_map_to_list).
  assert (Hiff : forall c amount, (c, amount) ∈ row :: rows <-> cardOwes c (tables db) = Some amount).
  { intros c amount. rewrite Hfile, elem_of_map_to_list. unfold byCard. by rewrite byCard_spec. }
  split_and!; [done|done|done| |].
  - intros k d Hk. specialize (Hm k). cbn [tables db2] in Hm. rewrite Hk in Hm. inversion Hm as [d0 d' (H1 & H2 & H3 & H4) E0 E1|]; subst.
    exists d'. split_and!; [done..|]. destruct (settled_at d) eqn:Ed; [apply H4; eauto|]. apply H3. unfold ids. rewrite row_order_perm.
    apply list_elem_of_fmap. exists (k, d). split; [done|]. unfold outstanding. apply list_elem_of_In, filter_In. simpl. rewrite Ed.
    split; [|done]. by apply list_elem_of_In, elem_of_map_to_list.
  - intros Hinj. rewrite <-(owedRows_balance _ Hinj). f_equal. apply sumOf_perm.
    assert (Hp : row :: rows ≡ₚ (fun r => (r.2, r.1.2)) <$> owedRows (tables db)).
    { apply NoDup_Permutation; [by eapply NoDup_fmap_1| |].
      - apply (NoDup_fmap_1 fst). rewrite <-list_fmap_compose. apply owedRows_cards.
      - intros [c amount]. rewrite Hiff, list_elem_of_fmap. apply cardOwes_row. }
    rewrite Hp, <-list_fmap_compose. done.
Qed.

Definition demo_pa : Tables :=
  mkTables ∅ ∅ ∅ ∅ ∅ (list_to_map [("c", "t1"); ("d", "t2")]%string)
    (list_to_map [(1, mkDebt "t1" 100 None); (2, mkDebt "t1" 50 None); (3, mkDebt "t2" 70 (Some 5))]) ∅ ∅.

(** The same with a debt of 40 whose token no card has *)
Definition demo_lost : Tables := set_pa_debts (<[9 := mkDebt "gone" 40 None]> (pa_debts demo_pa)) demo_pa.

Lemma restitution_exact_witness :
  exists file resp db', restitution (H := demo_server []) map_to_list FileWritten (mkDB demo_lost 0) = (200, Some file, resp, db') /\
    ("c", 150)%string ∈ file /\ sumOf file.*2 + 40 = 190.
Proof.
  destruct (restitution _ _ _) as [[[status file] resp] db'] eqn:E.
  assert (Hf : exists f, file = Some f).
  { replace file with ((restitution (H := demo_server []) map_to_list FileWritten (mkDB demo_lost 0)).1.1.2) by (by rewrite E). vm_compute. by eexists. }
  destruct Hf as [f ->].
  destruct (restitution_exact (H := demo_server []) map_to_list (mkDB demo_lost 0) status f resp db') as (-> & _ & Hf & _ & Hb);
    [intros n; reflexivity|intros m; reflexivity|vm_compute; reflexivity|exact E|].
  exists f, resp, db'. split_and!; [done|apply Hf; by vm_compute|].
  replace 40 with (totalCents (unclaimed demo_lost)) by (vm_compute; reflexivity). etransitivity; [apply Hb|vm_compute; reflexivity].
  intros c1 c2 t. change (pctr_tokens (tables (mkDB demo_lost 0))) with ({["c"%string := "t1"%string; "d"%string := "t2"%string]} : gmap string string).
  rewrite !lookup_insert, !lookup_singleton. repeat case_decide; congruence.
Defined.

(** The two queries of a restitution are not in one transaction: a debt that
    arrives between them is in no row of the file, but among the ids that are
    marked as exported. *)
Theorem restitution_race :
  let db0 := mkDB demo_pa 10 in
  let '(rows, db1) := restitutionRows (H := demo_server []) db0 in
  let '(_, db2) := InsertDebts (H := demo_server []) [mkPADebt "t2" 999] db1 in
  let '(ids, db3) := restitutionIds (H := demo_server []) db2 in
  rows = Ok [("t1", 150, "c")]%string /\
  match ids with
  | Ok ids => outstanding (pa_debts (tables (MarkDebtsExported (H := demo_server []) ids db3).2)) = []
  | Err _ => False
  end.
Proof. vm_compute. split; reflexivity. Qed.

(** A debt whose token no card has is marked as exported too, unpaid. *)
Theorem unknown_token_written_off :
  let db0 := mkDB (set_pa_debts (<[9 := mkDebt "gone" 40 None]> (pa_debts demo_pa)) demo_pa) 0 in
  let '(status, file, resp, db') := restitution (H := demo_server []) map_to_list FileWritten db0 in
  file = Some [("c", 150)]%string /\ outstanding (pa_debts (tables db')) = [].
Proof. vm_compute. split; reflexivity. Qed.
