(* ===== verification/BackOffice.v ===== *)
(** * The back offices' handlers: Simulation/cs/main.go and Simulation/pctrbo/main.go

    The requests a gate and a station send: the validation of a card and the
    batches of taps, from the bytes of the body to the database.  A handler
    gives the status, the answer and the database. *)

From Stdlib Require Import Ascii String.
From S2P Require Import Prelude.
From stdpp Require Import list sorting relations.
From S2P Require Import GoStrings GoJSON Firewall Transport GoTime SQL CardDB Journeys JourneysFacts Taps SimHTTP.
Local Open Scope Z_scope.

#[local] Arguments String.append : simpl nomatch.

Record ValidateRequest := mkValidateRequest { vrCard : string; vrGate : string; vrStation : string; vrTime : string }.
Record ValidateResponse := mkValidateResponse { Valid : bool; vReason : string }.

Definition validateRequest_json (r : ValidateRequest) : json :=
  JObj [("card_id", JStr (vrCard r)); ("gate_id", JStr (vrGate r)); ("station_id", JStr (vrStation r)); ("tap_time", JStr (vrTime r))]%string.
Definition validateRequest_of_json (j : json) : option ValidateRequest :=
  fs ← strict_fields ["card_id"; "gate_id"; "station_id"; "tap_time"]%string j;
  c ← as_string "" (field "card_id" fs); g ← as_string "" (field "gate_id" fs);
  s ← as_string "" (field "station_id" fs); w ← as_string "" (field "tap_time" fs);
  Some (mkValidateRequest c g s w).
Definition validateResponse_json (r : ValidateResponse) : json :=
  JObj [("valid", JBool (Valid r)); ("reason", JStr (vReason r))]%string.
Definition validateResponse_of_json (j : json) : option ValidateResponse :=
  fs ← struct_fields j; v ← as_bool false (field "valid" fs); r ← as_string "" (field "reason" fs); Some (mkValidateResponse v r).

Definition refuse (status : Z) : Z * BatchResponse := (status, mkBatchResponse false 0).

(** ** The rows of a batch *)

(** [None] where the handler answers 400 *)
Definition csRow (tx : Transaction) : option CSTransaction :=
  if negb (String.eqb (ToUpper (TrimSpace (tx_type tx))) "OY") then None
  else
    tapTime ← Parse (TrimSpace (tx_time tx));
    Some (mkCSTx (TrimSpace (tx_id tx)) (TrimSpace (tx_card tx)) (TrimSpace (tx_gate tx)) (TrimSpace (tx_station tx)) tapTime
            (tx_allowed tx) (TrimSpace (tx_reason tx))).

Definition pctrboRow (tx : Transaction) : option CSTransaction :=
  if negb (String.eqb (ToUpper (TrimSpace (tx_type tx))) "PCTR") then None
  else
    tapTime ← Parse (TrimSpace (tx_time tx));
    let token := TrimSpace (tx_token tx) in
    if String.eqb token "" then None
    else Some (mkCSTx (TrimSpace (tx_id tx)) token (TrimSpace (tx_gate tx)) (TrimSpace (tx_station tx)) tapTime
                 (tx_allowed tx) (TrimSpace (tx_reason tx))).

(** What differs between the two back offices *)
Record Office := mkOffice {
  office_names : list string;
  office_row : Transaction -> option CSTransaction;
  office_book : Book }.

Section Handlers.
Context `{Server}.

Definition CS : Office := mkOffice cs_names csRow CSBook.
Definition PCTRBO : Office := mkOffice pctrbo_names pctrboRow PCTRBook.

(** [/batch] *)
Definition batchHandler (o : Office) (method body : string) (db : DB Tables) : Z * BatchResponse * DB Tables :=
  if negb (String.eqb method "POST") then (refuse 405, db)
  else match parse_first body ≫= batch_of_json (office_names o) with
       | None | Some [] => (refuse 400, db)
       | Some txs =>
           match mapM (office_row o) txs with
           | None => (refuse 400, db)
           | Some toInsert =>
               match forRange (insertTap (office_book o)) toInsert db with
               | (Err _, db) => (refuse 503, db)
               | (Ok _, db) => (200, mkBatchResponse true (Z.of_nat (length toInsert)), db)
               end
           end
       end.

(** [/validate] of the card system *)
Definition validateHandler (method body : string) (db : DB Tables) : Z * ValidateResponse * DB Tables :=
  if negb (String.eqb method "POST") then (405, mkValidateResponse false "method not allowed", db)
  else match parse_first body ≫= validateRequest_of_json with
       | None => (400, mkValidateResponse false "invalid json", db)
       | Some req =>
           let card := TrimSpace (vrCard req) in
           if String.eqb card "" then (400, mkValidateResponse false "missing card_id", db)
           else match Validate card db with
                | (_, _, Some _, db) => (503, mkValidateResponse false "db error", db)
                | (valid, reason, None, db) => (200, mkValidateResponse valid reason, db)
                end
       end.

(** What a batch leaves behind, whatever its status *)
Definition rows_of (o : Office) (txs : list Transaction) : list CSTransaction := default [] (mapM (office_row o) txs).

Lemma batchHandler_spec o `{!BookLaws (office_book o)} txs db status resp db' :
  Forall tx_utf8 txs -> Forall (tx_known (office_names o)) txs -> batchHandler o "POST" (print (batch_json txs)) db = (status, resp, db') ->
  exists k, taps_of (office_book o) (tables db') = foldl addTap (taps_of (office_book o) (tables db)) (take k (rows_of o txs)) /\
    (200 <= status < 300 -> is_Some (mapM (office_row o) txs) /\ take k (rows_of o txs) = rows_of o txs /\
      resp = mkBatchResponse true (Z.of_nat (length txs))).
Proof.
  intros Hu Hk. unfold batchHandler, refuse, rows_of. cbn [String.eqb Ascii.eqb Bool.eqb negb]. rewrite batch_wire by done.
  destruct txs as [|t txs]; [intros [= <- <- <-]; exists 0%nat; split; [done|lia]|].
  destruct (mapM (office_row o) (t :: txs)) as [rows|] eqn:Em; cbn [default]; [|intros [= <- <- <-]; exists 0%nat; split; [done|lia]].
  destruct (forRange (insertTap (office_book o)) rows db) as [r db1] eqn:Ei.
  destruct (insertTaps_spec (office_book o) rows db r db1 Ei) as (k & Htaps & Hall).
  destruct r as [[]|e]; intros [= <- <- <-]; exists k; (split; [done|]); [|lia]. intros _. split_and!; [done|by apply Hall|].
  do 2 f_equal. apply length_mapM in Em. by rewrite Em.
Qed.

(** A field the receiver does not declare *)
Definition foreign (o : Office) (tx : Transaction) : Prop :=
  o = CS /\ tx_token tx <> ""%string \/ o = PCTRBO /\ tx_card tx <> ""%string.

Lemma foreign_unknown o tx old : foreign o tx -> transaction_of_json (office_names o) old (transaction_json tx) = None.
Proof.
  unfold transaction_of_json, transaction_json, omit_string, strict_fields.
  intros [[-> Hne]|[-> Hne]]; apply String.eqb_neq in Hne; rewrite Hne; cbn [office_names CS PCTRBO].
  - destruct (String.eqb (tx_card tx) ""); cbn [app struct_fields mbind option_bind]; by change (known _ _) with false.
  - destruct (String.eqb (tx_token tx) ""); cbn [app struct_fields mbind option_bind]; by change (known _ _) with false.
Qed.

Lemma foreign_batch o txs olds tx : tx ∈ txs -> foreign o tx -> transactions_of (office_names o) olds (transaction_json <$> txs) = None.
Proof.
  intros Hin Hf. revert olds. induction txs as [|t txs IH]; intros olds; [by apply not_elem_of_nil in Hin|].
  rewrite fmap_cons. cbn [transactions_of]. apply elem_of_cons in Hin as [->|Hin].
  - by rewrite foreign_unknown.
  - destruct (transaction_of_json _ _ _); cbn [mbind option_bind]; [|done]. by rewrite IH.
Qed.

(** A batch with one such field is refused whole, and the database is not asked. *)
Lemma batchHandler_foreign o txs db tx : Forall tx_utf8 txs -> tx ∈ txs -> foreign o tx ->
  batchHandler o "POST" (print (batch_json txs)) db = (refuse 400, db).
Proof.
  intros Hu Hin Hf. unfold batchHandler. cbn [String.eqb Ascii.eqb Bool.eqb negb]. destruct (batch_json_ok txs Hu) as [Hok Hd].
  destruct (json_roundtrip (batch_json txs) "" Hok Hd I) as [_ E]. rewrite str_app_nil_r in E. rewrite E. cbn [mbind option_bind].
  unfold batch_of_json, strict_fields, batch_json. cbn [struct_fields mbind option_bind]. change (known _ _) with true. cbv iota.
  fields. simpl. pose proof (foreign_batch o txs [] tx Hin Hf) as Ht. simpl in Ht. by rewrite Ht.
Qed.

(** Any batch, from whatever station *)
Lemma batchHandler_any o txs db status resp db' : o = CS \/ o = PCTRBO -> Forall tx_utf8 txs ->
  batchHandler o "POST" (print (batch_json txs)) db = (status, resp, db') ->
  exists k, taps_of (office_book o) (tables db') = foldl addTap (taps_of (office_book o) (tables db)) (take k (rows_of o txs)) /\
    (200 <= status < 300 -> is_Some (mapM (office_row o) txs) /\ take k (rows_of o txs) = rows_of o txs).
Proof.
  intros Ho Hu E.
  assert (Forall (tx_known (office_names o)) txs \/ exists tx, tx ∈ txs /\ foreign o tx) as [Hk|(tx & Hin & Hf)].
  { clear E Hu. induction txs as [|t txs IH]; [by left|].
    assert (tx_known (office_names o) t \/ foreign o t) as [Ht|Ht].
    { unfold tx_known, foreign. destruct Ho as [-> | ->].
      - destruct (decide (tx_token t = ""%string)); [left; right; by left|right; by left].
      - destruct (decide (tx_card t = ""%string)); [left; right; by right|right; by right]. }
    - destruct IH as [IH|(tx & Hin & Hf)]; [left; by constructor|]. right. exists tx. split; [by right|done].
    - right. exists t. split; [by left|done]. }
  - destruct Ho as [-> | ->].
    + destruct (batchHandler_spec CS txs db status resp db' Hu Hk E) as (k & H1 & H2). exists k. split; [done|]. naive_solver.
    + destruct (batchHandler_spec PCTRBO txs db status resp db' Hu Hk E) as (k & H1 & H2). exists k. split; [done|]. naive_solver.
  - rewrite (batchHandler_foreign o txs db tx Hu Hin Hf) in E. injection E as <- _ <-. exists 0%nat. split; [done|lia].
Qed.

End Handlers.
