(* ===== verification/Station.v ===== *)
(** * Simulation/station_computer/main.go: taps on their way to the back offices

    The batcher, the handler of a gate's transaction, the forwarding of a
    full batch and its return to the buffer when anything fails.  Histories
    interleave taps and forwards in any order, and each look-up, request and
    answer of a forward may be lost. *)

From Stdlib Require Import Ascii String.
From S2P Require Import Prelude.
From stdpp Require Import list sorting relations.
From S2P Require Import GoStrings GoJSON Utf8 Firewall Transport GoTime SQL CardDB Journeys JourneysFacts Taps SimHTTP SimProxy BackOffice.
Local Open Scope Z_scope.

#[local] Arguments String.append : simpl nomatch.

(** ** The batcher *)

Record PerTypeBatcher := mkBatcher { batchSize : nat; byType : gmap string (list Transaction) }.

Definition NewPerTypeBatcher (n : nat) : PerTypeBatcher := mkBatcher n {["OY"%string := []; "PCTR"%string := []]}.

(** [b.byType[cardType]]: nil when there is no such key *)
Definition buffered (ct : string) (b : PerTypeBatcher) : list Transaction := default [] (byType b !! ct).
Definition setBuffer (ct : string) (l : list Transaction) (b : PerTypeBatcher) : PerTypeBatcher :=
  mkBatcher (batchSize b) (<[ct := l]> (byType b)).

Definition Add (tx : Transaction) (b : PerTypeBatcher) : nat * list Transaction * PerTypeBatcher :=
  let cur := buffered (tx_type tx) b ++ [tx] in
  if (length cur <? batchSize b)%nat then (length cur, [], setBuffer (tx_type tx) cur b)
  else
    let rest := drop (batchSize b) cur in
    (length rest, take (batchSize b) cur, setBuffer (tx_type tx) rest b).

Definition Size (ct : string) (b : PerTypeBatcher) : nat := length (buffered ct b).

(** A batch that could not be forwarded goes back to the front. *)
Definition requeue (batch : list Transaction) (b : PerTypeBatcher) : PerTypeBatcher :=
  match batch with
  | [] => b
  | t :: _ => setBuffer (tx_type t) (batch ++ buffered (tx_type t) b) b
  end.

(** ** [/transaction] *)

Definition normalizeTx (stationID : string) (now1 now2 : Z) (tx : Transaction) : Transaction :=
  let gate := TrimSpace (tx_gate tx) in
  mkTransaction
    (if String.eqb (tx_id tx) "" then (gate ++ "-" ++ lit_of_int now1)%string else tx_id tx)
    (ToUpper (TrimSpace (tx_type tx))) (TrimSpace (tx_card tx)) (TrimSpace (tx_token tx)) gate stationID
    (if String.eqb (tx_time tx) "" then Format now2 else tx_time tx) (tx_allowed tx) (tx_reason tx).

(** The guards that answer 400 *)
Definition refused (tx : Transaction) : bool :=
  (String.eqb (tx_type tx) "" || String.eqb (tx_gate tx) "") ||
  (negb (String.eqb (tx_type tx) "OY") && negb (String.eqb (tx_type tx) "PCTR")) ||
  (String.eqb (tx_type tx) "OY" && String.eqb (TrimSpace (tx_card tx)) "") ||
  (String.eqb (tx_type tx) "PCTR" && String.eqb (TrimSpace (tx_token tx)) "") ||
  negb (tx_allowed tx).

(** The status of a refusal, or the transaction to buffer *)
Definition readTransaction (stationID : string) (now1 now2 : Z) (method body : string) : Z + Transaction :=
  if negb (String.eqb method "POST") then inl 405
  else match parse_first body ≫= transaction_of_json station_names no_transaction with
       | None => inl 400
       | Some tx => let tx := normalizeTx stationID now1 now2 tx in if refused tx then inl 400 else inr tx
       end.

(** The status, the acknowledgement, the batcher and the batch to forward *)
Definition handleTransaction (stationID : string) (now1 now2 : Z) (method body : string) (b : PerTypeBatcher)
  : Z * TransactionAck * PerTypeBatcher * list Transaction :=
  match readTransaction stationID now1 now2 method body with
  | inl status => (status, mkAck false 0, b, [])
  | inr tx => let '(remaining, fullBatch, b) := Add tx b in (200, mkAck true (Z.of_nat remaining), b, fullBatch)
  end.

(** ** Forwarding *)

Definition boTask (oyboTask pctrboTask ct : string) : string := if String.eqb ct "PCTR" then pctrboTask else oyboTask.

Section Forward.
Context {W : Type}.
Variable decode_error : string -> string.
Variable query : string -> W -> result string string * W.
Variable post : Post W.

(** Whether the batch has left the station *)
Definition forwardBatch (task : string) (batch : list Transaction) (w : W) : bool * W :=
  let '(r, w) := query task w in
  match r with
  | Err _ => (false, w)
  | Ok addr =>
      let url := (TrimRightSlash (EnsureHTTPBase addr) ++ "/batch")%string in
      let '(r, w) := httpPostJSON decode_error post url (batch_json batch) batchResponse_of_json w in
      (is_ok r, w)
  end.
End Forward.

(** ** Batches and buffers *)

(** Every transaction sits in the buffer of its type. *)
Definition sorted_by_type (b : PerTypeBatcher) : Prop := forall ct tx, tx ∈ buffered ct b -> tx_type tx = ct.

Lemma buffered_set ct l b : buffered ct (setBuffer ct l b) = l.
Proof. unfold buffered, setBuffer. simpl. by rewrite lookup_insert_eq. Qed.

Lemma buffered_other ct ct' l b : ct <> ct' -> buffered ct' (setBuffer ct l b) = buffered ct' b.
Proof. intros. unfold buffered, setBuffer. simpl. by rewrite lookup_insert_ne. Qed.

(** What an arriving tap does: the buffer with the tap is the batch followed
    by what stays, and the batch is empty or full. *)
Lemma Add_spec tx b n batch b' : Add tx b = (n, batch, b') ->
  batch ++ buffered (tx_type tx) b' = buffered (tx_type tx) b ++ [tx] /\
  (forall ct, ct <> tx_type tx -> buffered ct b' = buffered ct b) /\ batchSize b' = batchSize b /\ n = Size (tx_type tx) b' /\
  (batch = [] \/ length batch = batchSize b) /\
  ((Size (tx_type tx) b < batchSize b)%nat -> (Size (tx_type tx) b' < batchSize b)%nat).
Proof.
  unfold Add, Size. set (cur := buffered (tx_type tx) b ++ [tx]). assert (Hl : length cur = S (length (buffered (tx_type tx) b))).
  { unfold cur. rewrite length_app. simpl. lia. }
  destruct (Nat.ltb_spec (length cur) (batchSize b)); intros [= <- <- <-]; rewrite ?buffered_set.
  - split_and!; [done| |done|done|by left|done]. intros ct Hct. by rewrite buffered_other.
  - split_and!; [by rewrite take_drop| |done|done| |].
    + intros ct Hct. by rewrite buffered_other.
    + right. rewrite length_take. lia.
    + intros Hlt. rewrite length_drop. lia.
Qed.

Lemma requeue_spec batch b t rest : batch = t :: rest -> Forall (fun x => tx_type x = tx_type t) batch ->
  buffered (tx_type t) (requeue batch b) = batch ++ buffered (tx_type t) b /\
  (forall ct, ct <> tx_type t -> buffered ct (requeue batch b) = buffered ct b) /\ batchSize (requeue batch b) = batchSize b.
Proof.
  intros -> _. unfold requeue. rewrite buffered_set. split_and!; [done| |done]. intros ct Hct. by rewrite buffered_other.
Qed.

(** ** Histories of a station and its two back offices *)

(** What becomes of a forward on the network *)
Inductive Delivery := NoAddress (e : string) | RequestLost (e : string) | AnswerLost (e : string) | Answered.

Definition queryOf (d : Delivery) (addr task : string) (db : DB Tables) : result string string * DB Tables :=
  (match d with NoAddress e => Err e | _ => Ok addr end, db).

Definition postOf (S : Server) (o : Office) (d : Delivery) : Post (DB Tables) := fun _ body db =>
  match d with
  | NoAddress e | RequestLost e => (Err e, db)
  | AnswerLost e => let '(_, _, db) := batchHandler o "POST" body db in (Err e, db)
  | Answered => let '(status, resp, db) := batchHandler o "POST" body db in (Ok (status, encode (batchResponse_json resp)), db)
  end.

(** The station, the batches its goroutines hold, the databases; and, for the
    statements, the taps acknowledged and those forwarded *)
Record World := mkWorld {
  station : PerTypeBatcher; flights : list (list Transaction); accepted : list Transaction; delivered : list Transaction;
  cs_db : DB Tables; bo_db : DB Tables }.

Section System.
Context (SCS SBO : Server) (stationID : string) (decode_error : string -> string).
Context (Hstation : valid_utf8 stationID = true).

Definition acknowledged (r : Z + Transaction) : list Transaction := match r with inl _ => [] | inr tx => [tx] end.

(** [ok]: the batch has left; otherwise it goes back to the buffer. *)
Definition settleBatch (ok : bool) (batch : list Transaction) (rest : list (list Transaction)) (cs bo : DB Tables) (w : World) : World :=
  if ok then mkWorld (station w) rest (accepted w) (batch ++ delivered w) cs bo
  else mkWorld (requeue batch (station w)) rest (accepted w) (delivered w) cs bo.

Inductive sys_step (w : World) : World -> Prop :=
| sys_tap now1 now2 method body status ack b batch :
    handleTransaction stationID now1 now2 method body (station w) = (status, ack, b, batch) ->
    sys_step w (mkWorld b (match batch with [] => flights w | _ => flights w ++ [batch] end)
                  (acknowledged (readTransaction stationID now1 now2 method body) ++ accepted w) (delivered w) (cs_db w) (bo_db w))
| sys_forward_cs d addr task batch l1 l2 ok db :
    flights w = l1 ++ batch :: l2 -> (tx_type <$> head batch) <> Some "PCTR"%string ->
    forwardBatch decode_error (queryOf d addr) (postOf SCS CS d) task batch (cs_db w) = (ok, db) ->
    sys_step w (settleBatch ok batch (l1 ++ l2) db (bo_db w) w)
| sys_forward_bo d addr task batch l1 l2 ok db :
    flights w = l1 ++ batch :: l2 -> (tx_type <$> head batch) = Some "PCTR"%string ->
    forwardBatch decode_error (queryOf d addr) (postOf SBO (PCTRBO (H := SBO)) d) task batch (bo_db w) = (ok, db) ->
    sys_step w (settleBatch ok batch (l1 ++ l2) (cs_db w) db w).

(** Where a tap can be *)
Definition waiting (w : World) : list Transaction :=
  buffered "OY" (station w) ++ buffered "PCTR" (station w) ++ mjoin (flights w).

(** A forwarded tap is in the table of its office; a new row is some
    acknowledged tap's. *)
Definition tapsRecorded (S : Server) (o : Office) (taps0 taps : gmap string TapRow) (sent acked : list Transaction) : Prop :=
  (forall tx, tx ∈ sent -> exists row, office_row o tx = Some row /\ (incomplete row = false -> is_Some (taps !! TransactionID row))) /\
  (forall i r, taps0 !! i = Some r -> taps !! i = Some r) /\
  (forall i r, taps0 !! i = None -> taps !! i = Some r ->
    exists tx row, tx ∈ acked /\ office_row o tx = Some row /\ incomplete row = false /\ TransactionID row = i /\ r = newRow row).

Definition of_type (ct : string) (txs : list Transaction) : list Transaction := List.filter (fun tx => String.eqb (tx_type tx) ct) txs.

Record sys_inv (cs0 bo0 : DB Tables) (w : World) : Prop := {
  si_perm : accepted w ≡ₚ waiting w ++ delivered w;
  si_ok : Forall (fun tx => tx_utf8 tx /\ (tx_type tx = "OY"%string \/ tx_type tx = "PCTR"%string)) (accepted w);
  si_sorted : sorted_by_type (station w);
  si_flights : Forall (fun batch => exists t rest, batch = t :: rest /\ Forall (fun x => tx_type x = tx_type t) batch) (flights w);
  si_cs : tapsRecorded SCS CS (transactions (tables cs0)) (transactions (tables (cs_db w))) (of_type "OY" (delivered w)) (accepted w);
  si_bo : tapsRecorded SBO (PCTRBO (H := SBO)) (pctr_transactions (tables bo0)) (pctr_transactions (tables (bo_db w))) (of_type "PCTR" (delivered w)) (accepted w) }.

(** *** Taps *)

Lemma recorded_more S o taps0 taps sent acked acked' :
  tapsRecorded S o taps0 taps sent acked -> tapsRecorded S o taps0 taps sent (acked' ++ acked).
Proof.
  intros (H1 & H2 & H3). split_and!; [done..|]. intros i r E0 E. destruct (H3 i r E0 E) as (tx & row & Hin & ?).
  exists tx, row. split; [|done]. apply elem_of_app. by right.
Qed.

Lemma readTransaction_type now1 now2 method body tx : readTransaction stationID now1 now2 method body = inr tx ->
  tx_type tx = "OY"%string \/ tx_type tx = "PCTR"%string.
Proof.
  unfold readTransaction. destruct (negb _); [done|]. destruct (parse_first body ≫= _) as [t|]; [|done]. cbv zeta.
  destruct (refused (normalizeTx stationID now1 now2 t)) eqn:E; [done|]. intros [= <-].
  unfold refused in E. rewrite !orb_false_iff, !andb_false_iff, !negb_false_iff, !String.eqb_eq in E. tauto.
Qed.

(** What a station acknowledges is valid UTF-8, whatever was posted. *)
Lemma transaction_of_json_utf8 names body tx : parse_first body ≫= transaction_of_json names no_transaction = Some tx -> tx_utf8 tx.
Proof.
  destruct (parse_first body) as [j|] eqn:Ej; [|done]. apply parse_first_strings in Ej. cbn [mbind option_bind].
  unfold transaction_of_json, strict_fields. destruct (struct_fields j) as [fs|] eqn:Ef; [|done]. cbn [mbind option_bind].
  pose proof (struct_strings j fs Ej Ef) as Hfs. destruct (known names fs); [|done]. cbn [mbind option_bind].
  cbn [no_transaction tx_id tx_type tx_card tx_token tx_gate tx_station tx_time tx_allowed tx_reason].
  repeat match goal with |- context [as_string "" (field ?n fs)] =>
    let E := fresh "E" in destruct (as_string "" (field n fs)) eqn:E; [|done]; apply (field_Utf8 _ _ _ Hfs) in E; cbn [mbind option_bind] end.
  destruct (as_bool _ _); [|done]. cbn [mbind option_bind].
  repeat match goal with |- context [as_string "" (field ?n fs)] =>
    let E := fresh "E" in destruct (as_string "" (field n fs)) eqn:E; [|done]; apply (field_Utf8 _ _ _ Hfs) in E; cbn [mbind option_bind] end.
  intros [= <-]. by split_and!.
Qed.

Lemma readTransaction_utf8 now1 now2 method body tx : readTransaction stationID now1 now2 method body = inr tx -> tx_utf8 tx.
Proof.
  intros E. pose proof (readTransaction_type _ _ _ _ _ E) as Ht. revert E. unfold readTransaction. destruct (negb _); [done|].
  destruct (parse_first body ≫= _) as [t|] eqn:Et; [|done]. cbv zeta. destruct (refused _); [done|]. intros [= <-].
  destruct (transaction_of_json_utf8 _ _ _ Et) as (H1 & H2 & H3 & H4 & H5 & H6 & H7 & H8). unfold normalizeTx in *.
  cbn [tx_type] in Ht. split_and!; cbn [tx_id tx_type tx_card tx_token tx_gate tx_station tx_time tx_reason]; try done; try (by apply valid_TrimSpace).
  - destruct (String.eqb _ _); [|done]. apply valid_app; [by apply valid_TrimSpace|]. apply valid_utf8_iff, plain_Utf8.
    rewrite plain_app. by rewrite plain_lit.
  - by destruct Ht as [-> | ->].
  - destruct (String.eqb _ _); [|done]. apply valid_utf8_iff, plain_Utf8, plain_Format.
Qed.

Lemma waiting_add tx b n batch b' fl : Add tx b = (n, batch, b') -> tx_type tx = "OY"%string \/ tx_type tx = "PCTR"%string ->
  buffered "OY" b' ++ buffered "PCTR" b' ++ mjoin (match batch with [] => fl | _ => fl ++ [batch] end)
  ≡ₚ tx :: (buffered "OY" b ++ buffered "PCTR" b ++ mjoin fl).
Proof.
  intros E Ht. destruct (Add_spec _ _ _ _ _ E) as (Happ & Hother & _).
  assert (Hj : mjoin (match batch with [] => fl | _ => fl ++ [batch] end) = mjoin fl ++ batch).
  { destruct batch; [by rewrite app_nil_r|]. rewrite join_app. simpl. by rewrite app_nil_r. }
  rewrite Hj. destruct Ht as [Ht|Ht]; rewrite Ht in *.
  - rewrite (Hother "PCTR"%string) by done.
    trans ((batch ++ buffered "OY" b') ++ buffered "PCTR" b ++ mjoin fl); [solve_Permutation|]. rewrite Happ. solve_Permutation.
  - rewrite (Hother "OY"%string) by done.
    trans ((batch ++ buffered "PCTR" b') ++ buffered "OY" b ++ mjoin fl); [solve_Permutation|]. rewrite Happ. solve_Permutation.
Qed.

(** *** Forwards *)

Lemma forward_spec (S : Server) o d addr task batch db ok db' : o = CS \/ o = PCTRBO -> Forall tx_utf8 batch ->
  forwardBatch decode_error (queryOf d addr) (postOf S o d) task batch db = (ok, db') ->
  exists k, taps_of (office_book o) (tables db') = foldl addTap (taps_of (office_book o) (tables db)) (take k (rows_of o batch)) /\
    (ok = true -> is_Some (mapM (office_row o) batch) /\ take k (rows_of o batch) = rows_of o batch).
Proof.
  intros Ho Hu. unfold forwardBatch, queryOf, httpPostJSON, postOf. destruct d as [e|e|e|].
  - intros [= <- <-]. by exists 0%nat.
  - intros [= <- <-]. by exists 0%nat.
  - destruct (batchHandler o "POST" (print (batch_json batch)) db) as [[status resp] db1] eqn:E. intros [= <- <-].
    destruct (batchHandler_any o batch db status resp db1 Ho Hu E) as (k & H1 & _). by exists k.
  - destruct (batchHandler o "POST" (print (batch_json batch)) db) as [[status resp] db1] eqn:E. 
    match goal with |- (is_ok ?x, _) = _ -> _ => set (answer := x) end. intros [= Hok <-].
    destruct (batchHandler_any o batch db status resp db1 Ho Hu E) as (k & H1 & H2). exists k. split; [done|]. intros ->. apply H2.
    unfold answer in Hok. destruct (Z.ltb_spec status 200); [done|]. destruct (Z.leb_spec 300 status); [done|]. lia.
Qed.

Lemma rows_of_elem o batch row : row ∈ rows_of o batch -> exists tx, tx ∈ batch /\ office_row o tx = Some row.
Proof.
  unfold rows_of. destruct (mapM (office_row o) batch) as [rows|] eqn:E; cbn [default]; [|by intros ?%not_elem_of_nil].
  apply mapM_Some_1 in E. revert row. induction E as [|tx r batch rows Hr _ IH]; intros row; [by intros ?%not_elem_of_nil|].
  intros [->|Hin]%elem_of_cons; [exists tx; split; [left|done]|]. destruct (IH row Hin) as (y & Hy & ?). exists y. split; [by right|done].
Qed.

Lemma elem_rows_of o batch tx : is_Some (mapM (office_row o) batch) -> tx ∈ batch ->
  exists row, office_row o tx = Some row /\ row ∈ rows_of o batch.
Proof.
  intros [rows E] Hin. unfold rows_of. rewrite E. cbn [default]. apply mapM_Some_1 in E.
  induction E as [|t r batch rows Hr _ IH]; [by apply not_elem_of_nil in Hin|].
  apply elem_of_cons in Hin as [->|Hin]; [exists r; split; [done|left]|]. destruct (IH Hin) as (row & ? & ?). exists row. split; [done|by right].
Qed.

Lemma recorded_forward (S : Server) o taps0 taps sent acked batch k (ok : bool) : tapsRecorded S o taps0 taps sent acked ->
  (forall tx, tx ∈ batch -> tx ∈ acked) ->
  (ok = true -> is_Some (mapM (office_row o) batch) /\ take k (rows_of o batch) = rows_of o batch) ->
  tapsRecorded S o taps0 (foldl addTap taps (take k (rows_of o batch))) (if ok then batch ++ sent else sent) acked.
Proof.
  intros (H1 & H2 & H3) Hacked Hok. split_and!.
  - intros tx Hin. assert (ok = true /\ tx ∈ batch \/ tx ∈ sent) as [[-> Hb]|Hs].
    { destruct ok; [|by right]. apply elem_of_app in Hin. tauto. }
    + destruct (Hok eq_refl) as [Hm Hk]. destruct (elem_rows_of o batch tx Hm Hb) as (row & Hr & Hin'). exists row. split; [done|].
      intros Hc. rewrite Hk. by apply addTaps_present.
    + destruct (H1 tx Hs) as (row & Hr & Hc). exists row. split; [done|]. intros [r Er]%Hc. exists r. by apply addTaps_old.
  - intros i r E. by apply addTaps_old, H2.
  - intros i r E0 E. destruct (taps !! i) as [r0|] eqn:Ei.
    + rewrite (addTaps_old _ _ _ _ Ei) in E. injection E as <-. by apply H3.
    + destruct (addTaps_new _ _ _ _ Ei E) as (row & Hin & Hc & Hi & Hr).
      destruct (rows_of_elem o batch row) as (tx & Htx & Hrow); [eapply elem_of_sublist; [exact Hin|apply sublist_take]|].
      exists tx, row. by auto.
Qed.

Lemma of_type_all ct batch l : Forall (fun x => tx_type x = ct) batch -> of_type ct (batch ++ l) = batch ++ of_type ct l.
Proof.
  intros Hb. unfold of_type. rewrite List.filter_app. f_equal. induction Hb as [|x batch Hx _ IH]; [done|]. simpl.
  rewrite Hx, String.eqb_refl. by f_equal.
Qed.

Lemma of_type_none ct ct' batch l : ct <> ct' -> Forall (fun x => tx_type x = ct') batch -> of_type ct (batch ++ l) = of_type ct l.
Proof.
  intros Hne Hb. unfold of_type. rewrite List.filter_app. induction Hb as [|x batch Hx _ IH]; [done|]. simpl.
  rewrite Hx, (proj2 (String.eqb_neq _ _)) by congruence. done.
Qed.

(** A batch that goes back leaves every tap where it can be found. *)
Lemma requeue_waiting batch t rest b : batch = t :: rest -> Forall (fun x => tx_type x = tx_type t) batch ->
  tx_type t = "OY"%string \/ tx_type t = "PCTR"%string ->
  buffered "OY" (requeue batch b) ++ buffered "PCTR" (requeue batch b) ≡ₚ batch ++ buffered "OY" b ++ buffered "PCTR" b.
Proof.
  intros E Hall Ht. destruct (requeue_spec batch b t rest E Hall) as (H1 & H2 & _). destruct Ht as [Ht|Ht]; rewrite Ht in *.
  - rewrite H1, H2 by done. solve_Permutation.
  - rewrite H1, H2 by done. solve_Permutation.
Qed.

Lemma requeue_sorted batch b t rest : batch = t :: rest -> Forall (fun x => tx_type x = tx_type t) batch ->
  sorted_by_type b -> sorted_by_type (requeue batch b).
Proof.
  intros E Hall Hs ct tx. destruct (requeue_spec batch b t rest E Hall) as (H1 & H2 & _). destruct (decide (ct = tx_type t)) as [->|Hne].
  - rewrite H1. intros [Hin|Hin]%elem_of_app; [|by apply Hs]. rewrite Forall_forall in Hall. by apply Hall.
  - rewrite H2 by done. apply Hs.
Qed.

Lemma Add_sorted tx b n batch b' : Add tx b = (n, batch, b') -> sorted_by_type b ->
  sorted_by_type b' /\ Forall (fun x => tx_type x = tx_type tx) batch.
Proof.
  intros E Hs. destruct (Add_spec _ _ _ _ _ E) as (Happ & Hother & _).
  assert (Hall : forall x, x ∈ batch ++ buffered (tx_type tx) b' -> tx_type x = tx_type tx).
  { intros x. rewrite Happ. intros [Hin|Hin]%elem_of_app; [by apply Hs|]. apply list_elem_of_singleton in Hin. by subst. }
  split.
  - intros ct x. destruct (decide (ct = tx_type tx)) as [->|Hne]; [|rewrite Hother by done; apply Hs].
    intros Hin. apply Hall, elem_of_app. by right.
  - apply Forall_forall. intros x Hin. apply Hall, elem_of_app. by left.
Qed.

Lemma tap_inv cs0 bo0 w now1 now2 method body status ack b batch :
  sys_inv cs0 bo0 w -> handleTransaction stationID now1 now2 method body (station w) = (status, ack, b, batch) ->
  sys_inv cs0 bo0 (mkWorld b (match batch with [] => flights w | _ => flights w ++ [batch] end)
    (acknowledged (readTransaction stationID now1 now2 method body) ++ accepted w) (delivered w) (cs_db w) (bo_db w)).
Proof.
  intros [H1 H2 H3 H4 H5 H6]. unfold handleTransaction. destruct (readTransaction stationID now1 now2 method body) as [st|tx] eqn:Er.
  { intros [= <- <- <- <-]. by split. }
  destruct (Add tx (station w)) as [[n full] b'] eqn:Ea. intros [= <- <- <- <-]. pose proof (readTransaction_type _ _ _ _ _ Er) as Ht.
  pose proof (readTransaction_utf8 _ _ _ _ _ Er) as Hu.
  destruct (Add_sorted _ _ _ _ _ Ea H3) as [Hs Hb].
  split; simpl; [|by constructor|done| |by apply (recorded_more _ _ _ _ _ _ [tx])..].
  - unfold waiting. simpl. rewrite (waiting_add _ _ _ _ _ (flights w) Ea Ht). simpl. by rewrite H1.
  - destruct full as [|t full]; [done|]. apply Forall_app. split; [done|]. constructor; [|constructor]. exists t, full. split; [done|].
    apply Forall_cons in Hb as [Hbt Hb]. rewrite Hbt. by constructor.
Qed.

(** What both kinds of forward keep *)
Lemma settle_common cs0 bo0 w batch l1 l2 ok cs bo : sys_inv cs0 bo0 w -> flights w = l1 ++ batch :: l2 ->
  tapsRecorded SCS CS (transactions (tables cs0)) (transactions (tables cs)) (of_type "OY" (delivered (settleBatch ok batch (l1 ++ l2) cs bo w))) (accepted w) ->
  tapsRecorded SBO (PCTRBO (H := SBO)) (pctr_transactions (tables bo0)) (pctr_transactions (tables bo))
    (of_type "PCTR" (delivered (settleBatch ok batch (l1 ++ l2) cs bo w))) (accepted w) ->
  sys_inv cs0 bo0 (settleBatch ok batch (l1 ++ l2) cs bo w).
Proof.
  intros [H1 H2 H3 H4 _ _] Hf. rewrite Hf in H4. apply Forall_app in H4 as [Hl1 Hl2]. apply Forall_cons in Hl2 as [(t & rest & Eb & Hall) Hl2].
  assert (Hrest : Forall (fun batch => exists t rest, batch = t :: rest /\ Forall (fun x => tx_type x = tx_type t) batch) (l1 ++ l2)) by (by apply Forall_app).
  assert (Hw : waiting w ≡ₚ batch ++ buffered "OY" (station w) ++ buffered "PCTR" (station w) ++ mjoin (l1 ++ l2)).
  { unfold waiting. rewrite Hf, !join_app. simpl. solve_Permutation. }
  assert (Ht : tx_type t = "OY"%string \/ tx_type t = "PCTR"%string).
  { rewrite Forall_forall in H2. apply H2. rewrite H1, Hw, Eb. by left. }
  intros H5 H6. unfold settleBatch in *. destruct ok; simpl in *; split; simpl; try done.
  - etrans; [exact H1|]. rewrite Hw. unfold waiting. simpl. solve_Permutation.
  - etrans; [exact H1|]. rewrite Hw. unfold waiting. simpl. rewrite (app_assoc (buffered "OY" (requeue batch (station w)))).
    rewrite (requeue_waiting batch t rest (station w) Eb Hall Ht). solve_Permutation.
  - by apply (requeue_sorted batch _ t rest).
Qed.

(** The batch of a flight: acknowledged taps of one type *)
Lemma flight_facts cs0 bo0 w batch l1 l2 : sys_inv cs0 bo0 w -> flights w = l1 ++ batch :: l2 ->
  exists t rest, batch = t :: rest /\ Forall (fun x => tx_type x = tx_type t) batch /\
    (tx_type t = "OY"%string \/ tx_type t = "PCTR"%string) /\ (forall tx, tx ∈ batch -> tx ∈ accepted w) /\ Forall tx_utf8 batch.
Proof.
  intros [H1 H2 _ H4 _ _] Hf.
  assert (Hin : forall tx, tx ∈ batch -> tx ∈ accepted w).
  { intros tx Htx. rewrite H1. unfold waiting. rewrite Hf, join_app. simpl. rewrite !elem_of_app. tauto. }
  rewrite Hf in H4. apply Forall_app in H4 as [_ H4]. apply Forall_cons in H4 as [(t & rest & Eb & Hall) _]. rewrite Forall_forall in H2.
  exists t, rest. split_and!; [done|done| |done|].
  - apply H2, Hin. rewrite Eb. by left.
  - apply Forall_forall. intros x Hx. by apply H2, Hin.
Qed.

Lemma delivered_settle ct ok batch rest cs bo w ct' : Forall (fun x => tx_type x = ct') batch ->
  of_type ct (delivered (settleBatch ok batch rest cs bo w)) =
  if ok then (if decide (ct = ct') then batch ++ of_type ct (delivered w) else of_type ct (delivered w)) else of_type ct (delivered w).
Proof.
  intros Hb. unfold settleBatch. destruct ok; simpl; [|done]. destruct (decide (ct = ct')) as [->|Hne]; [by apply of_type_all|by eapply of_type_none].
Qed.

Lemma sys_step_inv cs0 bo0 w w' : sys_step w w' -> sys_inv cs0 bo0 w -> sys_inv cs0 bo0 w'.
Proof.
  intros [now1 now2 method body status ack b batch E|d addr task batch l1 l2 ok db Hf Ht E|d addr task batch l1 l2 ok db Hf Ht E] Hi.
  - by eapply tap_inv.
  - destruct (flight_facts _ _ _ _ _ _ Hi Hf) as (t & rest & Eb & Hall & Hty & Hacc & Hu).
    assert (tx_type t = "OY"%string) as Et. { destruct Hty as [|Hp]; [done|]. destruct Ht. by rewrite Eb; simpl; rewrite Hp. }
    rewrite Et in Hall. destruct (forward_spec SCS CS d addr task batch _ ok db (or_introl eq_refl) Hu E) as (k & Htaps & Hk). simpl in Htaps.
    apply settle_common; [done|done|rewrite Htaps|]; rewrite (delivered_settle _ _ _ _ _ _ _ "OY" Hall).
    + rewrite decide_True by done. apply (recorded_forward SCS CS _ (transactions (tables (cs_db w)))); [apply Hi|done|done].
    + rewrite decide_False by done. destruct ok; apply Hi.
  - destruct (flight_facts _ _ _ _ _ _ Hi Hf) as (t & rest & Eb & Hall & Hty & Hacc & Hu).
    assert (tx_type t = "PCTR"%string) as Et. { rewrite Eb in Ht. simpl in Ht. congruence. }
    rewrite Et in Hall. destruct (forward_spec SBO (PCTRBO (H := SBO)) d addr task batch _ ok db (or_intror eq_refl) Hu E) as (k & Htaps & Hk). simpl in Htaps.
    apply settle_common; [done|done| |rewrite Htaps]; rewrite (delivered_settle _ _ _ _ _ _ _ "PCTR" Hall).
    + rewrite decide_False by done. destruct ok; apply Hi.
    + rewrite decide_True by done. apply (recorded_forward SBO (PCTRBO (H := SBO)) _ (pctr_transactions (tables (bo_db w)))); [apply Hi|done|done].
Qed.

Definition start (n : nat) (cs bo : DB Tables) : World := mkWorld (NewPerTypeBatcher n) [] [] [] cs bo.

Lemma start_inv n cs bo : sys_inv cs bo (start n cs bo).
Proof.
  split; simpl; try done.
  - intros ct tx. unfold buffered, NewPerTypeBatcher. simpl. rewrite lookup_insert. destruct (decide _); [by intros ?%not_elem_of_nil|].
    destruct (decide (ct = "PCTR"%string)) as [->|]; [rewrite lookup_singleton_eq; by intros ?%not_elem_of_nil|].
    rewrite lookup_singleton_ne by done. by intros ?%not_elem_of_nil.
  - unfold of_type, tapsRecorded. simpl. split_and!; [by intros ? ?%not_elem_of_nil|done|congruence].
  - unfold of_type, tapsRecorded. simpl. split_and!; [by intros ? ?%not_elem_of_nil|done|congruence].
Qed.

Lemma station_inv n cs0 bo0 w : rtc sys_step (start n cs0 bo0) w -> sys_inv cs0 bo0 w.
Proof.
  intros Hr. remember (start n cs0 bo0) as w0 eqn:E0. assert (Hi : sys_inv cs0 bo0 w0) by (subst; apply start_inv). clear E0.
  induction Hr as [|x y z Hxy _ IH]; [done|]. by eapply IH, sys_step_inv.
Qed.

(** C5: no tap is lost between the gates and the back offices.  In every
    history of taps and forwards, whatever addresses, requests, answers and
    statements are lost, a tap the station acknowledged is exactly once in
    its buffers, in a batch under way or among those forwarded; what was
    forwarded is in the table of its office if it is complete; no row that
    was there changes, and every new row is an acknowledged tap, unprocessed. *)
Theorem no_tap_lost n cs0 bo0 w : rtc sys_step (start n cs0 bo0) w ->
  accepted w ≡ₚ waiting w ++ delivered w /\
  tapsRecorded SCS CS (transactions (tables cs0)) (transactions (tables (cs_db w))) (of_type "OY" (delivered w)) (accepted w) /\
  tapsRecorded SBO (PCTRBO (H := SBO)) (pctr_transactions (tables bo0)) (pctr_transactions (tables (bo_db w))) (of_type "PCTR" (delivered w)) (accepted w).
Proof.
  intros Hr. by destruct (station_inv n cs0 bo0 w Hr).
Qed.

(** ** A tap that blocks its station *)

(** A tap with a field that the office of its type does not declare *)
Definition poisonous (tx : Transaction) : Prop :=
  tx_type tx = "OY"%string /\ tx_token tx <> ""%string \/ tx_type tx = "PCTR"%string /\ tx_card tx <> ""%string.

Lemma forward_foreign (S : Server) o d addr task batch tx db : Forall tx_utf8 batch -> tx ∈ batch -> foreign o tx ->
  forwardBatch decode_error (queryOf d addr) (postOf S o d) task batch db = (false, db).
Proof.
  intros Hu Hin Hf. pose proof (batchHandler_foreign o batch db tx Hu Hin Hf) as Hb.
  unfold forwardBatch, queryOf, httpPostJSON, postOf. destruct d as [e|e|e|]; [done..| |]; by rewrite Hb.
Qed.

(** A poisonous batch always comes back, and its office's database is not
    asked. *)
Lemma poisoned_flight cs0 bo0 w w' batch l1 l2 tx : sys_inv cs0 bo0 w -> flights w = l1 ++ batch :: l2 -> tx ∈ batch -> poisonous tx ->
  (forall d addr task ok db, (tx_type <$> head batch) <> Some "PCTR"%string ->
    forwardBatch decode_error (queryOf d addr) (postOf SCS CS d) task batch (cs_db w) = (ok, db) ->
    w' = settleBatch ok batch (l1 ++ l2) db (bo_db w) w -> w' = settleBatch false batch (l1 ++ l2) (cs_db w) (bo_db w) w) /\
  (forall d addr task ok db, (tx_type <$> head batch) = Some "PCTR"%string ->
    forwardBatch decode_error (queryOf d addr) (postOf SBO (PCTRBO (H := SBO)) d) task batch (bo_db w) = (ok, db) ->
    w' = settleBatch ok batch (l1 ++ l2) (cs_db w) db w -> w' = settleBatch false batch (l1 ++ l2) (cs_db w) (bo_db w) w).
Proof.
  intros Hi Hf Hin Hp. destruct (flight_facts _ _ _ _ _ _ Hi Hf) as (t & rest & Eb & Hall & Hty & _ & Hu).
  assert (Ht : tx_type tx = tx_type t) by (rewrite Forall_forall in Hall; by apply Hall). rewrite Eb. cbn [head fmap option_fmap option_map]. rewrite <-Eb, <-Ht.
  split; intros d addr task ok db Hct E ->.
  - rewrite (forward_foreign SCS CS d addr task batch tx) in E by (done || (left; split; [done|]; destruct Hp as [[_ ?]|[? _]]; congruence)). congruence.
  - rewrite (forward_foreign SBO (PCTRBO (H := SBO)) d addr task batch tx) in E by (done || (right; split; [done|]; destruct Hp as [[? _]|[_ ?]]; congruence)). congruence.
Qed.

Lemma poison_stays cs0 bo0 w w' tx : sys_inv cs0 bo0 w -> sys_step w w' -> poisonous tx -> tx ∉ delivered w -> tx ∉ delivered w'.
Proof.
  intros Hi Hs Hp Hd. destruct Hs as [? ? ? ? ? ? ? ? _|d addr task batch l1 l2 ok db Hf Ht E|d addr task batch l1 l2 ok db Hf Ht E]; [done|..];
    destruct (decide (tx ∈ batch)) as [Hin|Hin]; try (destruct ok; simpl; [|done]; rewrite elem_of_app; tauto).
  - by rewrite (proj1 (poisoned_flight _ _ _ _ _ _ _ _ Hi Hf Hin Hp) _ _ _ _ _ Ht E eq_refl).
  - by rewrite (proj2 (poisoned_flight _ _ _ _ _ _ _ _ Hi Hf Hin Hp) _ _ _ _ _ Ht E eq_refl).
Qed.

(** *** A station that waits for its forwards *)

(** A tap, and the forward it caused, if any, settled before the next tap *)
Definition round (w w' : World) : Prop :=
  flights w = [] /\ flights w' = [] /\ (sys_step w w' \/ exists w1, sys_step w w1 /\ sys_step w1 w').

(** The database of the office for a type *)
Definition officeOf (ct : string) (w : World) : DB Tables := if String.eqb ct "PCTR" then bo_db w else cs_db w.

(** Since [w0] nothing of the type has moved: the batch under way, if any, is
    the poisoned head of the queue, and the new taps stand behind. *)
Record blocked (ct : string) (tx : Transaction) (w0 w : World) : Prop := {
  bl_few : (length (flights w) <= 1)%nat;
  bl_size : batchSize (station w) = batchSize (station w0);
  bl_poisoned : forall batch, batch ∈ flights w -> (tx_type <$> head batch) = Some ct -> tx ∈ batch;
  bl_queue : exists new, accepted w = new ++ accepted w0 /\
    of_type ct (mjoin (flights w)) ++ buffered ct (station w) = buffered ct (station w0) ++ of_type ct (reverse new);
  bl_delivered : of_type ct (delivered w) = of_type ct (delivered w0);
  bl_db : officeOf ct w = officeOf ct w0 }.

Lemma of_type_same ct batch : Forall (fun x => tx_type x = ct) batch -> of_type ct batch = batch.
Proof. intros H. rewrite <-(app_nil_r batch) at 1. rewrite of_type_all by done. simpl. by rewrite app_nil_r. Qed.

Lemma of_type_other ct ct' batch : ct <> ct' -> Forall (fun x => tx_type x = ct') batch -> of_type ct batch = [].
Proof. intros Hne H. rewrite <-(app_nil_r batch) at 1. by rewrite (of_type_none ct ct'). Qed.

(** The first tap to fill the buffer of the type takes the head off. *)
Lemma Add_blocked tx t b n batch b' ct queue : Add t b = (n, batch, b') -> sorted_by_type b ->
  buffered ct b = queue -> tx ∈ take (batchSize b) queue ->
  of_type ct batch ++ buffered ct b' = queue ++ of_type ct [t] /\ ((tx_type <$> head batch) = Some ct -> tx ∈ batch) /\ batchSize b' = batchSize b.
Proof.
  intros E Hs <- Hin. destruct (Add_spec _ _ _ _ _ E) as (Happ & Hother & Hsz & _ & Hlen & _). destruct (Add_sorted _ _ _ _ _ E Hs) as [_ Hb].
  destruct (decide (ct = tx_type t)) as [->|Hne].
  - rewrite (of_type_same (tx_type t) batch), (of_type_same (tx_type t) [t]) by (done || by constructor). split_and!; [done| |done].
    intros Hh. destruct Hlen as [->|Hlen]; [done|]. assert (E2 : batch = take (batchSize b) (buffered (tx_type t) b ++ [t])).
    { rewrite <-Happ, <-Hlen. by rewrite take_app_length. }
    rewrite E2, take_app. apply elem_of_app. by left.
  - rewrite (of_type_other ct (tx_type t) batch), (of_type_other ct (tx_type t) [t]), Hother by (done || by constructor). split_and!; [by rewrite app_nil_r| |done].
    destruct batch as [|x batch]; [done|]. apply Forall_cons in Hb as [Hx _]. simpl. congruence.
Qed.

Lemma tap_blocked ct tx w0 w now1 now2 method body status ack b batch :
  sorted_by_type (station w) -> blocked ct tx w0 w -> flights w = [] -> tx ∈ take (batchSize (station w0)) (buffered ct (station w0)) ->
  handleTransaction stationID now1 now2 method body (station w) = (status, ack, b, batch) ->
  blocked ct tx w0 (mkWorld b (match batch with [] => flights w | _ => flights w ++ [batch] end)
    (acknowledged (readTransaction stationID now1 now2 method body) ++ accepted w) (delivered w) (cs_db w) (bo_db w)).
Proof.
  intros Hs Hbl Hf Hin E. pose proof Hbl as [Hfew Hsz Hpo (new & Hacc & Hq) Hdel Hdb]. rewrite Hf in *. unfold handleTransaction in E.
  destruct (readTransaction stationID now1 now2 method body) as [st|t].
  { injection E as _ _ <- <-. destruct w; simpl in *; subst. exact Hbl. }
  destruct (Add t (station w)) as [[n full] b'] eqn:Ea. injection E as _ _ <- <-. simpl in Hq.
  destruct (Add_blocked tx t (station w) n full b' ct _ Ea Hs Hq) as (H1 & H2 & H3).
  { rewrite Hsz, take_app. apply elem_of_app. by left. }
  constructor; simpl; try done.
  - by destruct full; simpl; lia.
  - congruence.
  - intros batch Hb Hh. destruct full as [|x full]; simpl in Hb; [by apply not_elem_of_nil in Hb|].
    apply list_elem_of_singleton in Hb as ->. by apply H2.
  - exists (t :: new). split; [by rewrite Hacc|]. rewrite reverse_cons. unfold of_type at 2. rewrite List.filter_app. fold (of_type ct (reverse new)) (of_type ct [t]).
    rewrite app_assoc, <-H1. f_equal. destruct full; [done|]. simpl. by rewrite app_nil_r.
Qed.

(** The forward that ends with nothing under way: of the only batch there was,
    refused without effect if it is of the type *)
Lemma sole_forward ct tx cs0 bo0 w w' : sys_inv cs0 bo0 w -> (length (flights w) <= 1)%nat ->
  (forall batch, batch ∈ flights w -> (tx_type <$> head batch) = Some ct -> tx ∈ batch) -> poisonous tx -> tx_type tx = ct ->
  sys_step w w' -> flights w' = [] -> flights w <> [] ->
  exists batch cs bo ok, flights w = [batch] /\ w' = settleBatch ok batch [] cs bo w /\
    (tx_type <$> head batch = Some ct -> ok = false /\ cs = cs_db w /\ bo = bo_db w) /\
    (tx_type <$> head batch <> Some ct -> officeOf ct w' = officeOf ct w).
Proof.
  intros Hi Hfew Hpo Hp Hct Hs Hf' Hne.
  destruct Hs as [now1 now2 method body status ack b batch E|d addr task batch l1 l2 ok db Hf Ht E|d addr task batch l1 l2 ok db Hf Ht E].
  - simpl in Hf'. destruct batch; [done|]. by destruct (flights w).
  - assert (l1 = [] /\ l2 = []) as [-> ->] by (rewrite Hf in Hfew; destruct l1, l2; simpl in Hfew; rewrite ?length_app in Hfew; simpl in Hfew; (done || lia)).
    exists batch, db, (bo_db w), ok. split_and!; [done|done| |].
    + intros Hh. assert (tx ∈ batch) as Hin by (apply Hpo; [rewrite Hf; by left|done]).
      assert (tx_type tx <> "PCTR"%string) as Hty by congruence.
      rewrite (forward_foreign SCS CS d addr task batch tx) in E; [by injection E as <- <-| |done|].
      * by destruct (flight_facts _ _ _ _ [] [] Hi Hf) as (? & ? & _ & _ & _ & _ & Hu).
      * left. split; [done|]. destruct Hp as [[_ ?]|[? _]]; congruence.
    + intros Hh. unfold officeOf. destruct (String.eqb_spec ct "PCTR"); [by destruct ok|]. destruct (flight_facts _ _ _ _ [] [] Hi Hf) as (t & rest & -> & _ & Hty & _).
      simpl in Hh, Ht. destruct Hp as [[Hp _]|[Hp _]], Hty as [Hty|Hty]; congruence.
  - assert (l1 = [] /\ l2 = []) as [-> ->] by (rewrite Hf in Hfew; destruct l1, l2; simpl in Hfew; rewrite ?length_app in Hfew; simpl in Hfew; (done || lia)).
    exists batch, (cs_db w), db, ok. split_and!; [done|done| |].
    + intros Hh. assert (tx ∈ batch) as Hin by (apply Hpo; [rewrite Hf; by left|done]).
      rewrite (forward_foreign SBO (PCTRBO (H := SBO)) d addr task batch tx) in E; [by injection E as <- <-| |done|].
      * by destruct (flight_facts _ _ _ _ [] [] Hi Hf) as (? & ? & _ & _ & _ & _ & Hu).
      * right. split; [done|]. destruct Hp as [[? _]|[_ ?]]; congruence.
    + intros Hh. unfold officeOf. destruct (String.eqb_spec ct "PCTR"); [congruence|by destruct ok].
Qed.

Lemma forward_blocked ct tx w0 cs0 bo0 w w' : sys_inv cs0 bo0 w -> blocked ct tx w0 w -> poisonous tx -> tx_type tx = ct ->
  sys_step w w' -> flights w' = [] -> flights w <> [] -> blocked ct tx w0 w'.
Proof.
  intros Hi [Hfew Hsz Hpo (new & Hacc & Hq) Hdel Hdb] Hp Hct Hs Hf' Hne.
  destruct (sole_forward ct tx cs0 bo0 w w' Hi Hfew Hpo Hp Hct Hs Hf' Hne) as (batch & cs & bo & ok & Hf & -> & Hsame & Hother). rewrite Hf in *.
  destruct (flight_facts _ _ _ _ [] [] Hi Hf) as (t & rest & Eb & Hall & _). simpl in Hq. rewrite app_nil_r in Hq.
  assert (Hh : tx_type <$> head batch = Some (tx_type t)) by (by rewrite Eb).
  destruct (requeue_spec batch (station w) t rest Eb Hall) as (R1 & R2 & R3).
  destruct (decide (ct = tx_type t)) as [Et|Het].
  - destruct Hsame as (-> & -> & ->); [by rewrite Hh, Et|]. constructor; simpl; try done; [lia|congruence|by intros ? ?%not_elem_of_nil|].
    exists new. split; [done|]. rewrite Et in *. by rewrite R1, <-Hq, (of_type_same (tx_type t)).
  - rewrite (of_type_other ct (tx_type t) batch) in Hq by done.
    constructor; [destruct ok; simpl; lia|destruct ok; simpl; congruence|destruct ok; by intros ? ?%not_elem_of_nil|exists new; destruct ok; (split; [done|]); simpl in *|..].
    + done.
    + rewrite R2; done.
    + rewrite <-Hdel. destruct ok; [|done]. simpl. by apply (of_type_none ct (tx_type t)).
    + rewrite <-Hdb. apply Hother. rewrite Hh. congruence.
Qed.

Lemma round_blocked ct tx w0 cs0 bo0 w w' : sys_inv cs0 bo0 w -> blocked ct tx w0 w -> poisonous tx -> tx_type tx = ct ->
  tx ∈ take (batchSize (station w0)) (buffered ct (station w0)) -> round w w' -> sys_inv cs0 bo0 w' /\ blocked ct tx w0 w'.
Proof.
  intros Hi Hbl Hp Hct Hin (Hf & Hf' & Hround).
  assert (Hstep : forall x y, sys_inv cs0 bo0 x -> blocked ct tx w0 x -> flights x = [] -> sys_step x y -> blocked ct tx w0 y).
  { intros x y Hx Hbx Hfx [now1 now2 method body status ack b batch E|? ? ? ? l1 ? ? ? Hfl ? ?|? ? ? ? l1 ? ? ? Hfl ? ?];
      [|by rewrite Hfx in Hfl; destruct l1..]. eapply tap_blocked; [apply Hx|done..]. }
  destruct Hround as [H1|(w1 & H1 & H2)]; [split; [by eapply sys_step_inv|by eapply Hstep]|].
  pose proof (sys_step_inv _ _ _ _ H1 Hi) as Hi1. pose proof (Hstep _ _ Hi Hbl Hf H1) as Hb1. split; [by eapply sys_step_inv|].
  destruct (decide (flights w1 = [])); [by eapply Hstep|by eapply forward_blocked].
Qed.

(** C23: one tap can block a station for good.  The card system refuses a
    batch that holds a field it does not declare (an OY tap with a token, a
    PCTR tap with a card id at the back office), but the station
    acknowledges such taps.  In every history such a tap never leaves the
    station: it waits there and is never delivered.  And once it is within the
    first batch of its buffer, a station whose forwards are settled before
    the next tap delivers nothing of that type any more, however long it
    runs and whatever arrives: each refused batch returns to the front, so
    the buffer keeps its beginning, from which the next batch is taken, and
    every later tap of the type piles up behind it; the office's database
    does not change. *)
Theorem poison_blocks n cs0 bo0 w tx : rtc sys_step (start n cs0 bo0) w -> poisonous tx -> tx ∈ accepted w ->
  let ct := tx_type tx in
  (tx ∈ waiting w /\ tx ∉ delivered w) /\
  (flights w = [] -> tx ∈ take (batchSize (station w)) (buffered ct (station w)) -> forall w', rtc round w w' ->
    exists new, accepted w' = new ++ accepted w /\
      buffered ct (station w') = buffered ct (station w) ++ of_type ct (reverse new) /\
      of_type ct (delivered w') = of_type ct (delivered w) /\ officeOf ct w' = officeOf ct w).
Proof.
  intros Hr Hp Hacc ct. pose proof (station_inv _ _ _ _ Hr) as Hi.
  assert (Hd : tx ∉ delivered w).
  { clear Hacc ct Hi. remember (start n cs0 bo0) as w0 eqn:E0.
    assert (H0 : sys_inv cs0 bo0 w0 /\ tx ∉ delivered w0) by (subst; split; [apply start_inv|apply not_elem_of_nil]). clear E0.
    induction Hr as [|x y z Hxy _ IH]; [apply H0|]. destruct H0. apply IH. split; [by eapply sys_step_inv|by eapply poison_stays]. }
  split; [split; [|done]; pose proof (si_perm _ _ _ Hi) as Hpe; rewrite Hpe, elem_of_app in Hacc; tauto|].
  intros Hf Hin w' Hrs. assert (Hbl : blocked ct tx w w).
  { constructor; try done; rewrite Hf; [simpl; lia|by intros ? ?%not_elem_of_nil|]. exists []. split; [done|]. simpl. by rewrite app_nil_r. }
  assert (Hend : flights w' = [] /\ blocked ct tx w w').
  { enough (Hgen : forall x y, rtc round x y -> flights x = [] -> sys_inv cs0 bo0 x -> blocked ct tx w x -> flights y = [] /\ blocked ct tx w y) by eauto.
    induction 1 as [|x y z Hxy _ IH]; [done|]. intros _ Hx Hb.
    destruct (round_blocked ct tx w cs0 bo0 x y Hx Hb Hp eq_refl Hin Hxy). apply IH; [apply Hxy|done|done]. }
  destruct Hend as [Hf' [_ _ _ (new & Ha & Hq) Hdel Hdb]]. rewrite Hf' in Hq. simpl in Hq. eauto.
Qed.

End System.

(** ** Witnesses *)

Section Exec.
Context (SCS SBO : Server) (stationID : string) (decode_error : string -> string).

Definition execTap (now : Z) (body : string) (w : World) : World :=
  let '(_, _, b, batch) := handleTransaction stationID now now "POST" body (station w) in
  mkWorld b (match batch with [] => flights w | _ => flights w ++ [batch] end)
    (acknowledged (readTransaction stationID now now "POST" body) ++ accepted w) (delivered w) (cs_db w) (bo_db w).

(** The oldest batch of the card system *)
Definition execForward (d : Delivery) (w : World) : World :=
  match flights w with
  | [] => w
  | batch :: rest =>
      let '(ok, db) := forwardBatch decode_error (queryOf d "cs") (postOf SCS CS d) "sim.cs" batch (cs_db w) in
      settleBatch ok batch rest db (bo_db w) w
  end.

Lemma execTap_step now body w :
  rtc (sys_step SCS SBO stationID decode_error) w (execTap now body w).
Proof.
  apply rtc_once. unfold execTap. destruct (handleTransaction stationID now now "POST" body (station w)) as [[[st ack] b] batch] eqn:E.
  by eapply sys_tap.
Qed.

Lemma execForward_step d w : (head (flights w) ≫= head : option Transaction) = None \/
  (tx_type <$> (head (flights w) ≫= head)) <> Some "PCTR"%string ->
  rtc (sys_step SCS SBO stationID decode_error) w (execForward d w).
Proof.
  intros Hh. unfold execForward. destruct (flights w) as [|batch rest] eqn:Ef; [done|]. apply rtc_once.
  destruct (forwardBatch _ _ _ _ batch _) as [ok db] eqn:E. apply (sys_forward_cs _ _ _ _ w d "cs" "sim.cs" batch [] rest ok db); [done| |done].
  destruct batch; simpl in *; [done|]. by destruct Hh.
Qed.
End Exec.

Definition demo_tx (i tok : string) : Transaction := mkTransaction i " oy" "1001" tok "gate-1" "" "2024-02-29T08:00:00.5Z" true "ok".
Definition demo_body (i : string) : string := print (transaction_json (demo_tx i "")).
Definition demo_world : World :=
  let S := demo_server [] in
  let step i := execTap "1" 5 (demo_body i) in
  execForward S bad Answered (step "c"%string (execForward S bad (AnswerLost "reset") (step "b"%string (step "a"%string
    (start 2 (mkDB empty_tables 0) (mkDB empty_tables 0)))))).

(** The first answer is lost, so the batch is sent twice; both taps are in
    the table once, and the third waits. *)
Lemma no_tap_lost_witness :
  accepted demo_world ≡ₚ waiting demo_world ++ delivered demo_world /\ length (waiting demo_world) = 1%nat /\
  dom (transactions (tables (cs_db demo_world))) = {["a"; "b"]}%string.
Proof.
  destruct (no_tap_lost (demo_server []) (demo_server []) "1" bad eq_refl 2 (mkDB empty_tables 0) (mkDB empty_tables 0) demo_world) as (H1 & _).
  - set (S := demo_server []). unfold demo_world. fold S.
    etrans; [apply (execTap_step S S "1" bad 5 (demo_body "a"))|].
    etrans; [apply (execTap_step S S "1" bad 5 (demo_body "b"))|].
    etrans; [apply (execForward_step S S "1" bad (AnswerLost "reset")); right; by vm_compute|].
    etrans; [apply (execTap_step S S "1" bad 5 (demo_body "c"))|].
    apply (execForward_step S S "1" bad Answered). right. by vm_compute.
  - split_and!; [exact H1|by vm_compute|by vm_compute].
Defined.

(** Two taps, the first with a token: the batch comes back, and again with
    the third tap. *)
Definition poison_body : string := print (transaction_json (demo_tx "a" "tok")).

Definition poisoned_world : World :=
  let S := demo_server [] in
  execForward S bad Answered (execTap "1" 5 (demo_body "b") (execTap "1" 5 poison_body (start 2 (mkDB empty_tables 0) (mkDB empty_tables 0)))).

Definition later_world : World :=
  let S := demo_server [] in execForward S bad Answered (execTap "1" 5 (demo_body "c") poisoned_world).

Definition poison_tx : Transaction := normalizeTx "1" 5 5 (demo_tx "a" "tok").

Lemma poisoned_reached : rtc (sys_step (demo_server []) (demo_server []) "1" bad) (start 2 (mkDB empty_tables 0) (mkDB empty_tables 0)) poisoned_world.
Proof.
  unfold poisoned_world. set (S := demo_server []). etrans; [apply (execTap_step S S "1" bad 5 poison_body)|].
  etrans; [apply (execTap_step S S "1" bad 5 (demo_body "b"))|].
  apply (execForward_step S S "1" bad Answered). right. by vm_compute.
Qed.

Lemma later_round : round (demo_server []) (demo_server []) "1" bad poisoned_world later_world.
Proof.
  set (S := demo_server []). split_and!; [by vm_compute..|]. right. exists (execTap "1" 5 (demo_body "c") poisoned_world). split.
  - unfold execTap. destruct (handleTransaction "1" 5 5 "POST" (demo_body "c") (station poisoned_world)) as [[[st ack] b] batch] eqn:E. by eapply sys_tap.
  - unfold later_world, execForward. destruct (flights _) as [|batch rest] eqn:Ef; [by vm_compute in Ef|].
    destruct (forwardBatch _ _ _ _ batch _) as [ok db] eqn:E. apply (sys_forward_cs S S "1" bad _ Answered "cs" "sim.cs" batch [] rest ok db); [done| |exact E].
    vm_compute in Ef. injection Ef as <- _. done.
Qed.

Lemma poison_blocks_witness :
  (poison_tx ∈ waiting poisoned_world /\ poison_tx ∉ delivered poisoned_world) /\
  tx_id <$> buffered "OY" (station later_world) = ["a"; "b"; "c"]%string /\ delivered later_world = [] /\
  of_type "OY" (delivered later_world) = of_type "OY" (delivered poisoned_world).
Proof.
  destruct (poison_blocks (demo_server []) (demo_server []) "1" bad eq_refl 2 (mkDB empty_tables 0) (mkDB empty_tables 0)
    poisoned_world poison_tx poisoned_reached) as [H1 H2].
  - left. by vm_compute.
  - vm_compute. right. left.
  - destruct H2 with (w' := later_world) as (new & _ & _ & H & _); [by vm_compute|vm_compute; left|apply rtc_once, later_round|].
    split_and!; [apply H1|apply H1|by vm_compute|by vm_compute|exact H].
Defined.
