(* ===== verification/Gate.v ===== *)
(** * Simulation/gate/main.go: deciding whether a gate opens

    Reading a tap, finding the services with retries, a cache and a
    fallback, asking the card system or the payment authority, and handing
    the transaction to the station.  What the gate does not own (look-ups,
    posts, the clock, sleeping, encryption) is a class over the state of the
    outside world. *)

From Stdlib Require Import Ascii String.
From S2P Require Import Prelude.
From stdpp Require Import list sorting relations.
From S2P Require Import GoStrings NetIP NetIPFacts GoJSON Utf8 Firewall Transport GoTime SQL CardDB Journeys JourneysFacts Taps Debts SimHTTP SimProxy BackOffice Station.
Local Open Scope Z_scope.

#[local] Arguments String.append : simpl nomatch.

(** ** Reading a tap *)

(** [strings.SplitN(s, ":", 2)] when it gives two parts *)
Definition splitColon (s : string) : option (string * string) :=
  match IndexByte s ":" with
  | Some i => Some (str_take i s, str_drop (S i) s)
  | None => None
  end.

Definition parseTap (line : string) : result string (string * string) :=
  let line := TrimSpace line in
  if String.eqb line "" then Err "empty tap"%string
  else match splitColon line with
       | None => Err "expected format <OY|PCTR>:<card_id>"%string
       | Some (p, q) =>
           let ct := ToUpper (TrimSpace p) in
           let cid := TrimSpace q in
           if negb (String.eqb ct "OY") && negb (String.eqb ct "PCTR") then Err "card type must be OY or PCTR"%string
           else if String.eqb cid "" then Err "missing card id"%string
           else Ok (ct, cid)
       end.

(** ** Configuration *)

Fixpoint allDigits (s : string) : bool :=
  match s with
  | EmptyString => true
  | String c s => match dec_val c with Some _ => allDigits s | None => false end
  end.

Definition normalizeStationID (v : string) : string :=
  let v := TrimSpace v in
  if String.eqb v "" then v else if allDigits v then ("station-" ++ v)%string else v.

(** [-station-task], or the name derived from the station's id *)
Definition stationTaskOf (stationTask stationID : string) : string :=
  let stationTaskID := TrimSpace (normalizeStationID stationID) in
  let stationTaskID := if HasPrefix stationTaskID "station-" then TrimPrefix stationTaskID "station-" else stationTaskID in
  if String.eqb (TrimSpace stationTask) "" then ("station-Computer-" ++ stationTaskID)%string else stationTask.

(** [findKeyPath], with what exists in the file system *)
Definition findKeyPath (exists_file : string -> bool) (explicit : string) : string :=
  if negb (String.eqb (TrimSpace explicit) "") then TrimSpace explicit
  else match List.filter exists_file
         ["pctr_public.pem"; "./pctr_public.pem"; "./Simulation/gate/pctr_public.pem"; "Simulation/gate/pctr_public.pem"]%string with
       | c :: _ => c
       | [] => ""%string
       end.

Record GateConfig := mkGate {
  gateID : string; gateStation : string; stationTask : string; oyboTask : string; paTask : string;
  stationBase : string; oyboBase : string; paBase : string; hasKey : bool }.

Record cachedAddr := mkCached { cvalue : string; cat : Z }.
Record Caches := mkCaches { stationCache : cachedAddr; oyboCache : cachedAddr; paCache : cachedAddr }.

(** ** The world outside *)

Class GateWorld (W : Type) := {
  g_query : string -> W -> result string string * W;
  g_post : Post W;
  g_now : W -> Z * W;
  g_sleep : Z -> W -> W;
  (** RSA-OAEP under the public key, then base64 *)
  g_encrypt : string -> W -> option string * W }.

Definition isRetryableResolveErr (err : string) : bool :=
  let msg := ToLower (TrimSpace err) in
  Contains msg "service not found" || Contains msg "eof" || Contains msg "timeout" ||
  Contains msg "connection refused" || Contains msg "connection reset".

Definition maxAttempts : nat := 6.
Definition retryDelay : Z := 400000000.
Definition cacheLife : Z := 120000000000.

Definition tokenizeRequest_json (cipher : string) : json := JObj [("ciphertext_b64"%string, JStr cipher)].
Definition tokenizeResponse_of_json (j : json) : option TokenizeResponse :=
  fs ← struct_fields j; o ← as_bool false (field "ok" fs); t ← as_string "" (field "token" fs); r ← as_string "" (field "reason" fs);
  Some (mkTokenize o t r).

Section Gate.
Context {W : Type} `{GateWorld W}.
Variable decode_error : string -> string.
Variable cfg : GateConfig.

(** The look-ups of [resolveBase]: [more] of them may follow. *)
Fixpoint queryLoop (more : nat) (task : string) (w : W) : result string string * W :=
  let '(r, w) := g_query task w in
  match r with
  | Ok addr => (Ok addr, w)
  | Err e =>
      match more with
      | S more => if negb (isRetryableResolveErr e) then (Err e, w) else queryLoop more task (g_sleep retryDelay w)
      | O => (Err e, w)
      end
  end.

Definition resolveBase (task fallback : string) (cache : cachedAddr) (w : W) : result string string * cachedAddr * W :=
  let '(r, w) := queryLoop (pred maxAttempts) task w in
  match r with
  | Ok addr => let '(now, w) := g_now w in (Ok (EnsureHTTPBase addr), mkCached addr now, w)
  | Err lastErr =>
      let '(fresh, w) :=
        if negb (String.eqb (cvalue cache) "") then let '(now, w) := g_now w in (time_sub now (cat cache) <? cacheLife, w)
        else (false, w) in
      if fresh then (Ok (EnsureHTTPBase (cvalue cache)), cache, w)
      else if negb (String.eqb (TrimSpace fallback) "") then (Ok (EnsureHTTPBase fallback), cache, w)
      else (Err lastErr, cache, w)
  end.

(** The base URL, empty when there is none *)
Definition baseOf (r : result string string) : string := match r with Ok b => b | Err _ => ""%string end.

(** The card system's verdict on an OY card *)
Definition askCS (cardID tapTime : string) (c : Caches) (w : W) : bool * string * Caches * W :=
  let '(r, cache, w) := resolveBase (oyboTask cfg) (oyboBase cfg) (oyboCache c) w in
  let c := mkCaches (stationCache c) cache (paCache c) in
  let backendBase := baseOf r in
  if String.eqb backendBase "" then (false, "backend not found"%string, c, w)
  else
    let url := (TrimRightSlash backendBase ++ "/validate")%string in
    let '(r, w) := httpPostJSON decode_error g_post url (validateRequest_json (mkValidateRequest cardID (gateID cfg) (gateStation cfg) tapTime))
                     validateResponse_of_json w in
    match r with
    | Err _ => (false, "backend error"%string, c, w)
    | Ok v => (Valid v, vReason v, c, w)
    end.

(** The payment authority's verdict on a PCTR card, with its token *)
Definition askPA (cardID : string) (c : Caches) (w : W) : bool * string * string * Caches * W :=
  if negb (hasKey cfg) then (false, "missing PCTR public key"%string, ""%string, c, w)
  else
    let '(r, cache, w) := resolveBase (paTask cfg) (paBase cfg) (paCache c) w in
    let c := mkCaches (stationCache c) (oyboCache c) cache in
    let paResolved := baseOf r in
    if String.eqb paResolved "" then (false, "PA not found"%string, ""%string, c, w)
    else
      let '(cipher, w) := g_encrypt cardID w in
      match cipher with
      | None => (false, "encrypt failed"%string, ""%string, c, w)
      | Some cipher =>
          let url := (TrimRightSlash paResolved ++ "/tokenize")%string in
          let '(r, w) := httpPostJSON decode_error g_post url (tokenizeRequest_json cipher) tokenizeResponse_of_json w in
          match r with
          | Err _ => (false, "PA error"%string, ""%string, c, w)
          | Ok t => if negb (tkOK t) then (false, tkReason t, ""%string, c, w) else (true, "ok"%string, tkToken t, c, w)
          end
      end.

(** Handing an allowed tap to the station *)
Definition tellStation (cardType cardID token tapTime reason : string) (c : Caches) (w : W) : bool * string * Caches * W :=
  let '(r, cache, w) := resolveBase (stationTask cfg) (stationBase cfg) (stationCache c) w in
  let c := mkCaches cache (oyboCache c) (paCache c) in
  let base := baseOf r in
  if String.eqb base "" then (false, "station not found"%string, c, w)
  else
    let '(now, w) := g_now w in
    let tx := mkTransaction (gateID cfg ++ "-" ++ lit_of_int now) cardType (if String.eqb cardType "OY" then cardID else ""%string) token
                (gateID cfg) (gateStation cfg) tapTime true reason in
    let url := (TrimRightSlash base ++ "/transaction")%string in
    let '(r, w) := httpPostJSON decode_error g_post url (transaction_json tx) ack_of_json w in
    match r with
    | Err _ => (false, "station send failed"%string, c, w)
    | Ok ack => if negb (ackAccepted ack) then (false, "station rejected"%string, c, w) else (true, "ok"%string, c, w)
    end.

Definition handleTap (tapLine : string) (c : Caches) (w : W) : bool * string * Caches * W :=
  match parseTap tapLine with
  | Err _ => (false, "invalid tap"%string, c, w)
  | Ok (cardType, cardID) =>
      let '(now, w) := g_now w in
      let tapTime := Format now in
      let '(allowed, reason, token, c, w) :=
        if String.eqb cardType "OY" then
          let '(allowed, reason, c, w) := askCS cardID tapTime c w in (allowed, reason, ""%string, c, w)
        else askPA cardID c w in
      if negb allowed then (false, reason, c, w)
      else tellStation cardType cardID token tapTime reason c w
  end.

(** ** [/tap] *)

Record TapRequest := mkTapRequest { rqTap : string; rqType : string; rqCard : string }.
Definition tapRequest_of_json (j : json) : option TapRequest :=
  fs ← strict_fields ["tap"; "card_type"; "card_id"]%string j;
  t ← as_string "" (field "tap" fs); ct ← as_string "" (field "card_type" fs); c ← as_string "" (field "card_id" fs);
  Some (mkTapRequest t ct c).

(** The line to handle, or the reason of a 400 *)
Definition tapLineOf (contentType body : string) : result string string :=
  if Contains (ToLower (TrimSpace contentType)) "application/json" then
    match parse_first body ≫= tapRequest_of_json with
    | None => Err "invalid json"%string
    | Some req =>
        if negb (String.eqb (TrimSpace (rqTap req)) "") then Ok (rqTap req)
        else if negb (String.eqb (TrimSpace (rqType req)) "") && negb (String.eqb (TrimSpace (rqCard req)) "") then
          Ok (rqType req ++ ":" ++ rqCard req)%string
        else Err "missing tap"%string
    end
  else
    let tapLine := TrimSpace (str_take 256 body) in
    if String.eqb tapLine "" then Err "missing tap"%string else Ok tapLine.

Definition tapHandler (method contentType body : string) (c : Caches) (w : W) : Z * (bool * string) * Caches * W :=
  if negb (String.eqb method "POST") then (405, (false, "method not allowed"%string), c, w)
  else match tapLineOf contentType body with
       | Err reason => (400, (false, reason), c, w)
       | Ok tapLine => let '(allowed, reason, c, w) := handleTap tapLine c w in (200, (allowed, reason), c, w)
       end.

End Gate.

(** ** What a gate does to the world outside *)

Inductive event :=
| EvQuery (task : string) (r : result string string)
| EvPost (url body : string) (r : result string (Z * string))
| EvNow (t : Z)
| EvSleep (d : Z)
| EvEncrypt (card : string) (r : option string).

(** The same world, with a log of what it was asked and what it answered *)
Definition traced {W} (G : GateWorld W) : GateWorld (W * list event) := {|
  g_query := fun task '(w, l) => let '(r, w) := g_query task w in (r, (w, l ++ [EvQuery task r]));
  g_post := fun url body '(w, l) => let '(r, w) := g_post url body w in (r, (w, l ++ [EvPost url body r]));
  g_now := fun '(w, l) => let '(t, w) := g_now w in (t, (w, l ++ [EvNow t]));
  g_sleep := fun d '(w, l) => (g_sleep d w, l ++ [EvSleep d]);
  g_encrypt := fun card '(w, l) => let '(r, w) := g_encrypt card w in (r, (w, l ++ [EvEncrypt card r])) |}.

(** ** A gate opens only for a tap that was approved and taken *)

(** Events of the search for the service of [task] *)
Definition searching (task : string) (e : event) : Prop :=
  match e with EvQuery t _ => t = task | EvNow _ | EvSleep _ => True | _ => False end.

(** [base] is where a search found the service: what the registry answered,
    or, when it answered nothing, the address cached less than two minutes
    ago, or the configured one. *)
Definition located (task fallback : string) (cache : cachedAddr) (log : list event) (base : string) : Prop :=
  Forall (searching task) log /\ exists addr, base = EnsureHTTPBase addr /\
    (EvQuery task (Ok addr) ∈ log \/
     (forall a, EvQuery task (Ok a) ∉ log) /\
     (addr = cvalue cache /\ addr <> ""%string /\ (exists now, EvNow now ∈ log /\ time_sub now (cat cache) < cacheLife) \/
      addr = fallback /\ TrimSpace fallback <> ""%string)).

(** An answer with a success status that decodes to [a] *)
Definition says {A} (decode : json -> option A) (r : result string (Z * string)) (a : A) : Prop :=
  exists status body, r = Ok (status, body) /\ 200 <= status < 300 /\ parse_first body ≫= decode = Some a.

Lemma parseTap_type line ct cid : parseTap line = Ok (ct, cid) -> (ct = "OY"%string \/ ct = "PCTR"%string) /\ cid <> ""%string.
Proof.
  unfold parseTap. destruct (String.eqb (TrimSpace line) ""); [done|]. destruct (splitColon (TrimSpace line)) as [[p q]|]; [|done].
  destruct (String.eqb_spec (ToUpper (TrimSpace p)) "OY") as [->|]; cbn [negb andb].
  - destruct (String.eqb_spec (TrimSpace q) ""); [done|]. intros [= <- <-]. by auto.
  - destruct (String.eqb_spec (ToUpper (TrimSpace p)) "PCTR") as [->|]; cbn [negb]; [|done].
    destruct (String.eqb_spec (TrimSpace q) ""); [done|]. intros [= <- <-]. by auto.
Qed.

Section Safety.
Context {W : Type} (G : GateWorld W).
Variable decode_error : string -> string.
Variable cfg : GateConfig.
#[local] Existing Instance G.
Notation T := (traced G).

(** The card's authority was found and asked, and said yes. *)
Definition approved (c : Caches) (cardType cardID tapTime token : string) (log : list event) : Prop :=
  (cardType = "OY"%string /\ token = ""%string /\ exists look base r v,
     log = look ++ [EvPost (TrimRightSlash base ++ "/validate")
                      (print (validateRequest_json (mkValidateRequest cardID (gateID cfg) (gateStation cfg) tapTime))) r] /\
     located (oyboTask cfg) (oyboBase cfg) (oyboCache c) look base /\ says validateResponse_of_json r v /\ Valid v = true) \/
  (cardType = "PCTR"%string /\ hasKey cfg = true /\ exists look base cipher r t,
     log = look ++ [EvEncrypt cardID (Some cipher); EvPost (TrimRightSlash base ++ "/tokenize") (print (tokenizeRequest_json cipher)) r] /\
     located (paTask cfg) (paBase cfg) (paCache c) look base /\ says tokenizeResponse_of_json r t /\ tkOK t = true /\ tkToken t = token).

(** Then the station was found and told, and accepted. *)
Definition taken (c : Caches) (cardType cardID tapTime token : string) (log : list event) : Prop :=
  exists look base sentAt why r ack,
    log = look ++ [EvNow sentAt; EvPost (TrimRightSlash base ++ "/transaction")
      (print (transaction_json (mkTransaction (gateID cfg ++ "-" ++ lit_of_int sentAt) cardType (if String.eqb cardType "OY" then cardID else "") token
                (gateID cfg) (gateStation cfg) tapTime true why))) r] /\
    located (stationTask cfg) (stationBase cfg) (stationCache c) look base /\ says ack_of_json r ack /\ ackAccepted ack = true.

Lemma queryLoop_traced more task w r w' l : queryLoop more task w = (r, w') ->
  exists log, queryLoop (H := T) more task (w, l) = (r, (w', l ++ log)) /\ Forall (searching task) log /\
    match r with Ok a => EvQuery task (Ok a) ∈ log | Err _ => forall a, EvQuery task (Ok a) ∉ log end.
Proof.
  revert w l. induction more as [|more IH]; intros w l; cbn [queryLoop g_query T traced g_sleep]; destruct (g_query task w) as [[a|e] w1].
  - intros [= <- <-]. exists [EvQuery task (Ok a)]. split_and!; [done|by repeat constructor|left].
  - intros [= <- <-]. exists [EvQuery task (Err e)]. split_and!; [done|by repeat constructor|]. intros a Ha%list_elem_of_singleton. discriminate Ha.
  - intros [= <- <-]. exists [EvQuery task (Ok a)]. split_and!; [done|by repeat constructor|left].
  - destruct (isRetryableResolveErr e); cbn [negb].
    + intros E. destruct (IH _ ((l ++ [EvQuery task (Err e)]) ++ [EvSleep retryDelay]) E) as (log & -> & Hs & Hr).
      exists ([EvQuery task (Err e); EvSleep retryDelay] ++ log). rewrite <-!app_assoc. split_and!; [done|by repeat constructor|].
      destruct r as [a|e']; [set_solver|]. intros a Ha. apply (Hr a). set_solver.
    + intros [= <- <-]. exists [EvQuery task (Err e)]. split_and!; [done|by repeat constructor|]. intros a Ha%list_elem_of_singleton. discriminate Ha.
Qed.

Lemma resolveBase_traced task fallback cache w r cache' w' l : resolveBase task fallback cache w = (r, cache', w') ->
  exists log, resolveBase (H := T) task fallback cache (w, l) = (r, cache', (w', l ++ log)) /\ (forall base, r = Ok base -> located task fallback cache log base).
Proof.
  unfold resolveBase. destruct (queryLoop (pred maxAttempts) task w) as [q w1] eqn:Eq. destruct (queryLoop_traced _ _ _ _ _ l Eq) as (log & -> & Hs & Hr).
  cbn [g_now T traced]. destruct q as [a|e].
  - destruct (g_now w1) as [now w2]. intros [= <- <- <-]. exists (log ++ [EvNow now]). rewrite <-app_assoc. split; [done|]. intros base [= <-].
    split; [apply Forall_app; by repeat constructor|]. exists a. split; [done|]. left. set_solver.
  - destruct (String.eqb_spec (cvalue cache) "") as [Hc|Hc]; cbn [negb].
    + destruct (String.eqb_spec (TrimSpace fallback) "") as [Hf|Hf]; cbn [negb]; intros [= <- <- <-]; exists log; (split; [done|]); [done|].
      intros base [= <-]. split; [done|]. exists fallback. split; [done|]. right. split; [done|by right].
    + destruct (g_now w1) as [now w2]. assert (Hs' : Forall (searching task) (log ++ [EvNow now])) by (apply Forall_app; by repeat constructor).
      assert (Hr' : forall a, EvQuery task (Ok a) ∉ log ++ [EvNow now]) by (intros a Ha; apply (Hr a); set_solver).
      destruct (Z.ltb_spec (time_sub now (cat cache)) cacheLife); [|destruct (String.eqb_spec (TrimSpace fallback) "") as [Hf|Hf]; cbn [negb]];
        intros [= <- <- <-]; exists (log ++ [EvNow now]); rewrite <-app_assoc; (split; [done|]); [|done|]; intros base [= <-]; (split; [done|]).
      * exists (cvalue cache). split; [done|]. right. split; [done|]. left. split_and!; [done|done|]. exists now. split; [set_solver|done].
      * exists fallback. split; [done|]. right. split; [done|by right].
Qed.

Lemma post_traced {A} url req (decode : json -> option A) w r w' l : httpPostJSON decode_error g_post url req decode w = (r, w') ->
  exists a, httpPostJSON decode_error (g_post (GateWorld := T)) url req decode (w, l) = (r, (w', l ++ [EvPost url (print req) a])) /\
    (forall x, r = Ok x -> says decode a x).
Proof.
  unfold httpPostJSON. cbn [g_post T traced]. destruct (g_post url (print req) w) as [a w1]. intros [= <- <-]. exists a. split; [done|].
  intros x. destruct a as [[status body]|e]; [|done]. destruct ((status <? 200) || (300 <=? status)) eqn:Es; [done|].
  apply orb_false_iff in Es as [H1%Z.ltb_ge H2%Z.leb_gt]. destruct (parse_first body ≫= decode) as [y|] eqn:Ed; [|done]. intros [= ->].
  by exists status, body.
Qed.

Lemma askCS_traced cardID tapTime c w reason c' w' l : askCS decode_error cfg cardID tapTime c w = (true, reason, c', w') ->
  exists log, askCS (H := T) decode_error cfg cardID tapTime c (w, l) = (true, reason, c', (w', l ++ log)) /\
    approved c "OY" cardID tapTime "" log /\ stationCache c' = stationCache c.
Proof.
  unfold askCS. destruct (resolveBase _ _ _ w) as [[r cache] w1] eqn:Er. destruct (resolveBase_traced _ _ _ _ _ _ _ l Er) as (look & -> & Hl).
  destruct r as [base|e]; cbn [baseOf]; [|done]. destruct (String.eqb base ""); [done|].
  destruct (httpPostJSON _ _ _ _ _ _) as [q w2] eqn:E. destruct (post_traced _ _ _ _ _ _ (l ++ look) E) as (a & -> & Ha).
  destruct q as [v|e]; [|done]. intros [= Hv <- <- <-]. rewrite <-app_assoc, Hv. eexists. split_and!; [reflexivity| |done].
  left. split_and!; [done..|]. exists look, base, a, v. split_and!; [done|by apply Hl|by apply Ha|done].
Qed.

Lemma askPA_traced cardID tapTime c w reason token c' w' l : askPA decode_error cfg cardID c w = (true, reason, token, c', w') ->
  exists log, askPA (H := T) decode_error cfg cardID c (w, l) = (true, reason, token, c', (w', l ++ log)) /\
    approved c "PCTR" cardID tapTime token log /\ stationCache c' = stationCache c.
Proof.
  unfold askPA. destruct (hasKey cfg) eqn:Hk; [|done]. cbn [negb].
  destruct (resolveBase _ _ _ w) as [[r cache] w1] eqn:Er. destruct (resolveBase_traced _ _ _ _ _ _ _ l Er) as (look & -> & Hl).
  destruct r as [base|e]; cbn [baseOf]; [|done]. destruct (String.eqb base ""); [done|].
  cbn [g_encrypt T traced]. destruct (g_encrypt cardID w1) as [[cipher|] w2]; [|done].
  destruct (httpPostJSON _ _ _ _ _ _) as [q w3] eqn:E. destruct (post_traced _ _ _ _ _ _ ((l ++ look) ++ [EvEncrypt cardID (Some cipher)]) E) as (a & -> & Ha).
  destruct q as [t|e]; [|done]. destruct (tkOK t) eqn:Ho; [|done]. intros [= <- <- <- <-]. cbn [negb]. rewrite <-!app_assoc. eexists. split_and!; [reflexivity| |done].
  right. split_and!; [done..|]. exists look, base, cipher, a, t. split_and!; [done|by apply Hl|by apply Ha|done|done].
Qed.

Lemma tellStation_traced cardType cardID token tapTime why c w reason c' w' l : tellStation decode_error cfg cardType cardID token tapTime why c w = (true, reason, c', w') ->
  exists log, tellStation (H := T) decode_error cfg cardType cardID token tapTime why c (w, l) = (true, reason, c', (w', l ++ log)) /\
    taken c cardType cardID tapTime token log.
Proof.
  unfold tellStation. destruct (resolveBase _ _ _ w) as [[r cache] w1] eqn:Er. destruct (resolveBase_traced _ _ _ _ _ _ _ l Er) as (look & -> & Hl).
  destruct r as [base|e]; cbn [baseOf]; [|done]. destruct (String.eqb base ""); [done|].
  cbn [g_now T traced]. destruct (g_now w1) as [sentAt w2].
  destruct (httpPostJSON _ _ _ _ _ _) as [q w3] eqn:E. destruct (post_traced _ _ _ _ _ _ ((l ++ look) ++ [EvNow sentAt]) E) as (a & -> & Ha).
  destruct q as [ack|e]; [|done]. destruct (ackAccepted ack) eqn:Hk; [|done]. cbn [negb]. intros [= <- <- <-]. rewrite <-!app_assoc. eexists. split; [reflexivity|].
  exists look, base, sentAt, why, a, ack. split_and!; [done|by apply Hl|by apply Ha|done].
Qed.

(** C6: a gate fails closed.  Whatever the network and the services do, if
    the gate opens, then this is all it did, in this order: it read the clock;
    it looked for the authority of the card, the card system for OY and the
    payment authority for PCTR, under that authority's own task; it asked the
    authority it found whether this card is valid at this gate and time (or
    for a token for this card, encrypted), and the answer was yes; only then
    it looked for its station, under the station's task, and handed it a
    transaction with this card or the token just given, this gate and station
    and the time of the tap, which the station accepted.  There are no other
    posts.  An address is one the registry answered during that search or, when
    it answered none, that service's cached address of the last two minutes or
    its configured one.  The log is that of the same run in the same world. *)
Theorem gate_fails_closed line c w reason c' w' : handleTap decode_error cfg line c w = (true, reason, c', w') ->
  exists cardType cardID now token asked told,
    parseTap line = Ok (cardType, cardID) /\
    handleTap (H := traced G) decode_error cfg line c (w, []) = (true, reason, c', (w', EvNow now :: asked ++ told)) /\
    approved c cardType cardID (Format now) token asked /\ taken c cardType cardID (Format now) token told.
Proof.
  unfold handleTap. destruct (parseTap line) as [[ct cid]|e] eqn:Ep; [|done]. destruct (parseTap_type _ _ _ Ep) as [Hct _].
  cbn [g_now T traced]. destruct (g_now w) as [now w1].
  destruct (if String.eqb ct "OY" then let '(allowed, reason, c, w) := askCS decode_error cfg cid (Format now) c w1 in (allowed, reason, ""%string, c, w)
    else askPA decode_error cfg cid c w1) as [[[[allowed why] token] c1] w2] eqn:Ea.
  destruct allowed; [|done]. cbn [negb]. intros Htell.
  assert (Happ : exists asked, (if String.eqb ct "OY"
      then let '(allowed, reason, c, w) := askCS (H := T) decode_error cfg cid (Format now) c (w1, [] ++ [EvNow now]) in (allowed, reason, ""%string, c, w)
      else askPA (H := T) decode_error cfg cid c (w1, [] ++ [EvNow now])) = (true, why, token, c1, (w2, ([] ++ [EvNow now]) ++ asked)) /\
    approved c ct cid (Format now) token asked /\ stationCache c1 = stationCache c).
  { destruct Hct as [-> | ->]; cbn [String.eqb Ascii.eqb Bool.eqb] in Ea |- *.
    - destruct (askCS _ _ _ _ _ _) as [[[a r] c2] w3] eqn:E. injection Ea as -> -> <- -> ->.
      destruct (askCS_traced _ _ _ _ _ _ _ ([] ++ [EvNow now]) E) as (asked & -> & ? & ?). by exists asked.
    - destruct (askPA_traced _ (Format now) _ _ _ _ _ _ ([] ++ [EvNow now]) Ea) as (asked & -> & ? & ?). by exists asked. }
  destruct Happ as (asked & -> & Happ & Hst). cbn [negb].
  destruct (tellStation_traced _ _ _ _ _ _ _ _ _ _ (([] ++ [EvNow now]) ++ asked) Htell) as (told & -> & Htold).
  exists ct, cid, now, token, asked, told. split_and!; [done|by rewrite <-!app_assoc|done|]. unfold taken in *. by rewrite Hst in Htold.
Qed.

End Safety.

(** ** A gate, its card system and its station *)

Definition vreq_utf8 (r : ValidateRequest) : Prop :=
  valid_utf8 (vrCard r) = true /\ valid_utf8 (vrGate r) = true /\ valid_utf8 (vrStation r) = true /\ valid_utf8 (vrTime r) = true.

Lemma validateRequest_wire r : vreq_utf8 r -> parse_first (print (validateRequest_json r)) ≫= validateRequest_of_json = Some r.
Proof.
  intros (H1 & H2 & H3 & H4). assert (Hok : json_ok (validateRequest_json r)) by (cbn; by split_and!).
  destruct (json_roundtrip (validateRequest_json r) "" Hok ltac:(done) I) as [_ E]. rewrite str_app_nil_r in E. rewrite E. cbn [mbind option_bind].
  destruct r as [c g s w]. unfold validateRequest_of_json, strict_fields, validateRequest_json. cbn [struct_fields mbind option_bind vrCard vrGate vrStation vrTime].
  change (known _ _) with true. cbv iota. fields. done.
Qed.

Lemma validateResponse_wire r : valid_utf8 (vReason r) = true ->
  parse_first (encode (validateResponse_json r)) ≫= validateResponse_of_json = Some r.
Proof.
  intros Hr. rewrite encode_wire; [|cbn; by split_and!|done]. destruct r as [v s]. unfold validateResponse_of_json, validateResponse_json.
  cbn [struct_fields mbind option_bind Valid vReason]. fields. cbn [as_bool mbind option_bind]. done.
Qed.

(** A byte that no space has is not trimmed away. *)
Fixpoint occurs (c : ascii) (s : string) : bool := match s with EmptyString => false | String a s => Ascii.eqb a c || occurs c s end.

Lemma occurs_app c a b : occurs c (a ++ b) = occurs c a || occurs c b.
Proof. induction a as [|x a IH]; [done|]. cbn [String.append occurs]. by rewrite IH, orb_assoc. Qed.

Lemma occurs_rev c s : occurs c (str_rev s) = occurs c s.
Proof.
  induction s as [|a s IH]; [done|]. rewrite (str_rev_app (String a "") s : str_rev (String a s) = _), occurs_app, IH. cbn. rewrite orb_false_r.
  apply orb_comm.
Qed.

Lemma occurs_strip c ps n s : Forall (fun p => occurs c p = false) ps -> occurs c (strip_all ps n s) = occurs c s.
Proof.
  intros Hps. revert s. induction n as [|n IH]; intros s; [done|]. cbn [strip_all]. destruct (strip_any ps s) as [r|] eqn:E; [|done].
  apply strip_any_Some in E as (p & Hp & ->). rewrite IH, occurs_app. rewrite Forall_forall in Hps. by rewrite (Hps p Hp).
Qed.

Lemma occurs_TrimSpace s : occurs "-" (TrimSpace s) = occurs "-" s.
Proof.
  unfold TrimSpace, trim_right, trim_left. rewrite occurs_rev, occurs_strip, occurs_rev, occurs_strip; [done|..];
    repeat (apply Forall_cons; split; [vm_compute; reflexivity|]); constructor.
Qed.

Lemma dashed_id g n : TrimSpace (g ++ "-" ++ lit_of_int n) <> ""%string.
Proof.
  intros E. pose proof (occurs_TrimSpace (g ++ "-" ++ lit_of_int n)) as H. rewrite E, !occurs_app in H. simpl in H.
  by rewrite orb_true_r in H.
Qed.

Lemma EnsureHTTPBase_nonempty addr : TrimSpace addr <> ""%string -> String.eqb (EnsureHTTPBase addr) "" = false.
Proof. intros Ha. unfold EnsureHTTPBase. rewrite (proj2 (String.eqb_neq _ _) Ha). destruct (hasScheme _); [by apply String.eqb_neq|done]. Qed.

Lemma suffix_validate x : HasSuffix (x ++ "/validate") "/validate" = true.
Proof. unfold HasSuffix. rewrite str_rev_app. apply HasPrefix_true. by eexists. Qed.
Lemma suffix_transaction x : HasSuffix (x ++ "/transaction") "/validate" = false.
Proof. unfold HasSuffix. by rewrite str_rev_app. Qed.

(** What a gate says of a card: an OY card by its number, a PCTR card by its
    token only *)
Definition passenger (ct card token : string) : Prop :=
  (ct = "OY"%string /\ TrimSpace card = card /\ card <> ""%string /\ valid_utf8 card = true /\ token = ""%string) \/
  (ct = "PCTR"%string /\ card = ""%string /\ TrimSpace token = token /\ token <> ""%string /\ valid_utf8 token = true).

(** The station takes the transaction of an allowed tap. *)
Lemma station_takes cfg stationID ct card token tapped sent n1 n2 b n batch b' :
  TrimSpace (gateID cfg) <> ""%string -> valid_utf8 (gateID cfg) = true -> valid_utf8 (gateStation cfg) = true -> passenger ct card token ->
  let txid := (gateID cfg ++ "-" ++ lit_of_int sent)%string in
  Add (mkTransaction txid ct card token (TrimSpace (gateID cfg)) stationID (Format tapped) true "ok") b = (n, batch, b') ->
  handleTransaction stationID n1 n2 "POST"
    (print (transaction_json (mkTransaction txid ct card token (gateID cfg) (gateStation cfg) (Format tapped) true "ok"))) b =
  (200, mkAck true (Z.of_nat n), b', batch).
Proof.
  intros Hgate Hug Hus Hp txid Ea. unfold handleTransaction, readTransaction. rewrite String.eqb_refl. cbn [negb].
  assert (Htype : ToUpper (TrimSpace ct) = ct) by (by destruct Hp as [(-> & _)|(-> & _)]).
  assert (Hcard : TrimSpace card = card) by (by destruct Hp as [(_ & -> & _)|(_ & -> & _)]).
  assert (Htok : TrimSpace token = token) by (by destruct Hp as [(_ & _ & _ & _ & ->)|(_ & _ & -> & _)]).
  rewrite transaction_wire.
  2: { split_and!; cbn [tx_id tx_type tx_card tx_token tx_gate tx_station tx_time tx_reason]; try done;
         try (destruct Hp as [(-> & _ & _ & ? & ->)|(-> & -> & _ & _ & ?)]; done).
       - apply valid_app; [done|]. apply valid_utf8_iff, plain_Utf8. rewrite plain_app. by rewrite plain_lit.
       - apply valid_utf8_iff, plain_Utf8, plain_Format. }
  cbv zeta. unfold normalizeTx. cbn [tx_id tx_type tx_card tx_token tx_gate tx_station tx_time tx_allowed tx_reason].
  rewrite Htype, Hcard, Htok. rewrite (proj2 (String.eqb_neq txid "")) by (intros E; apply (dashed_id (gateID cfg) sent); by fold txid; rewrite E).
  rewrite (proj2 (String.eqb_neq (Format tapped) "")) by (intros E; by apply (f_equal String.length) in E).
  replace (refused _) with false; [by rewrite Ea|].
  unfold refused. cbn [tx_id tx_type tx_card tx_token tx_gate tx_station tx_time tx_allowed tx_reason]. rewrite Hcard, Htok, (proj2 (String.eqb_neq _ _) Hgate).
  destruct Hp as [(-> & _ & Hne & _)|(-> & _ & _ & Hne & _)]; by rewrite (proj2 (String.eqb_neq _ _) Hne).
Qed.

Record Site := mkSite { ticks : nat; site_db : DB Tables; site_station : PerTypeBatcher; site_flights : list (list Transaction) }.

Section Site.
Context `{Server} (clk : nat -> Z) (cfg : GateConfig) (csAddr stAddr stationID : string) (decode_error : string -> string).

(** Look-ups succeed and posts arrive: at the card system's [/validate] and
    the station's [/transaction]. *)
#[local] Instance site_world : GateWorld Site := {|
  g_query := fun task w => (Ok (if String.eqb task (oyboTask cfg) then csAddr else stAddr), w);
  g_post := fun url body w =>
    if HasSuffix url "/validate" then
      let '(status, r, db) := validateHandler "POST" body (site_db w) in
      (Ok (status, encode (validateResponse_json r)), mkSite (ticks w) db (site_station w) (site_flights w))
    else
      let '(status, ack, b, batch) := handleTransaction stationID (clk (ticks w)) (clk (ticks w)) "POST" body (site_station w) in
      (Ok (status, encode (ack_json ack)), mkSite (ticks w) (site_db w) b (match batch with [] => site_flights w | _ => site_flights w ++ [batch] end));
  g_now := fun w => (clk (ticks w), mkSite (S (ticks w)) (site_db w) (site_station w) (site_flights w));
  g_sleep := fun _ w => w;
  g_encrypt := fun _ w => (None, w) |}.

Context (Hcs : TrimSpace csAddr <> ""%string) (Hst : TrimSpace stAddr <> ""%string).
Context (Hgate : TrimSpace (gateID cfg) <> ""%string) (Hsid : TrimSpace stationID <> ""%string).
Context (Hug : valid_utf8 (gateID cfg) = true) (Hus : valid_utf8 (gateStation cfg) = true).

Lemma resolve_site task fb c w : resolveBase task fb c w =
  let addr := if String.eqb task (oyboTask cfg) then csAddr else stAddr in
  (Ok (EnsureHTTPBase addr), mkCached addr (clk (ticks w)), mkSite (S (ticks w)) (site_db w) (site_station w) (site_flights w)).
Proof. done. Qed.

Lemma Validate_true card db reason db' : Validate card db = (true, reason, None, db') -> reason = "ok"%string.
Proof.
  unfold Validate. destruct (cardState card db) as [[c|[]] db1]; try (by intros [= ]). destruct (card_blocked c); [done|].
  destruct (negb (card_active c)); [done|]. destruct (balance_cents c <=? 0); [done|]. by intros [= <- _].
Qed.

(** The card system lets a funded card pass. *)
Lemma askCS_site card t c w db' : TrimSpace card = card -> card <> ""%string -> valid_utf8 card = true -> valid_utf8 t = true ->
  Validate card (site_db w) = (true, "ok"%string, None, db') ->
  exists c', askCS decode_error cfg card t c w = (true, "ok"%string, c', mkSite (S (ticks w)) db' (site_station w) (site_flights w)).
Proof.
  intros Ht Hne Hu Hut Hv. unfold askCS. rewrite resolve_site. cbv zeta. rewrite String.eqb_refl. cbn [baseOf].
  rewrite EnsureHTTPBase_nonempty by done. unfold httpPostJSON. cbn [g_post site_world]. rewrite suffix_validate. cbn [site_db].
  unfold validateHandler. cbn [String.eqb Ascii.eqb Bool.eqb negb]. rewrite validateRequest_wire by (by split_and!). cbn [vrCard].
  rewrite Ht, (proj2 (String.eqb_neq _ _) Hne), Hv. cbn [Z.ltb Z.leb Z.compare Pos.compare Pos.compare_cont orb].
  rewrite validateResponse_wire by done. by eexists.
Qed.

Lemma parseTap_trim line ct cid : parseTap line = Ok (ct, cid) -> TrimSpace cid = cid.
Proof.
  unfold parseTap. repeat case_match; try done. intros [= <- <-]. apply TrimSpace_idemp.
Qed.
(** What the station makes of the gate's transaction, and the card system of that *)
Definition stationTx (card reason : string) (tapped sent : Z) : Transaction :=
  mkTransaction (gateID cfg ++ "-" ++ lit_of_int sent) "OY" card "" (TrimSpace (gateID cfg)) stationID (Format tapped) true reason.

Lemma tellStation_site card tapped c w n batch b : TrimSpace card = card -> card <> ""%string -> valid_utf8 card = true ->
  Add (stationTx card "ok" tapped (clk (S (ticks w)))) (site_station w) = (n, batch, b) -> in_int64 (Z.of_nat n) ->
  exists c', tellStation decode_error cfg "OY" card "" (Format tapped) "ok" c w =
    (true, "ok"%string, c', mkSite (S (S (ticks w))) (site_db w) b (match batch with [] => site_flights w | _ => site_flights w ++ [batch] end)).
Proof.
  intros Ht Hne Hu Ea Hn. unfold tellStation. rewrite resolve_site. cbv zeta. cbn [baseOf].
  assert (Hbase : forall task, String.eqb (EnsureHTTPBase (if String.eqb task (oyboTask cfg) then csAddr else stAddr)) "" = false).
  { intros task. by destruct (String.eqb task _); apply EnsureHTTPBase_nonempty. }
  rewrite Hbase. cbn [g_now site_world ticks site_db site_station site_flights]. unfold httpPostJSON. cbn [g_post site_world].
  rewrite suffix_transaction. cbn [String.eqb Ascii.eqb Bool.eqb ticks site_db site_station site_flights].
  erewrite (station_takes cfg stationID) by (try exact Ea; try done; left; by split_and!).
  cbn [Z.ltb Z.leb Z.compare Pos.compare Pos.compare_cont orb]. rewrite ack_wire by done. by eexists.
Qed.

Lemma stationTx_row card tapped sent : TrimSpace card = card -> four_digit_year tapped ->
  csRow (stationTx card "ok" tapped sent) =
  Some (mkCSTx (TrimSpace (gateID cfg ++ "-" ++ lit_of_int sent)) card (TrimSpace (gateID cfg)) (TrimSpace stationID) tapped true "ok").
Proof.
  intros Ht Hy. unfold csRow, stationTx. cbn [tx_id tx_type tx_card tx_token tx_gate tx_station tx_time tx_allowed tx_reason].
  rewrite TrimSpace_Format, Parse_Format, TrimSpace_idemp, Ht by done. done.
Qed.

(** C14: a tap, end to end.  At a gate whose card system and station can be
    reached, a tap of an OY card that the card system validates opens the
    gate.  The station has buffered exactly one transaction for it, and the
    row the card system will make of that transaction carries this card and
    gate, the station's id and, to the nanosecond, the gate's clock at the
    tap; the row is complete and nothing in the transaction is foreign to the
    card system. *)
Theorem tap_end_to_end line card c w db' n batch b :
  let tapped := clk (ticks w) in
  let tx := stationTx card "ok" tapped (clk (3 + ticks w)) in
  parseTap line = Ok ("OY"%string, card) -> valid_utf8 card = true -> four_digit_year tapped -> IsZero tapped = false ->
  (exists reason, Validate card (site_db w) = (true, reason, None, db')) ->
  Add tx (site_station w) = (n, batch, b) -> in_int64 (Z.of_nat n) ->
  (exists c', handleTap decode_error cfg line c w = (true, "ok"%string, c',
     mkSite (4 + ticks w) db' b (match batch with [] => site_flights w | _ => site_flights w ++ [batch] end))) /\
  exists row, csRow tx = Some row /\ incomplete row = false /\ ~ foreign CS tx /\
    Owner row = card /\ GateID row = TrimSpace (gateID cfg) /\ StationID row = TrimSpace stationID /\ TapTime row = tapped /\ Allowed row = true.
Proof.
  intros tapped tx Hp Hu Hy Hz [reason Hv] Ea Hn. pose proof (Validate_true _ _ _ _ Hv) as ->.
  destruct (parseTap_type _ _ _ Hp) as [_ Hne]. pose proof (parseTap_trim _ _ _ Hp) as Ht. split.
  - unfold handleTap. rewrite Hp. cbn [g_now site_world]. rewrite String.eqb_refl. fold tapped.
    destruct (askCS_site card (Format tapped) c (mkSite (S (ticks w)) (site_db w) (site_station w) (site_flights w)) db') as [c1 ->];
      [done|done|done|apply valid_utf8_iff, plain_Utf8, plain_Format|done|].
    cbn [negb]. by apply (tellStation_site card tapped c1 (mkSite (2 + ticks w) db' (site_station w) (site_flights w)) n batch b).
  - eexists. split; [by apply stationTx_row|]. split_and!; try done.
    + unfold incomplete, empty. cbn [TransactionID Owner GateID StationID TapTime]. rewrite !(proj2 (String.eqb_neq _ _)); try done. apply dashed_id.
    + intros [[_ Hf]|[Hf _]]; [by apply Hf|discriminate Hf].
Qed.

End Site.

(** ** Witnesses: card 1001 at gate-1 *)

Definition demo_gate : GateConfig :=
  mkGate "gate-1" (normalizeStationID "1") (stationTaskOf "" "1") "sim.cs" "sim.pa" "" "" "" false.
Definition demo_clock (n : nat) : Z := 1709193600500000000 + Z.of_nat n.
Definition demo_site : Site :=
  mkSite 0 (mkDB (set_cards {["1001"%string := mkCard true false 500]} empty_tables) 0) (NewPerTypeBatcher 5) [].
Definition no_caches : Caches := mkCaches (mkCached "" 0) (mkCached "" 0) (mkCached "" 0).
Definition demo_site_world : GateWorld Site := site_world (H := demo_server []) demo_clock demo_gate "cs:9101" "http://st:9100/" "1".

Lemma gate_fails_closed_witness :
  exists cardType cardID, parseTap " oy: 1001" = Ok (cardType, cardID) /\ cardType = "OY"%string /\ cardID = "1001"%string.
Proof.
  destruct (handleTap (H := demo_site_world) bad demo_gate " oy: 1001" no_caches demo_site) as [[[a r] c'] w'] eqn:E.
  assert (a = true) as ->.
  { replace a with (handleTap (H := demo_site_world) bad demo_gate " oy: 1001" no_caches demo_site).1.1.1 by (by rewrite E). by vm_compute. }
  destruct (gate_fails_closed demo_site_world bad demo_gate " oy: 1001" no_caches demo_site r c' w' E) as (ct & cid & _ & _ & _ & _ & Hp & _). clear E.
  exists ct, cid. split; [exact Hp|]. assert (Hq : parseTap " oy: 1001" = Ok ("OY", "1001")%string) by (by vm_compute). rewrite Hq in Hp. clear Hq. injection Hp as <- <-. split; reflexivity.
Defined.

Lemma tap_end_to_end_witness :
  exists c' w', handleTap (H := demo_site_world) bad demo_gate "OY:1001" no_caches demo_site = (true, "ok"%string, c', w') /\
    length (buffered "OY" (site_station w')) = 1%nat.
Proof.
  destruct (Add (stationTx demo_gate "1" "1001" "ok" (demo_clock 0) (demo_clock 3)) (NewPerTypeBatcher 5)) as [[n batch] b] eqn:Ea.
  assert (Hb : buffered "OY" b = [stationTx demo_gate "1" "1001" "ok" (demo_clock 0) (demo_clock 3)]).
  { replace b with (Add (stationTx demo_gate "1" "1001" "ok" (demo_clock 0) (demo_clock 3)) (NewPerTypeBatcher 5)).2 by (by rewrite Ea). by vm_compute. }
  assert (Hn : n = 1%nat).
  { replace n with (Add (stationTx demo_gate "1" "1001" "ok" (demo_clock 0) (demo_clock 3)) (NewPerTypeBatcher 5)).1.1 by (by rewrite Ea). by vm_compute. }
  destruct (Validate (H := demo_server []) "1001" (site_db demo_site)) as [[[v reason] e] db'] eqn:Ev.
  assert (v = true /\ e = None) as [-> ->].
  { replace v with (Validate (H := demo_server []) "1001" (site_db demo_site)).1.1.1 by (by rewrite Ev).
    replace e with (Validate (H := demo_server []) "1001" (site_db demo_site)).1.2 by (by rewrite Ev). by vm_compute. }
  destruct (tap_end_to_end (H := demo_server []) demo_clock demo_gate "cs:9101" "http://st:9100/" "1" bad
    ltac:(by vm_compute) ltac:(by vm_compute) ltac:(by vm_compute) ltac:(by vm_compute) ltac:(by vm_compute) ltac:(by vm_compute)
    "OY:1001" "1001" no_caches demo_site db' n batch b) as [[c' E] _].
  - by vm_compute.
  - done.
  - unfold four_digit_year. vm_compute. split; discriminate.
  - by vm_compute.
  - by exists reason.
  - exact Ea.
  - subst n. unfold in_int64, int64_min, int64_max. simpl. lia.
  - exists c'. eexists. split; [exact E|]. cbn [site_station]. by rewrite Hb.
Defined.
