(* ===== verification/GateCmd.v ===== *)
(** * Simulation/gate/main.go: the running gate

    The select loop of [main] with the goroutine that reads the terminal, the
    HTTP listener and the signals, as a step relation over the gate of
    Gate.v.  Taps of the terminal are handled by [main] one after the other;
    those of HTTP have their own goroutines and share the caches, of which a
    mutex guards each access.  A tap is one step here: taps that overlap are
    taken in some order, not interleaved between their accesses of the
    caches.  What else happens in the world meanwhile is the world's own
    answers, which are arbitrary. *)

From Stdlib Require Import Ascii String.
From S2P Require Import Prelude.
From stdpp Require Import list relations.
From S2P Require Import GoStrings NetIP GoJSON Firewall Transport GoTime SQL CardDB Journeys SimHTTP SimProxy BackOffice Station Gate.
Local Open Scope Z_scope.

#[local] Arguments String.append : simpl nomatch.

(** ** State *)

(** [lines] is an unbuffered channel: [offered] is the line the scanning
    goroutine wants to hand over.  [selecting] is false once [main] has set
    [lines] to nil. *)
Record Process (W : Type) := mkProcess {
  stdin : list string;
  offered : option string;
  linesClosed : bool;
  selecting : bool;
  signalled : bool;
  serveEnded : bool;
  printed : list string;
  caches : Caches;
  world : W;
  shutdowns : nat;
  exited : bool }.
Arguments mkProcess {W}.
Arguments stdin {W}. Arguments offered {W}. Arguments linesClosed {W}. Arguments selecting {W}. Arguments signalled {W}. Arguments serveEnded {W}.
Arguments printed {W}. Arguments caches {W}. Arguments world {W}. Arguments shutdowns {W}. Arguments exited {W}.

(** What is printed for a tap *)
Definition verdict (line : string) (allowed : bool) (reason : string) : string :=
  if allowed then ("ALLOW (" ++ TrimSpace line ++ ")")%string
  else ("DENY (" ++ TrimSpace line ++ ") reason=" ++ reason)%string.

Section Loop.
Context {W : Type} `{GateWorld W}.
Variable decode_error : string -> string.
Variable cfg : GateConfig.

Definition startGate (input : list string) (c : Caches) (w : W) : Process W := mkProcess input None false true false false [] c w 0 false.

(** The line of the terminal *)
Definition answerLine (line : string) (p : Process W) : Process W :=
  let '(allowed, reason, c, w) := handleTap decode_error cfg line (caches p) (world p) in
  mkProcess (stdin p) None (linesClosed p) (selecting p) (signalled p) (serveEnded p) (printed p ++ [verdict line allowed reason]) c w
    (shutdowns p) (exited p).

(** [shutdown] and the return from [main] *)
Definition leave (p : Process W) : Process W :=
  mkProcess (stdin p) (offered p) (linesClosed p) (selecting p) (signalled p) (serveEnded p) (printed p) (caches p) (world p) (S (shutdowns p)) true.

Inductive gate_step (p : Process W) : Process W -> Prop :=
(** the scanning goroutine: a line, the end of the input or its error *)
| gs_scan l ls : exited p = false -> linesClosed p = false -> offered p = None -> stdin p = l :: ls ->
    gate_step p (mkProcess ls (Some l) false (selecting p) (signalled p) (serveEnded p) (printed p) (caches p) (world p) (shutdowns p) (exited p))
| gs_scan_end : exited p = false -> linesClosed p = false -> offered p = None -> stdin p = [] ->
    gate_step p (mkProcess [] None true (selecting p) (signalled p) (serveEnded p) (printed p) (caches p) (world p) (shutdowns p) (exited p))
(** a signal arrives, the HTTP server ends *)
| gs_signal : gate_step p (mkProcess (stdin p) (offered p) (linesClosed p) (selecting p) true (serveEnded p) (printed p) (caches p) (world p) (shutdowns p) (exited p))
| gs_serve_end : gate_step p (mkProcess (stdin p) (offered p) (linesClosed p) (selecting p) (signalled p) true (printed p) (caches p) (world p) (shutdowns p) (exited p))
(** a tap over HTTP *)
| gs_http method contentType body status resp c w : exited p = false -> serveEnded p = false ->
    tapHandler decode_error cfg method contentType body (caches p) (world p) = (status, resp, c, w) ->
    gate_step p (mkProcess (stdin p) (offered p) (linesClosed p) (selecting p) (signalled p) (serveEnded p) (printed p) c w (shutdowns p) (exited p))
(** the cases of the select *)
| gs_on_signal : exited p = false -> signalled p = true -> gate_step p (leave p)
| gs_on_serve_end : exited p = false -> serveEnded p = true -> gate_step p (leave p)
| gs_on_line l : exited p = false -> selecting p = true -> offered p = Some l -> gate_step p (answerLine l p)
| gs_on_closed : exited p = false -> selecting p = true -> offered p = None -> linesClosed p = true ->
    gate_step p (mkProcess (stdin p) None true false (signalled p) (serveEnded p) (printed p) (caches p) (world p) (shutdowns p) (exited p)).

(** ** Invariant *)

(** The taps of the terminal so far, with the state each was handled in *)
Definition answered_tap (t : string * Caches * W) : string :=
  let '(line, c, w) := t in let '(allowed, reason, _, _) := handleTap decode_error cfg line c w in verdict line allowed reason.

Definition pending (p : Process W) : list string := match offered p with Some l => l :: stdin p | None => stdin p end.

Record gate_inv (input : list string) (p : Process W) : Prop := {
  gi_lines : exists taps, input = ((fun t => t.1.1) <$> taps) ++ pending p /\ printed p = answered_tap <$> taps;
  gi_closed : linesClosed p = true -> pending p = [] /\ offered p = None;
  gi_select : selecting p = false -> linesClosed p = true;
  gi_exit : exited p = true -> (signalled p = true \/ serveEnded p = true) /\ shutdowns p = 1%nat;
  gi_running : exited p = false -> shutdowns p = 0%nat }.

Lemma answerLine_spec l p : exists a r c w, handleTap decode_error cfg l (caches p) (world p) = (a, r, c, w) /\
  answerLine l p = mkProcess (stdin p) None (linesClosed p) (selecting p) (signalled p) (serveEnded p) (printed p ++ [verdict l a r]) c w (shutdowns p) (exited p).
Proof. unfold answerLine. destruct (handleTap _ _ _ _ _) as [[[a r] c] w]. by exists a, r, c, w. Qed.

Lemma gate_step_inv input p p' : gate_step p p' -> gate_inv input p -> gate_inv input p'.
Proof.
  intros Hs [(taps & H1 & H1') H2 H3 H4 H5]. unfold pending in *.
  destruct Hs as [l ls Hx Hc Ho Hi|Hx Hc Ho Hi| | |m ct body st resp c w Hx Hse Et|Hx Hsig|Hx Hse|l Hx Hsel Ho|Hx Hsel Ho Hc].
  - rewrite Ho, Hi in H1. split; cbn; [by exists taps|done|intros E; apply H3 in E; congruence|congruence|done].
  - rewrite Ho, Hi in H1. split; cbn; [by exists taps|done|done|congruence|done].
  - split; cbn; [by exists taps|done|done| |done]. intros E. apply H4 in E as [_ E]. by auto.
  - split; cbn; [by exists taps|done|done| |done]. intros E. apply H4 in E as [_ E]. by auto.
  - split; cbn; [by exists taps|done..].
  - split; cbn; [by exists taps|done|done| |done]. intros _. rewrite H5 by done. by auto.
  - split; cbn; [by exists taps|done|done| |done]. intros _. rewrite H5 by done. by auto.
  - destruct (answerLine_spec l p) as (a & r & c & w & Eh & ->). rewrite Ho in *.
    assert (Hc : linesClosed p = false) by (destruct (linesClosed p); [|done]; by destruct (H2 eq_refl)).
    split; cbn; [|congruence|congruence|congruence|done]. exists (taps ++ [(l, caches p, world p)]).
    rewrite !fmap_app, <-app_assoc. split; [exact H1|]. rewrite H1'. cbn. by rewrite Eh.
  - rewrite Ho in *. split; cbn; [by exists taps|by intros _; apply H2|done|congruence|done].
Qed.

(** The next line is always within reach of an answer. *)
Lemma gate_progress input p : gate_inv input p -> exited p = false -> pending p <> [] ->
  exists p', rtc gate_step p p' /\ length (printed p') = S (length (printed p)).
Proof.
  intros [_ H2 H3 _ _] Hx Hp. assert (Hc : linesClosed p = false) by (destruct (linesClosed p); [|done]; by destruct (H2 eq_refl)).
  assert (Hsel : selecting p = true) by (destruct (selecting p); [done|]; by rewrite H3 in Hc). unfold pending in Hp.
  assert (Hans : forall q l, exited q = false -> selecting q = true -> offered q = Some l -> exists p', gate_step q p' /\ length (printed p') = S (length (printed q))).
  { intros q l Hqx Hqs Hqo. exists (answerLine l q). split; [by apply gs_on_line|].
    destruct (answerLine_spec l q) as (a & r & c & w & _ & ->). cbn [printed]. rewrite length_app. cbn [length]. lia. }
  destruct (offered p) as [l|] eqn:Ho.
  - destruct (Hans p l Hx Hsel Ho) as (p' & Hs & Hl). exists p'. split; [by apply rtc_once|done].
  - destruct (stdin p) as [|l ls] eqn:Hi; [done|]. pose proof (gs_scan p l ls Hx Hc Ho Hi) as Hscan.
    match type of Hscan with gate_step _ ?q => destruct (Hans q l Hx Hsel eq_refl) as (p' & Hs & Hl) end.
    exists p'. split; [eapply rtc_l; [exact Hscan|by apply rtc_once]|exact Hl].
Qed.

(** C22: the running gate.  However the terminal, HTTP taps, signals and the
    HTTP server interleave, the lines of the terminal are answered in order
    and once each, every printed verdict is what the gate decided for its
    line, and while the gate runs the next line can be answered.  The gate
    ends only after a signal or the end of its HTTP server, shutting the
    server down exactly once: the end of the terminal's input, which it
    notices at most once, does not stop it. *)
Theorem gate_loop_answers input c w p : rtc gate_step (startGate input c w) p ->
  (exists taps, input = ((fun t => t.1.1) <$> taps) ++ pending p /\ printed p = answered_tap <$> taps) /\
  (exited p = false -> pending p <> [] -> exists p', rtc gate_step p p' /\ length (printed p') = S (length (printed p))) /\
  (exited p = true -> (signalled p = true \/ serveEnded p = true) /\ shutdowns p = 1%nat) /\
  (selecting p = false -> pending p = [] /\ forall p', gate_step p p' -> printed p' = printed p).
Proof.
  intros Hr. assert (Hp : gate_inv input p).
  { revert Hr. apply (rtc_ind_r (gate_inv input)); [|intros p1 p2 _ Hs H1; by apply (gate_step_inv input p1)].
    split; cbn; [by exists []|done|done|done|done]. }
  split_and!; [apply Hp|by apply (gate_progress input)|apply Hp|]. intros Hsel. pose proof (gi_select _ _ Hp Hsel) as Hc.
  destruct (gi_closed _ _ Hp Hc) as [He Ho]. split; [done|]. intros p' Hs. destruct Hs; cbn; congruence.
Qed.
End Loop.

(** ** Two lines of a terminal *)

Lemma gate_loop_answers_witness :
  exists taps : list (string * Caches * Site), ["x"; "OY:1001"]%string = ((fun t => t.1.1) <$> taps) ++ ["OY:1001"%string] /\
    ["DENY (x) reason=invalid tap"%string] = answered_tap (H := demo_site_world) bad demo_gate <$> taps.
Proof.
  set (p0 := startGate ["x"; "OY:1001"]%string no_caches demo_site).
  destruct (gate_loop_answers (H := demo_site_world) bad demo_gate ["x"; "OY:1001"]%string no_caches demo_site
    (mkProcess ["OY:1001"%string] None false true false false ["DENY (x) reason=invalid tap"%string] no_caches demo_site 0 false)) as [Ht _]; [|exact Ht].
  eapply rtc_l; [by apply (gs_scan (H := demo_site_world) bad demo_gate p0 "x" ["OY:1001"%string])|].
  apply rtc_once. match goal with |- gate_step _ _ ?q ?t => replace t with (answerLine (H := demo_site_world) bad demo_gate "x" q) by (vm_compute; reflexivity) end.
  by apply gs_on_line.
Defined.
