(* ===== verification/Payment.v ===== *)
(** * Simulation/pa/main.go: the payment authority as its clients meet it

    The endpoints of the authority from the bytes of a request, with the
    restitution file on a disk, and the reporting cycle of
    Simulation/pctrbo/main.go over HTTP.  RSA is a pair of parameters.  Two
    compositions are proved: the cycle over the wire is the cycle of Debts,
    and a tap of a PCTR card goes from the gate by its authority to the
    station. *)

From Stdlib Require Import Ascii String.
From S2P Require Import Prelude.
From stdpp Require Import list sorting relations.
From S2P Require Import GoStrings NetIP NetIPFacts GoURL GoJSON Utf8 GoBase64 GoScan GoAny Firewall Transport GoTime SQL CardDB Journeys JourneysFacts Taps Debts.
From S2P Require Import SimHTTP SimProxy BackOffice Station Gate.
Local Open Scope Z_scope.

#[local] Arguments String.append : simpl nomatch.

(** ** Messages *)

Definition tokenizeRequest_of_json (j : json) : option string :=
  fs ← strict_fields ["ciphertext_b64"]%string j; as_string "" (field "ciphertext_b64" fs).
Definition tokenizeResponse_json (r : TokenizeResponse) : json :=
  JObj ([("ok"%string, JBool (tkOK r))] ++ omit_string "token" (tkToken r) ++ [("reason"%string, JStr (tkReason r))]).

(** [carddb.PADebt] has no tags: its fields go by their names. *)
Definition debt_json (d : PADebt) : json := JObj [("Token", JStr (Token d)); ("AmountCents", JNum (lit_of_int (AmountCents d)))]%string.
Definition debts_json (ds : list PADebt) : json := JObj [("debts"%string, JArr (debt_json <$> ds))].

Definition no_debt : PADebt := mkPADebt "" 0.
Definition debt_of_json (old : PADebt) (j : json) : option PADebt :=
  fs ← strict_fields ["Token"; "AmountCents"]%string j;
  t ← as_string (Token old) (field "Token" fs); a ← as_int (AmountCents old) (field "AmountCents" fs); Some (mkPADebt t a).

Fixpoint debts_of (olds : list PADebt) (vs : list json) : option (list PADebt) :=
  match vs with
  | [] => Some []
  | v :: vs => d ← debt_of_json (default no_debt (head olds)) v; ds ← debts_of (tail olds) vs; Some (d :: ds)
  end.
Fixpoint as_debts (acc : list PADebt) (vs : list json) : option (list PADebt) :=
  match vs with
  | [] => Some acc
  | JNull :: vs => as_debts [] vs
  | JArr l :: vs => match debts_of acc l with Some l => as_debts l vs | None => None end
  | _ :: _ => None
  end.
Definition debtsRequest_of_json (j : json) : option (list PADebt) :=
  fs ← strict_fields ["debts"]%string j; as_debts [] (field "debts" fs).

Definition debtsResponse_json (r : DebtsResponse) : json :=
  JObj [("accepted", JBool (Accepted r)); ("received", JNum (lit_of_int (Received r)))]%string.
Definition debtsResponse_of_json (j : json) : option DebtsResponse :=
  fs ← struct_fields j; a ← as_bool false (field "accepted" fs); n ← as_int 0 (field "received" fs); Some (mkDebts a n).

Definition restitutionResponse_json (file : string) (r : RestitutionResponse) : json :=
  JObj [("file", JStr file); ("rows", JNum (lit_of_int (Rows r))); ("total_cents", JNum (lit_of_int (TotalCents r)))]%string.
Definition errorJSON (msg : string) : json := JObj [("error"%string, JStr msg)].

(** ** The endpoints *)

Section Authority.
Context `{Server}.
(** [DecryptCardData] under the authority's private key *)
Context (decrypt : string -> option string) (minFundsCents : Z).

Definition tokenizeHandler (random : option (list Z)) (method body : string) (db : DB Tables) : Z * TokenizeResponse * DB Tables :=
  let refuse status reason := (status, mkTokenize false "" reason, db) in
  if negb (String.eqb method "POST") then refuse 405 "method not allowed"%string
  else match parse_first body ≫= tokenizeRequest_of_json with
       | None => refuse 400 "invalid json"%string
       | Some b64 =>
           match base64Decode (TrimSpace b64) with
           | None => refuse 400 "invalid ciphertext"%string
           | Some ct =>
               match decrypt ct with
               | None => refuse 400 "decrypt failed"%string
               | Some cardData =>
                   let cardID := TrimSpace cardData in
                   if String.eqb cardID "" then refuse 400 "empty card"%string
                   else tokenize minFundsCents random cardID db
               end
           end
       end.

Definition debtsEndpoint (method body : string) (db : DB Tables) : Z * DebtsResponse * DB Tables :=
  if negb (String.eqb method "POST") then (405, mkDebts false 0, db)
  else match parse_first body ≫= debtsRequest_of_json with
       | None => (400, mkDebts false 0, db)
       | Some debts => debtsHandler debts db
       end.

(** [time.Now().UTC().Format("20060102_150405")] *)
Definition fileStamp (t : Z) : string :=
  let secs := t / GoTime.second in
  let d := dateOfDays (secs / 86400) in
  let s := secs mod 86400 in
  (digitsOf 4 (year d) ++ digitsOf 2 (month d) ++ digitsOf 2 (day d) ++ "_" ++
   digitsOf 2 (s / 3600) ++ digitsOf 2 (s / 60 mod 60) ++ digitsOf 2 (s mod 60))%string.

Definition restitutionPath (outDir : string) (now : Z) : string :=
  let name := ("restitution_" ++ fileStamp now ++ ".csv")%string in
  if String.eqb outDir "" then Clean name else Join outDir name.

Definition restitutionFile (rows : list (string * Z)) : string :=
  csvFile (["card_id"; "amount_cents"]%string :: ((fun row => [row.1; lit_of_int row.2]) <$> rows)).

(** [mkdir] and [create] say whether the directory and the file can be
    made; an existing file is truncated. *)
Definition restitutionHandler (rng : gmap string Z -> list (string * Z)) (mkdir : bool) (create : string -> bool) (outDir : string) (now : Z)
  (method : string) (disk : gmap string string) (db : DB Tables) : Z * json * gmap string string * DB Tables :=
  if negb (String.eqb method "POST") then (405, errorJSON "method not allowed", disk, db)
  else
    let path := restitutionPath outDir now in
    let fs := if negb mkdir then MkdirFailed else if negb (create path) then CreateFailed else FileWritten in
    let '(status, rows, r, db) := restitution rng fs db in
    if status =? 503 then (503, errorJSON "db error", disk, db)
    else if status =? 500 then (500, errorJSON (match fs with MkdirFailed => "mkdir failed" | _ => "create failed" end)%string, disk, db)
    else match rows with
         | None => (200, restitutionResponse_json "" r, disk, db)
         | Some rows => (200, restitutionResponse_json path r, <[path := restitutionFile rows]> disk, db)
         end.
End Authority.

(** ** The back office's cycle over HTTP *)

Section Cycle.
Context {W : Type} (BO : Server).
Variable decode_error : string -> string.
Variable query : string -> W -> result string string * W.
Variable post : Post W.

Definition resolvePA (paTask paBase : string) (w : W) : result string string * W :=
  let '(r, w) := query paTask w in
  match r with
  | Ok addr => (Ok (EnsureHTTPBase addr), w)
  | Err e => if negb (String.eqb (TrimSpace paBase) "") then (Ok (EnsureHTTPBase paBase), w) else (Err e, w)
  end.

(** One tick of the reporting goroutine *)
Definition reportTick (paTask paBase : string) (bo : DB Tables) (w : W) : cycle_end * DB Tables * W :=
  match RunPCTRJourneyConstruction (H := BO) bo with
  | (_, Err _, bo) => (JourneyError, bo, w)
  | (journeys, Ok _, bo) =>
      match GetUnreportedDebts (H := BO) bo with
      | (_, Err _, bo) => (DebtsError, bo, w)
      | ([], Ok _, bo) => (NothingOwed, bo, w)
      | (owed, Ok ids, bo) =>
          let '(pa, w) := resolvePA paTask paBase w in
          if String.eqb (baseOf pa) "" then (NoPA, bo, w)
          else
            let debts := (fun o => mkPADebt o.1 o.2) <$> owed in
            let url := (TrimRightSlash (baseOf pa) ++ "/debts")%string in
            let '(resp, w) := httpPostJSON decode_error post url (debts_json debts) debtsResponse_of_json w in
            match resp with
            | Err _ => (PostFailed, bo, w)
            | Ok _ => let '(r, bo) := MarkDebtsReported (H := BO) ids bo in (Marked ids r, bo, w)
            end
      end
  end.
End Cycle.

(** ** Messages survive the wire *)

Lemma print_wire {A} (j : json) (f : json -> option A) : json_ok j -> (jdepth j <= max_depth)%N -> parse_first (print j) ≫= f = f j.
Proof. intros Hok Hd. destruct (json_roundtrip j "" Hok Hd I) as [_ E]. rewrite str_app_nil_r in E. by rewrite E. Qed.

Lemma tokenizeRequest_wire c : valid_utf8 c = true -> parse_first (print (tokenizeRequest_json c)) ≫= tokenizeRequest_of_json = Some c.
Proof.
  intros Hc. rewrite print_wire; [|cbn; by split_and!|done]. unfold tokenizeRequest_of_json, strict_fields, tokenizeRequest_json.
  cbn [struct_fields mbind option_bind]. change (known _ _) with true. cbv iota. by fields.
Qed.

Lemma tokenizeResponse_wire r : valid_utf8 (tkToken r) = true -> valid_utf8 (tkReason r) = true ->
  parse_first (encode (tokenizeResponse_json r)) ≫= tokenizeResponse_of_json = Some r.
Proof.
  intros Ht Hr. destruct r as [o t s]. cbn [tkToken tkReason] in *.
  unfold tokenizeResponse_json, omit_string. cbn [tkOK tkToken tkReason].
  destruct (String.eqb_spec t "") as [->|]; (rewrite encode_wire; [|cbn; by split_and!|done]); unfold tokenizeResponse_of_json;
    cbn [app struct_fields mbind option_bind]; fields; by cbn [as_bool mbind option_bind].
Qed.

Definition debt_ok (d : PADebt) : Prop := valid_utf8 (Token d) = true /\ in_int64 (AmountCents d).

Lemma debt_of_to d : debt_ok d -> debt_of_json no_debt (debt_json d) = Some d.
Proof.
  intros [_ Ha]. destruct d as [t a]. cbn [Token AmountCents] in *. unfold debt_of_json, strict_fields, debt_json. cbn [struct_fields mbind option_bind Token AmountCents].
  change (known _ _) with true. cbv iota. cbn [mbind option_bind]. fields. cbn [mbind option_bind no_debt Token AmountCents]. fields. by rewrite int_of_lit_of_int.
Qed.

Lemma debts_of_to ds : Forall debt_ok ds -> debts_of [] (debt_json <$> ds) = Some ds.
Proof.
  induction 1 as [|d ds Hd _ IH]; [done|]. cbn [fmap list_fmap debts_of head tail default].
  change (default no_debt (head [])) with no_debt. rewrite debt_of_to by done. cbn [mbind option_bind].
  change (debts_of (tail []) _) with (debts_of [] (debt_json <$> ds)). by rewrite IH.
Qed.

Lemma debts_json_ok ds : Forall debt_ok ds -> json_ok (debts_json ds) /\ (jdepth (debts_json ds) <= max_depth)%N.
Proof.
  intros Ht. assert (Hl : fold_right (fun v acc => json_ok v /\ acc) True (debt_json <$> ds) /\
    (fold_right (fun v acc => N.max (jdepth v) acc) 0 (debt_json <$> ds) <= 1)%N).
  { induction Ht as [|d ds [Hd _] _ [IH1 IH2]]; [done|]. cbn [fmap list_fmap fold_right]. split; [|cbn [debt_json jdepth fold_right fst snd]; lia].
    split; [|done]. cbn. split_and!; try done. apply lit_of_int_ok. }
  destruct Hl as [H1 H2]. split; [by repeat split|]. cbn [debts_json jdepth fold_right fst snd]. unfold max_depth. lia.
Qed.

Lemma debts_wire ds : Forall debt_ok ds -> parse_first (print (debts_json ds)) ≫= debtsRequest_of_json = Some ds.
Proof.
  intros Hd. destruct (debts_json_ok ds Hd) as [Hok Hdep]. rewrite print_wire by done.
  unfold debtsRequest_of_json, strict_fields, debts_json. cbn [struct_fields mbind option_bind]. change (known _ _) with true. cbv iota.
  cbn [mbind option_bind]. fields. cbn [as_debts]. by rewrite debts_of_to.
Qed.

Lemma debtsResponse_wire r : in_int64 (Received r) -> parse_first (encode (debtsResponse_json r)) ≫= debtsResponse_of_json = Some r.
Proof.
  intros Hr. pose proof (int_of_lit_of_int _ Hr) as Hn. destruct r as [a n]. cbn [Received] in *.
  rewrite encode_wire; [|cbn; split_and!; try done; apply lit_of_int_ok|done].
  unfold debtsResponse_of_json, debtsResponse_json. cbn [struct_fields mbind option_bind Accepted Received].
  fields. cbn [as_bool mbind option_bind]. by rewrite Hn.
Qed.

(** ** The cycle over the wire is the cycle *)

(** What a database of UTF-8 text can hold, and what fits in a slice *)
Definition debts_storable (t : Tables) : Prop :=
  (forall k d, pctr_debts t !! k = Some d -> valid_utf8 (debt_token d) = true) /\ Z.of_nat (size (pctr_debts t)) <= int64_max.

Lemma remove_dups_length (l : list string) : (length (remove_dups l) <= length l)%nat.
Proof. induction l as [|x l IH]; [done|]. cbn [remove_dups]. case_decide; simpl; lia. Qed.

Lemma unreported_length `{Server} t : (length (unreported t) <= size (pctr_debts t))%nat.
Proof.
  unfold unreported. rewrite length_fmap, merge_sort_Permutation. etrans; [apply remove_dups_length|]. rewrite length_fmap. unfold outstanding.
  etrans; [apply filter_length_le|]. by rewrite length_map_to_list.
Qed.

Lemma unreported_tokens `{Server} t token a : (token, a) ∈ unreported t -> exists k d, pctr_debts t !! k = Some d /\ debt_token d = token.
Proof.
  unfold unreported. rewrite list_elem_of_fmap. intros (tok & [= -> _] & Hin). rewrite merge_sort_Permutation, elem_of_remove_dups, list_elem_of_fmap in Hin.
  destruct Hin as ([k d] & -> & Hin). unfold outstanding in Hin. apply list_elem_of_In, filter_In in Hin as [Hin _].
  apply list_elem_of_In, elem_of_map_to_list in Hin. by exists k, d.
Qed.

Lemma GetUnreported_range `{Server} db owed ids db' : GetUnreportedDebts db = (owed, Ok ids, db') -> Forall (fun o => in_int64 o.2) owed.
Proof.
  intros E. unfold GetUnreportedDebts, bind, scanSums, ret, fail in E. destruct (QueryAll _ db) as [[rows|e] db1]; [|done].
  destruct (forallb _ rows) eqn:Hf; [|done]. destruct (QueryUnchecked (A := Z) _ db1) as [i d]. injection E as <- _ _.
  apply Forall_forall. intros o Ho. apply list_elem_of_In in Ho. rewrite forallb_forall in Hf. specialize (Hf o Ho).
  unfold int64_ok in Hf. apply andb_true_iff in Hf as [?%Z.leb_le ?%Z.leb_le]. by split.
Qed.

(** The debts a cycle posts arrive as they are. *)
Lemma owed_ok `{Server} db owed ids db' : GetUnreportedDebts db = (owed, Ok ids, db') -> debts_storable (tables db) ->
  Forall debt_ok ((fun o => mkPADebt o.1 o.2) <$> owed) /\ in_int64 (Z.of_nat (length owed)).
Proof.
  intros E [Hu Hs]. pose proof (GetUnreported_range _ _ _ _ E) as Hr. apply GetUnreported_rows in E as [-> _]. split.
  - apply Forall_fmap. rewrite Forall_forall in *. intros [token a] Ho. split; [|by apply (Hr (token, a))].
    destruct (unreported_tokens _ _ _ Ho) as (k & d & Hk & <-). by apply (Hu k d).
  - pose proof (unreported_length (tables db)). unfold in_int64, int64_min. lia.
Qed.

Section Wire.
Context (BO PA : Server) (addr paTask : string) (decode_error : string -> string).
Context (Haddr : TrimSpace addr <> ""%string).

(** What happens to a report *)
Definition debtsPost (d : Delivery) : Post (DB Tables) := fun _ body pa =>
  match d with
  | NoAddress e | RequestLost e => (Err e, pa)
  | AnswerLost e => let '(_, _, pa) := debtsEndpoint (H := PA) "POST" body pa in (Err e, pa)
  | Answered => let '(status, r, pa) := debtsEndpoint (H := PA) "POST" body pa in (Ok (status, encode (debtsResponse_json r)), pa)
  end.

Definition found (d : Delivery) : bool := match d with NoAddress _ => false | _ => true end.
Definition arrived (d : Delivery) : bool := match d with NoAddress _ | RequestLost _ => false | _ => true end.
Definition answered_back (d : Delivery) : bool := match d with Answered => true | _ => false end.

Lemma post_debts d url ds pa : Forall debt_ok ds -> in_int64 (Z.of_nat (length ds)) -> found d = true ->
  let '(r, pa1) := httpPostJSON decode_error (debtsPost d) url (debts_json ds) debtsResponse_of_json pa in
  let '(status, _, pa2) := debtsHandler (H := PA) ds pa in
  pa1 = (if arrived d then pa2 else pa) /\
  ((exists resp, r = Ok resp) <-> arrived d && ((200 <=? status) && (status <? 300)) && answered_back d = true).
Proof.
  intros Hds Hlen Hd. unfold httpPostJSON, debtsPost, debtsEndpoint. rewrite String.eqb_refl, debts_wire by done. cbn [negb].
  destruct d as [e|e|e|]; [discriminate Hd|..]; destruct (debtsHandler (H := PA) ds pa) as [[status resp] pa2] eqn:Eh; cbn [arrived answered_back andb];
    (split; [done|]).
  1-2: rewrite ?andb_false_r; split; [by intros [? [=]]|done].
  rewrite andb_true_r. assert (Hst : (status = 200 /\ Received resp = Z.of_nat (length ds)) \/ status = 503).
  { unfold debtsHandler in Eh. destruct (InsertDebts (H := PA) ds pa) as [[[]|e] pa3]; injection Eh as <- <- _; auto. }
  destruct Hst as [[-> Hrec]| ->]; cbn [Z.leb Z.ltb Z.compare Pos.compare Pos.compare_cont orb andb].
  - rewrite debtsResponse_wire by (by rewrite Hrec). split; [done|by eexists].
  - split; [by intros [? [=]]|done].
Qed.

(** C16: the reporting cycle as the back office runs it, over HTTP and JSON
    and with the request and the answer lost at any point, is the cycle
    between the two databases: the debts arrive token by token and cent by
    cent, and what the back office concludes from the answer is what the
    authority did.  The text of the tables is UTF-8, and no fallback address
    is configured. *)
Theorem report_over_http d bo pa :
  debts_storable (tables (RunPCTRJourneyConstruction (H := BO) bo).2) ->
  reportTick BO decode_error (queryOf d addr) (debtsPost d) paTask "" bo pa =
  reportCycle BO PA (found d) (arrived d) (answered_back d) bo pa.
Proof.
  intros Hs. unfold reportTick, reportCycle. destruct (RunPCTRJourneyConstruction (H := BO) bo) as [[j [u|e]] bo1]; [|done].
  destruct (GetUnreportedDebts (H := BO) bo1) as [[owed [ids|e]] bo2] eqn:Eg; [|by destruct owed].
  destruct (owed_ok _ _ _ _ Eg Hs) as [Hok Hlen]. destruct owed as [|o owed]; [done|]. set (ow := o :: owed) in *. clearbody ow.
  unfold resolvePA, queryOf. destruct (found d) eqn:Ef; [|by destruct d].
  assert (Eq : (match d with NoAddress e => Err e | _ => Ok addr end) = Ok (E := string) addr) by (by destruct d). rewrite Eq. cbn [baseOf negb].
  rewrite EnsureHTTPBase_nonempty by done.
  pose proof (post_debts d (TrimRightSlash (EnsureHTTPBase addr) ++ "/debts") _ pa Hok ltac:(by rewrite length_fmap) Ef) as Hp.
  destruct (httpPostJSON _ _ _ _ _ pa) as [r pa1]. destruct (debtsHandler _ pa) as [[status resp] pa2]. destruct Hp as [-> Hr].
  destruct (arrived d); cbn [negb andb] in *; [|destruct r as [x|]; [discriminate (proj1 Hr (ex_intro _ x eq_refl))|done]].
  destruct r as [x|e].
  - specialize (proj1 Hr (ex_intro _ x eq_refl)) as [-> ->]%andb_true_iff. done.
  - destruct ((200 <=? status) && (status <? 300)), (answered_back d); try done. by destruct (proj2 Hr eq_refl).
Qed.
End Wire.

(** ** Tokens are hexadecimal *)

Definition hex_token (t : string) : Prop := exists bs, bs <> [] /\ t = EncodeToString bs.

Lemma hexDigit_graphic z : graphic (hexDigit z) = true.
Proof. unfold hexDigit. generalize (Z.to_nat z). intros n. do 16 (destruct n as [|n]; [vm_compute; done|]). done. Qed.

Lemma hex_token_text t : hex_token t -> t <> ""%string /\ TrimSpace t = t /\ valid_utf8 t = true.
Proof.
  intros (bs & Hne & ->). assert (Hg : all_bytes graphic (EncodeToString bs) = true).
  { clear Hne. induction bs as [|x bs IH]; [done|]. cbn [EncodeToString all_bytes]. by rewrite !hexDigit_graphic, IH. }
  split_and!; [by destruct bs|by apply TrimSpace_graphic|by apply graphic_utf8].
Qed.

Definition tokens_hex (t : Tables) : Prop := map_Forall (fun _ => hex_token) (pctr_tokens t).

Section Tokens.
Context `{Server}.

Lemma insertToken_hex token c db : hex_token token -> tokens_hex (tables db) -> tokens_hex (tables (insertToken token c db).2).
Proof.
  intros Ht Hm. destruct (insertToken token c db) as [r db'] eqn:E. cbn [snd]. unfold insertToken, ExecContext in E.
  apply run_spec in E as [[->|[a E]] _]; [done|]. destruct (pctr_tokens (tables db) !! c); [by injection E as _ <-|].
  destruct (tokenUsed token _); [done|]. injection E as _ <-. by apply map_Forall_insert_2.
Qed.

(** A tokenize that succeeds answers with the card's token. *)
Lemma tokenize_ok minFunds random card db status resp db' : tokenize minFunds random card db = (status, resp, db') -> tkOK resp = true ->
  (forall bs, random = Some bs -> bs <> []) -> tokens_hex (tables db) ->
  status = 200 /\ resp = mkTokenize true (tkToken resp) "ok" /\ hex_token (tkToken resp) /\ pctr_tokens (tables db') !! card = Some (tkToken resp) /\
  tokens_hex (tables db').
Proof.
  unfold tokenize. intros E Hok Hr Hm.
  destruct (CardHasMinFunds card minFunds db) as [[[has reason] err] db1] eqn:Ef.
  assert (Ht1 : tables db1 = tables db).
  { unfold CardHasMinFunds, cardState, QueryRow, bind in Ef. destruct (QueryAll _ db) as [[rows|e] dbq] eqn:Eq; apply QueryAll_spec in Eq as [Hq _];
      [destruct rows as [|row rows]; cbn in Ef; repeat case_match; by simplify_eq|destruct e; by simplify_eq]. }
  destruct has, err as [e|]; try (injection E as <- <- <-; discriminate Hok).
  destruct (GetOrCreateToken random card db1) as [[token|e] db2] eqn:Et; injection E as <- <- <-; [|discriminate Hok]. cbn [tkToken].
  unfold GetOrCreateToken in Et. destruct (selectToken card db1) as [r1 db3] eqn:E1. apply selectToken_spec in E1 as [Ht3 Hr1].
  assert (Hin : pctr_tokens (tables db2) !! card = Some token /\ tokens_hex (tables db2)).
  { destruct r1 as [tok|e]; [injection Et as -> ->; rewrite Ht3, Ht1; rewrite <-Ht1 at 1; split; [by apply Hr1|done]|]. destruct e; try discriminate Et.
    destruct random as [bs|]; [|discriminate Et]. unfold bind in Et. pose proof (insertToken_hex (EncodeToString bs) card db3) as Hi.
    destruct (insertToken _ card db3) as [[u|e] db4]; [|discriminate Et]. apply selectToken_spec in Et as [Ht5 Hr5]. cbn [snd] in Hi. rewrite Ht5.
    split; [by apply Hr5|]. apply Hi; [by exists bs; split; [apply Hr|]|by rewrite Ht3, Ht1]. }
  destruct Hin as [Hin Hhex]. split_and!; try done. by apply (Hhex card).
Qed.
End Tokens.

(** ** A gate, its payment authority and its station *)

Record TollSite := mkToll { tl_ticks : nat; tl_pa : DB Tables; tl_station : PerTypeBatcher; tl_flights : list (list Transaction) }.

Lemma suffix_tokenize x : HasSuffix (x ++ "/tokenize") "/tokenize" = true.
Proof. unfold HasSuffix. rewrite str_rev_app. apply HasPrefix_true. by eexists. Qed.
Lemma suffix_not_tokenize x : HasSuffix (x ++ "/transaction") "/tokenize" = false.
Proof. unfold HasSuffix. by rewrite str_rev_app. Qed.

Section Toll.
Context (PA : Server) (clk : nat -> Z) (cfg : GateConfig) (paAddr stAddr stationID : string) (decode_error : string -> string).
(** RSA-OAEP under the gate's public and the authority's private key, with
    the randomness of the moment; the bytes [rand.Read] gives for a token *)
Context (encrypt : nat -> string -> option string) (decrypt : string -> option string) (minFunds : Z) (random : nat -> option (list Z)).

(** Look-ups succeed and posts arrive: at the authority's [/tokenize] and the
    station's [/transaction]. *)
#[local] Instance toll_world : GateWorld TollSite := {|
  g_query := fun task w => (Ok (if String.eqb task (paTask cfg) then paAddr else stAddr), w);
  g_post := fun url body w =>
    if HasSuffix url "/tokenize" then
      let '(status, r, db) := tokenizeHandler (H := PA) decrypt minFunds (random (tl_ticks w)) "POST" body (tl_pa w) in
      (Ok (status, encode (tokenizeResponse_json r)), mkToll (tl_ticks w) db (tl_station w) (tl_flights w))
    else
      let '(status, ack, b, batch) := handleTransaction stationID (clk (tl_ticks w)) (clk (tl_ticks w)) "POST" body (tl_station w) in
      (Ok (status, encode (ack_json ack)), mkToll (tl_ticks w) (tl_pa w) b (match batch with [] => tl_flights w | _ => tl_flights w ++ [batch] end));
  g_now := fun w => (clk (tl_ticks w), mkToll (S (tl_ticks w)) (tl_pa w) (tl_station w) (tl_flights w));
  g_sleep := fun _ w => w;
  g_encrypt := fun card w => (base64Encode <$> encrypt (tl_ticks w) card, w) |}.

Context (oaep : forall n m ct, encrypt n m = Some ct -> decrypt ct = Some m).
Context (Hpa : TrimSpace paAddr <> ""%string) (Hst : TrimSpace stAddr <> ""%string) (Hkey : hasKey cfg = true).
Context (Hgate : TrimSpace (gateID cfg) <> ""%string) (Hsid : TrimSpace stationID <> ""%string).
Context (Hug : valid_utf8 (gateID cfg) = true) (Hus : valid_utf8 (gateStation cfg) = true).

Lemma resolve_toll task fb c w : exists addr, TrimSpace addr <> ""%string /\
  resolveBase task fb c w = (Ok (EnsureHTTPBase addr), mkCached addr (clk (tl_ticks w)), mkToll (S (tl_ticks w)) (tl_pa w) (tl_station w) (tl_flights w)).
Proof. eexists. split; [|reflexivity]. by destruct (String.eqb _ _). Qed.

(** The authority's endpoint undoes what the gate did to the card number. *)
Lemma tokenize_received n card ct rnd db : encrypt n card = Some ct -> TrimSpace card = card -> card <> ""%string ->
  tokenizeHandler (H := PA) decrypt minFunds rnd "POST" (print (tokenizeRequest_json (base64Encode ct))) db = tokenize (H := PA) minFunds rnd card db.
Proof.
  intros He Ht Hne. unfold tokenizeHandler. rewrite String.eqb_refl. cbn [negb].
  rewrite tokenizeRequest_wire by (apply graphic_utf8, base64_graphic). rewrite TrimSpace_graphic by apply base64_graphic.
  rewrite base64_roundtrip, (oaep _ _ _ He), Ht. by rewrite (proj2 (String.eqb_neq _ _) Hne).
Qed.

Lemma askPA_toll card ct c w resp db' : encrypt (S (tl_ticks w)) card = Some ct -> TrimSpace card = card -> card <> ""%string ->
  (forall bs, random (S (tl_ticks w)) = Some bs -> bs <> []) -> tokens_hex (tables (tl_pa w)) ->
  tokenize (H := PA) minFunds (random (S (tl_ticks w))) card (tl_pa w) = (200, resp, db') -> tkOK resp = true ->
  exists c', askPA decode_error cfg card c w = (true, "ok"%string, tkToken resp, c', mkToll (S (tl_ticks w)) db' (tl_station w) (tl_flights w)).
Proof.
  intros He Ht Hne Hr Hm Etok Hok. destruct (tokenize_ok _ _ _ _ _ _ _ Etok Hok Hr Hm) as (_ & Eresp & Hhex & _).
  destruct resp as [ok token reason]. injection Eresp as -> ->. cbn [tkToken] in *. destruct (hex_token_text _ Hhex) as (_ & _ & Hu). unfold askPA. rewrite Hkey. cbn [negb].
  destruct (resolve_toll (paTask cfg) (paBase cfg) (paCache c) w) as (addr & Ha & ->). cbn [baseOf]. rewrite EnsureHTTPBase_nonempty by done.
  cbn [g_encrypt toll_world tl_ticks]. rewrite He. cbn [fmap option_fmap option_map]. unfold httpPostJSON. cbn [g_post toll_world]. rewrite suffix_tokenize.
  cbn [tl_ticks tl_pa tl_station tl_flights]. rewrite (tokenize_received _ _ _ _ _ He Ht Hne), Etok.
  cbn [Z.ltb Z.leb Z.compare Pos.compare Pos.compare_cont orb]. rewrite tokenizeResponse_wire by done. by eexists.
Qed.

(** The transaction of the tap: the token, and nothing of the card *)
Definition tollTx (token : string) (tapped sent : Z) : Transaction :=
  mkTransaction (gateID cfg ++ "-" ++ lit_of_int sent) "PCTR" "" token (TrimSpace (gateID cfg)) stationID (Format tapped) true "ok".

Lemma tellStation_toll cardID token tapped c w n batch b : hex_token token ->
  Add (tollTx token tapped (clk (S (tl_ticks w)))) (tl_station w) = (n, batch, b) -> in_int64 (Z.of_nat n) ->
  exists c', tellStation decode_error cfg "PCTR" cardID token (Format tapped) "ok" c w =
    (true, "ok"%string, c', mkToll (S (S (tl_ticks w))) (tl_pa w) b (match batch with [] => tl_flights w | _ => tl_flights w ++ [batch] end)).
Proof.
  intros Hhex Ea Hn. destruct (hex_token_text _ Hhex) as (Hne & Ht & Hu). unfold tellStation.
  destruct (resolve_toll (stationTask cfg) (stationBase cfg) (stationCache c) w) as (addr & Ha & ->). cbn [baseOf]. rewrite EnsureHTTPBase_nonempty by done.
  cbn [g_now toll_world tl_ticks tl_pa tl_station tl_flights]. unfold httpPostJSON. cbn [g_post toll_world].
  rewrite suffix_not_tokenize. cbn [String.eqb Ascii.eqb Bool.eqb tl_ticks tl_pa tl_station tl_flights].
  erewrite (station_takes cfg stationID) by (try exact Ea; try done; right; by split_and!).
  cbn [Z.ltb Z.leb Z.compare Pos.compare Pos.compare_cont orb]. rewrite ack_wire by done. by eexists.
Qed.

(** C15: a tap of a PCTR card, end to end.  At a gate whose payment authority
    and station can be reached, a tap of a card to which the authority gives
    a token opens the gate: the encryption, the base64 text and the JSON
    around the card number are undone exactly.  The station has buffered one
    transaction for it, with the token the authority keeps for this card and
    no card number, and the row the back office will make of it is complete,
    is owed by that token and carries the gate's clock at the tap to the
    nanosecond. *)
Theorem pctr_tap_end_to_end line card ct c w resp db' n batch b :
  let tapped := clk (tl_ticks w) in
  let tx := tollTx (tkToken resp) tapped (clk (3 + tl_ticks w)) in
  parseTap line = Ok ("PCTR"%string, card) -> four_digit_year tapped -> IsZero tapped = false ->
  encrypt (2 + tl_ticks w) card = Some ct -> (forall bs, random (2 + tl_ticks w)%nat = Some bs -> bs <> []) -> tokens_hex (tables (tl_pa w)) ->
  tokenize (H := PA) minFunds (random (2 + tl_ticks w)%nat) card (tl_pa w) = (200, resp, db') -> tkOK resp = true ->
  Add tx (tl_station w) = (n, batch, b) -> in_int64 (Z.of_nat n) ->
  (exists c', handleTap decode_error cfg line c w = (true, "ok"%string, c',
     mkToll (4 + tl_ticks w) db' b (match batch with [] => tl_flights w | _ => tl_flights w ++ [batch] end))) /\
  pctr_tokens (tables db') !! card = Some (tkToken resp) /\
  exists row, pctrboRow tx = Some row /\ incomplete row = false /\ ~ foreign (PCTRBO (H := PA)) tx /\
    Owner row = tkToken resp /\ GateID row = TrimSpace (gateID cfg) /\ StationID row = TrimSpace stationID /\ TapTime row = tapped /\ Allowed row = true.
Proof.
  intros tapped tx Hp Hy Hz He Hr Hm Etok Hok Ea Hn.
  destruct (parseTap_type _ _ _ Hp) as [_ Hne]. pose proof (parseTap_trim _ _ _ Hp) as Ht.
  destruct (tokenize_ok _ _ _ _ _ _ _ Etok Hok Hr Hm) as (_ & _ & Hhex & Hin & _). destruct (hex_token_text _ Hhex) as (Hnt & Htt & _). split; [|split; [done|]].
  - unfold handleTap. rewrite Hp. cbn [g_now toll_world]. change (String.eqb "PCTR" "OY") with false. cbv iota. fold tapped.
    destruct (askPA_toll card ct c (mkToll (S (tl_ticks w)) (tl_pa w) (tl_station w) (tl_flights w)) resp db') as [c1 ->]; [done..|].
    cbn [negb]. by apply (tellStation_toll card (tkToken resp) tapped c1 (mkToll (2 + tl_ticks w) db' (tl_station w) (tl_flights w)) n batch b).
  - unfold pctrboRow, tx, tollTx. cbn [tx_id tx_type tx_card tx_token tx_gate tx_station tx_time tx_allowed tx_reason].
    rewrite TrimSpace_Format, Parse_Format, TrimSpace_idemp, Htt by done. cbn. rewrite (proj2 (String.eqb_neq _ _) Hnt).
    eexists. split; [reflexivity|]. split_and!; try done.
    + unfold incomplete, empty. cbn [TransactionID Owner GateID StationID TapTime]. rewrite !(proj2 (String.eqb_neq _ _)); try done. apply dashed_id.
    + intros [[Hf _]|[_ Hf]]; [discriminate Hf|by apply Hf].
Qed.
End Toll.

(** ** Witnesses and the restitution file *)

Lemma report_over_http_witness :
  let d := AnswerLost "timeout" in
  reportTick (demo_server []) bad (queryOf d "pa:9103") (debtsPost (demo_server []) d) "sim.pa" "" demo_bo (mkDB empty_tables 0) =
  reportCycle (demo_server []) (demo_server []) true true false demo_bo (mkDB empty_tables 0).
Proof.
  intros d. apply (report_over_http (demo_server []) (demo_server []) "pa:9103" "sim.pa" bad ltac:(by vm_compute) d).
  assert (E : pctr_debts (tables (RunPCTRJourneyConstruction (H := demo_server []) demo_bo).2) = {[8 := mkDebt "c" 150 None]}) by (by vm_compute).
  split; rewrite E; [|by vm_compute]. intros k x [<- <-]%lookup_singleton_Some. by vm_compute.
Defined.

Definition demo_encrypt (n : nat) (m : string) : option string := Some (String (ascii_of_nat n) m).
Definition demo_decrypt (c : string) : option string := match c with EmptyString => None | String _ m => Some m end.
Definition demo_toll : TollSite :=
  mkToll 0 (mkDB (set_cards {["2001"%string := mkCard true false 300]} empty_tables) 0) (NewPerTypeBatcher 5) [].
Definition keyed_gate : GateConfig :=
  mkGate "gate-1" (normalizeStationID "1") (stationTaskOf "" "1") "sim.cs" "sim.pa" "" "" "" true.
Definition demo_random (n : nat) : option (list Z) := Some [171; Z.of_nat n].
Definition demo_toll_world : GateWorld TollSite :=
  toll_world (demo_server []) demo_clock keyed_gate "pa:9103" "http://st:9100/" "1" demo_encrypt demo_decrypt 1 demo_random.

Lemma pctr_tap_end_to_end_witness :
  exists c' w', handleTap (H := demo_toll_world) bad keyed_gate " pctr: 2001" no_caches demo_toll = (true, "ok"%string, c', w') /\
    tx_token <$> buffered "PCTR" (tl_station w') = ["ab02"%string].
Proof.
  set (tx := tollTx keyed_gate "1" "ab02" (demo_clock 0) (demo_clock 3)).
  destruct (Add tx (NewPerTypeBatcher 5)) as [[n batch] b] eqn:Ea.
  assert (Hb : buffered "PCTR" b = [tx]).
  { replace b with (Add tx (NewPerTypeBatcher 5)).2 by (by rewrite Ea). by vm_compute. }
  assert (Hn : n = 1%nat).
  { replace n with (Add tx (NewPerTypeBatcher 5)).1.1 by (by rewrite Ea). by vm_compute. }
  destruct (tokenize (H := demo_server []) 1 (demo_random 2) "2001" (tl_pa demo_toll)) as [[st resp] db'] eqn:Et.
  assert (st = 200 /\ resp = mkTokenize true "ab02" "ok") as [-> ->].
  { replace st with (tokenize (H := demo_server []) 1 (demo_random 2) "2001" (tl_pa demo_toll)).1.1 by (by rewrite Et).
    replace resp with (tokenize (H := demo_server []) 1 (demo_random 2) "2001" (tl_pa demo_toll)).1.2 by (by rewrite Et). by vm_compute. }
  destruct (pctr_tap_end_to_end (demo_server []) demo_clock keyed_gate "pa:9103" "http://st:9100/" "1" bad demo_encrypt demo_decrypt 1 demo_random
    ltac:(intros ? ? ? [= <-]; done) ltac:(by vm_compute) ltac:(by vm_compute) ltac:(done) ltac:(by vm_compute) ltac:(by vm_compute) ltac:(by vm_compute) ltac:(by vm_compute)
    " pctr: 2001" "2001" (String (ascii_of_nat 2) "2001") no_caches demo_toll (mkTokenize true "ab02" "ok") db' n batch b) as [[c' E] _].
  - by vm_compute.
  - unfold four_digit_year. vm_compute. split; discriminate.
  - by vm_compute.
  - done.
  - by intros bs [= <-].
  - apply map_Forall_empty.
  - exact Et.
  - done.
  - exact Ea.
  - subst n. unfold in_int64, int64_min, int64_max. simpl. lia.
  - exists c'. eexists. split; [exact E|]. cbn [tl_station]. by rewrite Hb.
Defined.

(** The name of a restitution file has the resolution of a second and an
    existing file is truncated: of two restitutions within a second the first
    file is gone, and the debts it listed stay marked as exported. *)
Theorem restitution_overwritten :
  let handler now := restitutionHandler (H := demo_server []) map_to_list true (fun _ => true) "out" now "POST" in
  let '(st1, _, disk1, db1) := handler 1709193600100000000 ∅ (mkDB demo_pa 10) in
  let '(_, db2) := InsertDebts (H := demo_server []) [mkPADebt "t2" 70] db1 in
  let '(st2, _, disk2, db3) := handler 1709193600900000000 disk1 db2 in
  let path := "out/restitution_20240229_080000.csv"%string in
  let nl := String LF ""%string in
  st1 = 200 /\ st2 = 200 /\
  map_to_list disk1 = [(path, "card_id,amount_cents" ++ nl ++ "c,150" ++ nl)]%string /\
  map_to_list disk2 = [(path, "card_id,amount_cents" ++ nl ++ "d,70" ++ nl)]%string /\
  outstanding (pa_debts (tables db3)) = [].
Proof. vm_compute. split_and!; reflexivity. Qed.
