(* ===== verification/Seeding.v ===== *)
(** * What the simulated services put in their tables when they start

    The start of Simulation/pa/main.go, Simulation/cs/main.go and
    Simulation/pctrbo/main.go between the creation of the tables and the
    registration at the proxy: fixed cards and fares, tickets, and any number
    of extra cards in batches.  An error ends the process. *)

From Stdlib Require Import Ascii String.
From S2P Require Import Prelude.
From stdpp Require Import list sorting.
From S2P Require Import GoStrings GoURL GoJSON Utf8 GoBase64 GoAny SQL CardDB Journeys JourneysFacts Taps Debts.
Local Open Scope Z_scope.
Local Open Scope tds_scope.

#[local] Arguments String.append : simpl nomatch.

Section Seeding.
Context `{Server}.
Abbreviation Store A := (Call (DB Tables) A).

Definition batchSize : Z := 1000.

(** The records of a batch: [n] of them after [seeded] others *)
Definition seedBatch (start balance seeded n : Z) : list Record_ :=
  (fun i => mkRecord (lit_of_int (wrap64 (start + seeded + i))) true false balance) <$> seqZ 0 n.

(** The loop over the batches; [None] when the fuel is spent *)
Fixpoint seedLoop (fuel : nat) (start balance total seeded : Z) (db : DB Tables) : option (result SQLError unit * DB Tables) :=
  if seeded <? total then
    match fuel with
    | O => None
    | S fuel =>
        let n := Z.min (total - seeded) batchSize in
        match Seed (seedBatch start balance seeded n) db with
        | (Err e, db) => Some (Err e, db)
        | (Ok _, db) => seedLoop fuel start balance total (seeded + n) db
        end
    end
  else Some (Ok tt, db).

(** As many rounds as there are cards are enough. *)
Definition seedWorking (total start balance : Z) (db : DB Tables) : option (result SQLError unit * DB Tables) :=
  if 0 <? total then seedLoop (Z.to_nat total) (if start <? 0 then 0 else start) balance total 0 db else Some (Ok tt, db).

(** [m] before a loop that may run out of fuel *)
Definition before (m : Store unit) (k : DB Tables -> option (result SQLError unit * DB Tables)) (db : DB Tables)
  : option (result SQLError unit * DB Tables) :=
  match m db with (Err e, db) => Some (Err e, db) | (Ok _, db) => k db end.

(** ** The payment authority *)

Definition paCards : list Record_ :=
  [mkRecord "2001" true false 300; mkRecord "2002" true false 0; mkRecord "2003" true false 100; mkRecord "2999" true true 999]%string.

Definition atLeastOne (minFundsCents : Z) : Z := if minFundsCents <=? 0 then 1 else minFundsCents.

Definition paBalance (minFundsCents balance : Z) : Z :=
  let balance := if balance <=? 0 then 300 else balance in if balance <? minFundsCents then minFundsCents else balance.

Definition seedPA (minFundsFlag total start balance : Z) : DB Tables -> option (result SQLError unit * DB Tables) :=
  before (Seed paCards) (seedWorking total start (paBalance (atLeastOne minFundsFlag) balance)).

(** ** The card system *)

Definition csCards : list Record_ :=
  [mkRecord "1001" true false 500; mkRecord "1002" true false 0; mkRecord "1003" false false 250; mkRecord "1999" true true 999]%string.

(** The same fares at the card system and at the back office *)
Definition fares : list StationCost :=
  [mkStationCost "1" "1" 0; mkStationCost "1" "2" 150; mkStationCost "2" "3" 200; mkStationCost "1" "3" 300]%string.

Definition ticketStations (flag : string) : list string :=
  List.filter (fun s => negb (String.eqb s "")) (TrimSpace <$> splitByte "," "" (TrimSpace flag)).

Definition seedCSTickets (now : Z) (seedTickets : bool) (stations : string) : Store unit :=
  if seedTickets then SeedTickets now (ticketStations stations) else ret tt.

Definition seedCS (now : Z) (seedTickets : bool) (stations : string) (total start balance : Z)
  : DB Tables -> option (result SQLError unit * DB Tables) :=
  before (Seed csCards;;; SeedStationCosts fares;;; seedCSTickets now seedTickets stations)
         (seedWorking total start (if balance <=? 0 then 500 else balance)).

(** ** The back office *)

Definition seedPCTRBO : Store unit := SeedStationCosts fares.

End Seeding.

(** ** Cards a seeding may add *)

Definition addCard (m : gmap string CardRow) (r : Record_) : gmap string CardRow := insertNew (CardID r) (cardRow r) m.

(** From [m] to [m'] no card is changed and only cards of [recs] are added. *)
Definition only_adds (recs : list Record_) (m m' : gmap string CardRow) : Prop :=
  forall i, match m !! i with
            | Some c => m' !! i = Some c
            | None => forall c, m' !! i = Some c -> exists r, r ∈ recs /\ CardID r = i /\ c = cardRow r
            end.

Lemma only_adds_refl recs m : only_adds recs m m.
Proof. intros i. destruct (m !! i) eqn:E; congruence. Qed.

Lemma only_adds_trans recs m1 m2 m3 : only_adds recs m1 m2 -> only_adds recs m2 m3 -> only_adds recs m1 m3.
Proof.
  intros H1 H2 i. specialize (H1 i). specialize (H2 i). destruct (m1 !! i) as [c|]; [by rewrite H1 in H2|]. intros c Hc.
  destruct (m2 !! i) as [c2|]; [|by apply H2]. apply H1. congruence.
Qed.

Lemma only_adds_more recs recs' m m' : recs ⊆ recs' -> only_adds recs m m' -> only_adds recs' m m'.
Proof. intros Hs Hm i. specialize (Hm i). destruct (m !! i); [done|]. intros c (r & Hr & Hc)%Hm. exists r. by split; [apply Hs|]. Qed.

Lemma addCard_adds r m : only_adds [r] m (addCard m r).
Proof.
  intros i. destruct (m !! i) as [c|] eqn:E; [by apply insertNew_old|]. intros c Hc.
  destruct (insertNew_new _ _ _ _ _ E Hc) as [-> ->]. exists r. split; [left|done].
Qed.

Lemma addCards_adds recs m : only_adds recs m (foldl addCard m recs).
Proof.
  revert m. induction recs as [|r recs IH]; intros m; [apply only_adds_refl|]. cbn [foldl].
  eapply only_adds_trans; [eapply only_adds_more, addCard_adds|eapply only_adds_more, IH]; set_solver.
Qed.

Lemma addCards_present recs m r : r ∈ recs -> is_Some (foldl addCard m recs !! CardID r).
Proof.
  revert m. induction recs as [|x recs IH]; intros m Hr; [by apply not_elem_of_nil in Hr|]. cbn [foldl]. apply elem_of_cons in Hr as [->|Hr]; [|by apply IH].
  destruct (insertNew_key (CardID x) (cardRow x) m) as [c Hc]. pose proof (addCards_adds recs (addCard m x) (CardID x)) as Ha. unfold addCard in Ha at 1.
  rewrite Hc in Ha. by eexists.
Qed.

Section Facts.
Context `{Server}.
Abbreviation Store A := (Call (DB Tables) A).

(** Whatever fails, [m] only adds cards of [recs]; all that have a name when it succeeds. *)
Definition has_named (recs : list Record_) (m : gmap string CardRow) : Prop :=
  forall x, x ∈ recs -> TrimSpace (CardID x) <> ""%string -> is_Some (m !! CardID x).
Definition seeds (recs : list Record_) (m : Store unit) : Prop := forall db r db', m db = (r, db') ->
  only_adds recs (cards (tables db)) (cards (tables db')) /\ (r = Ok tt -> has_named recs (cards (tables db'))).

Lemma only_adds_has recs recs' m m' : only_adds recs m m' -> has_named recs' m -> has_named recs' m'.
Proof. intros Ha Hh x Hx Hn. destruct (Hh x Hx Hn) as [c Hc]. specialize (Ha (CardID x)). rewrite Hc in Ha. by exists c. Qed.

Lemma seeds_ret : seeds [] (ret tt).
Proof. intros db r db' [= <- <-]. split; [apply only_adds_refl|]. intros _ x Hx. by apply not_elem_of_nil in Hx. Qed.

Lemma seeds_seq a b m k : seeds a m -> seeds b k -> seeds (a ++ b) (m;;; k).
Proof.
  intros Hm Hk db r db' E. unfold bind in E. destruct (m db) as [[[]|e] db1] eqn:Em; destruct (Hm _ _ _ Em) as [Ha Hh].
  - destruct (Hk _ _ _ E) as [Ha' Hh']. split; [eapply only_adds_trans; (eapply only_adds_more; [|eassumption]); set_solver|].
    intros Hr x [Hx|Hx]%elem_of_app Hn; [|by apply Hh']. by apply (only_adds_has _ _ _ _ Ha' (Hh eq_refl)).
  - injection E as <- <-. split; [by eapply only_adds_more; [|exact Ha]; set_solver|done].
Qed.

Lemma seeds_for {A} (f : A -> Store unit) (recs : A -> list Record_) xs : (forall x, seeds (recs x) (f x)) -> seeds (mjoin (recs <$> xs)) (forRange f xs).
Proof. intros Hf. induction xs as [|x xs IH]; [apply seeds_ret|]. by apply (seeds_seq (recs x) _ (f x)). Qed.

(** The statements: one that adds cards, and one that leaves them alone *)
Lemma seeds_exec recs : seeds recs (ExecContext (fun _ t => Some (set_cards (foldl addCard (cards t) recs) t))).
Proof.
  intros db r db' E. unfold ExecContext in E. apply run_spec in E as [H1 H2]. split.
  - destruct H1 as [->|[a [= _ <-]]]; [apply only_adds_refl|apply addCards_adds].
  - intros ->. specialize (H2 tt eq_refl). injection H2 as <-. intros x Hx _. by apply addCards_present.
Qed.

Lemma seeds_run {A} (f : nat -> Tables -> option (A * Tables)) : (forall n t a t', f n t = Some (a, t') -> cards t' = cards t) ->
  seeds [] (run f;;; ret tt).
Proof.
  intros Hf db r db' E. split; [|intros _ x Hx; by apply not_elem_of_nil in Hx]. unfold bind in E. destruct (run f db) as [r1 db1] eqn:Er.
  apply run_spec in Er as [H1 _]. assert (Ed : db' = db1) by (destruct r1; by injection E). subst db'.
  destruct H1 as [->|[a Ha]]; [apply only_adds_refl|]. rewrite (Hf _ _ _ _ Ha). apply only_adds_refl.
Qed.

Lemma seeds_exec_frame (f : nat -> Tables -> option Tables) : (forall n t t', f n t = Some t' -> cards t' = cards t) -> seeds [] (ExecContext f).
Proof.
  intros Hf db r db' E. split; [|intros _ x Hx; by apply not_elem_of_nil in Hx]. unfold ExecContext in E. apply run_spec in E as [[->|[a Ha]] _]; [apply only_adds_refl|].
  destruct (f (tick db) (tables db)) as [t|] eqn:Ef; [|discriminate Ha]. injection Ha as _ <-. rewrite (Hf _ _ _ Ef). apply only_adds_refl.
Qed.

Lemma join_nils {A B} (xs : list B) : mjoin ((fun _ => @nil A) <$> xs) = [].
Proof. induction xs as [|x xs IH]; [done|]. exact IH. Qed.

Lemma seeds_for_frame {A} (f : A -> Store unit) xs : (forall x, seeds [] (f x)) -> seeds [] (forRange f xs).
Proof. intros Hf. rewrite <-(join_nils (A := Record_) xs). by apply (seeds_for f (fun _ => [])). Qed.

Lemma join_singletons {A} (xs : list A) : mjoin ((fun x => [x]) <$> xs) = xs.
Proof. induction xs as [|x xs IH]; [done|]. cbn. f_equal. exact IH. Qed.

(** Both ways of [Seed], by bulk and one by one *)
Lemma Seed_seeds recs : seeds recs (Seed recs).
Proof.
  unfold Seed. destruct recs as [|r0 recs0]; [apply seeds_ret|]. set (recs := r0 :: recs0). destruct (100 <? length recs)%nat.
  - intros db r db' E. unfold seedCardsBulk in E. set (filtered := List.filter _ recs) in E.
    assert (Hin : forall x, x ∈ filtered <-> x ∈ recs /\ TrimSpace (CardID x) <> ""%string).
    { intros x. unfold filtered. rewrite !list_elem_of_In, filter_In. unfold empty. by rewrite negb_true_iff, String.eqb_neq. }
    assert (Hf : seeds filtered (match filtered with [] => ret tt | _ => forRange (fun chunk => ExecContext (fun _ t =>
      Some (set_cards (foldl (fun m r => insertNew (CardID r) (cardRow r) m) (cards t) chunk) t))) (chunksOf (length filtered) 999 filtered) end)).
    { clearbody filtered. destruct filtered as [|x l]; [apply seeds_ret|]. rewrite <-(chunksOf_concat 999 (x :: l) (length (x :: l))) at 1 by done.
      rewrite <-(list_fmap_id (chunksOf (length (x :: l)) 999 (x :: l))) at 1. unfold Datatypes.id. apply (seeds_for _ (fun x => x)). apply seeds_exec. }
    destruct (Hf _ _ _ E) as [Ha Hh]. split; [by eapply only_adds_more; [|exact Ha]; intros x [? _]%Hin|].
    intros Hr x Hx Hn. by apply Hh; [|apply Hin|].
  - rewrite <-(join_singletons recs) at 1. apply seeds_for. intros x. unfold empty. destruct (String.eqb_spec (CardID x) "") as [E|]; [|apply (seeds_exec [x])].
    intros db r db' [= <- <-]. split; [apply only_adds_refl|]. intros _ y ->%list_elem_of_singleton Hn. by rewrite E in Hn.
Qed.

Lemma SeedStationCosts_seeds costs : seeds [] (SeedStationCosts costs).
Proof. apply seeds_for_frame. intros c. destruct (_ || _); [apply seeds_ret|]. destruct (_ <? _); [apply seeds_ret|]. apply seeds_exec_frame. by intros ? ? ? [= <-]. Qed.

Lemma SeedTickets_seeds now stations : seeds [] (SeedTickets now stations).
Proof.
  unfold SeedTickets. destruct stations as [|s l]; [apply seeds_ret|]. apply seeds_for_frame. intros t. apply seeds_run.
  intros n tb a t' E. unfold insertSerial in E. by destruct (tickets tb !! _); [|injection E as _ <-].
Qed.

(** ** The loop *)

Definition card_of (start balance k : Z) : Record_ := mkRecord (lit_of_int (wrap64 (start + k))) true false balance.

Lemma elem_seedBatch start balance seeded n x :
  x ∈ seedBatch start balance seeded n <-> exists k, seeded <= k < seeded + n /\ x = card_of start balance k.
Proof.
  unfold seedBatch. rewrite list_elem_of_fmap. split.
  - intros (i & -> & Hi%elem_of_seqZ). exists (seeded + i). split; [lia|]. unfold card_of. by rewrite Z.add_assoc.
  - intros (k & Hk & ->). exists (k - seeded). rewrite elem_of_seqZ. split; [|lia]. unfold card_of. do 3 f_equal. lia.
Qed.

Lemma card_named start balance k : TrimSpace (CardID (card_of start balance k)) <> ""%string.
Proof.
  cbn [card_of CardID]. rewrite TrimSpace_graphic by (by apply lit_of_int_all).
  unfold lit_of_int. destruct (Z.to_int _) as [d|d]; [|done]. by destruct d.
Qed.

(** The cards [seeded] to [total] of a run *)
Definition cards_between (start balance from to : Z) : list Record_ := card_of start balance <$> seqZ from (to - from).

Lemma elem_cards_between start balance from to x :
  x ∈ cards_between start balance from to <-> exists k, from <= k < to /\ x = card_of start balance k.
Proof.
  unfold cards_between. rewrite list_elem_of_fmap. split; [intros (k & -> & Hk%elem_of_seqZ)|intros (k & Hk & ->)]; exists k; rewrite ?elem_of_seqZ; split; try done; lia.
Qed.

(** The loop ends, and adds the cards that are left. *)
Lemma seedLoop_seeds fuel start balance total seeded db : (Z.to_nat (total - seeded) <= fuel)%nat ->
  exists r db', seedLoop fuel start balance total seeded db = Some (r, db') /\
    only_adds (cards_between start balance seeded total) (cards (tables db)) (cards (tables db')) /\
    (r = Ok tt -> has_named (cards_between start balance seeded total) (cards (tables db'))).
Proof.
  revert seeded db. induction fuel as [|fuel IH]; intros seeded db Hf; cbn [seedLoop]; destruct (Z.ltb_spec seeded total) as [Hlt|Hge]; try lia.
  1,3: exists (Ok tt), db; split_and!; [done|apply only_adds_refl|]; intros _ x (k & Hk & _)%elem_cards_between; lia.
  set (n := Z.min (total - seeded) batchSize). assert (Hn : 0 < n <= total - seeded) by (unfold n, batchSize; lia).
  destruct (Seed (seedBatch start balance seeded n) db) as [r1 db1] eqn:Es. apply Seed_seeds in Es as [Ha Hh].
  assert (Hsub : seedBatch start balance seeded n ⊆ cards_between start balance seeded total).
  { intros x (k & Hk & ->)%elem_seedBatch. apply elem_cards_between. exists k. split; [lia|done]. }
  destruct r1 as [[]|e]; [|exists (Err e), db1; split_and!; [done|by eapply only_adds_more|done]].
  destruct (IH (seeded + n) db1 ltac:(lia)) as (r & db' & -> & Ha' & Hh'). exists r, db'. split_and!; [done| |].
  - eapply only_adds_trans; [by eapply only_adds_more|]. eapply only_adds_more, Ha'.
    intros x (k & Hk & ->)%elem_cards_between. apply elem_cards_between. exists k. split; [lia|done].
  - intros Hr x (k & Hk & ->)%elem_cards_between Hname. destruct (Z.lt_ge_cases k (seeded + n)).
    + apply (only_adds_has _ _ _ _ Ha' (Hh eq_refl)); [|done]. apply elem_seedBatch. exists k. split; [lia|done].
    + apply Hh'; [done| |done]. apply elem_cards_between. exists k. split; [lia|done].
Qed.

Lemma seedWorking_seeds total start balance db : exists r db', seedWorking total start balance db = Some (r, db') /\
  only_adds (cards_between (Z.max start 0) balance 0 total) (cards (tables db)) (cards (tables db')) /\
  (r = Ok tt -> has_named (cards_between (Z.max start 0) balance 0 total) (cards (tables db'))).
Proof.
  unfold seedWorking. replace (if start <? 0 then 0 else start) with (Z.max start 0) by (destruct (Z.ltb_spec start 0); lia). destruct (Z.ltb_spec 0 total).
  - apply seedLoop_seeds. lia.
  - exists (Ok tt), db. split_and!; [done|apply only_adds_refl|]. intros _ x (k & Hk & _)%elem_cards_between. lia.
Qed.

(** What comes before the extra cards *)
Lemma before_seeds recs m total start balance db : seeds recs m -> exists r db', before m (seedWorking total start balance) db = Some (r, db') /\
  only_adds (recs ++ cards_between (Z.max start 0) balance 0 total) (cards (tables db)) (cards (tables db')) /\
  (r = Ok tt -> has_named (cards_between (Z.max start 0) balance 0 total) (cards (tables db'))).
Proof.
  intros Hm. unfold before. destruct (m db) as [[[]|e] db1] eqn:E; destruct (Hm _ _ _ E) as [Ha _].
  - destruct (seedWorking_seeds total start balance db1) as (r & db' & -> & Ha' & Hh). exists r, db'. split_and!; [done| |done].
    eapply only_adds_trans; (eapply only_adds_more; [|eassumption]); set_solver.
  - exists (Err e), db1. split_and!; [done|by eapply only_adds_more; [|exact Ha]; set_solver|done].
Qed.

Lemma seedCS_first now tickets stations : seeds (csCards ++ [] ++ []) (Seed csCards;;; SeedStationCosts fares;;; seedCSTickets now tickets stations).
Proof.
  apply seeds_seq; [apply Seed_seeds|]. apply seeds_seq; [apply SeedStationCosts_seeds|].
  unfold seedCSTickets. destruct tickets; [apply SeedTickets_seeds|apply seeds_ret].
Qed.
End Facts.

Lemma only_adds_sub recs m m' : only_adds recs m m' -> m ⊆ m'.
Proof. intros Ha. apply map_subseteq_spec. intros i c Hc. specialize (Ha i). by rewrite Hc in Ha. Qed.

(** A card the authority has put in: it may pass, and keeps its row. *)
Lemma working_card `{Server} card db minFunds balance : fault_at (tick db) = Runs -> cards (tables db) !! card = Some (mkCard true false balance) ->
  minFunds <= balance -> exists db', CardHasMinFunds card minFunds db = (true, "ok"%string, None, db').
Proof.
  intros Hq Hc Hb. unfold CardHasMinFunds, cardState, QueryRow. rewrite (bind_runs _ _ _ _ _ (QueryAll_runs _ _ Hq)), Hc. cbn.
  destruct (Z.ltb_spec balance minFunds); [lia|]. by eexists.
Qed.

(** Starting a service again is harmless.  Whatever the flags, and
    whatever statement fails, the seeding of the payment authority and of the
    card system ends, and no card that was in the table has changed: no
    balance is reset and no block is lifted.  If the authority's seeding
    succeeds, every card it was asked for is in the table, and those that are
    new hold the minimum: the authority finds that they may pass. *)
Theorem seeding_keeps_cards `{Server} now flag tickets stations total start balance db :
  (exists r db', seedPA flag total start balance db = Some (r, db') /\ cards (tables db) ⊆ cards (tables db') /\
    (r = Ok tt -> forall k, 0 <= k < total -> let card := lit_of_int (wrap64 (Z.max start 0 + k)) in
       is_Some (cards (tables db') !! card) /\
       (cards (tables db) !! card = None -> card ∉ CardID <$> paCards -> fault_at (tick db') = Runs ->
          exists db2, CardHasMinFunds card (atLeastOne flag) db' = (true, "ok"%string, None, db2)))) /\
  (exists r db', seedCS now tickets stations total start balance db = Some (r, db') /\ cards (tables db) ⊆ cards (tables db')).
Proof.
  split.
  - destruct (before_seeds paCards (Seed paCards) total start (paBalance (atLeastOne flag) balance) db (Seed_seeds _)) as (r & db' & E & Ha & Hh).
    exists r, db'. split_and!; [done|by eapply only_adds_sub|]. intros Hr k Hk card. set (bal := paBalance (atLeastOne flag) balance) in *.
    assert (Hin : card_of (Z.max start 0) bal k ∈ cards_between (Z.max start 0) bal 0 total) by (apply elem_cards_between; by exists k).
    destruct (Hh Hr _ Hin (card_named _ _ _)) as [c Hc]. cbn [card_of CardID] in Hc. fold card in Hc. split; [by exists c|]. intros Hnew Hfix Hq.
    specialize (Ha card). rewrite Hnew in Ha. destruct (Ha c Hc) as (x & [Hx|(k' & _ & ->)%elem_cards_between]%elem_of_app & Hid & Erow).
    + destruct Hfix. apply list_elem_of_fmap. by exists x.
    + apply (working_card card db' (atLeastOne flag) bal Hq); [by rewrite Hc, Erow|].
      unfold bal, paBalance. destruct (Z.ltb_spec (if balance <=? 0 then 300 else balance) (atLeastOne flag)); lia.
  - destruct (before_seeds _ _ total start (if balance <=? 0 then 500 else balance) db (seedCS_first now tickets stations)) as (r & db' & E & Ha & _).
    exists r, db'. split; [exact E|by eapply only_adds_sub].
Qed.

(** A thousand and two cards, in two batches *)
Example two_batches :
  let db := mkDB (set_cards {["20003"%string := mkCard true true 7]} empty_tables) 0 in
  match seedPA (H := demo_server []) 400 1002 20000 0 db with
  | Some (Ok _, db') => cards (tables db') !! "20003"%string = Some (mkCard true true 7) /\
      cards (tables db') !! "21001"%string = Some (mkCard true false 400) /\ size (cards (tables db')) = 1006%nat
  | _ => False
  end.
Proof. vm_compute. split_and!; reflexivity. Qed.
