(* ===== verification/PCTRKeys.v ===== *)
(** * Simulation/pctrcrypto/keys.go: the keys of contactless cards

    Loading the gate's public and the authority's private key from PEM files,
    and the two cryptographic calls.  crypto/rsa, crypto/x509 and encoding/pem
    are a class; what their documentation says is the class of laws. *)

From Stdlib Require Import Ascii String.
From S2P Require Import Prelude.
From stdpp Require Import list.
From S2P Require Import GoStrings GoJSON GoBase64 SQL CardDB Taps Debts SimHTTP Gate Payment.
Local Open Scope Z_scope.

#[local] Arguments String.append : simpl nomatch.

(** ** The libraries *)

(** A parser of PKIX or PKCS#8 gives a key of any algorithm: [None] is one
    that is not RSA.  [seed] is what [rand.Reader] will give. *)
Class CryptoLib (Pub Priv : Type) := {
  pemDecode : string -> option string;
  ParsePKIXPublicKey : string -> result string (option Pub);
  ParsePKCS1PublicKey : string -> result string Pub;
  ParsePKCS8PrivateKey : string -> result string (option Priv);
  ParsePKCS1PrivateKey : string -> result string Priv;
  EncryptOAEP : nat -> Pub -> string -> result string string;
  DecryptOAEP : Priv -> string -> result string string }.

(** The two encodings of each kind of key, the PEM armour around them, the
    public half of a private key.  A parser gives back what was marshalled in
    its format, and the parser of the first format refuses the second; what is
    encrypted for a key its owner decrypts. *)
Class CryptoLaws (Pub Priv : Type) `{CryptoLib Pub Priv} := {
  pemEncode : string -> string;
  MarshalPKIXPublicKey : Pub -> string;
  MarshalPKCS1PublicKey : Pub -> string;
  MarshalPKCS8PrivateKey : Priv -> string;
  MarshalPKCS1PrivateKey : Priv -> string;
  Public : Priv -> Pub;
  pem_decodes : forall der, pemDecode (pemEncode der) = Some der;
  pkix_parses : forall k, ParsePKIXPublicKey (MarshalPKIXPublicKey k) = Ok (Some k);
  pkcs1_public_parses : forall k, ParsePKCS1PublicKey (MarshalPKCS1PublicKey k) = Ok k;
  pkix_not_pkcs1 : forall k, is_ok (ParsePKIXPublicKey (MarshalPKCS1PublicKey k)) = false;
  pkcs8_parses : forall s, ParsePKCS8PrivateKey (MarshalPKCS8PrivateKey s) = Ok (Some s);
  pkcs1_private_parses : forall s, ParsePKCS1PrivateKey (MarshalPKCS1PrivateKey s) = Ok s;
  pkcs8_not_pkcs1 : forall s, is_ok (ParsePKCS8PrivateKey (MarshalPKCS1PrivateKey s)) = false;
  oaep_decrypts : forall seed s m ct, EncryptOAEP seed (Public s) m = Ok ct -> DecryptOAEP s ct = Ok m }.

(** ** keys.go *)

Inductive KeyError := ReadFailed (e : string) | InvalidPEM | NotRSAKey | ParseFailed (e e2 : string).

Section Keys.
Context {Pub Priv : Type} `{CryptoLib Pub Priv}.
(** [os.ReadFile] *)
Variable ReadFile : string -> result string string.

Definition LoadRSAPublicKeyFromPEMFile (path : string) : result KeyError Pub :=
  match ReadFile path with
  | Err e => Err (ReadFailed e)
  | Ok b =>
      match pemDecode b with
      | None => Err InvalidPEM
      | Some block =>
          match ParsePKIXPublicKey block with
          | Ok (Some pk) => Ok pk
          | Ok None => Err NotRSAKey
          | Err err =>
              match ParsePKCS1PublicKey block with
              | Ok pk => Ok pk
              | Err err2 => Err (ParseFailed err err2)
              end
          end
      end
  end.

Definition LoadRSAPrivateKeyFromPEMFile (path : string) : result KeyError Priv :=
  match ReadFile path with
  | Err e => Err (ReadFailed e)
  | Ok b =>
      match pemDecode b with
      | None => Err InvalidPEM
      | Some block =>
          match ParsePKCS8PrivateKey block with
          | Ok (Some pk) => Ok pk
          | Ok None => Err NotRSAKey
          | Err err =>
              match ParsePKCS1PrivateKey block with
              | Ok pk => Ok pk
              | Err err2 => Err (ParseFailed err err2)
              end
          end
      end
  end.

Definition EncryptCardData (seed : nat) (pub : Pub) (plaintext : string) : result string string := EncryptOAEP seed pub plaintext.
Definition DecryptCardData (priv : Priv) (ciphertext : string) : result string string := DecryptOAEP priv ciphertext.

(** ** Their use at the start of the gate and of the authority *)

(** [pctrPub] of the gate, [None] for nil: the flag, the environment, then
    the usual places.  A key that does not load is only logged. *)
Definition gateKey (getenv : string -> string) (exists_file : string -> bool) (flag : string) : option Pub :=
  let keyPath := TrimSpace flag in
  let keyPath := if String.eqb keyPath "" then TrimSpace (getenv "PCTR_PUBLIC_KEY"%string) else keyPath in
  let resolved := findKeyPath exists_file (TrimSpace keyPath) in
  if String.eqb resolved "" then None
  else match LoadRSAPublicKeyFromPEMFile resolved with Ok pk => Some pk | Err _ => None end.

(** What the handlers see of the calls *)
Definition gateEncrypt (pub : Pub) (seed : nat) (card : string) : option string :=
  match EncryptCardData seed pub card with Ok ct => Some ct | Err _ => None end.
Definition paDecrypt (priv : Priv) (ct : string) : option string :=
  match DecryptCardData priv ct with Ok m => Some m | Err _ => None end.

(** ** Files that hold keys *)

Context `{!CryptoLaws Pub Priv}.

Definition holdsPublic (path : string) (k : Pub) : Prop :=
  exists der, ReadFile path = Ok (pemEncode der) /\ (der = MarshalPKIXPublicKey k \/ der = MarshalPKCS1PublicKey k).
Definition holdsPrivate (path : string) (s : Priv) : Prop :=
  exists der, ReadFile path = Ok (pemEncode der) /\ (der = MarshalPKCS8PrivateKey s \/ der = MarshalPKCS1PrivateKey s).

Lemma load_public path k : holdsPublic path k -> LoadRSAPublicKeyFromPEMFile path = Ok k.
Proof.
  intros (der & Hf & Hd). unfold LoadRSAPublicKeyFromPEMFile. rewrite Hf, pem_decodes. destruct Hd as [-> | ->]; [by rewrite pkix_parses|].
  pose proof (pkix_not_pkcs1 k). destruct (ParsePKIXPublicKey _); [done|]. by rewrite pkcs1_public_parses.
Qed.

Lemma load_private path s : holdsPrivate path s -> LoadRSAPrivateKeyFromPEMFile path = Ok s.
Proof.
  intros (der & Hf & Hd). unfold LoadRSAPrivateKeyFromPEMFile. rewrite Hf, pem_decodes. destruct Hd as [-> | ->]; [by rewrite pkcs8_parses|].
  pose proof (pkcs8_not_pkcs1 s). destruct (ParsePKCS8PrivateKey _); [done|]. by rewrite pkcs1_private_parses.
Qed.

(** What a file must contain to load: a PEM block in the first format that
    is an RSA key, or one the first parser refuses and the second takes *)
Definition publicBlock (b : string) (k : Pub) : Prop :=
  exists der, pemDecode b = Some der /\
    (ParsePKIXPublicKey der = Ok (Some k) \/ is_ok (ParsePKIXPublicKey der) = false /\ ParsePKCS1PublicKey der = Ok k).
Definition privateBlock (b : string) (s : Priv) : Prop :=
  exists der, pemDecode b = Some der /\
    (ParsePKCS8PrivateKey der = Ok (Some s) \/ is_ok (ParsePKCS8PrivateKey der) = false /\ ParsePKCS1PrivateKey der = Ok s).

Lemma load_public_iff path k : LoadRSAPublicKeyFromPEMFile path = Ok k <-> exists b, ReadFile path = Ok b /\ publicBlock b k.
Proof.
  unfold LoadRSAPublicKeyFromPEMFile, publicBlock. split.
  - destruct (ReadFile path) as [b|] eqn:Hr; [|done]. destruct (pemDecode b) as [der|] eqn:Hd; [|done].
    destruct (ParsePKIXPublicKey der) as [[pk|]|] eqn:H1; [|done|]; [intros [= ->]; eauto 10|].
    destruct (ParsePKCS1PublicKey der) eqn:H2; [|done]. intros [= ->]. exists b. split; [done|]. exists der. rewrite H1, H2. eauto.
  - intros (b & -> & der & -> & [-> | [H1 ->]]); [done|]. by destruct (ParsePKIXPublicKey der).
Qed.

Lemma load_private_iff path s : LoadRSAPrivateKeyFromPEMFile path = Ok s <-> exists b, ReadFile path = Ok b /\ privateBlock b s.
Proof.
  unfold LoadRSAPrivateKeyFromPEMFile, privateBlock. split.
  - destruct (ReadFile path) as [b|] eqn:Hr; [|done]. destruct (pemDecode b) as [der|] eqn:Hd; [|done].
    destruct (ParsePKCS8PrivateKey der) as [[pk|]|] eqn:H1; [|done|]; [intros [= ->]; eauto 10|].
    destruct (ParsePKCS1PrivateKey der) eqn:H2; [|done]. intros [= ->]. exists b. split; [done|]. exists der. rewrite H1, H2. eauto.
  - intros (b & -> & der & -> & [-> | [H1 ->]]); [done|]. by destruct (ParsePKCS8PrivateKey der).
Qed.

(** A gate without a key denies a PCTR card before it asks anyone. *)
Lemma keyless_denies {W} `{GateWorld W} decode_error cfg tapLine card c w :
  parseTap tapLine = Ok ("PCTR"%string, card) -> hasKey cfg = false ->
  handleTap decode_error cfg tapLine c w = (false, "missing PCTR public key"%string, c, (g_now w).2).
Proof. intros Ht Hk. unfold handleTap, askPA. rewrite Ht, Hk. by destruct (g_now w). Qed.

(** The encryption of the gate meets what the authority's endpoint relies on. *)
Lemma keys_oaep s seed m ct : gateEncrypt (Public s) seed m = Some ct -> paDecrypt s ct = Some m.
Proof.
  unfold gateEncrypt, paDecrypt, EncryptCardData, DecryptCardData. destruct (EncryptOAEP seed (Public s) m) eqn:E; [|done].
  intros [= <-]. by rewrite (oaep_decrypts _ _ _ _ E).
Qed.

(** C19: the keys of a gate and of the authority fit.  Wherever the path comes
    from, a public key in either of the two formats is the key the gate
    encrypts with, and a private key in either format the one the authority
    decrypts with; if they belong together, a card number encrypted at the
    gate, written as base64 and posted as JSON, is the card the authority
    makes a token for, whatever the randomness.  Which files load is exact: a
    readable PEM block that the first parser takes as an RSA key, or that it
    refuses and the second parser takes; whatever else the file holds, the
    authority has no key to start with, and the gate has none and denies
    every PCTR tap without asking anyone. *)
Theorem keys_fit `{SQL.Server} getenv exists_file flag gatePath paPath :
  findKeyPath exists_file (if String.eqb (TrimSpace flag) "" then TrimSpace (getenv "PCTR_PUBLIC_KEY"%string) else TrimSpace flag) = gatePath ->
  gatePath <> ""%string ->
  (forall s, holdsPrivate paPath s -> holdsPublic gatePath (Public s) ->
    gateKey getenv exists_file flag = Some (Public s) /\ LoadRSAPrivateKeyFromPEMFile paPath = Ok s /\
    forall seed card ct minFunds rnd db, gateEncrypt (Public s) seed card = Some ct -> TrimSpace card = card -> card <> ""%string ->
      tokenizeHandler (paDecrypt s) minFunds rnd "POST" (print (tokenizeRequest_json (base64Encode ct))) db = tokenize minFunds rnd card db) /\
  (forall k, gateKey getenv exists_file flag = Some k <-> exists b, ReadFile gatePath = Ok b /\ publicBlock b k) /\
  (forall s, LoadRSAPrivateKeyFromPEMFile paPath = Ok s <-> exists b, ReadFile paPath = Ok b /\ privateBlock b s) /\
  ((forall b k, ReadFile gatePath = Ok b -> ~ publicBlock b k) ->
    forall W (G : GateWorld W) decode_error cfg tapLine card c w,
      hasKey cfg = bool_decide (is_Some (gateKey getenv exists_file flag)) -> parseTap tapLine = Ok ("PCTR"%string, card) ->
      handleTap decode_error cfg tapLine c w = (false, "missing PCTR public key"%string, c, (g_now w).2)).
Proof.
  intros Hpath Hne.
  assert (Hg : gateKey getenv exists_file flag = match LoadRSAPublicKeyFromPEMFile gatePath with Ok pk => Some pk | Err _ => None end).
  { unfold gateKey. destruct (String.eqb (TrimSpace flag) ""); rewrite TrimSpace_idemp, Hpath, (proj2 (String.eqb_neq _ _) Hne); done. }
  assert (Hiff : forall k, gateKey getenv exists_file flag = Some k <-> exists b, ReadFile gatePath = Ok b /\ publicBlock b k).
  { intros k. rewrite Hg, <-load_public_iff. destruct (LoadRSAPublicKeyFromPEMFile gatePath); naive_solver. }
  split_and!; [|exact Hiff|intros s; apply load_private_iff|].
  - intros s Hpa Hpub. rewrite Hg, (load_public _ _ Hpub), (load_private _ _ Hpa). split_and!; [done|done|]. intros seed card ct minFunds rnd db He Ht Hc.
    apply (tokenize_received _ (gateEncrypt (Public s)) (paDecrypt s) minFunds (keys_oaep s) seed); done.
  - intros Hno W G decode_error cfg tapLine card c w Hk Ht. apply (keyless_denies _ _ _ card); [done|].
    rewrite Hk. apply bool_decide_eq_false_2. intros [k (b & Hb & Hp)%Hiff]. by apply (Hno b k).
Qed.

End Keys.

(** ** A library that satisfies the laws *)

(** A key is a number; each format is a letter before it, a ciphertext a
    byte of randomness and the key before the text. *)
Definition tagged {A} (c : ascii) (f : ascii -> A) (s : string) : result string A :=
  match s with
  | String t (String k EmptyString) => if Ascii.eqb t c then Ok (f k) else Err "bad tag"%string
  | _ => Err "bad key"%string
  end.

#[local] Instance toy_lib : CryptoLib ascii ascii := {|
  pemDecode := fun s => match s with String "-" der => Some der | _ => None end;
  ParsePKIXPublicKey := tagged "p" Some;
  ParsePKCS1PublicKey := tagged "q" id;
  ParsePKCS8PrivateKey := tagged "P" Some;
  ParsePKCS1PrivateKey := tagged "Q" id;
  EncryptOAEP := fun seed k m => Ok (String (ascii_of_nat seed) (String k m));
  DecryptOAEP := fun s ct => match ct with
                             | String _ (String k m) => if Ascii.eqb k s then Ok m else Err "decryption error"%string
                             | _ => Err "decryption error"%string
                             end |}.

#[local] Instance toy_laws : CryptoLaws ascii ascii.
Proof.
  refine (Build_CryptoLaws ascii ascii toy_lib (String "-") (fun k => String "p" (String k "")) (fun k => String "q" (String k ""))
    (fun k => String "P" (String k "")) (fun k => String "Q" (String k "")) id _ _ _ _ _ _ _ _); try done.
  intros seed s m ct [= <-]. cbn. by rewrite Ascii.eqb_refl.
Defined.

Definition toy_files (path : string) : result string string :=
  if String.eqb path "pub.pem" then Ok "-q7"%string else if String.eqb path "priv.pem" then Ok "-P7"%string else Err "no such file"%string.

Lemma keys_fit_witness :
  gateKey toy_files (fun _ => " pub.pem"%string) (fun _ => false) " " = Some "7"%char /\
  LoadRSAPrivateKeyFromPEMFile toy_files "priv.pem" = Ok "7"%char.
Proof.
  destruct (keys_fit (H0 := demo_server []) toy_files (fun _ => " pub.pem"%string) (fun _ => false) " " "pub.pem" "priv.pem") as [Hfit _].
  - vm_compute. reflexivity.
  - discriminate.
  - destruct (Hfit "7"%char) as (H1 & H2 & _); [exists "P7"%string; split; [reflexivity|by left]|
      exists "q7"%string; split; [reflexivity|by right]|]. split; [exact H1|exact H2].
Defined.

(** The private key at the gate is no public block: it denies. *)
Example private_key_at_gate {W} `{GateWorld W} bad cfg c (w : W) : hasKey cfg = bool_decide (is_Some (gateKey toy_files (fun _ => ""%string) (fun _ => false) "priv.pem")) ->
  (handleTap bad cfg "PCTR:42" c w).1.1 = (false, "missing PCTR public key"%string).
Proof.
  intros Hk. rewrite (keyless_denies bad cfg "PCTR:42" "42" c w); [done|vm_compute; reflexivity|]. rewrite Hk. vm_compute. reflexivity.
Qed.
