(* ===== verification/SimConfig.v ===== *)
(** * Simulation: how the programs start

    The beginning of each [main] under Simulation/ (pa, cs, pctrbo, gate,
    station_computer, ticketdistributor): flags, environment and defaults, the
    key, the database, the rows put into its tables, and the registration at
    the proxy.  [log.Fatalf] is an error of type [Fatal]. *)

From Stdlib Require Import Ascii String.
From S2P Require Import Prelude.
From stdpp Require Import list.
From S2P Require Import GoStrings NetIP GoURL GoJSON Utf8 GoScan GoFlag GoBase64 Registry Memory Transport Client Proxy SQL CardDB Journeys Taps Debts SimHTTP SimProxy Station Gate Payment Seeding PCTRKeys.
Local Open Scope Z_scope.

#[local] Arguments String.append : simpl nomatch.

(** ** Flags *)

(** A program declares its flags by name with their defaults, which say the
    type: [StringVar], [IntVar] and [Int64Var], [DurationVar], [BoolVar]. *)
Inductive FlagValue := FStr (s : string) | FInt (z : Z) | FDur (z : Z) | FBool (b : bool).
Notation FlagSet := (list (string * FlagValue)).
Notation FlagVars := (gmap string FlagValue).

Definition parseValue (x : FlagValue) (value : string) : option FlagValue :=
  match x with
  | FStr _ => Some (FStr value)
  | FInt _ => FInt <$> ParseInt true value
  | FDur _ => FDur <$> ParseDuration value
  | FBool _ => FBool <$> ParseBool value
  end.

Definition setVar (f : string * FlagValue) (value : string) (v : FlagVars) : option FlagVars :=
  (fun x => <[f.1 := x]> v) <$> parseValue f.2 value.

(** [flag.Parse] *)
Definition parseFlags (p : FlagSet) (args : list string) : result FlagError FlagVars :=
  parseArgs (fun f => match f.2 with FBool _ => true | _ => false end) setVar ((fun f => (f.1, f)) <$> p) args (list_to_map p).

Definition str (v : FlagVars) (name : string) : string := match v !! name with Some (FStr s) => s | _ => ""%string end.
Definition num (v : FlagVars) (name : string) : Z := match v !! name with Some (FInt z) | Some (FDur z) => z | _ => 0 end.
Definition flag (v : FlagVars) (name : string) : bool := match v !! name with Some (FBool b) => b | _ => false end.

(** Every variable keeps its type, and a number its width. *)
Definition same_type (x y : FlagValue) : Prop :=
  match x, y with
  | FStr _, FStr _ | FBool _, FBool _ => True
  | FInt _, FInt z | FDur _, FDur z => in_int64 z
  | _, _ => False
  end.

Definition typed (p : FlagSet) (v : FlagVars) : Prop :=
  forall name x, (list_to_map p : FlagVars) !! name = Some x -> exists y, v !! name = Some y /\ same_type x y.

(** ** What the programs share *)

Inductive Fatal := FlagsRefused (e : FlagError) | MissingDSN | MissingKeyPath | KeyNotLoaded (e : KeyError) | NotOpened | TablesFailed (e : SQLError)
| SeedFailed (e : SQLError).

Definition orEnv (getenv : string -> string) (value name : string) : string :=
  if String.eqb (TrimSpace value) "" then TrimSpace (getenv name) else value.

Definition positiveOr (d z : Z) : Z := if z <=? 0 then d else z.

(** Where a program listens and how it registers *)
Record Service := mkService { svcListen : string; svcProxy : SimClient; svcTask : string; svcAdvertise : string }.

Definition simTimeout : Z := 5 * GoTime.second.
Definition minute : Z := 60 * GoTime.second.

Definition common (listen task : string) : FlagSet :=
  [("listen", FStr listen); ("proxy", FStr "localhost:5100"); ("proxy-proto", FStr "udp"); ("task", FStr task); ("advertise", FStr "")]%string.

Section Settings.
Variable getenv : string -> string.
Variable interfaces : result string (list Iface).

Definition proxyClient (v : FlagVars) : SimClient := mkSimClient (str v "proxy") (str v "proxy-proto") simTimeout.

(** [advertise] after the environment has been consulted *)
Definition service (v : FlagVars) (task advertise : string) : Service :=
  mkService (str v "listen") (proxyClient v) task
    (if String.eqb advertise "" then DeriveHTTPAdvertise getenv interfaces (str v "listen") else advertise).

(** The flag, the program's own variable, then [DATABASE_URL] *)
Definition dsnOf (v : FlagVars) (name : string) : result Fatal string :=
  let dsn := orEnv getenv (orEnv getenv (str v "db") name) "DATABASE_URL" in
  if String.eqb (TrimSpace dsn) "" then Err MissingDSN else Ok dsn.

(** ** The payment authority *)

Definition paFlags : FlagSet :=
  common ":9103" "sim.pa" ++
  [("db", FStr ""); ("private-key", FStr ""); ("min-funds-cents", FInt 1); ("outdir", FStr ".");
   ("seed-working-cards", FInt 0); ("seed-start", FInt 20000); ("seed-balance-cents", FInt 300)]%string.

Record PASettings := mkPA { paService : Service; paDSN : string; paKeyPath : string; paMinFunds : Z; paOutDir : string; paSeeds : Z * Z * Z }.

Definition paSettings (args : list string) : result Fatal PASettings :=
  match parseFlags paFlags args with
  | Err e => Err (FlagsRefused e)
  | Ok v =>
      let advertise := orEnv getenv (str v "advertise") "PA_ADVERTISE" in
      match dsnOf v "PA_DB_DSN" with
      | Err e => Err e
      | Ok dsn =>
          let key := orEnv getenv (str v "private-key") "PA_PRIVATE_KEY" in
          if String.eqb (TrimSpace key) "" then Err MissingKeyPath
          else Ok (mkPA (service v (str v "task") advertise) dsn key (atLeastOne (num v "min-funds-cents")) (str v "outdir")
                     (num v "seed-working-cards", num v "seed-start", num v "seed-balance-cents"))
      end
  end.

(** ** The card system *)

Definition csFlags : FlagSet :=
  common ":9101" "sim.cs" ++
  [("db", FStr ""); ("seed-working-cards", FInt 0); ("seed-start", FInt 10000); ("seed-balance-cents", FInt 500);
   ("journey-interval", FDur (5 * minute)); ("ticket-interval", FDur (5 * minute)); ("distributor-task", FStr "sim.ticketdistributor");
   ("seed-tickets", FBool true); ("seed-ticket-stations", FStr "1,2,3")]%string.

(** The flag [distributor-task] is read by nothing. *)
Record CSSettings := mkCS { csService : Service; csDSN : string; csSeeds : Z * Z * Z; journeyInterval : Z; ticketInterval : Z;
  csSeedTickets : bool; csStations : string }.

Definition csSettings (args : list string) : result Fatal CSSettings :=
  match parseFlags csFlags args with
  | Err e => Err (FlagsRefused e)
  | Ok v =>
      let advertise := orEnv getenv (str v "advertise") "CS_ADVERTISE" in
      match dsnOf v "CS_DB_DSN" with
      | Err e => Err e
      | Ok dsn =>
          Ok (mkCS (service v (str v "task") advertise) dsn (num v "seed-working-cards", num v "seed-start", num v "seed-balance-cents")
                (positiveOr (5 * minute) (num v "journey-interval")) (positiveOr (5 * minute) (num v "ticket-interval"))
                (flag v "seed-tickets") (str v "seed-ticket-stations"))
      end
  end.

(** ** The back office *)

Definition pctrboFlags : FlagSet :=
  common ":9102" "sim.pctrbo" ++ [("db", FStr ""); ("pa-task", FStr "sim.pa"); ("pa", FStr "")]%string.

Record BOSettings := mkBO { boService : Service; boDSN : string; boPATask : string; boPABase : string }.

Definition pctrboSettings (args : list string) : result Fatal BOSettings :=
  match parseFlags pctrboFlags args with
  | Err e => Err (FlagsRefused e)
  | Ok v =>
      let advertise := orEnv getenv (str v "advertise") "PCTRBO_ADVERTISE" in
      match dsnOf v "PCTRBO_DB_DSN" with
      | Err e => Err e
      | Ok dsn => Ok (mkBO (service v (str v "task") advertise) dsn (str v "pa-task") (str v "pa"))
      end
  end.

(** ** The station computer *)

Definition stationFlags : FlagSet :=
  common ":9100" "" ++
  [("station-id", FStr "1"); ("oybo-task", FStr "sim.cs"); ("pctrbo-task", FStr "sim.pctrbo"); ("batch-size", FInt 5);
   ("distributor-task", FStr "sim.ticketdistributor"); ("ticket-poll-interval", FDur (60 * GoTime.second))]%string.

(** [stPoll] is [None] when the distributor is not polled. *)
Record StationSettings := mkStation { stService : Service; stID : string; stOyboTask : string; stPctrboTask : string; stBatchSize : Z;
  stDistributorTask : string; stPoll : option Z }.

Definition stationSettings (args : list string) : result Fatal StationSettings :=
  match parseFlags stationFlags args with
  | Err e => Err (FlagsRefused e)
  | Ok v =>
      let stationID := TrimSpace (str v "station-id") in
      let advertise := orEnv getenv (str v "advertise") "STATION_ADVERTISE" in
      let taskName := if String.eqb (TrimSpace (str v "task")) "" then ("station-Computer-" ++ stationID)%string else str v "task" in
      Ok (mkStation (service v taskName advertise) stationID (str v "oybo-task") (str v "pctrbo-task") (positiveOr 5 (num v "batch-size"))
            (str v "distributor-task") (if 0 <? num v "ticket-poll-interval" then Some (num v "ticket-poll-interval") else None))
  end.

(** ** The ticket distributor *)

Definition distributorFlags : FlagSet :=
  common ":9110" "sim.ticketdistributor" ++
  [("outdir", FStr "."); ("cs-task", FStr "sim.cs"); ("cs-base", FStr ""); ("poll-interval", FDur (30 * GoTime.second))]%string.

Record DistributorSettings := mkDistributor { tdService : Service; tdOutDir : string; tdCSTask : string; tdCSBase : string; tdPoll : Z }.

Definition distributorSettings (args : list string) : result Fatal DistributorSettings :=
  match parseFlags distributorFlags args with
  | Err e => Err (FlagsRefused e)
  | Ok v => Ok (mkDistributor (service v (str v "task") (str v "advertise")) (str v "outdir") (str v "cs-task") (str v "cs-base")
                  (positiveOr (30 * GoTime.second) (num v "poll-interval")))
  end.

(** ** The gate *)

Definition gateFlags : FlagSet :=
  [("id", FStr "gate-1"); ("listen", FStr ":9200"); ("station-id", FStr "1"); ("proxy", FStr "localhost:5100"); ("proxy-proto", FStr "udp");
   ("station-task", FStr ""); ("oybo-task", FStr "sim.cs"); ("pa-task", FStr "sim.pa"); ("station", FStr ""); ("oybo", FStr ""); ("pa", FStr "");
   ("pctr-public-key", FStr "")]%string.

Context {Pub Priv : Type} `{CryptoLib Pub Priv}.
Variable ReadFile : string -> result string string.
Variable exists_file : string -> bool.

Record GateSettings := mkGateSettings { gtListen : string; gtProxy : SimClient; gtConfig : GateConfig; gtKey : option Pub }.

Definition gateSettings (args : list string) : result Fatal GateSettings :=
  match parseFlags gateFlags args with
  | Err e => Err (FlagsRefused e)
  | Ok v =>
      let key := gateKey ReadFile getenv exists_file (str v "pctr-public-key") in
      Ok (mkGateSettings (str v "listen") (proxyClient v)
            (mkGate (str v "id") (normalizeStationID (str v "station-id")) (stationTaskOf (str v "station-task") (str v "station-id"))
               (str v "oybo-task") (str v "pa-task") (str v "station") (str v "oybo") (str v "pa") (bool_decide (is_Some key))) key)
  end.

End Settings.

(** ** Starting *)

Section Start.
Context `{SQL.Server} {W : Type} `{ProxyNet W} {Pub Priv : Type} `{CryptoLib Pub Priv}.
Variable getenv : string -> string.
Variable interfaces : result string (list Iface).
Variable ReadFile : string -> result string string.
Variable quoted : string -> string.
(** What [sql.Open] and [PingContext] say of a data source name *)
Variable opened pinged : string -> bool.

(** The first registration; its error is logged, and the next heartbeat
    tries again. *)
Definition announce (s : Service) (w : W) : W := (Register quoted (svcProxy s) (svcTask s) (svcAdvertise s) w).2.

Definition Open (dsn : string) : bool := negb (String.eqb dsn "") && opened dsn && pinged dsn.

(** [CREATE TABLE IF NOT EXISTS]: a table that is there keeps its rows, and
    one that is not has none. *)
Definition ensureTables : Call (DB Tables) unit := ExecContext (fun _ t => Some t).

(** [carddb.Open], the creation of the tables and the seeding *)
Definition openStore (dsn : string) (ensures : nat) (seed : DB Tables -> option (result SQLError unit * DB Tables)) (db : DB Tables)
  : option (result Fatal unit * DB Tables) :=
  if negb (Open dsn) then Some (Err NotOpened, db)
  else match forRange (fun _ => ensureTables) (seq 0 ensures) db with
       | (Err e, db) => Some (Err (TablesFailed e), db)
       | (Ok _, db) =>
           match seed db with
           | None => None
           | Some (Err e, db) => Some (Err (SeedFailed e), db)
           | Some (Ok _, db) => Some (Ok tt, db)
           end
       end.

(** A program that has its store registers. *)
Definition enlist {A} (a : A) (s : Service) (r : option (result Fatal unit * DB Tables)) (w : W) : option (result Fatal A * DB Tables * W) :=
  match r with
  | None => None
  | Some (Err e, db) => Some (Err e, db, w)
  | Some (Ok _, db) => Some (Ok a, db, announce s w)
  end.

Definition startPA (args : list string) (db : DB Tables) (w : W) : option (result Fatal (PASettings * Priv) * DB Tables * W) :=
  match paSettings getenv interfaces args with
  | Err e => Some (Err e, db, w)
  | Ok s =>
      match LoadRSAPrivateKeyFromPEMFile ReadFile (paKeyPath s) with
      | Err e => Some (Err (KeyNotLoaded e), db, w)
      | Ok key =>
          let '(total, start, balance) := paSeeds s in
          enlist (s, key) (paService s) (openStore (paDSN s) 2 (seedPA (paMinFunds s) total start balance) db) w
      end
  end.

Definition startCS (now : Z) (args : list string) (db : DB Tables) (w : W) : option (result Fatal CSSettings * DB Tables * W) :=
  match csSettings getenv interfaces args with
  | Err e => Some (Err e, db, w)
  | Ok s =>
      let '(total, start, balance) := csSeeds s in
      enlist s (csService s) (openStore (csDSN s) 4 (seedCS now (csSeedTickets s) (csStations s) total start balance) db) w
  end.

Definition startPCTRBO (args : list string) (db : DB Tables) (w : W) : option (result Fatal BOSettings * DB Tables * W) :=
  match pctrboSettings getenv interfaces args with
  | Err e => Some (Err e, db, w)
  | Ok s => enlist s (boService s) (openStore (boDSN s) 1 (fun db => Some (seedPCTRBO db)) db) w
  end.

(** The listener of these three programs is opened last, after the
    registration: [listens] says whether the address is free.  A failure ends
    the program; nothing takes the registration back. *)
Definition listening {A} (listens : bool) (r : option (result Fatal A * DB Tables * W)) : option (result (Fatal + string) A * DB Tables * W) :=
  match r with
  | None => None
  | Some (Err e, db, w) => Some (Err (inl e), db, w)
  | Some (Ok a, db, w) => if listens then Some (Ok a, db, w) else Some (Err (inr "listen"%string), db, w)
  end.

Definition startStation (args : list string) (w : W) : result Fatal StationSettings * W :=
  match stationSettings getenv interfaces args with
  | Err e => (Err e, w)
  | Ok s => (Ok s, announce (stService s) w)
  end.

(** [mkdir] says whether the output directory can be made. *)
Definition startDistributor (mkdir : string -> bool) (args : list string) (w : W) : result (Fatal + string) DistributorSettings * W :=
  match distributorSettings getenv interfaces args with
  | Err e => (Err (inl e), w)
  | Ok s =>
      let w := announce (tdService s) w in
      if mkdir (tdOutDir s) then (Ok s, w) else (Err (inr "create outdir"%string), w)
  end.

End Start.

(** ** Settings *)

Lemma parse_same x value y : parseValue x value = Some y -> same_type x y.
Proof.
  destruct x; cbn [parseValue]; [by intros [= <-]| | |].
  - destruct (ParseInt true value) eqn:E; [|done]. intros [= <-]. by eapply ParseInt_range.
  - destruct (ParseDuration value) eqn:E; [|done]. intros [= <-]. by eapply ParseDuration_range.
  - by destruct (ParseBool value); intros [= <-].
Qed.

(** The defaults of a flag set are distinct names with numbers of 64 bits. *)
Definition flags_ok (p : FlagSet) : Prop := NoDup p.*1 /\ Forall (fun f => same_type f.2 f.2) p.

Lemma parseFlags_typed p args v : flags_ok p -> parseFlags p args = Ok v -> typed p v.
Proof.
  intros [Hnd Hok] Hp. pose (R := fun a b : FlagVars => typed p a -> typed p b).
  assert (HR : PreOrder R) by (split; [intros ? ?; done|intros a b c Hab Hbc Ha; auto]).
  refine (parseArgs_steps _ _ _ R args _ v _ Hp _).
  - intros s n val f x w w' _ _ Hl Hs Hw name d Hd. apply lookupFlag_elem, list_elem_of_fmap in Hl as ([n' d'] & [= -> ->] & Hf).
    unfold setVar in Hs. cbn [fst snd] in Hs. destruct (parseValue d' x) as [y|] eqn:Ey; [|done]. injection Hs as <-.
    destruct (decide (name = n')) as [->|Hne]; [|rewrite lookup_insert_ne by done; by apply Hw].
    rewrite lookup_insert_eq. exists y. split; [done|]. apply elem_of_list_to_map_2 in Hd. replace d with d'; [by eapply parse_same|].
    apply (elem_of_list_to_map_1 (M := gmap string)) in Hf, Hd; [congruence|done..].
  - intros name d Hd. exists d. split; [done|]. apply elem_of_list_to_map_2 in Hd. by apply (proj1 (Forall_forall _ _) Hok) in Hd.
Qed.

(** All flag sets are well formed. *)
Lemma sim_flags_ok : Forall flags_ok [paFlags; csFlags; pctrboFlags; stationFlags; distributorFlags; gateFlags].
Proof.
  repeat constructor; try (apply (bool_decide_unpack _); vm_compute; done); repeat constructor; cbn; unfold in_int64; vm_compute; split; discriminate.
Qed.

Lemma num_typed p v name d : typed p v -> (list_to_map p : FlagVars) !! name = Some (FInt d) \/ (list_to_map p : FlagVars) !! name = Some (FDur d) ->
  in_int64 (num v name).
Proof. intros Hv [E|E]; destruct (Hv name _ E) as (y & Ey & Hy); unfold num; rewrite Ey; by destruct y. Qed.

Ltac in_range p args := match goal with
  | Hp : parseFlags p args = Ok ?v |- in_int64 (num ?v _) =>
      eapply (num_typed p v); [eapply parseFlags_typed, Hp; apply (proj1 (Forall_forall _ _) sim_flags_ok); set_solver
                              |first [left; vm_compute; reflexivity|right; vm_compute; reflexivity]] end.

Lemma positiveOr_range d z : 0 < d -> in_int64 z -> d <= int64_max -> 0 < positiveOr d z <= int64_max.
Proof. unfold positiveOr, in_int64. destruct (Z.leb_spec z 0); lia. Qed.

(** The first value that is not blank, of those an option can come from *)
Fixpoint firstGiven (l : list string) : string :=
  match l with
  | [] => ""%string
  | s :: l => if String.eqb (TrimSpace s) "" then firstGiven l else s
  end.

Lemma orEnv_given getenv s name l : firstGiven (orEnv getenv s name :: l) = firstGiven (s :: TrimSpace (getenv name) :: l).
Proof. unfold orEnv. cbn [firstGiven]. destruct (String.eqb (TrimSpace s) "") eqn:E; [done|]. by rewrite E. Qed.

Lemma dsn_given getenv v name dsn : dsnOf getenv v name = Ok dsn ->
  TrimSpace dsn <> ""%string /\ dsn = firstGiven [str v "db"; TrimSpace (getenv name); TrimSpace (getenv "DATABASE_URL"%string)].
Proof.
  unfold dsnOf. set (d := orEnv _ _ _). destruct (String.eqb_spec (TrimSpace d) "") as [|Hd]; [done|]. intros [= <-]. split; [done|].
  rewrite <-!orEnv_given. fold d. cbn [firstGiven]. by rewrite (proj2 (String.eqb_neq _ _) Hd).
Qed.

(** Every program of the simulation that gets past its options has usable
    ones, whatever the command line and the environment.  A program with a
    database has a data source name, the first that is given of its flag, its
    own variable and [DATABASE_URL]; the authority has a key file and a
    positive minimum; the card system, the distributor and a polling station
    have positive intervals, so that no ticker panics; a station has a task
    name and a positive batch size. *)
Theorem settings_usable getenv interfaces args :
  (forall s, paSettings getenv interfaces args = Ok s -> exists v, parseFlags paFlags args = Ok v /\
    TrimSpace (paDSN s) <> ""%string /\ paDSN s = firstGiven [str v "db"; TrimSpace (getenv "PA_DB_DSN"); TrimSpace (getenv "DATABASE_URL")]%string /\
    TrimSpace (paKeyPath s) <> ""%string /\ 1 <= paMinFunds s <= int64_max) /\
  (forall s, csSettings getenv interfaces args = Ok s -> exists v, parseFlags csFlags args = Ok v /\
    TrimSpace (csDSN s) <> ""%string /\ csDSN s = firstGiven [str v "db"; TrimSpace (getenv "CS_DB_DSN"); TrimSpace (getenv "DATABASE_URL")]%string /\
    0 < journeyInterval s <= int64_max /\ 0 < ticketInterval s <= int64_max) /\
  (forall s, pctrboSettings getenv interfaces args = Ok s -> exists v, parseFlags pctrboFlags args = Ok v /\
    TrimSpace (boDSN s) <> ""%string /\ boDSN s = firstGiven [str v "db"; TrimSpace (getenv "PCTRBO_DB_DSN"); TrimSpace (getenv "DATABASE_URL")]%string) /\
  (forall s, stationSettings getenv interfaces args = Ok s ->
    TrimSpace (svcTask (stService s)) <> ""%string /\ 0 < stBatchSize s <= int64_max /\ (forall d, stPoll s = Some d -> 0 < d <= int64_max)) /\
  (forall s, distributorSettings getenv interfaces args = Ok s -> 0 < tdPoll s <= int64_max).
Proof.
  split_and!; intros s Hs.
  - unfold paSettings in Hs. destruct (parseFlags paFlags args) as [v|] eqn:Hp; [|done]. exists v. split; [done|].
    destruct (dsnOf getenv v "PA_DB_DSN") as [dsn|] eqn:Hd; [|done]. apply dsn_given in Hd as [H1 H2].
    destruct (String.eqb_spec (TrimSpace (orEnv getenv (str v "private-key") "PA_PRIVATE_KEY")) "") as [|Hk]; [done|]. injection Hs as <-.
    assert (Hr : in_int64 (num v "min-funds-cents")) by in_range paFlags args. cbn. unfold atLeastOne, in_int64 in *.
    split_and!; try done; destruct (Z.leb_spec (num v "min-funds-cents") 0); unfold int64_max in *; lia.
  - unfold csSettings in Hs. destruct (parseFlags csFlags args) as [v|] eqn:Hp; [|done]. exists v. split; [done|].
    destruct (dsnOf getenv v "CS_DB_DSN") as [dsn|] eqn:Hd; [|done]. apply dsn_given in Hd as [H1 H2]. injection Hs as <-.
    split_and!; try done; cbn [journeyInterval ticketInterval]; apply positiveOr_range; try done; in_range csFlags args.
  - unfold pctrboSettings in Hs. destruct (parseFlags pctrboFlags args) as [v|] eqn:Hp; [|done]. exists v. split; [done|].
    destruct (dsnOf getenv v "PCTRBO_DB_DSN") as [dsn|] eqn:Hd; [|done]. apply dsn_given in Hd. by injection Hs as <-.
  - unfold stationSettings in Hs. destruct (parseFlags stationFlags args) as [v|] eqn:Hp; [|done]. injection Hs as <-. cbn [stService svcTask service stBatchSize stPoll].
    split; [|split].
    + destruct (String.eqb_spec (TrimSpace (str v "task")) "") as [|Ht]; [|done].
      by apply TrimSpace_not_blank.
    + apply positiveOr_range; try done. in_range stationFlags args.
    + assert (Hr : in_int64 (num v "ticket-poll-interval")) by in_range stationFlags args. unfold in_int64 in Hr.
      destruct (Z.ltb_spec 0 (num v "ticket-poll-interval")) as [Hpos|_]; [intros d [= <-]; lia|intros d E; discriminate E].
  - unfold distributorSettings in Hs. destruct (parseFlags distributorFlags args) as [v|] eqn:Hp; [|done]. injection Hs as <-.
    apply positiveOr_range; try done. in_range distributorFlags args.
Qed.

(** ** Starting is safe *)

Section Safe.
Context `{SQL.Server} {W : Type} `{ProxyNet W} {Pub Priv : Type} `{CryptoLib Pub Priv}.
Variable getenv : string -> string.
Variable interfaces : result string (list Iface).
Variable ReadFile : string -> result string string.
Variable quoted : string -> string.
Variable opened pinged : string -> bool.

Notation announced := (announce quoted).

(** Seeding that ends and only adds cards *)
Definition adds_cards (seed : DB Tables -> option (result SQLError unit * DB Tables)) : Prop :=
  forall db, exists r db', seed db = Some (r, db') /\ cards (tables db) ⊆ cards (tables db').

Lemma seedPA_adds flag total start balance : adds_cards (seedPA flag total start balance).
Proof.
  intros db. destruct (before_seeds paCards (Seed paCards) total start (paBalance (atLeastOne flag) balance) db (Seed_seeds _)) as (r & db' & E & Ha & _).
  exists r, db'. split; [exact E|by eapply only_adds_sub].
Qed.

Lemma seedCS_adds now tickets stations total start balance : adds_cards (seedCS now tickets stations total start balance).
Proof.
  intros db. destruct (before_seeds _ _ total start (if balance <=? 0 then 500 else balance) db (seedCS_first now tickets stations)) as (r & db' & E & Ha & _).
  exists r, db'. split; [exact E|by eapply only_adds_sub].
Qed.

Lemma seedPCTRBO_adds : adds_cards (fun db => Some (seedPCTRBO db)).
Proof.
  intros db. unfold seedPCTRBO. destruct (SeedStationCosts fares db) as [r db'] eqn:E. exists r, db'. split; [done|].
  destruct (SeedStationCosts_seeds fares db r db' E) as [Ha _]. by eapply only_adds_sub.
Qed.

Lemma ensure_keeps l db r db' : forRange (fun _ : nat => ensureTables) l db = (r, db') -> tables db' = tables db.
Proof.
  revert db. induction l as [|x l IH]; intros db; cbn [forRange]; [by intros [= _ <-]|]. unfold bind. destruct (ensureTables db) as [r1 db1] eqn:E.
  assert (Ht : tables db1 = tables db) by (unfold ensureTables, ExecContext in E; by apply run_spec in E as [[->|[? [= _ <-]]] _]).
  destruct r1; [intros E2; by rewrite (IH _ E2)|by intros [= _ <-]].
Qed.

(** A program with a store either registers, or ends without a trace at the proxy. *)
Lemma enlist_safe {A} (a : A) s dsn n seed db w : adds_cards seed ->
  exists r db' w', enlist quoted a s (openStore opened pinged dsn n seed db) w = Some (r, db', w') /\ cards (tables db) ⊆ cards (tables db') /\
    (r = Ok a /\ Open opened pinged dsn = true /\ w' = announced s w \/ (exists e, r = Err e) /\ w' = w).
Proof.
  intros Hseed. unfold openStore. destruct (Open opened pinged dsn); cbn [negb enlist]; [|by eexists _, _, _; split_and!; [reflexivity| |right; eauto]].
  destruct (forRange _ _ db) as [[[]|e] db1] eqn:E; apply ensure_keeps in E; rewrite <-E; [|by eexists _, _, _; split_and!; [reflexivity| |right; eauto]].
  destruct (Hseed db1) as (r & db' & -> & Hsub). destruct r as [[]|e]; eexists _, _, _; (split_and!; [reflexivity|done|]); [by left|right; eauto].
Qed.

(** C18: starting a service is safe.  Whatever the command line, the environment,
    the key file and the database do, the start of the authority, of the card
    system and of the back office ends, and no card in the table is lost or
    changed.  The service is announced at the proxy only once it has its
    options, its key and its store; a start that fails at one of these has
    announced nothing.  (The listener is opened after that: a start that fails
    there has announced itself, [listen_failure_announced].) *)
Theorem services_start_safely now args db (w : W) :
  (exists r db' w', startPA getenv interfaces ReadFile quoted opened pinged args db w = Some (r, db', w') /\ cards (tables db) ⊆ cards (tables db') /\
    match r with
    | Ok (s, key) => paSettings getenv interfaces args = Ok s /\ LoadRSAPrivateKeyFromPEMFile ReadFile (paKeyPath s) = Ok key /\
        Open opened pinged (paDSN s) = true /\ w' = announced (paService s) w
    | Err _ => w' = w
    end) /\
  (exists r db' w', startCS getenv interfaces quoted opened pinged now args db w = Some (r, db', w') /\ cards (tables db) ⊆ cards (tables db') /\
    match r with
    | Ok s => csSettings getenv interfaces args = Ok s /\ Open opened pinged (csDSN s) = true /\ w' = announced (csService s) w
    | Err _ => w' = w
    end) /\
  (exists r db' w', startPCTRBO getenv interfaces quoted opened pinged args db w = Some (r, db', w') /\ cards (tables db) ⊆ cards (tables db') /\
    match r with
    | Ok s => pctrboSettings getenv interfaces args = Ok s /\ Open opened pinged (boDSN s) = true /\ w' = announced (boService s) w
    | Err _ => w' = w
    end).
Proof.
  split_and!.
  - unfold startPA. destruct (paSettings getenv interfaces args) as [s|e]; [|by eexists _, _, _; split_and!].
    destruct (LoadRSAPrivateKeyFromPEMFile ReadFile (paKeyPath s)) as [key|e] eqn:Ek; [|by eexists _, _, _; split_and!].
    destruct (paSeeds s) as [[total start] balance].
    destruct (enlist_safe (s, key) (paService s) (paDSN s) 2 _ db w (seedPA_adds (paMinFunds s) total start balance)) as (r & db' & w' & -> & Hsub & Hr).
    exists r, db', w'. split_and!; [done|done|]. by destruct Hr as [(-> & ? & ?)|[[e ->] ?]].
  - unfold startCS. destruct (csSettings getenv interfaces args) as [s|e]; [|by eexists _, _, _; split_and!].
    destruct (csSeeds s) as [[total start] balance].
    destruct (enlist_safe s (csService s) (csDSN s) 4 _ db w (seedCS_adds now (csSeedTickets s) (csStations s) total start balance)) as (r & db' & w' & -> & Hsub & Hr).
    exists r, db', w'. split_and!; [done|done|]. by destruct Hr as [(-> & ? & ?)|[[e ->] ?]].
  - unfold startPCTRBO. destruct (pctrboSettings getenv interfaces args) as [s|e]; [|by eexists _, _, _; split_and!].
    destruct (enlist_safe s (boService s) (boDSN s) 1 _ db w seedPCTRBO_adds) as (r & db' & w' & -> & Hsub & Hr).
    exists r, db', w'. split_and!; [done|done|]. by destruct Hr as [(-> & ? & ?)|[[e ->] ?]].
Qed.

(** A program whose address is taken ends after it has announced itself. *)
Theorem listen_failure_announced args db (w : W) s db' w' :
  startPCTRBO getenv interfaces quoted opened pinged args db w = Some (Ok s, db', w') ->
  listening false (startPCTRBO getenv interfaces quoted opened pinged args db w) = Some (Err (inr "listen"%string), db', announced (boService s) w).
Proof.
  intros E. rewrite E. cbn [listening]. do 2 f_equal. revert E. unfold startPCTRBO.
  destruct (pctrboSettings getenv interfaces args) as [s0|e]; [|done]. unfold enlist. destruct (openStore _ _ _ _ _ _) as [[[]]|]; [|done..].
  by intros [= <- _ <-].
Qed.
End Safe.

(** ** A gate finds its station *)

Lemma allDigits_graphic s : allDigits s = true -> all_bytes graphic s = true.
Proof.
  induction s as [|c s IH]; [done|]. cbn [allDigits all_bytes]. destruct (dec_val c) eqn:E; [|done]. intros Hs. rewrite IH by done.
  unfold dec_val in E. destruct (_ && _) eqn:Ec; [|done]. apply andb_true_iff in Ec as [H1%Z.leb_le H2%Z.leb_le].
  unfold graphic, within, code. rewrite andb_true_r. apply andb_true_iff. split; apply Z.leb_le; lia.
Qed.

Lemma station_tasks_agree task id d : TrimSpace task = ""%string -> TrimSpace id = d -> d <> ""%string -> allDigits d = true ->
  stationTaskOf task id = ("station-Computer-" ++ d)%string.
Proof.
  intros Ht Hd Hne Hdig. unfold stationTaskOf, normalizeStationID. rewrite Hd, (proj2 (String.eqb_neq _ _) Hne), Hdig, Ht. cbn [String.eqb].
  rewrite TrimSpace_graphic by (rewrite all_bytes_app, (allDigits_graphic d Hdig); done).
  unfold HasPrefix, TrimPrefix. by rewrite (proj2 (strip_prefix_Some "station-" _ d) eq_refl).
Qed.

(** The only service of a task is found, also when it had registered before. *)
Lemma sole_service now task a m ip : mem_wf m -> firewall m = None -> TrimSpace task = task -> task <> ""%string -> TrimSpace a = a -> a <> ""%string ->
  Forall (fun e => Address e = a) (default [] (services m !! task)) ->
  (Memory.GetServiceForRequestor task ip (Memory.RegisterWithCapacity now task a 1 m)).1 = Ok a.
Proof.
  intros Hm Hfw Ht Hne Ha Hane Hall. set (m' := Memory.RegisterWithCapacity now task a 1 m).
  assert (Hm' : mem_wf m') by (apply RegisterWithCapacity_wf; [unfold in_int64, int64_min, int64_max; lia|done]).
  assert (Hs : exists e, services m' !! task = Some [e] /\ Address e = a /\ Capacity e = 1).
  { unfold m', Memory.RegisterWithCapacity. rewrite Ht, Ha, (proj2 (blank_spec _ _)) by done. cbn [Z.leb Z.compare]. rewrite upsert_services, lookup_insert_eq.
    destruct (services m !! task) as [es|] eqn:Es; cbn [default from_option Datatypes.id] in *; [|by eexists].
    destruct (wf_tasks m Hm _ _ Es) as (Hnil & Hnd & _). destruct es as [|e1 [|e2 es]]; [done| |].
    - apply Forall_cons in Hall as [Hall _]. unfold upsert_list. cbn [updateEntry]. rewrite Hall, String.eqb_refl. eexists. by split_and!; [reflexivity|..].
    - apply Forall_cons in Hall as [H1 [H2 _]%Forall_cons]. apply NoDup_cons in Hnd as [Hni _]. destruct Hni. cbn. rewrite H1, H2. left. }
  destruct Hs as (e & Hs & He & Hc). pose proof (query_known task ip m' [e] Hm') as Hq. rewrite Ht in Hq.
  assert (Hfw' : firewall m' = None).
  { unfold m', Memory.RegisterWithCapacity. destruct (_ || _); [done|]. unfold upsert. by destruct (updateEntry _ _ _). }
  specialize (Hq Hne Hs). rewrite Hfw' in Hq. cbn [List.filter permitted] in Hq.
  destruct Hq as (x & Hsel & ->); [unfold weights_fit; cbn; unfold serviceWeight; rewrite Hc; done|].
  cbn [fst]. apply selectLoop_In in Hsel as (e' & He' & <-). apply list_elem_of_singleton in He' as ->. by rewrite He.
Qed.

Section Meet.
Context `{CertFiles} {Pub Priv : Type} `{CryptoLib Pub Priv}.
Variable getenv : string -> string.
Variable interfaces : result string (list Iface).
Variable keyFile : string -> result string string.
Variable exists_file : string -> bool.
Variable quoted json_error ue : string -> string.
Variable de : string -> string -> string.
Variable ip : IP.
Variable remote : string.

Notation proxied now := (Proxied (R := MemoryRegistry) getenv json_error ue de now ip remote).

(** C17: a gate finds its station.  A station computer and a gate that are given
    the same numeric station id, with blanks around it or not, and no task of
    their own, agree on the name of the task.  So, in front of a server whose
    registry is in any consistent state with no firewall and no other address
    under that name, the start of the station registers it through the proxy,
    and the look-up of the gate returns exactly the address the station
    advertises, over UDP or TCP on either side. *)
Theorem gate_finds_station sargs gargs sv gv d :
  parseFlags stationFlags sargs = Ok sv -> parseFlags gateFlags gargs = Ok gv ->
  TrimSpace (str sv "task") = ""%string -> TrimSpace (str gv "station-task") = ""%string ->
  TrimSpace (str sv "station-id") = d -> TrimSpace (str gv "station-id") = d -> d <> ""%string -> allDigits d = true ->
  exists ss gs, stationSettings getenv interfaces sargs = Ok ss /\ gateSettings getenv keyFile exists_file gargs = Ok gs /\
    svcTask (stService ss) = stationTask (gtConfig gs) /\
    forall now now' m cnt, let task := stationTask (gtConfig gs) in let a := TrimSpace (svcAdvertise (stService ss)) in
      mem_wf m -> firewall m = None -> Forall (fun e => Address e = a) (default [] (services m !! task)) ->
      plainBackend getenv -> a <> ""%string ->
      sim_fits (mkMsg "REGISTER" task a 0) -> sim_fits (mkMsg "QUERY" task "" 0) -> sim_resp_fits (ok_addr a) ->
      exists m' cnt' st', startStation (H0 := proxied now) getenv interfaces quoted sargs (m, cnt) = (Ok ss, (m', cnt')) /\
        SimProxy.Query (H := proxied now') quoted (gtProxy gs) task (m', cnt') = (Ok a, st').
Proof.
  intros Hsp Hgp Hst Hgt Hsd Hgd Hne Hdig. set (task := ("station-Computer-" ++ d)%string).
  set (svc := service getenv interfaces sv task (orEnv getenv (str sv "advertise") "STATION_ADVERTISE")).
  assert (Es : exists ss, stationSettings getenv interfaces sargs = Ok ss /\ stService ss = svc).
  { unfold stationSettings. rewrite Hsp, Hst, Hsd. by eexists. }
  assert (Eg : exists gs, gateSettings getenv keyFile exists_file gargs = Ok gs /\ stationTask (gtConfig gs) = task).
  { unfold gateSettings. rewrite Hgp. eexists. split; [reflexivity|]. by apply station_tasks_agree. }
  destruct Es as (ss & Es & Esvc), Eg as (gs & Eg & Et). exists ss, gs. rewrite Es, Eg, Et, Esvc. split_and!; [done..|].
  intros now now' m cnt task' a Hm Hfw Hall Hp Ha Hfr Hfq Hra. subst task'.
  assert (Ht : TrimSpace task = task) by (apply TrimSpace_graphic; unfold task; rewrite all_bytes_app, (allDigits_graphic d Hdig); done).
  assert (Hta : TrimSpace a = a) by apply TrimSpace_idemp. assert (Htn : task <> ""%string) by discriminate.
  unfold startStation. rewrite Es, Esvc. unfold announce.
  destruct (sim_register_end_to_end (H := MemoryReg) getenv json_error ue de now ip remote quoted (svcProxy svc) task (svcAdvertise svc) m cnt
    Memory.RegisterWithCapacity Hp eq_refl) as [cnt1 E1]; [rewrite Ht; exact Htn|exact Ha|rewrite Ht; exact Hfr|].
  rewrite Ht in E1. change (TrimSpace (svcAdvertise svc)) with a in E1. set (m' := Memory.RegisterWithCapacity now task a 1 m) in *.
  pose proof (sim_query_end_to_end (H := MemoryReg) getenv json_error ue de now' ip remote quoted (gtProxy gs) task m' cnt1 Hp) as Hq. rewrite Ht in Hq.
  specialize (Hq Htn Hfq). cbn [reg_GetServiceForRequestor MemoryReg] in Hq.
  pose proof (sole_service now task a m ip Hm Hfw Ht Htn Hta Ha Hall) as Hsole. fold m' in Hsole.
  destruct (Memory.GetServiceForRequestor task ip m') as [r m2]. cbn [fst] in Hsole. subst r.
  destruct Hq as [cnt2 E2]; [by intros ? [= <-]|]. exists m', cnt1, (m2, cnt2).
  rewrite (proj2 (String.eqb_neq _ _) Ha), Hta in E2. split; [f_equal; exact (f_equal snd E1)|exact E2].
Qed.
End Meet.

(** ** Witnesses *)

#[local] Existing Instances SimProxy.demo_certs toy_lib.

Definition demo_station_args : list string := ["-station-id"; " 7"; "-advertise=http://s:1"; "--batch-size=0"]%string.
Definition demo_gate_args : list string := ["--station-id=7 "; "-proxy-proto"; "tcp"; "-id=g"]%string.

(** Two options of a command line, computed *)
Definition two_options (p : FlagSet) (args : list string) (a b : string) : option (string * string) :=
  match parseFlags p args with Ok v => Some (TrimSpace (str v a), TrimSpace (str v b)) | Err _ => None end.

Lemma gate_finds_station_witness :
  exists ss gs m' cnt' st', stationTask (gtConfig gs) = "station-Computer-7"%string /\
    startStation (H0 := Proxied no_env bad bad bad2 5 [] "peer") no_env (Ok []) bad demo_station_args (NewMemoryRegistry, mkCounters 0 0 0) = (Ok ss, (m', cnt')) /\
    gateSettings (H := toy_lib) no_env toy_files (fun _ => false) demo_gate_args = Ok gs /\
    SimProxy.Query (H := Proxied no_env bad bad bad2 6 [] "peer") bad (gtProxy gs) (stationTask (gtConfig gs)) (m', cnt') = (Ok "http://s:1"%string, st').
Proof.
  assert (Hs : two_options stationFlags demo_station_args "task" "station-id" = Some (""%string, "7"%string)) by (vm_compute; reflexivity).
  assert (Hg : two_options gateFlags demo_gate_args "station-task" "station-id" = Some (""%string, "7"%string)) by (vm_compute; reflexivity).
  unfold two_options in Hs, Hg. destruct (parseFlags stationFlags demo_station_args) as [sv|] eqn:Hsp; [|discriminate Hs].
  destruct (parseFlags gateFlags demo_gate_args) as [gv|] eqn:Hgp; [|discriminate Hg]. injection Hs as Hs1 Hs2. injection Hg as Hg1 Hg2.
  destruct (gate_finds_station no_env (Ok []) toy_files (fun _ => false) bad bad bad bad2 [] "peer" demo_station_args demo_gate_args sv gv "7"
    Hsp Hgp Hs1 Hg1 Hs2 Hg2 ltac:(discriminate) eq_refl) as (ss & gs & Ess & Egs & Et & Hmeet).
  assert (Etask : stationTask (gtConfig gs) = "station-Computer-7"%string).
  { assert (Hc : match gateSettings (H := toy_lib) no_env toy_files (fun _ => false) demo_gate_args with Ok gs => stationTask (gtConfig gs) | Err _ => ""%string end
      = "station-Computer-7"%string) by (vm_compute; reflexivity). rewrite Egs in Hc. exact Hc. }
  assert (Eadv : TrimSpace (svcAdvertise (stService ss)) = "http://s:1"%string).
  { assert (Hc : match stationSettings no_env (Ok []) demo_station_args with Ok ss => TrimSpace (svcAdvertise (stService ss)) | Err _ => ""%string end
      = "http://s:1"%string) by (vm_compute; reflexivity). rewrite Ess in Hc. exact Hc. }
  specialize (Hmeet 5 6 NewMemoryRegistry (mkCounters 0 0 0)). cbv zeta in Hmeet. rewrite Etask, Eadv in Hmeet.
  destruct Hmeet as (m' & cnt' & st' & H1 & H2).
  - apply new_wf.
  - reflexivity.
  - constructor.
  - unfold plainBackend. by vm_compute.
  - discriminate.
  - sim_fits_tac.
  - sim_fits_tac.
  - split; [split_and!; try (vm_compute; reflexivity); constructor|]. apply Nat.leb_le. by vm_compute.
  - exists ss, gs, m', cnt', st'. rewrite Etask. split_and!; [done|exact H1|exact Egs|exact H2].
Defined.

(** An id that already has the prefix, given to both programs, parts them:
    the gate strips it from the task name and the station computer keeps it. *)
Theorem prefixed_station_not_found : exists ss gs,
  stationSettings no_env (Ok []) ["-station-id=station-7"]%string = Ok ss /\
  gateSettings (H := toy_lib) no_env toy_files (fun _ => false) ["-station-id=station-7"]%string = Ok gs /\
  svcTask (stService ss) = "station-Computer-station-7"%string /\ stationTask (gtConfig gs) = "station-Computer-7"%string.
Proof. do 2 eexists. split; [vm_compute; reflexivity|]. split; [vm_compute; reflexivity|]. split; vm_compute; reflexivity. Qed.

Lemma settings_usable_witness : exists s, paSettings (fun n => if String.eqb n "DATABASE_URL" then " db" else if String.eqb n "PA_PRIVATE_KEY" then "k" else "")%string
    (Ok []) ["-min-funds-cents=-3"]%string = Ok s /\ 1 <= paMinFunds s.
Proof.
  eexists. split; [vm_compute; reflexivity|].
  edestruct (proj1 (settings_usable (fun n => if String.eqb n "DATABASE_URL" then " db" else if String.eqb n "PA_PRIVATE_KEY" then "k" else "")%string
    (Ok []) ["-min-funds-cents=-3"]%string)) as (v & _ & _ & _ & _ & H1 & _); [vm_compute; reflexivity|exact H1].
Defined.
