(* ===== verification/UDPServer.v ===== *)
(** * pkg/transport: the UDP receive loop, the TLS start-up and broadcasts

    udp_server.go receives one datagram at a time and starts a handler for it
    when it gets a permit within 100ms; tcp_server.go checks its certificate
    files before it listens with TLS; broadcast.go announces the server, and
    pkg/dht/network.go listens for such announcements. *)

From Stdlib Require Import Ascii String SpecFloat.
From S2P Require Import Prelude.
From stdpp Require Import list relations.
From S2P Require Import GoStrings NetIP NetIPFacts GoURL GoJSON Utf8 GoScan GoAny Firewall Registry Store Memory StoreBacked Transport Client Proxy SimProxy.
Local Open Scope Z_scope.

#[local] Arguments String.append : simpl nomatch.

Section UDP.
Context {R : Type} `{Registry R}.
Variable json_error : string -> string.

(** A datagram: its bytes, as many as the buffer holds, and its sender *)
Record Datagram := mkDatagram { data : string; fromIP : IP; from : string }.

(** What a handler has done: nothing yet; called the registry, with its
    answer still to be written; written it, with its permit still held *)
Inductive Phase := Started (d : Datagram) | Answering (d : Datagram) (bytes : string) | Answered (d : Datagram).
Definition datagramOf (p : Phase) : Datagram := match p with Started d | Answering d _ | Answered d => d end.

(** Datagrams are numbered as they arrive.  [waiting] is the one the loop has
    read and asks a permit for; the flag says that it found none and waits.
    The rest is the record of what happened: [handled] is the order in which
    the handlers called the registry, with the time of each; [sent] the
    answers written, [failed] the handlers whose write failed, [finished] those
    that have released their permit. *)
Record UDPServer := mkUDP {
  permits : Z;
  arrivals : list Datagram;
  waiting : option (nat * bool);
  running : gmap nat Phase;
  dropped : list nat;
  finished : list nat;
  handled : list (nat * Datagram * Z);
  sent : list (nat * string * string);
  failed : list nat;
  reg : R;
  ctxDone : bool;
  udpReturned : bool }.




(** ** The reference: [handleUDPRequest], one request at a time *)

(** The answers to a sequence of requests, each to its sender, and the
    registry they leave *)
Fixpoint sequential (hs : list (nat * Datagram * Z)) (r : R) : list (nat * string * string) * R :=
  match hs with
  | [] => ([], r)
  | (i, d, now) :: hs =>
      let '(out, r, _) := handleUDPRequest json_error true now (data d) (fromIP d) (from d) r in
      let '(outs, r) := sequential hs r in
      (match out with Some bytes => (i, from d, bytes) :: outs | None => outs end, r)
  end.



(** ** The invariant *)

Definition handledIDs (s : UDPServer) : list nat := (fun h => h.1.1) <$> handled s.
Definition runningIDs (s : UDPServer) : list nat := (map_to_list (running s)).*1.
Definition waitingIDs (s : UDPServer) : list nat := match waiting s with Some (id, _) => [id] | None => [] end.
Definition writtenIDs (s : UDPServer) : list nat := ((fun x => x.1.1) <$> sent s) ++ failed s.

Definition isStarted (p : Phase) : bool := match p with Started _ => true | _ => false end.
Definition isAnswered (p : Phase) : bool := match p with Answered _ => true | _ => false end.

Record udp_ok (r0 : R) (s : UDPServer) : Prop := {
  ok_permits : Z.of_nat (size (running s)) <= permits s;
  ok_numbers : dropped s ++ finished s ++ waitingIDs s ++ runningIDs s ≡ₚ seq 0 (length (arrivals s));
  ok_running : forall i p, running s !! i = Some p -> arrivals s !! i = Some (datagramOf p);
  ok_handled : forall i d now, (i, d, now) ∈ handled s -> arrivals s !! i = Some d;
  ok_effect : reg s = (sequential (handled s) r0).2;
  ok_once : NoDup (handledIDs s);
  ok_effects : forall i, i ∈ handledIDs s <-> i ∈ finished s \/ exists p, running s !! i = Some p /\ isStarted p = false;
  ok_answering : forall i d bytes, running s !! i = Some (Answering d bytes) -> (i, from d, bytes) ∈ (sequential (handled s) r0).1;
  ok_sent : forall x, x ∈ sent s -> x ∈ (sequential (handled s) r0).1;
  ok_written_once : NoDup (writtenIDs s);
  ok_written : forall i, i ∈ writtenIDs s <-> i ∈ finished s \/ exists p, running s !! i = Some p /\ isAnswered p = true;
  ok_burst : dropped s <> [] \/ (exists i, waiting s = Some (i, true)) -> permits s < Z.of_nat (length (arrivals s));
  ok_return : udpReturned s = true -> running s = ∅ /\ waiting s = None }.

Lemma runningIDs_spec s i : i ∈ runningIDs s <-> is_Some (running s !! i).
Proof.
  unfold runningIDs. rewrite list_elem_of_fmap. split.
  - intros ([j p] & -> & Hin%elem_of_map_to_list). eauto.
  - intros [p Hp]. exists (i, p). split; [done|by apply elem_of_map_to_list].
Qed.




Lemma place_bound r0 s i : udp_ok r0 s -> is_Some (running s !! i) \/ i ∈ finished s -> (i < length (arrivals s))%nat.
Proof.
  intros Hok Hi. assert (Hin : i ∈ seq 0 (length (arrivals s))).
  { rewrite <-(ok_numbers _ _ Hok), !elem_of_app, runningIDs_spec. tauto. }
  apply elem_of_seq in Hin. lia.
Qed.
















End UDP.






(** ** Starting with TLS *)

Inductive TLSStartError := LoadServerCert | LoadClientCA | ParseClientCA | ListenTLS.

Record TLSConfig := mkTLS { RequireAndVerifyClientCert : bool; MinVersion : Z; CipherSuites : list Z }.

(** [VersionTLS12], and the four ECDHE suites with AES-GCM *)
Definition tlsConfig : TLSConfig := mkTLS true 771 [49200; 49199; 49196; 49195].

(** [keyPair] is whether the certificate and key load, [readFile] the file
    system, [certs] whether a PEM file holds a certificate, [listens]
    whether the port is free. *)
Definition StartTCPServerTLS (keyPair : string -> string -> bool) (readFile : string -> option string) (certs : string -> bool)
    (listens : bool) (maxConcurrent : Z) (certFile keyFile clientCAFile : string) : result TLSStartError (TLSConfig * Server) :=
  if negb (keyPair certFile keyFile) then Err LoadServerCert
  else match readFile clientCAFile with
       | None => Err LoadClientCA
       | Some pem =>
           if negb (certs pem) then Err ParseClientCA
           else if negb listens then Err ListenTLS
           else Ok (tlsConfig, newServer maxConcurrent 5000)
       end.

Definition isExpectedTLSProbeError (err : option string) : bool :=
  match err with Some e => Contains e "first record does not look like a TLS handshake" | None => false end.

(** What the accept loops do on an error: return, or go on with an event *)
Definition acceptError (tls closed : bool) (err : string) : option (list string) :=
  if closed then None
  else if tls && isExpectedTLSProbeError (Some err) then Some []
  else Some [((if tls then "tls" else "tcp") ++ " accept error: " ++ err)%string].

(** A server that listens with TLS has read its own certificate and the
    authority's, and asks every client for one. *)
Lemma tls_needs_files keyPair readFile certs listens n cert key ca cfg srv :
  StartTCPServerTLS keyPair readFile certs listens n cert key ca = Ok (cfg, srv) ->
  keyPair cert key = true /\ (exists pem, readFile ca = Some pem /\ certs pem = true) /\ RequireAndVerifyClientCert cfg = true.
Proof.
  unfold StartTCPServerTLS. destruct (keyPair cert key); [|done]. destruct (readFile ca) as [pem|]; [|done]. destruct (certs pem) eqn:E; [|done].
  destruct listens; [|done]. intros [= <- _]. eauto.
Qed.

(** ** Announcements *)

Fixpoint firstIPv4 (addrs : list (option IP)) : option string :=
  match addrs with
  | [] => None
  | a :: addrs =>
      match a with
      | Some ip =>
          if bool_decide (ip = []) || IsLoopback ip then firstIPv4 addrs
          else if bool_decide (To4 ip = []) then firstIPv4 addrs else Some (IPString (To4 ip))
      | None => firstIPv4 addrs
      end
  end.

Fixpoint localIPv4 (ifaces : list Iface) : string :=
  match ifaces with
  | [] => "0.0.0.0"
  | i :: ifaces =>
      if negb (ifUp i) || ifLoopback i then localIPv4 ifaces
      else match ifAddrs i with
           | Err _ => localIPv4 ifaces
           | Ok addrs => match firstIPv4 addrs with Some ip => ip | None => localIPv4 ifaces end
           end
  end.

Definition getLocalIPv4 (interfaces : result string (list Iface)) : string :=
  match interfaces with Err _ => "0.0.0.0" | Ok ifaces => localIPv4 ifaces end.

(** [int(x)] of a float64 *)
Definition truncInt (x : spec_float) : Z :=
  match x with S754_finite neg m e => (if neg then -1 else 1) * Z.shiftl (Zpos m) e | _ => 0 end.

(** [int(d.Seconds())], through [float64] *)
Definition Seconds (d : Z) : Z :=
  truncInt (SFadd 53 1024 (float64 (Z.quot d 1000000000)) (SFdiv 53 1024 (float64 (Z.rem d 1000000000)) (float64 1000000000))).

(** [startTime] is printed at RFC3339. *)
Definition announcement (ip : string) (listenPort heartbeatTimeout : Z) (startTime : string) : json :=
  JObj [("address", JStr ip); ("heartbeat_timeout_seconds", JNum (lit_of_int (Seconds heartbeatTimeout)));
        ("port", JNum (lit_of_int listenPort)); ("start_time", JStr startTime); ("type", JStr "tds_server")]%string.

(** What is sent, three times *)
Definition BroadcastServerInfo (interfaces : result string (list Iface)) (listenPort heartbeatTimeout : Z) (startTime : string) : list string :=
  replicate 3 (print (announcement (getLocalIPv4 interfaces) listenPort heartbeatTimeout startTime)).

(** [ListenForBroadcasts]: the server a packet announces.  [float_int] is
    [int(port)] for a number that is not a small integer. *)
Definition heardBroadcast (float_int : string -> Z) (packet : string) : option string :=
  match parse (str_take 4096 packet) with
  | Some (JObj fs) =>
      match lookupKey "type" fs, lookupKey "address" fs, lookupKey "port" fs with
      | Some (JStr typ), Some (JStr addr), Some (JNum port) =>
          if String.eqb typ "tds_server" then
            Some (addr ++ ":" ++ lit_of_int (match small_int port with Some n => n | None => float_int port end))%string
          else None
      | _, _, _ => None
      end
  | _ => None
  end.

Example seconds_demo : (Seconds 60000000000, Seconds 1999999999, Seconds (-1500000000)) = (60, 1, -1).
Proof. vm_compute. reflexivity. Qed.

(** An address the server may announce: dotted, of an interface that is up
    and no loopback, or the unspecified one *)
Definition announced (ifaces : list Iface) (ip : string) : Prop :=
  ip = "0.0.0.0"%string \/
  exists i addrs a, i ∈ ifaces /\ ifUp i = true /\ ifLoopback i = false /\ ifAddrs i = Ok addrs /\ Some a ∈ addrs /\
    IsLoopback a = false /\ To4 a <> [] /\ ip = IPString (To4 a).

Lemma firstIPv4_spec addrs ip : firstIPv4 addrs = Some ip ->
  exists a, Some a ∈ addrs /\ IsLoopback a = false /\ To4 a <> [] /\ ip = IPString (To4 a).
Proof.
  induction addrs as [|[a|] addrs IH]; cbn [firstIPv4]; [done| |].
  - destruct (bool_decide (a = []) || IsLoopback a) eqn:El; [intros E; destruct (IH E) as (b & Hb & ?); exists b; split; [by right|done]|].
    apply orb_false_iff in El as [_ El]. case_bool_decide as Ht.
    + intros E. destruct (IH E) as (b & Hb & ?). exists b. split; [by right|done].
    + intros [= <-]. exists a. split; [by left|done].
  - intros E. destruct (IH E) as (b & Hb & ?). exists b. split; [by right|done].
Qed.

Lemma localIPv4_spec ifaces : announced ifaces (localIPv4 ifaces).
Proof.
  induction ifaces as [|i ifaces IH]; [by left|].
  assert (Hr : announced ifaces (localIPv4 ifaces) -> announced (i :: ifaces) (localIPv4 ifaces)).
  { intros [->|(j & as' & a & Hj & ?)]; [by left|]. right. exists j, as', a. split; [by right|done]. }
  cbn [localIPv4]. destruct (negb (ifUp i) || ifLoopback i) eqn:E; [auto|]. apply orb_false_iff in E as [Hu%negb_false_iff Hl].
  destruct (ifAddrs i) as [addrs|] eqn:Ea; [|auto]. destruct (firstIPv4 addrs) as [ip|] eqn:Ef; [|auto].
  apply firstIPv4_spec in Ef as (a & Ha & H1 & H2 & ->). right. exists i, addrs, a. by split_and!; [left|..].
Qed.

(** The addresses of the interfaces are made of bytes. *)
Definition ifaces_ok (ifaces : list Iface) : Prop :=
  forall i addrs a, i ∈ ifaces -> ifAddrs i = Ok addrs -> Some a ∈ addrs -> Forall byte_ok a.

Lemma plain_hex s : hex_chars s -> plain s = true.
Proof.
  unfold hex_chars. induction s as [|c s IH]; [done|]. cbn [list_ascii_of_string plain]. intros [Hc Hs]%Forall_cons. rewrite IH by done.
  rewrite andb_true_r. by destruct c as [[] [] [] [] [] [] [] []].
Qed.

Lemma plain_v4 b : Forall byte_ok b -> plain (v4_string b) = true.
Proof.
  unfold v4_string. induction b as [|x [|y b] IH]; intros Hb; [done| |]; apply Forall_cons in Hb as [Hx Hb].
  - apply plain_hex. by apply itoa3_byte_hex.
  - change (join "." (itoa3 <$> x :: y :: b)) with (itoa3 x ++ "." ++ join "." (itoa3 <$> y :: b))%string.
    rewrite !plain_app, IH by done. by rewrite (plain_hex _ (itoa3_byte_hex x Hx)).
Qed.

Lemma To4_dotted a : Forall byte_ok a -> To4 a <> [] -> plain (IPString (To4 a)) = true.
Proof.
  intros Hb Hne. assert (Hl : length (To4 a) = 4%nat /\ Forall byte_ok (To4 a)).
  { unfold To4 in *. destruct (decide (length a = 4%nat)); [done|]. destruct (decide _) as [[Hl _]|]; [|done].
    split; [rewrite length_drop; lia|by apply Forall_drop]. }
  destruct Hl as [Hl Hok]. unfold IPString. rewrite decide_False by done. rewrite decide_False by (intros [? _]; done).
  assert (To4 (To4 a) = To4 a) as -> by (unfold To4 at 1; by rewrite decide_True by done).
  destruct (To4 a) as [|x p] eqn:E; [done|]. by apply plain_v4.
Qed.

Lemma announced_plain ifaces ip : ifaces_ok ifaces -> announced ifaces ip -> plain ip = true.
Proof. intros Hok [->|(i & as' & a & Hi & _ & _ & Ha & Hin & _ & Ht & ->)]; [done|]. apply To4_dotted; [by eapply Hok|done]. Qed.

(** A server that announces itself is heard: every packet it sends names its
    own address, and the port it listens on, to a node that hears it. *)
Theorem announcement_heard float_int ifaces port timeout startTime packet :
  ifaces_ok ifaces -> 0 <= port < 65536 -> valid_utf8 startTime = true ->
  packet ∈ BroadcastServerInfo (Ok ifaces) port timeout startTime -> (String.length packet <= 4096)%nat ->
  exists ip, announced ifaces ip /\ heardBroadcast float_int packet = Some (ip ++ ":" ++ lit_of_int port)%string.
Proof.
  intros Hok Hp Hs Hin Hl. exists (localIPv4 ifaces). split; [apply localIPv4_spec|].
  assert (packet = print (announcement (localIPv4 ifaces) port timeout startTime)) as -> by (by apply elem_of_replicate in Hin as [-> _]).
  unfold heardBroadcast. rewrite (str_take_all (fun s => s)) by done.
  assert (Hj : json_ok (announcement (localIPv4 ifaces) port timeout startTime)).
  { simpl. split_and!; try done; [|apply lit_of_int_ok..]. apply valid_utf8_iff, plain_Utf8. eapply announced_plain; [done|apply localIPv4_spec]. }
  destruct (json_roundtrip _ "" Hj) as [-> _]; [vm_compute; discriminate|done|].
  unfold announcement. cbn -[lit_of_int small_int String.append]. unfold small_int. rewrite int_of_lit_of_int by (unfold in_int64, int64_min, int64_max; lia).
  rewrite (proj2 (Z.ltb_lt (Z.abs port) (2 ^ 53))) by lia. by rewrite String.eqb_refl.
Qed.
