(* ===== verification/Tickets.v ===== *)
(** * Simulation/cs/main.go and Simulation/ticketdistributor/main.go: tickets

    The card system takes tickets, builds a manifest of the trains of the
    next quarter of an hour whenever there are new tickets, and serves the
    manifests; the distributor polls them, writes one CSV file per station
    and serves the files; a station fetches the latest one.  [zoned] is how a
    time read from the database prints at RFC3339Nano: it carries the offset
    of the database session. *)

From Stdlib Require Import Ascii String.
From S2P Require Import Prelude.
From stdpp Require Import list sorting relations.
From S2P Require Import GoStrings NetIP NetIPFacts GoURL GoJSON GoScan GoAny Firewall Transport GoTime SQL CardDB Journeys SimHTTP Registry Store Memory StoreBacked Client Proxy SimProxy.
Local Open Scope Z_scope.

#[local] Arguments String.append : simpl nomatch.

Section Tickets.
Context `{Srv : Server} (jsonb : string -> option string) (zoned : Z -> string).
Context (float_json float_v : string -> string) (composite_v : json -> string).

(** ** The card system *)

Definition ticket_json (it : Z * Ticket) : json :=
  JObj [("id", JNum (lit_of_int it.1)); ("passenger", JStr (Passenger it.2)); ("station_id", JStr (tkStationID it.2));
        ("train_time", JStr (zoned (TrainTime it.2)))]%string.

Definition manifest_json (id : string) (generated : Z) (ts : list (Z * Ticket)) : json :=
  JObj [("id", JStr id); ("generated_at", JStr (Format generated)); ("tickets", JArr (ticket_json <$> ts))]%string.

Definition manifestID (now : Z) : string := ("m-" ++ lit_of_int (now / GoTime.second))%string.

(** One tick of the manifest goroutine: the time of its last manifest and the
    database.  [clk] numbers the readings of the clock. *)
Definition manifestTick (clk : nat -> Z) (lastManifestTime : Z) (db : DB Tables) : Z * DB Tables :=
  match GetTicketsCreatedSince lastManifestTime db with
  | (Err _, db) => (lastManifestTime, db)
  | (Ok [], db) => (lastManifestTime, db)
  | (Ok _, db) =>
      match GetActiveTicketsWithin (clk 0%nat) (15 * minute) db with
      | (Err _, db) => (lastManifestTime, db)
      | (Ok [], db) => (clk 1%nat, db)
      | (Ok activeTickets, db) =>
          let id := manifestID (clk 1%nat) in
          let generated := clk 2%nat in
          match InsertManifest jsonb id generated (print (manifest_json id generated activeTickets)) db with
          | (Err _, db) => (lastManifestTime, db)
          | (Ok _, db) => (clk 3%nat, db)
          end
      end
  end.

Definition errorBody (msg : string) : json := JObj [("error"%string, JStr msg)].

(** The body of a manifest row: a payload that does not parse is [null]. *)
Definition manifestBody (id : string) (m : Manifest) : json :=
  JObj [("generated_at", JStr (zoned (Generated m))); ("id", JStr id);
        ("payload", match parse (ManifestPayload m) with Some p => remarshal float_json p | None => JNull end)]%string.

(** [/manifests] *)
Definition manifestsHandler (method rawQuery : string) (db : DB Tables) : Z * json * DB Tables :=
  if negb (String.eqb method "GET") then (405, errorBody "method not allowed", db)
  else
    let sinceStr := queryGet rawQuery "since" in
    let since := if String.eqb sinceStr "" then zeroTime else default zeroTime (Parse sinceStr) in
    match GetManifestsSince since db with
    | (Err _, db) => (500, errorBody "db error", db)
    | (Ok ms, db) => (200, JArr ((fun im => manifestBody im.1 im.2) <$> ms), db)
    end.

(** [/manifest] *)
Definition manifestHandler (method rawQuery : string) (db : DB Tables) : Z * json * DB Tables :=
  if negb (String.eqb method "GET") then (405, errorBody "method not allowed", db)
  else
    let id := queryGet rawQuery "id" in
    if String.eqb id "" then (400, errorBody "missing id", db)
    else match GetManifestByID id db with
         | (Err _, db) => (404, errorBody "manifest not found", db)
         | (Ok m, db) => (200, manifestBody id m, db)
         end.

(** [/ticket]: the request names no [Active], so the row is inactive. *)
Definition ticketRequest_of_json (j : json) : option (string * string * string) :=
  fs ← strict_fields ["station_id"; "train_time"; "passenger"]%string j;
  s ← as_string "" (field "station_id" fs); t ← as_string "" (field "train_time" fs);
  p ← as_string "" (field "passenger" fs); Some (s, t, p).

Definition ticketHandler (now : Z) (method body : string) (db : DB Tables) : Z * json * DB Tables :=
  if negb (String.eqb method "POST") then (405, errorBody "method not allowed", db)
  else match parse_first body ≫= ticketRequest_of_json with
       | None => (400, errorBody "invalid json", db)
       | Some (station, trainTime, passenger) =>
           if String.eqb (TrimSpace station) "" || String.eqb (TrimSpace trainTime) "" || String.eqb (TrimSpace passenger) ""
           then (400, errorBody "missing fields", db)
           else match Parse trainTime with
                | None => (400, errorBody "invalid train_time", db)
                | Some departs =>
                    match InsertTicket (mkTicket (TrimSpace station) departs (TrimSpace passenger) zeroTime false) now db with
                    | (Err _, db) => (503, errorBody "db error", db)
                    | (Ok id, db) => (200, JObj [("id", JNum (lit_of_int id)); ("ok", JBool true)]%string, db)
                    end
                end
       end.

(** ** The distributor *)

(** [manifests] maps a manifest and a station to a path; [disk] is the
    content of the files. *)
Record Distributor := mkDistributor {
  known_files : gmap string (gmap string string);
  disk : gmap string string;
  lastPolled : Z;
  latestManifestID : string;
  latestManifestTime : Z }.

Definition newDistributor : Distributor := mkDistributor ∅ ∅ zeroTime "" zeroTime.

(** [x.(string)], the empty string when it is none *)
Definition asStr (x : option json) : string := match x with Some (JStr s) => s | _ => "" end.

(** The row of a ticket and its station; [None] is skipped. *)
Definition ticketRow (ti : json) : option (string * list string) :=
  let tmap := match ti with JObj fs => fs | _ => [] end in
  let st := asStr (lookupKey "station_id" tmap) in
  if String.eqb st "" then None
  else Some (st, [sprintV float_v composite_v (lookupKey "id" tmap); asStr (lookupKey "passenger" tmap); asStr (lookupKey "train_time" tmap)]).

Definition addRow (byStation : gmap string (list (list string))) (ti : json) : gmap string (list (list string)) :=
  match ticketRow ti with
  | None => byStation
  | Some (st, row) => <[st := default [] (byStation !! st) ++ [row]]> byStation
  end.

Definition csvHeader : list string := ["ticket_id"; "passenger"; "train_time"]%string.

Section Distribute.
Variable outDir : string.
(** Whether [os.Create] succeeds on a path, and the order of the range over
    the stations *)
Variable canCreate : string -> bool.
Variable stations_order : gmap string (list (list string)) -> list (string * list (list string)).

Definition manifestPath (id st : string) : string := Join outDir ("manifest_" ++ id ++ "_" ++ st ++ ".csv").

(** Writes the file of a station; a path that cannot be created is skipped. *)
Definition writeStation (id : string) (acc : gmap string string * gmap string string) (sr : string * list (list string))
  : gmap string string * gmap string string :=
  let path := manifestPath id sr.1 in
  if canCreate path then (<[sr.1 := path]> acc.1, <[path := csvFile (csvHeader :: sr.2)]> acc.2) else acc.

(** One manifest of an answer.  [None]: the type assertion on a payload that
    is not an object panics. *)
Definition processManifest (m : list (string * json)) (d : Distributor) : option Distributor :=
  let id := asStr (lookupKey "id" m) in
  match lookupKey "payload" m with
  | Some (JObj payload) =>
      let tickets := match lookupKey "tickets" payload with Some (JArr ts) => ts | _ => [] end in
      let byStation := foldl addRow ∅ tickets in
      let '(files, disk) := foldl (writeStation id) (∅, disk d) (stations_order byStation) in
      let '(last, latestID, latestTime) :=
        match lookupKey "generated_at" m with
        | Some (JStr genRaw) =>
            match Parse genRaw with
            | Some t => (if lastPolled d <? t then t else lastPolled d,
                         if latestManifestTime d <? t then id else latestManifestID d,
                         if latestManifestTime d <? t then t else latestManifestTime d)
            | None => (lastPolled d, latestManifestID d, latestManifestTime d)
            end
        | _ => (lastPolled d, latestManifestID d, latestManifestTime d)
        end in
      Some (mkDistributor (<[id := files]> (known_files d)) disk last latestID latestTime)
  | _ => None
  end.

Fixpoint processAll (ms : list (list (string * json))) (d : Distributor) : option Distributor :=
  match ms with
  | [] => Some d
  | m :: ms => match processManifest m d with Some d => processAll ms d | None => None end
  end.

(** [dec.Decode(&data)] into a [\[\]map\[string\]any] *)
Definition decodeManifests (body : string) : option (list (list (string * json))) :=
  match parse_first body with
  | Some (JArr vs) => mapM (fun v => match v with JObj fs => Some fs | JNull => Some [] | _ => None end) vs
  | Some JNull => Some []
  | _ => None
  end.

Definition pollURL (csAddr : string) (d : Distributor) : string :=
  let url := (TrimRightSlash (EnsureHTTPBase csAddr) ++ "/manifests")%string in
  if IsZero (lastPolled d) then url else (url ++ "?since=" ++ zoned (lastPolled d))%string.

(** One tick of the poll: [csAddr] is the configured base or what the proxy
    answers; [get] is the request, [None] when it fails. *)
Definition pollTick {W} (get : string -> W -> option string * W) (csAddr : string) (d : Distributor) (w : W) : option Distributor * W :=
  if String.eqb csAddr "" then (Some d, w)
  else match get (pollURL csAddr d) w with
       | (None, w) => (Some d, w)
       | (Some body, w) =>
           match decodeManifests body with
           | None => (Some d, w)
           | Some data => (processAll data d, w)
           end
       end.

End Distribute.

(** [/file] and [/latest]; a file that is gone is a 404 too. *)
Definition serveFile (path : string) (d : Distributor) : Z * string :=
  match disk d !! path with Some content => (200, content) | None => (404, "404 page not found"%string) end.

Definition fileHandler (method rawQuery : string) (d : Distributor) : Z * string :=
  if negb (String.eqb method "GET") then (405, "method not allowed"%string)
  else
    let manifestID := queryGet rawQuery "manifest_id" in
    let station := queryGet rawQuery "station" in
    if String.eqb manifestID "" || String.eqb station "" then (400, "missing params"%string)
    else match known_files d !! manifestID with
         | None => (404, "manifest not found"%string)
         | Some m => match m !! station with
                     | None => (404, "station file not found"%string)
                     | Some path => serveFile path d
                     end
         end.

Definition latestHandler (method rawQuery : string) (d : Distributor) : Z * string :=
  if negb (String.eqb method "GET") then (405, "method not allowed"%string)
  else
    let station := queryGet rawQuery "station" in
    if String.eqb station "" then (400, "missing station param"%string)
    else if String.eqb (latestManifestID d) "" then (404, "no manifests available"%string)
    else match known_files d !! latestManifestID d with
         | None => (404, "latest manifest not found"%string)
         | Some m => match m !! station with
                     | None => (404, "no tickets for this station"%string)
                     | Some path => serveFile path d
                     end
         end.

(** ** The station: the ticket file it receives, if any *)

Definition latestURL (distAddr stationID : string) : string :=
  (TrimRightSlash (EnsureHTTPBase distAddr) ++ "/latest?station=" ++ stationID)%string.

Definition pollTickets (answer : option (Z * string)) : option string :=
  match answer with
  | Some (status, body) => if status =? 404 then None else if negb (status =? 200) then None else Some body
  | None => None
  end.

End Tickets.
