(* ===== verification/TicketsFacts.v ===== *)
(** * Tickets reach the stations

    From the tickets table of the card system, through a manifest in a JSONB
    column, the [/manifests] endpoint, the distributor's poll and its CSV
    files, to what a station is served. *)

From Stdlib Require Import Ascii String DecimalString.
From S2P Require Import Prelude.
From stdpp Require Import list sorting relations.
From S2P Require Import GoStrings NetIP NetIPFacts GoURL GoJSON Utf8 GoScan GoAny Firewall Transport GoTime SQL CardDB Journeys SimHTTP Registry Store Memory StoreBacked Client Proxy SimProxy Tickets.
Local Open Scope Z_scope.

#[local] Arguments String.append : simpl nomatch.

(** ** Tickets in a manifest *)

Definition small_id (n : Z) : Prop := Z.abs n < 2 ^ 53.

Lemma small_int_lit n : small_id n -> small_int (lit_of_int n) = Some n.
Proof.
  intros Hn. unfold small_int. rewrite int_of_lit_of_int by (unfold in_int64, int64_min, int64_max, small_id in *; lia).
  by rewrite (proj2 (Z.ltb_lt _ _) Hn), String.eqb_refl.
Qed.

(** What a text column can hold *)
Definition text_ok (s : string) : Prop := valid_utf8 s = true /\ has_byte s "000" = false.

Definition ticket_ok (it : Z * Ticket) : Prop :=
  small_id it.1 /\ text_ok (tkStationID it.2) /\ text_ok (Passenger it.2) /\ four_digit_year (TrainTime it.2) /\ tkStationID it.2 <> ""%string.

Section Payload.
Context (zoned : Z -> string) (float_v : string -> string) (composite_v : json -> string).
Hypothesis zoned_ok : forall t, text_ok (zoned t).

(** The row of a ticket in the file of its station *)
Definition rowOf (it : Z * Ticket) : list string := [sprintFloat it.1; Passenger it.2; zoned (TrainTime it.2)].

Lemma ticket_json_plain it : ticket_ok it -> json_ok (ticket_json zoned it) /\ plain_any (ticket_json zoned it).
Proof using zoned_ok.
  clear float_v composite_v.
  intros (Hid & [Hs _] & [Hp _] & _ & _). destruct (zoned_ok (TrainTime it.2)) as [Hz _]. split.
  - simpl. split_and!; try done. apply lit_of_int_ok.
  - simpl. rewrite small_int_lit by done. split; [|by eauto]. repeat constructor; set_solver.
Qed.

Lemma manifest_json_plain id gen ts : valid_utf8 id = true -> Forall ticket_ok ts ->
  json_ok (manifest_json zoned id gen ts) /\ plain_any (manifest_json zoned id gen ts) /\ (jdepth (manifest_json zoned id gen ts) <= 3)%N.
Proof using zoned_ok.
  clear float_v composite_v.
  intros Hid Hts. split_and!.
  - simpl. split_and!; try done; [apply valid_utf8_iff, plain_Utf8, plain_Format|]. apply (json_ok_arr (ticket_json zoned <$> ts)), Forall_fmap.
    eapply Forall_impl; [exact Hts|]. intros it Hit. by apply ticket_json_plain.
  - simpl. split; [repeat constructor; set_solver|]. split_and!; try done.
    apply (plain_arr (ticket_json zoned <$> ts)), Forall_fmap. eapply Forall_impl; [exact Hts|]. intros it Hit. by apply ticket_json_plain.
  - assert (Hd : (max_depth_of jdepth (ticket_json zoned <$> ts) <= 1)%N).
    { clear. induction ts as [|t ts IH]; [done|]. rewrite fmap_cons. cbn [max_depth_of fold_right]. unfold max_depth_of in IH.
      change (jdepth (ticket_json zoned t)) with 1%N. lia. }
    unfold max_depth_of in Hd. cbn -[N.max N.add N.le]. lia.
Qed.

(** A ticket that went through the column and [any] gives the row of the ticket. *)
Lemma ticketRow_same it v : ticket_ok it -> jsame (ticket_json zoned it) v ->
  ticketRow float_v composite_v v = Some (tkStationID it.2, rowOf it).
Proof.
  intros (Hid & _ & _ & _ & Hst) Hv. unfold ticket_json in Hv. set (fs := [_; _; _; _]) in Hv.
  inversion Hv as [| | | | |fs' gs hs Hnd Hall Hperm]; subst.
  pose proof (fun k => jsame_lookup fs hs k Hv) as Hl. unfold ticketRow.
  destruct (Hl "station_id"%string) as (w1 & -> & H1). destruct (Hl "id"%string) as (w2 & -> & H2).
  destruct (Hl "passenger"%string) as (w3 & -> & H3). destruct (Hl "train_time"%string) as (w4 & -> & H4).
  inversion H1; inversion H2; inversion H3; inversion H4; subst. cbn [asStr].
  rewrite (proj2 (String.eqb_neq _ _) Hst). unfold sprintV. by rewrite small_int_lit.
Qed.

(** The rows of a station, in the order of the tickets *)
Definition rowsFor (st : string) (ts : list (Z * Ticket)) : list (list string) :=
  rowOf <$> List.filter (fun it => String.eqb (tkStationID it.2) st) ts.

Lemma byStation_rows ts vs m st : Forall ticket_ok ts -> Forall2 jsame (ticket_json zoned <$> ts) vs ->
  foldl (addRow float_v composite_v) m vs !! st =
  match rowsFor st ts with [] => m !! st | rows => Some (default [] (m !! st) ++ rows) end.
Proof.
  revert vs m. induction ts as [|it ts IH]; intros vs m Hok Hv; inversion Hv; subst; [done|].
  apply Forall_cons_iff in Hok as [Hit Hts]. cbn [foldl]. rewrite (IH l') by done. unfold addRow.
  rewrite (ticketRow_same it) by done. unfold rowsFor. cbn [List.filter].
  destruct (String.eqb_spec (tkStationID it.2) st) as [->|Hne]; rewrite ?fmap_cons.
  - rewrite lookup_insert_eq. simpl. destruct (rowOf <$> _); [done|]. by rewrite <-app_assoc.
  - by rewrite lookup_insert_ne.
Qed.

Lemma payload_rows id gen ts p : Forall ticket_ok ts -> jsame (manifest_json zoned id gen ts) p ->
  exists fs vs, p = JObj fs /\ lookupKey "tickets" fs = Some (JArr vs) /\
    forall st, foldl (addRow float_v composite_v) ∅ vs !! st = match rowsFor st ts with [] => None | rows => Some rows end.
Proof.
  intros Hts Hp. unfold manifest_json in Hp. set (ms := [_; _; _]) in Hp.
  inversion Hp as [| | | | |fs' gs hs Hnd Hall Hperm]; subst.
  destruct (jsame_lookup ms hs "tickets" Hp) as (w & Hw & Hs). inversion Hs as [| | | |vs ws Hvs|]; subst.
  exists hs, ws. split_and!; [done|done|]. intros st. rewrite (byStation_rows ts) by done. rewrite lookup_empty. by destruct (rowsFor st ts).
Qed.

End Payload.

(** ** Paths *)

Lemma str_app_inj_l (a b c : string) : (a ++ b = a ++ c)%string -> b = c.
Proof. induction a as [|x a IH]; [done|]. intros [= E]. auto. Qed.

Lemma str_app_inj_r (a b c : string) : (a ++ c = b ++ c)%string -> a = b.
Proof.
  intros E. apply (f_equal str_rev) in E. rewrite !str_rev_app in E. apply str_app_inj_l in E.
  by rewrite <-(str_rev_involutive a), <-(str_rev_involutive b), E.
Qed.

Definition no_slash (s : string) : bool := all_bytes (fun c => negb (Ascii.eqb c "/")) s.

Lemma splitSlash_app cur a b : splitSlash cur (a ++ String "/" b) = splitSlash cur a ++ splitSlash "" b.
Proof.
  revert cur. induction a as [|x a IH]; intros cur; [done|]. cbn [String.append splitSlash].
  destruct (Ascii.eqb x "/"); [|apply IH]. by rewrite IH.
Qed.

Lemma splitSlash_plain cur s : no_slash s = true -> splitSlash cur s = [(str_rev cur ++ s)%string].
Proof.
  revert cur. induction s as [|x s IH]; intros cur; [intros _; cbn; by rewrite str_app_nil_r|].
  unfold no_slash. cbn [all_bytes splitSlash]. intros [Hx Hs]%andb_true_iff. apply negb_true_iff in Hx. rewrite Hx, IH by done.
  change (String x cur) with (String x "" ++ cur)%string. by rewrite str_rev_app, str_app_assoc.
Qed.

Lemma concat_snoc_inj l x y : String.concat "/" (l ++ [x]) = String.concat "/" (l ++ [y]) -> x = y.
Proof.
  induction l as [|a l IH]; [done|]. intros E.
  assert (Hc : forall z, String.concat "/" ((a :: l) ++ [z]) = (a ++ "/" ++ String.concat "/" (l ++ [z]))%string) by (by intros z; destruct l).
  rewrite !Hc in E. by apply str_app_inj_l, str_app_inj_l, IH in E.
Qed.

(** A name that is an ordinary path element *)
Definition ordinary (s : string) : Prop := no_slash s = true /\ s <> ""%string /\ s <> "."%string /\ s <> ".."%string.

Lemma Join_form d n : ordinary n -> exists pre, Join d n = (pre ++ n)%string /\
  forall n', ordinary n' -> Join d n' = Join d n -> n' = n.
Proof.
  intros Hn. set (rooted := HasPrefix (d ++ "/") "/"). set (out := foldl (cleanStep rooted) [] (splitSlash "" d)).
  set (fin := fun body : string => if rooted then ("/" ++ body)%string else if String.eqb body "" then "."%string else body).
  assert (HJ : forall n, ordinary n -> Join d n = fin (String.concat "/" (rev out ++ [n]))).
  { intros x (Hs & H0 & H1 & H2). unfold Join, Clean. change ("/" ++ x)%string with (String "/" x).
    rewrite splitSlash_app, (splitSlash_plain "" x) by done. change (str_rev "" ++ x)%string with x.
    replace (HasPrefix (d ++ String "/" x) "/") with rooted
      by (unfold rooted, HasPrefix; destruct d as [|c d']; [done|]; cbn [String.append strip_prefix];
          by destruct (Ascii.eqb "/" c)).
    rewrite foldl_app. fold out. cbn [foldl cleanStep]. unfold cleanStep.
    rewrite (proj2 (String.eqb_neq _ _) H0), (proj2 (String.eqb_neq _ _) H1), (proj2 (String.eqb_neq _ _) H2). cbn [orb rev]. done. }
  assert (Hne : forall n, ordinary n -> String.concat "/" (rev out ++ [n]) <> ""%string).
  { intros x (_ & H0 & _). destruct (rev out) as [|a l]; [done|].
    assert (String.concat "/" ((a :: l) ++ [x]) = (a ++ "/" ++ String.concat "/" (l ++ [x]))%string) as -> by (by destruct l).
    by destruct a. }
  assert (Hpre : forall l (x : string), exists pre, String.concat "/" (l ++ [x]) = (pre ++ x)%string).
  { intros l x. induction l as [|a l [pre IH]]; [by exists ""%string|]. exists (a ++ "/" ++ pre)%string.
    assert (String.concat "/" ((a :: l) ++ [x]) = (a ++ "/" ++ String.concat "/" (l ++ [x]))%string) as -> by (by destruct l).
    rewrite IH. by rewrite !str_app_assoc. }
  destruct (Hpre (rev out) n) as [pre Ep]. rewrite (HJ n Hn). unfold fin.
  rewrite (proj2 (String.eqb_neq _ _) (Hne n Hn)). exists (if rooted then "/" ++ pre else pre)%string. split.
  - rewrite Ep. by destruct rooted.
  - intros n' Hn' E. rewrite (HJ n' Hn') in E. unfold fin in E. rewrite (proj2 (String.eqb_neq _ _) (Hne n' Hn')) in E.
    apply (concat_snoc_inj (rev out)). destruct rooted; [by apply str_app_inj_l in E|done].
Qed.

(** ** Query strings *)

Definition query_safe_byte (c : ascii) : bool :=
  negb (Ascii.eqb c "&" || Ascii.eqb c ";" || Ascii.eqb c "=" || Ascii.eqb c "%" || Ascii.eqb c "+").
Definition query_safe (s : string) : bool := all_bytes query_safe_byte s.

Lemma safe_byte c : query_safe_byte c = true ->
  Ascii.eqb c "&" = false /\ Ascii.eqb c ";" = false /\ Ascii.eqb c "=" = false /\ c <> "%"%char /\ c <> "+"%char.
Proof.
  unfold query_safe_byte. intros H%negb_true_iff. repeat apply orb_false_iff in H as [H ?].
  split_and!; try done; apply Ascii.eqb_neq; done.
Qed.

Lemma all_bytes_index p c s : all_bytes p s = true -> p c = false -> IndexByte s c = None.
Proof.
  induction s as [|x s IH]; [done|]. cbn [all_bytes IndexByte]. intros [Hx Hs]%andb_true_iff Hc.
  destruct (Ascii.eqb_spec x c) as [->|]; [congruence|]. by rewrite IH.
Qed.

Lemma splitByte_plain c cur s : IndexByte s c = None -> splitByte c cur s = [(str_rev cur ++ s)%string].
Proof.
  revert cur. induction s as [|x s IH]; intros cur; [intros _; cbn; by rewrite str_app_nil_r|].
  cbn [IndexByte splitByte]. destruct (Ascii.eqb x c); [done|]. intros Hs. rewrite IH by (by destruct (IndexByte s c)).
  change (String x cur) with (String x "" ++ cur)%string. by rewrite str_rev_app, str_app_assoc.
Qed.

Lemma QueryUnescape_safe s : query_safe s = true -> QueryUnescape s = Some s.
Proof.
  unfold QueryUnescape. induction s as [|c s IH]; [done|]. unfold query_safe. cbn [all_bytes String.length queryUnescape].
  intros [Hc Hs]%andb_true_iff. apply safe_byte in Hc as (_ & _ & _ & H1 & H2). rewrite IH by done.
  destruct c as [[] [] [] [] [] [] [] []]; try reflexivity; by destruct H1 + destruct H2.
Qed.

Lemma queryGet_safe key s : query_safe key = true -> query_safe s = true -> key <> ""%string ->
  queryGet (key ++ "=" ++ s) key = s.
Proof.
  intros Hk Hs Hne. unfold queryGet, ParseQuery.
  assert (Hno : forall c, query_safe_byte c = false -> Ascii.eqb "=" c = false -> IndexByte (key ++ "=" ++ s) c = None).
  { intros c Hc He. apply IndexByte_app_None; [by eapply all_bytes_index|]. apply IndexByte_app_None; [|by eapply all_bytes_index].
    cbn [IndexByte]. by rewrite He. }
  rewrite splitByte_plain by (by apply Hno). change (str_rev "" ++ ?x)%string with x. cbn [omap list_omap]. unfold queryPair, has_byte.
  rewrite Hno by done. cbn [orb]. replace (String.eqb (key ++ "=" ++ s) "") with false by (by destruct key). unfold GoURL.Cut.
  assert (Hi : IndexByte (key ++ "=" ++ s) "=" = Some (String.length key)).
  { rewrite IndexByte_app by (by eapply all_bytes_index). cbn. by rewrite Nat.add_0_r. }
  rewrite Hi, str_take_app. change ("=" ++ s)%string with (String "=" s). rewrite str_drop_app, !QueryUnescape_safe by done.
  cbn [List.find fst]. by rewrite String.eqb_refl.
Qed.

(** A property of the bytes [Format] prints *)
Lemma digitsOf_all p n z : digits_ok p = true -> all_bytes p (digitsOf n z) = true.
Proof.
  intros Hp. revert z. induction n as [|n IH]; intros z; [done|]. cbn [digitsOf]. rewrite all_bytes_app, IH. cbn [all_bytes].
  rewrite andb_true_r. unfold digits_ok in Hp. rewrite forallb_forall in Hp. apply Hp, list_elem_of_In.
  pose proof (Z.mod_pos_bound z 10 ltac:(lia)). rewrite !elem_of_cons. lia.
Qed.

Lemma Format_all p t : digits_ok p && all_bytes p "-T:.Z" = true -> all_bytes p (Format t) = true.
Proof.
  intros [Hd Hp]%andb_true_iff. cbn [all_bytes] in Hp. rewrite !andb_true_iff in Hp. destruct Hp as (H1 & H2 & H3 & H4 & H5 & _).
  assert (Hf : forall n z, all_bytes p (fracOf n z) = true).
  { induction n as [|n IH]; intros z; [done|]. cbn [fracOf]. case_match; [apply IH|by apply digitsOf_all]. }
  unfold Format, formatFrac. rewrite !all_bytes_app, !digitsOf_all by done. cbn [all_bytes]. rewrite H1, H2, H3, H5.
  case_match; [done|]. rewrite all_bytes_app, Hf. cbn [all_bytes]. by rewrite H4.
Qed.

Lemma safe_Format t : query_safe (Format t) = true.
Proof. by apply Format_all. Qed.

(** ** The distributor's files *)

Section Files.
Context (float_v : string -> string) (composite_v : json -> string).
Context (outDir : string) (canCreate : string -> bool)
        (stations_order : gmap string (list (list string)) -> list (string * list (list string))).
Hypothesis can_create : forall p, canCreate p = true.
Hypothesis order_perm : forall m, stations_order m ≡ₚ map_to_list m.

Lemma manifestName_ordinary id st : no_slash id = true -> no_slash st = true -> ordinary ("manifest_" ++ id ++ "_" ++ st ++ ".csv").
Proof. intros Hi Hs. split; [|done]. unfold no_slash in *. by rewrite !all_bytes_app, Hi, Hs. Qed.

Lemma manifestPath_inj id st st' : no_slash id = true -> no_slash st = true -> no_slash st' = true ->
  manifestPath outDir id st = manifestPath outDir id st' -> st = st'.
Proof.
  intros Hi Hs Hs' E. unfold manifestPath in E.
  destruct (Join_form outDir _ (manifestName_ordinary id st' Hi Hs')) as (_ & _ & Hinj).
  apply (Hinj _ (manifestName_ordinary id st Hi Hs)) in E.
  apply str_app_inj_l, str_app_inj_l, str_app_inj_l in E. by apply str_app_inj_r in E.
Qed.

Lemma writeStations_spec id l files0 disk0 : no_slash id = true -> NoDup l.*1 -> Forall (fun sr => no_slash sr.1 = true) l ->
  let r := foldl (writeStation outDir canCreate id) (files0, disk0) l in
  (forall st rows, (st, rows) ∈ l -> r.1 !! st = Some (manifestPath outDir id st) /\
     r.2 !! manifestPath outDir id st = Some (csvFile (csvHeader :: rows))) /\
  (forall st, st ∉ l.*1 -> r.1 !! st = files0 !! st) /\
  (forall p, (forall st, st ∈ l.*1 -> manifestPath outDir id st <> p) -> r.2 !! p = disk0 !! p).
Proof.
  intros Hi. revert files0 disk0. induction l as [|[st rows] l IH]; intros files0 disk0 Hnd Hs.
  { split_and!; try done. by intros st rows ?%elem_of_nil. }
  rewrite fmap_cons in Hnd. apply NoDup_cons in Hnd as [Hni Hnd]. apply Forall_cons in Hs as [Hst Hs]. cbn [fst] in Hst, Hni.
  cbn [foldl]. unfold writeStation at 2 4 6 8. cbn [fst snd]. rewrite can_create.
  destruct (IH (<[st := manifestPath outDir id st]> files0)
              (<[manifestPath outDir id st := csvFile (csvHeader :: rows)]> disk0) Hnd Hs) as (H1 & H2 & H3).
  assert (Hother : forall st', st' ∈ l.*1 -> manifestPath outDir id st' <> manifestPath outDir id st).
  { intros st' Hin E. apply manifestPath_inj in E; [congruence|done| |done].
    apply list_elem_of_fmap in Hin as (sr & -> & Hin). by eapply Forall_forall in Hs. }
  split_and!.
  - intros st' rows' [[= -> ->]|Hin]%elem_of_cons; [|by apply H1].
    rewrite H2, H3 by done. by rewrite !lookup_insert_eq.
  - intros st' Hn. rewrite fmap_cons in Hn. apply not_elem_of_cons in Hn as [Hne Hn]. rewrite H2 by done. by rewrite lookup_insert_ne.
  - intros p Hp. rewrite H3.
    + apply lookup_insert_ne. apply Hp. rewrite fmap_cons. by left.
    + intros st' Hin. apply Hp. rewrite fmap_cons. by right.
Qed.

(** What is served for a manifest: the file of a station, or nothing *)
Definition servesFile (d : Distributor) (id st : string) (rows : list (list string)) : Prop :=
  match rows with
  | [] => exists files, known_files d !! id = Some files /\ files !! st = None
  | _ => exists files path, known_files d !! id = Some files /\ files !! st = Some path /\
           disk d !! path = Some (csvFile (csvHeader :: rows))
  end.

(** The object of a manifest in an answer: its ID, time and payload *)
Definition manifestFields (id genRaw : string) (p : json) : list (string * json) :=
  [("generated_at", JStr genRaw); ("id", JStr id); ("payload", p)]%string.

Lemma processManifest_spec zoned id gen ts p genRaw t d : no_slash id = true -> Forall ticket_ok ts ->
  Forall (fun it => no_slash (tkStationID it.2) = true) ts -> jsame (manifest_json zoned id gen ts) p -> Parse genRaw = Some t ->
  exists d', processManifest float_v composite_v outDir canCreate stations_order (manifestFields id genRaw p) d = Some d' /\
    (forall st, servesFile d' id st (rowsFor zoned st ts)) /\ latestManifestTime d' = Z.max (latestManifestTime d) t /\
    (latestManifestTime d < t -> latestManifestID d' = id).
Proof.
  intros Hid Hts Hslash Hp Hgen. destruct (payload_rows zoned float_v composite_v id gen ts p Hts Hp) as (fs & vs & -> & Ht & Hrows).
  unfold processManifest. change (lookupKey "payload" (manifestFields id genRaw (JObj fs))) with (Some (JObj fs)).
  change (lookupKey "id" (manifestFields id genRaw (JObj fs))) with (Some (JStr id)).
  change (lookupKey "generated_at" (manifestFields id genRaw (JObj fs))) with (Some (JStr genRaw)). cbn [asStr]. rewrite Ht, Hgen.
  set (m := foldl (addRow float_v composite_v) ∅ vs) in *.
  assert (Hsl : Forall (fun sr => no_slash sr.1 = true) (stations_order m)).
  { apply Forall_forall. intros [st rows] Hin. rewrite order_perm in Hin. apply elem_of_map_to_list in Hin. rewrite Hrows in Hin.
    destruct (rowsFor zoned st ts) as [|r rs] eqn:Er; [done|]. unfold rowsFor in Er.
    destruct (List.filter _ ts) as [|it its] eqn:Ef; [done|]. assert (Hit : it ∈ it :: its) by left. rewrite <-Ef in Hit.
    apply list_elem_of_In, filter_In in Hit as [Hit <-%String.eqb_eq]. apply list_elem_of_In in Hit. by eapply Forall_forall in Hslash. }
  assert (Hnd : NoDup (stations_order m).*1) by (rewrite order_perm; apply NoDup_fst_map_to_list).
  destruct (writeStations_spec id (stations_order m) ∅ (disk d) Hid Hnd Hsl) as (H1 & H2 & _).
  destruct (foldl _ _ (stations_order m)) as [files disk'] eqn:Ew. cbn [fst snd] in *.
  eexists. split; [done|]. cbn [latestManifestTime latestManifestID known_files disk]. split_and!.
  - intros st. unfold servesFile. specialize (Hrows st). destruct (rowsFor zoned st ts) as [|r rs].
    + exists files. cbn. rewrite lookup_insert_eq. split; [done|]. rewrite H2, lookup_empty; [done|].
      rewrite order_perm. intros Hin. apply list_elem_of_fmap in Hin as ([st' rows] & -> & Hin). apply elem_of_map_to_list in Hin. simpl in *. congruence.
    + destruct (H1 st (r :: rs)) as [Hf Hdk]; [rewrite order_perm; by apply elem_of_map_to_list|].
      exists files, (manifestPath outDir id st). cbn. by rewrite lookup_insert_eq.
  - destruct (Z.ltb_spec (latestManifestTime d) t); lia.
  - intros Hlt. by rewrite (proj2 (Z.ltb_lt _ _) Hlt).
Qed.

End Files.

(** ** The endpoint and the poll *)

(** No text of the value holds a NUL, which a JSONB column refuses. *)
Fixpoint nul_free (j : json) : Prop :=
  match j with
  | JStr s => has_byte s "000" = false
  | JArr vs => fold_right (fun v acc => nul_free v /\ acc) True vs
  | JObj fs => fold_right (fun kv acc => (has_byte kv.1 "000" = false /\ nul_free kv.2) /\ acc) True fs
  | _ => True
  end.

Lemma no_nul_plain s : plain s = true -> all_bytes (fun c => negb (Ascii.eqb c "000")) s = true -> text_ok s.
Proof.
  intros Hp Hn. split; [by apply valid_utf8_iff, plain_Utf8|]. unfold has_byte.
  by rewrite (all_bytes_index (fun c => negb (Ascii.eqb c "000"))).
Qed.

Lemma Format_text t : text_ok (Format t).
Proof. apply no_nul_plain; [apply plain_Format|]. by apply Format_all. Qed.

Lemma newest_last (ms : list (string * Manifest)) id m : StronglySorted by_generated ms -> NoDup ms.*1 -> (id, m) ∈ ms ->
  (forall id' m', (id', m') ∈ ms -> id' <> id -> Generated m' < Generated m) ->
  exists pre, ms = pre ++ [(id, m)] /\ Forall (fun im => Generated im.2 < Generated m) pre.
Proof.
  intros Hs Hnd Hin Hnew. apply list_elem_of_split in Hin as (pre & post & ->). rewrite fmap_app, fmap_cons in Hnd.
  apply NoDup_app in Hnd as (_ & Hdisj & Hnd). apply NoDup_cons in Hnd as [Hni _]. cbn [fst] in *.
  assert (post = []) as ->.
  { destruct post as [|[id' m'] post]; [done|]. apply StronglySorted_app in Hs as (_ & _ & Hs).
    apply StronglySorted_inv in Hs as [_ Hs]. apply Forall_cons in Hs as [Hle _]. unfold by_generated in Hle. cbn [snd] in Hle.
    assert (id' <> id) as Hne by (intros ->; apply Hni; rewrite fmap_cons; by left).
    specialize (Hnew id' m' ltac:(set_solver) Hne). lia. }
  exists pre. split; [done|]. apply Forall_forall. intros [id' m'] Hin. apply (Hnew id'); [set_solver|].
  intros ->. apply (Hdisj id); [|by left]. apply list_elem_of_fmap. by exists (id, m').
Qed.
Section Answers.
Context `{Srv : Server} (float_json : string -> string).

(** A row a tick of the card system wrote for the tickets [ts] *)
Definition manifest_row (id : string) (m : Manifest) (ts : list (Z * Ticket)) : Prop :=
  no_slash id = true /\ valid_utf8 id = true /\ Forall ticket_ok ts /\ Forall (fun it => no_slash (tkStationID it.2) = true) ts /\
  four_digit_year (Generated m) /\
  exists gen p, parse (ManifestPayload m) = Some p /\ jsame (manifest_json Format id gen ts) p.

Definition manifests_ok (t : Tables) : Prop := map_Forall (fun id m => exists ts, manifest_row id m ts) (manifests t).

Lemma manifestBody_row id m ts : manifest_row id m ts ->
  exists gen q, manifestBody Format float_json id m = JObj (manifestFields id (Format (Generated m)) q) /\
    jsame (manifest_json Format id gen ts) q /\ json_ok (JObj (manifestFields id (Format (Generated m)) q)) /\
    (jdepth (JObj (manifestFields id (Format (Generated m)) q)) <= 4)%N.
Proof.
  intros (_ & Hid & Hts & _ & _ & gen & p & Hp & Hs). destruct (manifest_json_plain Format Format_text id gen ts Hid Hts) as (Hok & Hpl & Hd).
  exists gen, (remarshal float_json p). assert (Hq : jsame (manifest_json Format id gen ts) (remarshal float_json p)).
  { eapply jsame_trans; [exact Hs|]. apply remarshal_same. by eapply jsame_plain. }
  split_and!; [unfold manifestBody; by rewrite Hp|done| |].
  - unfold manifestFields. simpl. split_and!; try done; [apply (proj1 (Format_text _))|]. by eapply jsame_ok.
  - rewrite <-(jsame_depth _ _ Hq) in Hd. revert Hd. generalize (remarshal float_json p). intros q Hd.
    change (1 + N.max 0 (N.max 0 (N.max (jdepth q) 0)) <= 4)%N. lia.
Qed.

(** A request to the card system at [base] *)
Definition csServe (base url : string) (db : DB Tables) : option string * DB Tables :=
  let answer rawQuery := let '(_, body, db) := manifestsHandler Format float_json "GET" rawQuery db in (Some (encode body), db) in
  if String.eqb url (base ++ "/manifests") then answer ""%string
  else match strip_prefix (base ++ "/manifests?") url with
       | Some rawQuery => answer rawQuery
       | None => (None, db)
       end.

Lemma decodeManifests_rows ms : Forall (fun im : string * Manifest => exists ts, manifest_row im.1 im.2 ts) ms ->
  exists bodies, decodeManifests (encode (JArr ((fun im => manifestBody Format float_json im.1 im.2) <$> ms))) = Some bodies /\
    Forall2 (fun im fs => manifestBody Format float_json im.1 im.2 = JObj fs) ms bodies.
Proof.
  intros Hms. unfold decodeManifests, encode.
  assert (Hok : json_ok (JArr ((fun im => manifestBody Format float_json im.1 im.2) <$> ms)) /\
                (jdepth (JArr ((fun im => manifestBody Format float_json im.1 im.2) <$> ms)) <= 5)%N).
  { rewrite json_ok_arr, Forall_fmap. split.
    - eapply Forall_impl; [exact Hms|]. intros [id m] [ts Hr]. cbn [compose fst snd].
      by destruct (manifestBody_row id m ts Hr) as (g & q & -> & _ & Hok & _).
    - assert (Hd : (max_depth_of jdepth ((fun im => manifestBody Format float_json im.1 im.2) <$> ms) <= 4)%N).
      { induction Hms as [|[id m] ms [ts Hr] _ IH]; [done|]. rewrite fmap_cons. cbn [max_depth_of fold_right].
        unfold max_depth_of in IH. destruct (manifestBody_row id m ts Hr) as (g & q & E & _ & _ & Hd). cbn [fst snd]. rewrite E. lia. }
      unfold max_depth_of in Hd. cbn -[N.max N.add N.le]. lia. }
  destruct Hok as [Hok Hd]. destruct (json_roundtrip _ (String LF "") Hok) as [_ ->]; [unfold max_depth; lia|by do 3 right|].
  clear Hok Hd. induction Hms as [|[id m] ms [ts Hr] _ (bs & IH1 & IH2)]; [exists []; by split|].
  destruct (manifestBody_row id m ts Hr) as (g & q & E & _). exists (manifestFields id (Format (Generated m)) q :: bs).
  rewrite fmap_cons. cbn [mapM fst snd]. rewrite E. split; [|by constructor]. cbn [mbind option_bind]. by rewrite IH1.
Qed.

End Answers.

Section EndToEnd.
Context `{Srv : Server} (jsonb : string -> option string).
Context (float_json float_v : string -> string) (composite_v : json -> string).
Context (outDir : string) (canCreate : string -> bool)
        (stations_order : gmap string (list (list string)) -> list (string * list (list string))).
Hypothesis can_create : forall p, canCreate p = true.
Hypothesis order_perm : forall m, stations_order m ≡ₚ map_to_list m.
(** A JSONB column gives back an equal value, whatever its layout. *)
Hypothesis jsonb_keeps : forall j, json_ok j -> plain_any j -> nul_free j -> (jdepth j <= max_depth)%N ->
  exists s j', jsonb (print j) = Some s /\ parse s = Some j' /\ jsame j j'.

Lemma processAll_app a b d : processAll float_v composite_v outDir canCreate stations_order (a ++ b) d =
  match processAll float_v composite_v outDir canCreate stations_order a d with
  | Some d => processAll float_v composite_v outDir canCreate stations_order b d
  | None => None
  end.
Proof using Type. revert d. induction a as [|m a IH]; intros d; [done|]. cbn [app processAll]. by case_match. Qed.

(** Manifests older than [t] leave the latest time below [t]. *)
Lemma processAll_older ms bodies t d : Forall (fun im : string * Manifest => exists ts, manifest_row im.1 im.2 ts) ms ->
  Forall2 (fun im fs => manifestBody Format float_json im.1 im.2 = JObj fs) ms bodies ->
  Forall (fun im : string * Manifest => Generated im.2 < t) ms -> latestManifestTime d < t ->
  exists d', processAll float_v composite_v outDir canCreate stations_order bodies d = Some d' /\ latestManifestTime d' < t.
Proof using can_create order_perm.
  intros Hms Hb Hold. revert d. induction Hb as [|[id m] fs ms bodies E _ IH]; intros d Hd; [by exists d|].
  apply Forall_cons in Hms as [[ts Hr] Hms]. apply Forall_cons in Hold as [Hlt Hold]. cbn [fst snd] in *.
  destruct (manifestBody_row float_json id m ts Hr) as (g & q & E' & Hq & _). rewrite E' in E. injection E as <-.
  destruct Hr as (Hid & _ & Hts & Hsl & Hy & _).
  destruct (processManifest_spec float_v composite_v outDir canCreate stations_order can_create order_perm Format id g ts q _ _ d
              Hid Hts Hsl Hq (Parse_Format _ Hy)) as (d' & Hd' & _ & Hmax & _).
  cbn [processAll]. rewrite Hd'. apply IH; [done|done|]. rewrite Hmax. lia.
Qed.

(** The rows the endpoint answers for a time *)
Definition rowsSince (since : Z) (db : DB Tables) : list (string * Manifest) :=
  merge_sort by_generated (row_order (tick db) _
    (List.filter (fun km => stored_time since <? Generated km.2) (map_to_list (manifests (tables db))))).

Lemma rowsSince_elem since db id m :
  (id, m) ∈ rowsSince since db <-> manifests (tables db) !! id = Some m /\ stored_time since < Generated m.
Proof.
  unfold rowsSince. rewrite merge_sort_Permutation, row_order_perm, list_elem_of_In, filter_In, <-list_elem_of_In, elem_of_map_to_list.
  by rewrite Z.ltb_lt.
Qed.

Lemma rowsSince_NoDup since db : NoDup (rowsSince since db).*1.
Proof.
  unfold rowsSince. rewrite merge_sort_Permutation, row_order_perm. generalize (NoDup_fst_map_to_list (manifests (tables db))).
  generalize (map_to_list (manifests (tables db))). intros l. induction l as [|[k x] l IH]; [done|].
  rewrite fmap_cons. intros [Hni Hnd]%NoDup_cons. cbn [List.filter]. case_match; [|by apply IH]. rewrite fmap_cons. apply NoDup_cons.
  split; [|by apply IH]. intros Hin. apply Hni. apply list_elem_of_fmap in Hin as (y & -> & Hin). apply list_elem_of_fmap. exists y.
  split; [done|]. by apply list_elem_of_In, filter_In in Hin as [Hin%list_elem_of_In _].
Qed.

(** The poll asks for what is newer than what it has seen. *)
Lemma poll_answer csAddr d db : four_digit_year (lastPolled d) -> fault_at (tick db) = Runs ->
  csServe float_json (TrimRightSlash (EnsureHTTPBase csAddr)) (pollURL Format csAddr d) db =
  (Some (encode (JArr ((fun im => manifestBody Format float_json im.1 im.2) <$> rowsSince (lastPolled d) db))), mkDB (tables db) (S (tick db))).
Proof.
  intros Hy Hrun. unfold csServe, pollURL. set (base := TrimRightSlash _). unfold IsZero. destruct (Z.eqb_spec (lastPolled d) zeroTime) as [Hz|Hz].
  - rewrite String.eqb_refl. unfold manifestsHandler, GetManifestsSince. cbn [negb String.eqb]. simpl. rewrite QueryAll_runs by done. by rewrite Hz.
  - assert (Hne : forall a x, (a ++ String "?" x)%string <> a) by (intros a x E; induction a as [|c a IH]; [done|injection E; auto]).
    change ("?since=" ++ Format (lastPolled d))%string with (String "?" ("since=" ++ Format (lastPolled d))).
    rewrite (proj2 (String.eqb_neq _ _) (Hne _ _)).
    replace (strip_prefix (base ++ "/manifests?") _) with (Some ("since=" ++ Format (lastPolled d))%string)
      by (symmetry; apply strip_prefix_Some; by rewrite !str_app_assoc).
    unfold manifestsHandler. cbn [negb String.eqb Ascii.eqb Bool.eqb].
    change ("since=" ++ Format (lastPolled d))%string with ("since" ++ "=" ++ Format (lastPolled d))%string.
    rewrite queryGet_safe by (try apply safe_Format; done).
    assert (Format (lastPolled d) <> ""%string) as Hf.
    { intros E. pose proof (Parse_Format _ Hy) as Hp. by rewrite E in Hp. }
    rewrite (proj2 (String.eqb_neq _ _) Hf), (Parse_Format _ Hy). unfold GetManifestsSince. by rewrite QueryAll_runs.
Qed.

(** A poll that finds a manifest newer than every other one serves it. *)
Lemma poll_serves csAddr d db id m ts : String.eqb csAddr "" = false -> four_digit_year (lastPolled d) -> fault_at (tick db) = Runs ->
  manifests_ok (tables db) -> manifests (tables db) !! id = Some m -> manifest_row id m ts ->
  (forall id' m', manifests (tables db) !! id' = Some m' -> id' <> id -> Generated m' < Generated m) ->
  stored_time (lastPolled d) < Generated m -> latestManifestTime d < Generated m ->
  exists d', pollTick Format float_v composite_v outDir canCreate stations_order
      (csServe float_json (TrimRightSlash (EnsureHTTPBase csAddr))) csAddr d db = (Some d', mkDB (tables db) (S (tick db))) /\
    latestManifestID d' = id /\ forall st, servesFile d' id st (rowsFor Format st ts).
Proof.
  intros Hcs Hy Hrun Hok Hm Hr Hnew Hpolled Hlatest. unfold pollTick. rewrite Hcs, poll_answer by done.
  assert (Hall : Forall (fun im : string * Manifest => exists ts, manifest_row im.1 im.2 ts) (rowsSince (lastPolled d) db)).
  { apply Forall_forall. intros [id' m'] [Hl _]%rowsSince_elem. by apply (Hok id'). }
  destruct (newest_last (rowsSince (lastPolled d) db) id m) as (pre & Epre & Hpre).
  { unfold rowsSince. apply StronglySorted_merge_sort; intros ?**; unfold by_generated in *; lia. }
  { apply rowsSince_NoDup. }
  { by apply rowsSince_elem. }
  { intros id' m' [Hl _]%rowsSince_elem. by apply Hnew. }
  destruct (decodeManifests_rows float_json _ Hall) as (bodies & -> & Hb). rewrite Epre in Hb, Hall.
  apply Forall2_app_inv_l in Hb as (bpre & blast & Hb1 & Hb2 & ->). apply Forall_app in Hall as [Hall1 _].
  inversion Hb2 as [|? fs ? ? E Hnil]; subst. inversion Hnil; subst. cbn [fst snd] in E.
  destruct (manifestBody_row float_json id m ts Hr) as (g & q & E' & Hq & _). rewrite E' in E. injection E as <-.
  destruct (processAll_older pre bpre (Generated m) d Hall1 Hb1 Hpre Hlatest) as (d1 & Hd1 & Hlt).
  destruct Hr as (Hid & _ & Hts & Hsl & Hgy & _).
  destruct (processManifest_spec float_v composite_v outDir canCreate stations_order can_create order_perm Format id g ts q _ _ d1
              Hid Hts Hsl Hq (Parse_Format _ Hgy)) as (d2 & Hd2 & Hs & _ & Hl).
  exists d2. rewrite (processAll_app bpre), Hd1. cbn [processAll]. rewrite Hd2. auto.
Qed.

(** What a station gets from a distributor that serves a manifest *)
Lemma latest_answer d st rows : latestManifestID d <> ""%string -> servesFile d (latestManifestID d) st rows ->
  query_safe st = true -> st <> ""%string ->
  latestHandler "GET" ("station=" ++ st) d =
  match rows with [] => (404, "no tickets for this station"%string) | _ => (200, csvFile (csvHeader :: rows)) end.
Proof using Type.
  intros Hid Hs Hq Hst. unfold latestHandler. cbn [negb String.eqb Ascii.eqb Bool.eqb].
  change ("station=" ++ st)%string with ("station" ++ "=" ++ st)%string. rewrite queryGet_safe by done.
  rewrite (proj2 (String.eqb_neq _ _) Hst), (proj2 (String.eqb_neq _ _) Hid). unfold servesFile in Hs. destruct rows as [|r rs].
  - by destruct Hs as (files & -> & ->).
  - destruct Hs as (files & path & -> & -> & Hd). unfold serveFile. by rewrite Hd.
Qed.

(** ** One tick of the card system *)

Definition tickets_ok (t : Tables) : Prop :=
  map_Forall (fun id k => ticket_ok (id, k) /\ no_slash (tkStationID k) = true) (tickets t).

(** What statement [n] answers for the active tickets of the next quarter of
    an hour, and the new tickets *)
Definition activeAt (n : nat) (now : Z) (t : Tables) : list (Z * Ticket) :=
  merge_sort by_station (row_order n _ (ticketRows (fun k =>
    tkActive k && (stored_time now <=? TrainTime k) && (TrainTime k <=? stored_time (now + 15 * minute))) t)).

Definition newTicket (last : Z) (t : Tables) : Prop := exists id k, tickets t !! id = Some k /\ stored_time last < CreatedAt k.

Lemma activeAt_ok n now t : tickets_ok t ->
  Forall ticket_ok (activeAt n now t) /\ Forall (fun it => no_slash (tkStationID it.2) = true) (activeAt n now t).
Proof using Type.
  intros Hok. rewrite <-Forall_and. apply Forall_forall. intros [id k] Hin. unfold activeAt in Hin.
  rewrite merge_sort_Permutation, row_order_perm in Hin. apply list_elem_of_In, filter_In in Hin as [Hin%list_elem_of_In _].
  apply elem_of_map_to_list in Hin. by apply (Hok id).
Qed.

Lemma manifestID_ok now : no_slash (manifestID now) = true /\ text_ok (manifestID now).
Proof using Type.
  unfold manifestID, no_slash. rewrite all_bytes_app, lit_of_int_all by done. split; [done|]. apply no_nul_plain.
  - by rewrite plain_app, plain_lit.
  - by rewrite all_bytes_app, lit_of_int_all.
Qed.

Lemma manifest_nul_free id gen ts : text_ok id -> Forall ticket_ok ts -> nul_free (manifest_json Format id gen ts).
Proof using Type.
  intros [_ Hid] Hts. simpl. split_and!; try done; [apply (proj2 (Format_text gen))|].
  induction Hts as [|it ts (_ & [_ Hs] & [_ Hp] & _) _ IH]; [done|]. rewrite fmap_cons. simpl. split_and!; try done.
  apply (proj2 (Format_text _)).
Qed.

Lemma manifestTick_stores clk last db : let n := tick db in let t := tables db in
  let id := manifestID (clk 1%nat) in let ts := activeAt (S n) (clk 0%nat) t in
  fault_at n = Runs -> fault_at (S n) = Runs -> fault_at (S (S n)) = Runs ->
  tickets_ok t -> newTicket last t -> ts <> [] -> manifests t !! id = None -> four_digit_year (stored_time (clk 2%nat)) ->
  exists m, manifestTick jsonb Format clk last db = (clk 3%nat, mkDB (set_manifests (<[id := m]> (manifests t)) t) (S (S (S n)))) /\
    manifest_row id m ts /\ Generated m = stored_time (clk 2%nat).
Proof using jsonb_keeps.
  clear float_json float_v composite_v outDir canCreate stations_order can_create order_perm.
  intros n t id ts R0 R1 R2 Hok (k & tk & Hk & Hnew) Hts Hfresh Hy. destruct (manifestID_ok (clk 1%nat)) as [Hslash Htext].
  destruct (activeAt_ok (S n) (clk 0%nat) t Hok) as [Hts1 Hts2]. fold ts in Hts1, Hts2.
  set (gen := clk 2%nat) in *. destruct (manifest_json_plain Format Format_text id gen ts (proj1 Htext) Hts1) as (Hj & Hpl & Hd).
  destruct (jsonb_keeps _ Hj Hpl (manifest_nul_free id gen ts Htext Hts1)) as (s & j' & Hs & Hp & Hsame); [unfold max_depth; lia|].
  exists (mkManifest (stored_time gen) s). split_and!; [|unfold manifest_row; cbn [ManifestPayload Generated]; split_and!; [done|apply Htext|done|done|done|by eauto]|done].
  unfold manifestTick, GetTicketsCreatedSince. rewrite QueryAll_runs by done.
  set (new := merge_sort _ _). assert (Hin : (k, tk) ∈ new).
  { unfold new. rewrite merge_sort_Permutation, row_order_perm. apply list_elem_of_In, filter_In. split; [|by apply Z.ltb_lt].
    by apply list_elem_of_In, elem_of_map_to_list. }
  destruct new as [|? ?]; [by apply elem_of_nil in Hin|]. unfold GetActiveTicketsWithin. rewrite QueryAll_runs by done.
  cbn [tables tick]. fold n t. change (merge_sort _ _) with ts. destruct ts as [|t0 ts'] eqn:Ets; [done|]. rewrite <-Ets in *.
  unfold InsertManifest, ExecContext, run. cbn [tables tick]. fold n t id gen. rewrite R2, Hs. cbn [fmap option_fmap option_map].
  unfold insertNew. by rewrite Hfresh.
Qed.

(** C8: A ticket reaches its station.  When the statements run, a tick of the
    card system that finds a new ticket and some active one stores a manifest
    of the active tickets, and the distributor's next poll writes a file per
    station from it: a station with tickets among them is served exactly its
    tickets, in the database's order (number, passenger and train time), and
    any other station is told there are none.  The manifests in the table are
    those of earlier ticks, all older than this one, and the distributor has
    seen none newer. *)
Theorem tickets_reach_station clk last csAddr d db : let n := tick db in let t := tables db in
  let ts := activeAt (S n) (clk 0%nat) t in let gen := stored_time (clk 2%nat) in
  fault_at n = Runs -> fault_at (S n) = Runs -> fault_at (S (S n)) = Runs -> fault_at (S (S (S n))) = Runs ->
  tickets_ok t -> manifests_ok t -> newTicket last t -> ts <> [] ->
  manifests t !! manifestID (clk 1%nat) = None -> map_Forall (fun _ m => Generated m < gen) (manifests t) -> four_digit_year gen ->
  csAddr <> ""%string -> four_digit_year (lastPolled d) -> stored_time (lastPolled d) < gen -> latestManifestTime d < gen ->
  let '(last', db') := manifestTick jsonb Format clk last db in
  exists d' db'', pollTick Format float_v composite_v outDir canCreate stations_order
      (csServe float_json (TrimRightSlash (EnsureHTTPBase csAddr))) csAddr d db' = (Some d', db'') /\
    last' = clk 3%nat /\ latestManifestID d' = manifestID (clk 1%nat) /\
    forall st, query_safe st = true -> st <> ""%string ->
      pollTickets (Some (latestHandler "GET" ("station=" ++ st) d')) =
      match rowsFor Format st ts with [] => None | rows => Some (csvFile (csvHeader :: rows)) end.
Proof.
  intros n t ts gen R0 R1 R2 R3 Htk Hms Hnew Hts Hfresh Hold Hy Hcs Hyp Hpolled Hlatest.
  destruct (manifestTick_stores clk last db R0 R1 R2 Htk Hnew Hts Hfresh Hy) as (m & -> & Hr & Hg).
  set (id := manifestID (clk 1%nat)) in *. set (db' := mkDB _ _). fold gen in Hg.
  destruct (poll_serves csAddr d db' id m ts) as (d' & Hpoll & Hid & Hfiles); try done.
  - by apply String.eqb_neq.
  - intros id' m'. simpl. intros [[<- <-]|[_ Hl]]%lookup_insert_Some; [by eauto|]. by apply (Hms id').
  - apply lookup_insert_eq.
  - intros id' m' Hl Hne. simpl in Hl. rewrite lookup_insert_ne in Hl by done. rewrite Hg. by apply (Hold id').
  - by rewrite Hg.
  - by rewrite Hg.
  - exists d', (mkDB (tables db') (S (tick db'))). split_and!; [done..|]. intros st Hq Hst. rewrite <-Hid in Hfiles.
    rewrite (latest_answer d' st _ ltac:(by rewrite Hid) (Hfiles st) Hq Hst). by destruct (rowsFor Format st ts).
Qed.
End EndToEnd.

(** ** A ticket for King's Cross *)

Lemma jsame_refl j : plain_any j -> jsame j j.
Proof.
  induction j as [| | | |vs IH|fs IH] using json_ind'; intros Hp; try by constructor.
  - constructor. apply plain_arr in Hp. induction IH; inversion Hp; subst; constructor; auto.
  - apply plain_obj in Hp as [Hnd Hp]. econstructor; [done| |done]. clear Hnd. induction IH; inversion Hp; subst; constructor; auto.
Qed.

Lemma jsonb_identity j : json_ok j -> plain_any j -> nul_free j -> (jdepth j <= max_depth)%N ->
  exists s j', Some (print j) = Some s /\ parse s = Some j' /\ jsame j j'.
Proof.
  intros Hok Hp _ Hd. exists (print j), j. split_and!; [done| |by apply jsame_refl].
  by apply (json_roundtrip j "").
Qed.

(** Two tickets for trains five minutes from noon *)
Definition noon : Z := 1709208000 * GoTime.second.
Definition demo_tickets : Tables :=
  mkTables ∅ ∅ ∅ (<[1 := mkTicket "KGX" (noon + 5 * minute) "Ada, Countess" (noon - minute) true]>
                  (<[2 := mkTicket "YRK" (noon + 5 * minute) "Bob" (noon - minute) true]> ∅)) ∅ ∅ ∅ ∅ ∅.
Definition demo_clk (k : nat) : Z := noon + Z.of_nat k * 1000.

Lemma tickets_reach_station_witness :
  let '(last', db') := manifestTick (Srv := demo_server []) Some Format demo_clk zeroTime (mkDB demo_tickets 0%nat) in
  exists d' db'', pollTick Format (fun s => s) (fun _ => ""%string) "out" (fun _ => true) map_to_list
      (csServe (Srv := demo_server []) (fun s => s) (TrimRightSlash (EnsureHTTPBase "cs:9000"))) "cs:9000" newDistributor db' = (Some d', db'') /\
    last' = demo_clk 3%nat /\ latestManifestID d' = manifestID (demo_clk 1%nat) /\
    forall st, query_safe st = true -> st <> ""%string ->
      pollTickets (Some (latestHandler "GET" ("station=" ++ st) d')) =
      match rowsFor Format st (activeAt (Srv := demo_server []) 1%nat (demo_clk 0%nat) demo_tickets) with
      | [] => None
      | rows => Some (csvFile (csvHeader :: rows))
      end.
Proof.
  apply (tickets_reach_station (Srv := demo_server []) Some (fun s => s) (fun s => s) (fun _ => ""%string) "out" (fun _ => true) map_to_list
           ltac:(done) ltac:(done) jsonb_identity demo_clk zeroTime "cs:9000" newDistributor (mkDB demo_tickets 0%nat)).
  all: try reflexivity.
  - apply map_Forall_insert_2; [|apply map_Forall_insert_2; [|apply map_Forall_empty]]; (split; [|reflexivity]); split_and!; (by vm_compute).
  - exact (map_Forall_empty _).
  - exists 1, (mkTicket "KGX" (noon + 5 * minute) "Ada, Countess" (noon - minute) true). by vm_compute.
  - vm_compute. discriminate.
  - exact (map_Forall_empty _).
  - vm_compute. split; discriminate.
  - discriminate.
  - vm_compute. split; discriminate.
Defined.

(** The file King's Cross gets from it *)
Lemma kings_cross_file :
  csvFile (csvHeader :: rowsFor Format "KGX" (activeAt (Srv := demo_server []) 1%nat (demo_clk 0%nat) demo_tickets)) =
  ("ticket_id,passenger,train_time" ++ String LF ("1," ++ String "034" ("Ada, Countess" ++ String "034" (",2024-02-29T12:05:00Z" ++ String LF ""))))%string.
Proof. vm_compute. done. Qed.

(** ** What a poll does not survive, and a number it changes *)

(** A manifest without an object for a payload stops the distributor. *)
Lemma poll_panics float_v composite_v outDir canCreate order d id :
  processManifest float_v composite_v outDir canCreate order [("id", JStr id); ("payload", JNull)]%string d = None.
Proof. done. Qed.

(** The millionth ticket is numbered in scientific notation. *)
Lemma millionth_ticket : sprintFloat 1000000 = "1e+06"%string.
Proof. by vm_compute. Qed.
