(* ===== verification/ServerCmd.v ===== *)
(** * cmd/server/main.go: from the options to a running server

    [initializeServer] (the firewall, then the registry), the transport that
    is started, and the cleanup ticks of the two main loops.  [fatalError]
    ends the process and is an [Err] here; log output is left out, the log
    itself is modelled in [ServerLog].  The file system, the environment and
    what the two databases answer are parameters. *)

From Stdlib Require Import Ascii String.
From S2P Require Import Prelude.
From stdpp Require Import list relations functions.
From S2P Require Import GoStrings NetIP NetIPFacts GoURL Firewall Registry Memory Store Postgres StoreBacked StoreBackedFacts Transport GoScan GoFlag ServerConfig.
Local Open Scope Z_scope.
Local Open Scope tds_scope.

Inductive Fatal :=
| NoFirewallDatabaseURL
| FirewallDatabaseFailed
| InvalidFirewallSource (source : string)
| FirewallRulesFailed (e : LoadError)
| StoreOpenFailed
| MigrationsFailed.

(** ** The firewall *)

Definition determineEffectiveFirewallEnabled (v : Vars) : bool :=
  if bools v firewallDisabledFlag then false
  else if bools v firewallEnabledFlag then true
  else negb (String.eqb (strs v firewallRulesPath) "").

(** What the database behind a URL does for the rules provider: whether it
    can be opened, pinged and given its table, and what the query delivers *)
Record RulesDB := mkRulesDB { rdb_open : bool; rdb_ping : bool; rdb_create : bool; rdb_query : QueryResult }.

Inductive RulesDBError := OpenDBFailed | PingFailed | CreateTablesFailed | ProviderFailed (e : DBError).

Definition NewDatabaseRulesProvider (db : RulesDB) : result RulesDBError DatabaseRulesProvider :=
  if rdb_ping db then Ok {| db_query := rdb_query db |} else Err PingFailed.

Definition loadFirewallFromDatabase (db : RulesDB) : result RulesDBError Firewall :=
  if rdb_open db then
    let? provider := NewDatabaseRulesProvider db in
    if rdb_create db then
      match LoadFromProvider provider with
      | Err e => Err (ProviderFailed e)
      | Ok fw => Ok fw
      end
    else Err CreateTablesFailed
  else Err OpenDBFailed.

Section Startup.
Context {S : Type} `{Store S}.
(** The content of a file, when it can be read; [DATABASE_URL]; the
    database with the firewall rules, by URL; [NewPostgresStore] and
    [Migrate] *)
Variable fs : string -> option string.
Variable databaseURL : string.
Variable rulesDB : string -> RulesDB.
Variable openStore : string -> option S.
Variable migrate : S -> bool * S.
(** The order of a range over a Go map, and the readings of the clock *)
Variable rng : nat -> Services -> list (string * list ServiceEntry).
Variable clock : nat -> Z.

Definition resolveFirewallDatabaseURL (v : Vars) : string :=
  if negb (String.eqb (strs v firewallDBURL) "") then normalizeDatabaseURL (strs v firewallDBURL)
  else if negb (String.eqb (strs v storeURL) "") then normalizeDatabaseURL (strs v storeURL)
  else normalizeDatabaseURL databaseURL.

Definition configureFirewall (firewallEnabled : bool) (v : Vars) : result Fatal (option Firewall) :=
  if negb firewallEnabled then Ok None
  else
    let source := effectiveSource v in
    if String.eqb source "database" then
      let dbURL := resolveFirewallDatabaseURL v in
      if String.eqb dbURL "" then Err NoFirewallDatabaseURL
      else match loadFirewallFromDatabase (rulesDB dbURL) with
           | Err _ => Err FirewallDatabaseFailed
           | Ok fw => Ok (Some fw)
           end
    else if negb (String.eqb source "file") then Err (InvalidFirewallSource (strs v firewallSource))
    else if negb (String.eqb (strs v firewallRulesPath) "") then
      match LoadFromFile (fs (strs v firewallRulesPath)) with
      | Err e => Err (FirewallRulesFailed e)
      | Ok fw => Ok (Some fw)
      end
    else Ok (Some NewFirewall).

(** ** The registry *)

Inductive Running := MemReg (m : MemoryRegistry) | StoreReg (sr : StoreBackedRegistry S).

(** The options are returned too: the store URL and the admission threshold
    may have been replaced. *)
Definition initializeRegistry (fw : option Firewall) (v : Vars) : result Fatal (Running * Vars) :=
  let v := if String.eqb (strs v storeURL) "" then setStr storeURL databaseURL v else v in
  if negb (String.eqb (strs v storeURL) "") then
    match openStore (strs v storeURL) with
    | None => Err StoreOpenFailed
    | Some s =>
        let '(migrated, s) := migrate s in
        if negb migrated then Err MigrationsFailed
        else
          let storeReg := NewStoreBackedRegistry (clock 0) s (ints v cacheMaxSize) in
          let v := if ints v cacheAdmitAfterMisses <=? 0 then setInt cacheAdmitAfterMisses 1 v else v in
          let storeReg := SetCacheAdmissionMissThreshold (ints v cacheAdmitAfterMisses) storeReg in
          let storeReg := match fw with Some _ => StoreBacked.SetFirewall fw storeReg | None => storeReg end in
          let storeReg := (StoreBacked.Cleanup rng (clock 1) (clock 2) (ints v heartbeatTimeout) storeReg).2 in
          Ok (StoreReg (WarmCacheFromDB rng (clock 3) storeReg).2, v)
    end
  else
    let memReg := NewMemoryRegistry in
    Ok (MemReg (match fw with Some _ => Memory.SetFirewall fw memReg | None => memReg end), v).

Definition initializeServer (v : Vars) : result Fatal (Running * Vars) :=
  let? fw := configureFirewall (determineEffectiveFirewallEnabled v) v in
  initializeRegistry fw v.

(** ** The transport *)

Inductive TransportServer :=
| StartTCPServerTLS (port limit : Z) (cert key ca : string)
| StartTCPServer (port limit : Z)
| StartUDPServer (port limit : Z).

(** The limit that is logged, and the server that is started; the transport
    applies the same default to a limit that is not positive. *)
Definition loggedLimit (transportMode : string) (v : Vars) : option Z :=
  if String.eqb transportMode "udp" then
    Some (if ints v maxConcurrentUDP <=? 0 then defaultMaxConcurrentUDP else ints v maxConcurrentUDP)
  else if String.eqb transportMode "tcp" || String.eqb transportMode "tls" then
    Some (if ints v maxConcurrentTCP <=? 0 then defaultMaxConcurrentTCP else ints v maxConcurrentTCP)
  else None.

Definition startTransportServer (transportMode : string) (v : Vars) : TransportServer :=
  if String.eqb transportMode "tls" then
    StartTCPServerTLS (ints v listenPort) (ints v maxConcurrentTCP) (strs v tlsCertFile) (strs v tlsKeyFile) (strs v tlsClientCAFile)
  else if String.eqb transportMode "tcp" then StartTCPServer (ints v listenPort) (ints v maxConcurrentTCP)
  else StartUDPServer (ints v listenPort) (ints v maxConcurrentUDP).

(** ** [main], up to the loops *)

Inductive Exit := BadFlags (e : FlagError) | Died (e : Fatal).

Definition main (args : list string) (isTerminal : bool) (stat : string -> option bool) (stdin : string)
  : result Exit (Running * TransportServer * bool * Vars) :=
  match parseServerFlags args with
  | Err e => Err (BadFlags e)
  | Ok v =>
      let v := processTransportModeFlags v in
      let '(transportMode, runTUI, _, (v, _)) := askTerminalOptions args isTerminal stat (v, stdin) in
      match initializeServer v with
      | Err e => Err (Died e)
      | Ok (reg, v) => Ok (reg, startTransportServer transportMode v, runTUI, v)
      end
  end.

(** ** The running server *)

Definition reg_cleanup (now now' timeout : Z) (r : Running) : Z * Running :=
  match r with
  | MemReg m => let '(m, removed) := Memory.Cleanup (rng 0 (services m)) now timeout m in (removed, MemReg m)
  | StoreReg sr => let '(removed, sr) := StoreBacked.Cleanup rng now now' timeout sr in (removed, StoreReg sr)
  end.

(** A tick of [runHeadlessLoop] and of [runTUILoop], which then reloads the cache *)
Definition headlessTick (now now' timeout : Z) (r : Running) : Running := (reg_cleanup now now' timeout r).2.

Definition tuiTick (now now' now'' timeout : Z) (r : Running) : Running :=
  match (reg_cleanup now now' timeout r).2 with
  | MemReg m => MemReg m
  | StoreReg sr => StoreReg (WarmCacheFromDB rng now'' sr).2
  end.

Definition reg_query (task : string) (ip : IP) (r : Running) : result RegError string * Running :=
  match r with
  | MemReg m => let '(a, m) := Memory.GetServiceForRequestor task ip m in (a, MemReg m)
  | StoreReg sr => let '(a, sr) := StoreBacked.GetServiceForRequestor task ip sr in (a, StoreReg sr)
  end.

Definition reg_register (now now' : Z) (task addr : string) (capacity : Z) (r : Running) : Running :=
  match r with
  | MemReg m => MemReg (Memory.RegisterWithCapacity now task addr capacity m)
  | StoreReg sr => StoreReg (StoreBacked.RegisterWithCapacity now now' task addr capacity sr)
  end.

(** The dashboard lists the services, which may reload the cache. *)
Definition reg_list (now now' : Z) (r : Running) : Services * Running :=
  match r with
  | MemReg m => (Memory.ListServices m, MemReg m)
  | StoreReg sr => let '(svcs, sr) := StoreBacked.ListServices rng now now' sr in (svcs, StoreReg sr)
  end.

Definition reg_firewall (r : Running) : option Firewall :=
  match r with MemReg m => firewall m | StoreReg sr => firewall (memCache sr) end.

End Startup.
Arguments MemReg {S}. Arguments StoreReg {S}.

(** ** What the running server enforces *)

Section Enforced.
Context {S : Type} `{StoreLaws S}.
Abbreviation SB := (StoreBackedRegistry S).

Definition run_inv (r : Running (S := S)) : Prop :=
  match r with MemReg m => mem_wf m | StoreReg sr => sb_inv sr end.

Lemma warm_firewall rng now (sr : SB) : range_ok rng -> sb_inv sr ->
  firewall (memCache (WarmCacheFromDB rng now sr).2) = firewall (memCache sr).
Proof.
  intros Hr [Hm Hs]. destruct (WarmCacheFromDB rng now sr) as [[[]|e] sr'] eqn:E.
  - destruct (warm_ok rng Hr now sr sr' E Hm Hs) as (lim & _ & _ & _ & _ & _ & Hf & _). exact Hf.
  - destruct (warm_err rng Hr now sr sr' e E Hm) as [(F1 & _) _]. by rewrite <-F1.
Qed.

Lemma upsert_firewall f new task addr m : firewall (upsert f new task addr m) = firewall m.
Proof. unfold upsert. by repeat case_match. Qed.

Lemma register_firewall now task addr cap m : firewall (Memory.RegisterWithCapacity now task addr cap m) = firewall m.
Proof. unfold Memory.RegisterWithCapacity. case_match; [done|]. apply upsert_firewall. Qed.

Lemma cleanup_firewall order now timeout m : is_range m order -> firewall (Memory.Cleanup order now timeout m).1 = firewall m.
Proof.
  intros [Hnd _]%is_range_map. unfold Memory.Cleanup. by destruct (Cleanup_fold now timeout order m 0 Hnd) as (_ & _ & _ & _ & -> & _).
Qed.

Lemma sb_query_firewall task ip (sr : SB) :
  firewall (memCache (StoreBacked.GetServiceForRequestor task ip sr).2) = firewall (memCache sr).
Proof.
  unfold StoreBacked.GetServiceForRequestor. case_match; [done|]. set (t := TrimSpace task).
  destruct (query_frame t ip (memCache sr)) as (_ & Hfr & _).
  destruct (Memory.GetServiceForRequestor t ip (memCache sr)) as [[a0|er] m]; [done|]. cbn [store set_cache fst snd] in *.
  destruct (st_ListTaskServices t (store sr)) as [[es|] s]; [|done]. case_decide; [done|].
  pose proof (shouldAdmit_frame t (set_store s (set_cache m sr))) as [F1 _].
  destruct (shouldAdmitTaskOnMiss t _) as [[] sr1]; cbn [fst snd memCache set_store set_cache set_misses store] in *.
  - match goal with |- context [Memory.GetServiceForRequestor t ip ?m2] =>
      pose proof (proj1 (proj2 (query_frame t ip m2))) as Hq; destruct (Memory.GetServiceForRequestor t ip m2) as [r m3] end.
    cbn [fst snd] in *. simpl. rewrite Hq, F1, <-Hfr.
    apply (foldl_inv (fun m' => firewall m' = firewall m)); [|done]. intros m' e _ <-. apply populate_firewall.
  - pose proof (selectFromStoreEntries_frame t es ip sr1) as [G1 _].
    destruct (selectFromStoreEntries t es ip sr1) as [[a1|] sr2]; cbn [fst snd] in *; [|congruence].
    destruct (st_IncrementQueryCount t a1 (store sr2)) as [[]]; simpl; congruence.
Qed.

(** Everything that happens to the registry of a running server; [srv_other]
    is another server writing to the shared store. *)
Inductive srv_step : Running (S := S) -> Running (S := S) -> Prop :=
| srv_register now now' task addr cap r : in_int64 cap -> srv_step r (reg_register now now' task addr cap r)
| srv_query task ip r : srv_step r (reg_query task ip r).2
| srv_list rng now now' r : range_ok rng -> srv_step r (reg_list rng now now' r).2
| srv_headless rng now now' timeout r : range_ok rng -> srv_step r (headlessTick rng now now' timeout r)
| srv_tui rng now now' now'' timeout r : range_ok rng -> srv_step r (tuiTick rng now now' now'' timeout r)
| srv_other s sr : st_inv s -> srv_step (StoreReg sr) (StoreReg (set_store s sr)).

(** What a step keeps *)
Definition keeps (r r' : Running (S := S)) : Prop := (run_inv r -> run_inv r') /\ (run_inv r -> reg_firewall r' = reg_firewall r).

Lemma sb_cleanup_keeps rng now now' timeout (sr : SB) : range_ok rng -> sb_inv sr ->
  sb_inv (StoreBacked.Cleanup rng now now' timeout sr).2 /\
  firewall (memCache (StoreBacked.Cleanup rng now now' timeout sr).2) = firewall (memCache sr).
Proof.
  intros Hr [Hm Hs]. unfold StoreBacked.Cleanup.
  pose proof (Cleanup_wf (rng 0%nat (services (memCache sr))) now timeout (memCache sr) (Hr _ _) Hm) as Hw.
  pose proof (cleanup_firewall (rng 0%nat (services (memCache sr))) now timeout (memCache sr) (Hr _ _)) as Hf.
  destruct (Memory.Cleanup _ _ _ _) as [m n]. cbn [store set_cache fst] in *.
  pose proof (st_inv_Cleanup now' timeout (store sr) Hs) as Hs'.
  by destruct (st_Cleanup now' timeout (store sr)) as [[]].
Qed.

Lemma reg_cleanup_keeps rng now now' timeout r : range_ok rng -> keeps r (reg_cleanup rng now now' timeout r).2.
Proof.
  intros Hr. destruct r as [m|sr]; unfold keeps, reg_cleanup; simpl.
  - pose proof (Cleanup_wf (rng 0%nat (services m)) now timeout m (Hr _ _)) as Hw.
    pose proof (cleanup_firewall (rng 0%nat (services m)) now timeout m (Hr _ _)) as Hf.
    destruct (Memory.Cleanup _ _ _ _) as [m' n]. simpl in *. auto.
  - pose proof (sb_cleanup_keeps rng now now' timeout sr Hr) as Hc.
    destruct (StoreBacked.Cleanup rng now now' timeout sr) as [n sr']. simpl in *. split; intros Hi; by apply Hc.
Qed.

Lemma srv_step_keeps r r' : srv_step r r' -> keeps r r'.
Proof.
  destruct 1 as [now now' task addr cap r Hc|task ip r|rng now now' r Hr|rng now now' timeout r Hr
                |rng now now' now'' timeout r Hr|s sr Hs].
  - destruct r as [m|sr]; (split; [intros Hi|intros _]); simpl.
    + by apply RegisterWithCapacity_wf.
    + apply register_firewall.
    + by apply register_inv.
    + unfold StoreBacked.RegisterWithCapacity. destruct (_ || _); [done|]. destruct (st_Register _ _ _) as [[]]; simpl; apply register_firewall.
  - destruct r as [m|sr]; unfold keeps, reg_query; simpl.
    + destruct (query_frame task ip m) as (_ & Hf & Hw). destruct (Memory.GetServiceForRequestor task ip m). simpl in *. auto.
    + pose proof (sb_query_firewall task ip sr) as Hf. pose proof (query_inv task ip sr) as Hw.
      destruct (StoreBacked.GetServiceForRequestor task ip sr). simpl in *. auto.
  - destruct r as [m|sr]; [done|]. unfold keeps, reg_list, StoreBacked.ListServices. simpl.
    case_match; simpl; [|done]. split; intros Hi; [by apply warm_inv|by apply warm_firewall].
  - by apply reg_cleanup_keeps.
  - pose proof (reg_cleanup_keeps rng now now' timeout r Hr) as [K1 K2]. unfold keeps, tuiTick.
    destruct (reg_cleanup rng now now' timeout r).2 as [m|sr]; simpl in *; [by split|].
    split; intros Hi; [apply warm_inv; auto|]. rewrite <-K2 by done. apply warm_firewall; auto.
  - split; [intros [Hm _]; by split|done].
Qed.

Lemma srv_steps_keep r r' : rtc srv_step r r' -> keeps r r'.
Proof.
  induction 1 as [r|r1 r2 r3 H12 _ [I1 I2]]; [done|]. apply srv_step_keeps in H12 as [J1 J2].
  split; intros Hr; [auto|]. rewrite I2 by auto. auto.
Qed.

End Enforced.

(** ** From the options to the answers *)

Section Configured.
Context {S : Type} `{StoreLaws S}.
Context (fs : string -> option string) (databaseURL : string) (rulesDB : string -> RulesDB).
Context (openStore : string -> option S) (migrate : S -> bool * S).
Context (rng : nat -> Services -> list (string * list ServiceEntry)) (clock : nat -> Z).
Context (rng_ok : range_ok rng).
Context (store_sound : forall url s, openStore url = Some s -> st_inv (migrate s).2).

(** The firewall the options ask for when it is enabled *)
Inductive configured (v : Vars) : Firewall -> Prop :=
| cfg_database rs :
    effectiveSource v = "database"%string -> resolveFirewallDatabaseURL databaseURL v <> ""%string ->
    DBGetRules {| db_query := rdb_query (rulesDB (resolveFirewallDatabaseURL databaseURL v)) |} = Ok rs ->
    configured v {| rules := rs |}
| cfg_file fw :
    effectiveSource v = "file"%string -> strs v firewallRulesPath <> ""%string ->
    LoadFromFile (fs (strs v firewallRulesPath)) = Ok fw -> configured v fw
| cfg_permissive :
    effectiveSource v = "file"%string -> strs v firewallRulesPath = ""%string -> configured v NewFirewall.

Lemma configureFirewall_spec b v o : configureFirewall fs databaseURL rulesDB b v = Ok o ->
  match o with Some fw => b = true /\ configured v fw | None => b = false end.
Proof.
  unfold configureFirewall. destruct b; cbn [negb]; [|by intros [= <-]].
  destruct (String.eqb_spec (effectiveSource v) "database") as [Hs|_].
  - destruct (String.eqb_spec (resolveFirewallDatabaseURL databaseURL v) ""); [done|].
    unfold loadFirewallFromDatabase, NewDatabaseRulesProvider, LoadFromProvider. simpl.
    destruct (rdb_open _); [|done]. destruct (rdb_ping _); [|done]. destruct (rdb_create _); [|done].
    destruct (DBGetRules _) as [rs|] eqn:Er; [|done]. intros [= <-]. split; [done|]. by apply cfg_database.
  - destruct (String.eqb_spec (effectiveSource v) "file") as [Hs|]; [|done]. cbn [negb].
    destruct (String.eqb_spec (strs v firewallRulesPath) ""); cbn [negb]; [intros [= <-]; split; [done|]; by apply cfg_permissive|].
    destruct (LoadFromFile _) as [fw|] eqn:El; [|done]. intros [= <-]. split; [done|]. by apply cfg_file.
Qed.

Lemma initializeRegistry_spec fw v r v' :
  initializeRegistry databaseURL openStore migrate rng clock fw v = Ok (r, v') -> run_inv r /\ reg_firewall r = fw.
Proof.
  unfold initializeRegistry. set (v1 := if String.eqb (strs v storeURL) "" then _ else v).
  destruct (String.eqb (strs v1 storeURL) ""); cbn [negb].
  { intros [= <- _]. simpl. destruct fw; (split; [|done]); [apply SetFirewall_wf|]; apply new_wf. }
  destruct (openStore (strs v1 storeURL)) as [s|] eqn:Eo; [|done]. apply store_sound in Eo.
  destruct (migrate s) as [[] s1]; cbn [negb]; [|done]. simpl in Eo. cbv zeta.
  set (v2 := if ints v1 cacheAdmitAfterMisses <=? 0 then _ else v1).
  set (sr0 := SetCacheAdmissionMissThreshold _ _). intros [= <- _]. simpl.
  set (sr1 := match fw with Some _ => StoreBacked.SetFirewall fw sr0 | None => sr0 end).
  assert (Hi : sb_inv sr1) by (destruct fw; (split; [|exact Eo]); [apply SetFirewall_wf|]; apply new_wf).
  assert (Hf : firewall (memCache sr1) = fw) by (by destruct fw).
  destruct (sb_cleanup_keeps rng (clock 1) (clock 2) (ints v2 heartbeatTimeout) sr1 rng_ok Hi) as [Hi2 Hf2].
  split; [by apply warm_inv|]. rewrite warm_firewall by done. congruence.
Qed.

(** C7: the server fails closed.  If the server starts with the firewall
    enabled, then whatever happens later (registrations, queries, cleanup
    ticks with their reloads of the cache, dashboard refreshes, other servers
    writing to the shared store), on either registry, an address is only ever
    handed to a requestor with a known address when the firewall the options
    name allows the IP read from it: the rules of the rules file, of the
    rules database, or the empty firewall when the source is a file and no
    path was given.  A rules file or database that cannot be loaded never
    gives a running server. *)
Theorem server_fails_closed v r v' r1 r2 task ip a :
  initializeServer fs databaseURL rulesDB openStore migrate rng clock v = Ok (r, v') ->
  determineEffectiveFirewallEnabled v = true ->
  rtc srv_step r r1 -> ip <> [] ->
  reg_query task ip r1 = (Ok a, r2) ->
  exists fw d, configured v fw /\ (d = destinationIPFromAddress a \/ d = ParseIP (hostPart a)) /\
    d <> [] /\ IsAllowed fw ip d = true.
Proof.
  unfold initializeServer. intros Hinit Hen Hrun Hip Hq.
  destruct (configureFirewall _ _ _ _ v) as [o|] eqn:Ec; [|done]. apply configureFirewall_spec in Ec.
  apply initializeRegistry_spec in Hinit as [Hi Hf]. destruct (srv_steps_keep _ _ Hrun) as [_ Hk]. specialize (Hk Hi).
  destruct o as [fw|]; [|congruence]. destruct Ec as [_ Hcfg]. rewrite Hf in Hk. exists fw.
  assert (exists d, (d = destinationIPFromAddress a \/ d = ParseIP (hostPart a)) /\ d <> [] /\ IsAllowed fw ip d = true)
    as (d & ?); [|by exists d].
  destruct r1 as [m|sr]; simpl in Hq, Hk.
  - destruct (Memory.GetServiceForRequestor task ip m) as [ans m'] eqn:Eq. injection Hq as -> _.
    destruct (query_safe _ _ _ _ _ _ Eq Hk Hip). eauto.
  - destruct (StoreBacked.GetServiceForRequestor task ip sr) as [ans sr'] eqn:Eq. injection Hq as -> _.
    by apply (store_backed_firewall task ip sr a fw sr').
Qed.

(** An operator who enables the firewall at the prompt and types a rules
    path never gets a permissive server by accident.  Whatever exists on disk
    under that path, and whatever the path is, the server then either does
    not start or enforces exactly the rules of one file it could read. *)
Theorem typed_path_fails_closed args stat v p rest r v' :
  firewallModeFlagSet args = false -> hasAnyArg args ["--firewall-source"]%string = false ->
  IndexByte p newline = None -> TrimSpace (line p) <> ""%string ->
  initializeServer fs databaseURL rulesDB openStore migrate rng clock
    (askFirewall args stat (v, line "y" ++ line "" ++ line p ++ rest)%string).2.1 = Ok (r, v') ->
  exists path fw, path <> ""%string /\ LoadFromFile (fs path) = Ok fw /\ reg_firewall r = Some fw.
Proof.
  intros Hmode Hsrc Hp Ht Hinit. destruct (askFirewall_typed args stat v p rest Hmode Hsrc Hp Ht) as (H1 & H2 & H3 & H4).
  set (w := (askFirewall args stat _).2.1) in *. unfold initializeServer in Hinit.
  destruct (configureFirewall _ _ _ _ w) as [o|] eqn:Ec; [|done]. apply configureFirewall_spec in Ec.
  apply initializeRegistry_spec in Hinit as [_ Hf]. unfold determineEffectiveFirewallEnabled in Ec. rewrite H3, H4 in Ec.
  destruct o as [fw|]; [|done]. destruct Ec as [_ Hcfg]. destruct Hcfg as [rs Hs|fw Hs Hn Hl|Hs He]; [congruence| |congruence].
  by exists (strs w firewallRulesPath), fw.
Qed.

End Configured.

(** ** Cleanup ticks in time *)

(** The last heartbeat of [(t, a)] a history leaves, none if it expired *)
Lemma dir_exec_absent ops d t a :
  d !! (t, a) = None ->
  Forall (fun op => match op with
                    | OpRegister _ task addr | OpRegisterWithCapacity _ task addr _ => (TrimSpace task, TrimSpace addr) <> (t, a)
                    | _ => True end) ops ->
  foldl dir_exec d ops !! (t, a) = None.
Proof.
  revert d. induction ops as [|op ops IH]; intros d Hd Hops; [done|]. apply Forall_cons_iff in Hops as [Hop Hops].
  simpl. apply IH; [|done].
  destruct op as [now task addr|now task addr cap|task ip|now timeout|fw]; simpl; try done.
  1-2: unfold dir_register, dir_register_cap, dir_put; case_match; [done|]; by rewrite lookup_insert_ne.
  unfold dir_expire. apply map_lookup_filter_None. by left.
Qed.

(** An operation that is not a heartbeat of [(t, a)], and only expires with [timeout] *)
Definition silent (t a : string) (timeout : Z) (op : mem_op) : Prop :=
  match op with
  | OpRegister _ task addr | OpRegisterWithCapacity _ task addr _ => (TrimSpace task, TrimSpace addr) <> (t, a)
  | OpCleanup _ timeout' => timeout' = timeout
  | _ => True
  end.

Lemma dir_exec_silent ops d t a timeout hb : (forall hc, d !! (t, a) = Some hc -> hc.1 <= hb) ->
  Forall (silent t a timeout) ops -> forall hc, foldl dir_exec d ops !! (t, a) = Some hc -> hc.1 <= hb.
Proof.
  revert d. induction ops as [|op ops IH]; intros d Hd Hops; [done|]. apply Forall_cons_iff in Hops as [Hop Hops].
  simpl. apply IH; [|done]. intros hc.
  destruct op as [now task addr|now task addr cap|task ip|now timeout'|fw]; simpl; try by apply Hd.
  1-2: unfold dir_register, dir_register_cap, dir_put; case_match; [apply Hd|]; rewrite lookup_insert_ne by done; apply Hd.
  unfold dir_expire. intros [Hl _]%map_lookup_filter_Some. by apply Hd.
Qed.

(** C10: a dead service is forgotten within [heartbeatTimeout] plus one
    [cleanupInterval].  Take any history of the registry after which the last
    heartbeat of a service is at most [hb], followed by operations among
    which there is no heartbeat of that service; if the cleanup ticks
    [t0 + k * interval] up to time [T] are among those operations, [t0] is
    not after the moment the service expires, and [T] is at least
    [hb + timeout + interval], then the service is gone. *)
Theorem dead_service_forgotten before after m0 m t a timeout interval t0 hb T :
  mem_run before m0 -> (forall hc, mem_view m0 t a = Some hc -> hc.1 <= hb) ->
  mem_run (before ++ after) m -> Forall (silent t a timeout) after ->
  0 < interval -> t0 <= hb + timeout -> hb + timeout + interval <= T ->
  (forall k, 0 <= k -> t0 + k * interval <= T -> OpCleanup (t0 + k * interval) timeout ∈ after) ->
  mem_view m t a = None.
Proof.
  intros Hr0 Hhb Hrun Hsil Hint Ht0 HT Hticks.
  set (k := (hb + timeout - t0 + interval - 1) / interval).
  assert (Hk : 0 <= k /\ hb + timeout <= t0 + k * interval < hb + timeout + interval).
  { pose proof (Z.div_mod (hb + timeout - t0 + interval - 1) interval) as Hd. fold k in Hd.
    pose proof (Z.mod_pos_bound (hb + timeout - t0 + interval - 1) interval Hint).
    split; [apply Z.div_pos; lia|]. nia. }
  destruct Hk as (Hk0 & Hk1 & Hk2). pose proof (Hticks k Hk0 ltac:(lia)) as Hin.
  apply list_elem_of_split in Hin as (pre & post & ->). rewrite (mem_run_refines _ _ Hrun t a).
  rewrite !foldl_app. simpl. apply Forall_app in Hsil as [Hpre [_ Hpost]%Forall_cons_iff].
  apply dir_exec_absent; [|eapply Forall_impl; [|exact Hpost]; by intros []].
  unfold dir_expire. apply map_lookup_filter_None. right. intros hc Hl Hlt. simpl in Hlt.
  apply (dir_exec_silent pre _ t a timeout hb) in Hl; [lia| |done].
  intros hc'. rewrite <-(mem_run_refines _ _ Hr0 t a). apply Hhb.
Qed.

(** ** Witnesses *)

Definition demo_files : string -> option string :=
  fun p => if String.eqb p "rules.txt" then Some "10.0.0.0/8 10.0.0.0/8"%string else None.
Definition demo_open : string -> option PostgresStore := fun _ => Some (pg_empty []).
Definition demo_migrate : PostgresStore -> bool * PostgresStore := fun s => (true, s).
Definition demo_vars : Vars := setStr storeURL "db" (setStr firewallRulesPath "rules.txt" defaults).

Lemma demo_sound url s : demo_open url = Some s -> st_inv (demo_migrate s).2.
Proof. intros [= <-]. apply pg_empty_inv. Qed.

(** A store-backed server with a rules file, one service and a tick *)
Definition demo_start := initializeServer demo_files "" (fun _ => mkRulesDB false false false None) demo_open demo_migrate
  demo_rng (fun i => Z.of_nat i) demo_vars.

Definition demo_running : Running (S := PostgresStore) :=
  match demo_start with Ok (r, _) => r | Err _ => MemReg NewMemoryRegistry end.

Definition demo_served : Running (S := PostgresStore) :=
  tuiTick demo_rng 20 21 22 60 (reg_register 10 11 "echo" "10.1.2.3:80" 1 demo_running).

Lemma demo_starts : exists v', demo_start = Ok (demo_running, v').
Proof. eexists. vm_compute. reflexivity. Qed.

Lemma server_fails_closed_witness :
  exists fw d, configured demo_files "" (fun _ => mkRulesDB false false false None) demo_vars fw /\
    (d = destinationIPFromAddress "10.1.2.3:80" \/ d = ParseIP (hostPart "10.1.2.3:80")) /\
    d <> [] /\ IsAllowed fw (ParseIP "10.9.9.9") d = true.
Proof.
  destruct demo_starts as [v' E].
  apply (server_fails_closed demo_files "" (fun _ => mkRulesDB false false false None) demo_open demo_migrate demo_rng
           (fun i => Z.of_nat i) demo_rng_ok demo_sound demo_vars demo_running v' demo_served
           (reg_query "echo" (ParseIP "10.9.9.9") demo_served).2 "echo").
  - exact E.
  - reflexivity.
  - eapply rtc_l; [apply (srv_register 10 11 "echo" "10.1.2.3:80" 1)|].
    + unfold in_int64, int64_min, int64_max. lia.
    + apply rtc_once. apply srv_tui, demo_rng_ok.
  - vm_compute. discriminate.
  - vm_compute. reflexivity.
Defined.

Lemma typed_path_fails_closed_witness :
  exists path fw, path <> ""%string /\ LoadFromFile (demo_files path) = Ok fw /\
    reg_firewall (S := PostgresStore) (MemReg (Memory.SetFirewall (Some fw) NewMemoryRegistry)) = Some fw.
Proof.
  destruct (typed_path_fails_closed (S := PostgresStore) demo_files "" (fun _ => mkRulesDB false false false None) demo_open demo_migrate
    demo_rng (fun i => Z.of_nat i) demo_rng_ok demo_sound [] (fun p => if String.eqb p "rules.txt" then Some false else None)
    defaults " rules.txt" ""
    (match initializeServer demo_files "" (fun _ => mkRulesDB false false false None) demo_open demo_migrate demo_rng (fun i => Z.of_nat i)
             (askFirewall [] (fun p => if String.eqb p "rules.txt" then Some false else None)
                (defaults, line "y" ++ line "" ++ line " rules.txt" ++ "")%string).2.1 with
     | Ok (r, _) => r | Err _ => MemReg NewMemoryRegistry end)
    (match initializeServer demo_files "" (fun _ => mkRulesDB false false false None) demo_open demo_migrate demo_rng (fun i => Z.of_nat i)
             (askFirewall [] (fun p => if String.eqb p "rules.txt" then Some false else None)
                (defaults, line "y" ++ line "" ++ line " rules.txt" ++ "")%string).2.1 with
     | Ok (_, v') => v' | Err _ => defaults end))
    as (path & fw & H1 & H2 & _).
  - reflexivity.
  - reflexivity.
  - vm_compute. reflexivity.
  - vm_compute. discriminate.
  - vm_compute. reflexivity.
  - exists path, fw. split_and!; [exact H1|exact H2|reflexivity].
Defined.

Definition ticked (now timeout : Z) (m : MemoryRegistry) : MemoryRegistry := (Memory.Cleanup (map_to_list (services m)) now timeout m).1.

Lemma tick_step now timeout m : mem_step m (OpCleanup now timeout) (ticked now timeout m).
Proof. apply step_cleanup. unfold is_range. done. Qed.

Lemma dead_service_forgotten_witness :
  mem_view (ticked 10 5 (ticked 0 5 (Memory.Register 0 "t" "a:1" NewMemoryRegistry))) "t" "a:1" = None.
Proof.
  assert (H0 : mem_run [OpRegister 0 "t" "a:1"] (Memory.Register 0 "t" "a:1" NewMemoryRegistry))
    by (apply (run_snoc [] (OpRegister 0 "t" "a:1") NewMemoryRegistry); [apply run_nil|apply step_register]).
  apply (dead_service_forgotten [OpRegister 0 "t" "a:1"] [OpCleanup 0 5; OpCleanup 10 5] _ _ "t" "a:1" 5 10 0 0 15 H0); try lia.
  - vm_compute. intros hc [= <-]. discriminate.
  - apply (run_snoc [OpRegister 0 "t" "a:1"; OpCleanup 0 5] (OpCleanup 10 5) (ticked 0 5 (Memory.Register 0 "t" "a:1" NewMemoryRegistry)));
      [|apply tick_step].
    apply (run_snoc [OpRegister 0 "t" "a:1"] (OpCleanup 0 5) (Memory.Register 0 "t" "a:1" NewMemoryRegistry)); [exact H0|apply tick_step].
  - repeat constructor.
  - intros k H1 H2. assert (k = 0 \/ k = 1) as [-> | ->] by lia; set_solver.
Defined.
