(* ===== verification/ServerLog.v ===== *)
(** * cmd/server/main.go: the event log and the dashboard

    [logEvent] is called from any goroutine and holds no lock, so a call is
    not one transition: it writes to the log, prints to the standard error
    and offers its message to the channel in separate steps, and the steps of
    several calls in flight interleave.  A write may also fail or be cut
    short; the code ignores its error.  [uiUpdateCoordinator] is the one
    goroutine that moves messages from the channel to the log view in
    batches and redraws the dashboard: one transition per receive and per
    tick.  [QueueUpdateDraw] returns when its function has run, so a batch is
    one transition.  Times are formatted in the local zone: a parameter. *)

From Stdlib Require Import Ascii String.
From S2P Require Import Prelude.
From stdpp Require Import list relations pretty.
From S2P Require Import GoStrings NetIP Firewall Registry.
Local Open Scope nat_scope.

Definition maxLogLines : nat := 100.
Definition maxBatchSize : nat := 50.
Definition logChanCap : nat := 1000.

(** What [logWriter] is set to: the log file, or the standard error the
    process was started with *)
Inductive Writer := theFile | theStderr.

(** A file is the list of what each write added to it. *)
Record LogState := mkLogState {
  logWriter : option Writer;
  logFile : list string;
  stderr : list string;
  runningTUI : bool;
  logMessageChan : list string;
  pendingLogs : list string;
  logLines : list string;
  updateDashboard : bool }.                (** the one-place channel *)

Definition initialLog : LogState := mkLogState None [] [] false [] [] [] false.

(** The first [n] bytes of a write: all of it unless it fails *)
Definition cut (n : nat) (text : string) : string := substring 0 n text.

Definition writeTo (w : Writer) (text : string) (s : LogState) : LogState :=
  match w with
  | theFile => mkLogState (logWriter s) (logFile s ++ [text]) (stderr s) (runningTUI s) (logMessageChan s) (pendingLogs s) (logLines s) (updateDashboard s)
  | theStderr => mkLogState (logWriter s) (logFile s) (stderr s ++ [text]) (runningTUI s) (logMessageChan s) (pendingLogs s) (logLines s) (updateDashboard s)
  end.

Definition sendLog (msg : string) (s : LogState) : LogState :=
  mkLogState (logWriter s) (logFile s) (stderr s) (runningTUI s) (logMessageChan s ++ [msg]) (pendingLogs s) (logLines s) (updateDashboard s).

(** Where a call of [logEvent] is *)
Inductive logPc := AtWrite | AtStderr | AtQueue | Returned.
#[global] Instance logPc_eq_dec : EqDecision logPc.
Proof. solve_decision. Defined.

Record LogCall := mkCall { callTime : Z; callMessage : string; callPc : logPc }.

Section Log.
Variable stampFile stampView : Z -> string.

(** [\[timestamp\] message] with its newline, and the line of the view *)
Definition fileLine (now : Z) (message : string) : string := ("[" ++ stampFile now ++ "] " ++ message ++ str1 10)%string.
Definition viewLine (now : Z) (message : string) : string := (stampView now ++ " " ++ message)%string.

Definition isQueryEvent (message : string) : bool := HasPrefix message "QUERY ".

(** A call begins by reading the clock. *)
Definition logEvent (now : Z) (message : string) : LogCall := mkCall now message AtWrite.

Definition goTo (pc : logPc) (c : LogCall) : LogCall := mkCall (callTime c) (callMessage c) pc.
Definition callLine (c : LogCall) : string := fileLine (callTime c) (callMessage c).

(** Whether the message goes into the channel: the UI runs, it is not a query
    and the channel has room *)
Definition queues (c : LogCall) (s : LogState) : bool :=
  runningTUI s && negb (isQueryEvent (callMessage c)) && (length (logMessageChan s) <? logChanCap).

(** The next step of a call; [n] bytes of what it writes are written *)
Definition logEventStep (n : nat) (c : LogCall) (s : LogState) : LogCall * LogState :=
  match callPc c with
  | AtWrite => (goTo AtStderr c, match logWriter s with Some w => writeTo w (cut n (callLine c)) s | None => s end)
  | AtStderr => (goTo AtQueue c, if runningTUI s then s else writeTo theStderr (cut n (callLine c)) s)
  | AtQueue => (goTo Returned c, if queues c s then sendLog (callMessage c) s else s)
  | Returned => (c, s)
  end.

Definition writeToLogView (now : Z) (lines : list string) (message : string) : list string :=
  let lines := lines ++ [viewLine now message] in
  if maxLogLines <? length lines then lastN maxLogLines lines else lines.

(** [case msg := <-logMessageChan] *)
Definition receiveLog (s : LogState) : LogState :=
  match logMessageChan s with
  | [] => s
  | msg :: rest =>
      let pendingLogs := pendingLogs s ++ [msg] in
      let pendingLogs := if maxBatchSize * 2 <? length pendingLogs then lastN maxBatchSize pendingLogs else pendingLogs in
      mkLogState (logWriter s) (logFile s) (stderr s) (runningTUI s) rest pendingLogs (logLines s) (updateDashboard s)
  end.

(** [case <-logBatchTicker.C]; one reading of the clock per line *)
Definition batchTick (nows : nat -> Z) (s : LogState) : LogState :=
  match pendingLogs s with
  | [] => s
  | _ =>
      let logsToWrite := if maxBatchSize <? length (pendingLogs s) then lastN maxBatchSize (pendingLogs s) else pendingLogs s in
      let '(_, lines) := foldl (fun '(i, lines) msg => (S i, writeToLogView (nows i) lines msg)) (0, logLines s) logsToWrite in
      mkLogState (logWriter s) (logFile s) (stderr s) (runningTUI s) (logMessageChan s) [] lines (updateDashboard s)
  end.

Definition requestDashboardUpdate (s : LogState) : LogState :=
  if runningTUI s then mkLogState (logWriter s) (logFile s) (stderr s) true (logMessageChan s) (pendingLogs s) (logLines s) true else s.

Definition takeDashboard (s : LogState) : LogState :=
  mkLogState (logWriter s) (logFile s) (stderr s) (runningTUI s) (logMessageChan s) (pendingLogs s) (logLines s) false.

(** [initLogFile] opens a new file, writes its two header lines and makes it
    the writer.  When [opened] is [None], no file could be opened:
    [setupLogging] warns with [warning] and falls back to the standard error. *)
Definition initLogFile (logPath : string) (t1 t2 : Z) (n1 n2 : nat) (s : LogState) : LogState :=
  let s := mkLogState (Some theFile) [] (stderr s) (runningTUI s) (logMessageChan s) (pendingLogs s) (logLines s) (updateDashboard s) in
  let s := writeTo theFile (cut n1 (fileLine t1 "========== Server Started ==========")) s in
  writeTo theFile (cut n2 (fileLine t2 ("Log file: " ++ logPath))) s.

Definition setupLogging (opened : option string) (warning : string) (t1 t2 : Z) (n1 n2 : nat) (s : LogState) : LogState :=
  match opened with
  | Some logPath => initLogFile logPath t1 t2 n1 n2 s
  | None =>
      let s := writeTo theStderr warning s in
      mkLogState (Some theStderr) (logFile s) (stderr s) (runningTUI s) (logMessageChan s) (pendingLogs s) (logLines s) (updateDashboard s)
  end.

(** [configureTUIIO] sets the flag. *)
Definition startTUI (s : LogState) : LogState :=
  mkLogState (logWriter s) (logFile s) (stderr s) true (logMessageChan s) (pendingLogs s) (logLines s) (updateDashboard s).

(** ** The dashboard *)

Record Dashboard := mkDashboard { taskList : list string; currentSelectedTask : string; details : option (list ServiceEntry) }.

Definition taskLabel (task : string) (entries : list ServiceEntry) : string :=
  (task ++ " (" ++ pretty (length entries) ++ ")")%string.

Definition passesFilter (currentFilter task : string) : bool :=
  let filterLower := ToLower currentFilter in
  String.eqb filterLower "" || Contains (ToLower task) filterLower.

(** The loop over the services, in the order the map is ranged over: the
    labels, the first task and the task to show *)
Fixpoint listTasks (currentFilter selected : string) (order : list (string * list ServiceEntry))
    (labels : list string) (firstTask taskToShow : string) : list string * string * string :=
  match order with
  | [] => (labels, firstTask, taskToShow)
  | (task, entries) :: order =>
      if passesFilter currentFilter task then
        listTasks currentFilter selected order (labels ++ [taskLabel task entries])
          (if String.eqb firstTask "" then task else firstTask)
          (if String.eqb task selected then task else taskToShow)
      else listTasks currentFilter selected order labels firstTask taskToShow
  end.

(** [servicesMapCopy\[taskToShow\]], in the order of the range *)
Fixpoint entriesOf (task : string) (order : list (string * list ServiceEntry)) : option (list ServiceEntry) :=
  match order with
  | [] => None
  | (t, es) :: order => if String.eqb t task then Some es else entriesOf task order
  end.

(** One redraw: the task list, the selection and the services of the details
    table ([None] clears it) *)
Definition redraw (currentFilter : string) (order : list (string * list ServiceEntry)) (selected : string) : Dashboard :=
  let '(labels, firstTask, taskToShow) := listTasks currentFilter selected order [] "" "" in
  let '(taskToShow, selected) :=
    if String.eqb taskToShow "" then (firstTask, firstTask) else (taskToShow, selected) in
  mkDashboard labels selected (if String.eqb taskToShow "" then None else entriesOf taskToShow order).

(** The cells of the details table, row 0 being the header; odd data rows
    are shaded. *)
Fixpoint detailRows (fmt : Z -> string) (i : nat) (services : list ServiceEntry) : list (nat * bool * list string) :=
  match services with
  | [] => []
  | e :: services =>
      (i + 1, Nat.odd i, [(" " ++ Address e ++ " "); (" " ++ fmt (LastHeartbeat e) ++ " "); (" " ++ pretty (QueryCount e) ++ " ")]%string)
        :: detailRows fmt (S i) services
  end.

Definition renderDetailsTable (fmt : Z -> string) (services : list ServiceEntry) : list (nat * bool * list string) :=
  (0, false, [" Address "; " LastHeartbeat "; " Queries "]%string) :: detailRows fmt 0 services.

(** ** Histories *)

(** The log, every call made so far, and the record of what the calls did:
    which wrote to the log, with how many bytes, and which put their message
    into the channel, in the order they did it *)
Record Conf := mkConf { log : LogState; calls : list LogCall; writes : list (nat * nat); sent : list nat }.

(** Call [i] takes its next step. *)
Definition callStep (i n : nat) (cf : Conf) : Conf :=
  match calls cf !! i with
  | None => cf
  | Some c =>
      let '(c', s') := logEventStep n c (log cf) in
      mkConf s' (<[i := c']> (calls cf))
        (if bool_decide (callPc c = AtWrite) then writes cf ++ [(i, n)] else writes cf)
        (if bool_decide (callPc c = AtQueue) && queues c (log cf) then sent cf ++ [i] else sent cf)
  end.

Definition onLog (f : LogState -> LogState) (cf : Conf) : Conf := mkConf (f (log cf)) (calls cf) (writes cf) (sent cf).

Inductive log_step : Conf -> Conf -> Prop :=
| log_call now msg cf : log_step cf (mkConf (log cf) (calls cf ++ [logEvent now msg]) (writes cf) (sent cf))
| log_go i n cf : log_step cf (callStep i n cf)
| log_receive cf : log_step cf (onLog receiveLog cf)
| log_tick nows cf : log_step cf (onLog (batchTick nows) cf)
| log_request cf : log_step cf (onLog requestDashboardUpdate cf)
| log_dashboard cf : log_step cf (onLog takeDashboard cf).

(** The server once its logging is set up, with or without the UI *)
Definition launch (tui : bool) (opened : option string) (warning : string) (t1 t2 : Z) (n1 n2 : nat) : Conf :=
  let s := setupLogging opened warning t1 t2 n1 n2 initialLog in
  mkConf (if tui then startTUI s else s) [] [] [].

(** ** Facts *)

#[local] Instance app_sublist_proper {A} : Proper (sublist ==> sublist ==> sublist) (@app A).
Proof. intros l1 l2 H12 k1 k2 Hk. by apply sublist_app. Qed.

Lemma writeToLogView_length now lines msg : length lines <= maxLogLines -> length (writeToLogView now lines msg) <= maxLogLines.
Proof.
  intros Hl. unfold writeToLogView. case_match; [apply lastN_length|]. by apply Nat.ltb_ge.
Qed.

(** The messages a list of view lines shows *)
Definition shows (shown : list (Z * string)) (lines : list string) : Prop := lines = (fun tm => viewLine tm.1 tm.2) <$> shown.

Lemma writeToLogView_shows now lines msg shown : shows shown lines ->
  exists shown', shows shown' (writeToLogView now lines msg) /\ shown'.*2 `sublist_of` shown.*2 ++ [msg].
Proof.
  intros ->. unfold writeToLogView, lastN. set (all := _ ++ [_]).
  assert (Hall : all = (fun tm => viewLine tm.1 tm.2) <$> (shown ++ [(now, msg)])) by (unfold all; by rewrite fmap_app).
  case_match.
  - exists (drop (length all - maxLogLines) (shown ++ [(now, msg)])). split.
    + unfold shows. by rewrite fmap_drop, <-Hall.
    + rewrite fmap_drop, fmap_app. apply sublist_drop.
  - exists (shown ++ [(now, msg)]). split; [done|]. by rewrite fmap_app.
Qed.

Lemma write_batch_length (nows : nat -> Z) msgs i lines : length lines <= maxLogLines ->
  length (foldl (fun '(i, lines) msg => (S i, writeToLogView (nows i) lines msg)) (i, lines) msgs).2 <= maxLogLines.
Proof.
  revert i lines. induction msgs as [|msg msgs IH]; intros i lines Hl; simpl; [done|].
  by apply IH, writeToLogView_length.
Qed.

Lemma write_batch (nows : nat -> Z) msgs i lines shown : shows shown lines ->
  exists shown', shows shown' (foldl (fun '(i, lines) msg => (S i, writeToLogView (nows i) lines msg)) (i, lines) msgs).2 /\
    shown'.*2 `sublist_of` shown.*2 ++ msgs.
Proof.
  revert i lines shown. induction msgs as [|msg msgs IH]; intros i lines shown Hs; simpl.
  - exists shown. split; [done|]. by rewrite app_nil_r.
  - destruct (writeToLogView_shows (nows i) lines msg shown Hs) as (sh1 & H1 & H2).
    destruct (IH (S i) _ sh1 H1) as (sh2 & H4 & H5).
    exists sh2. split; [done|]. rewrite H5. replace (shown.*2 ++ msg :: msgs) with ((shown.*2 ++ [msg]) ++ msgs) by (by rewrite <-app_assoc).
    by apply sublist_app.
Qed.

(** What call [i] wrote to the log, and its message *)
Definition chunkOf (cs : list LogCall) (w : nat * nat) : string :=
  match cs !! w.1 with Some c => cut w.2 (callLine c) | None => "" end.
Definition messageOf (cs : list LogCall) (i : nat) : string :=
  match cs !! i with Some c => callMessage c | None => "" end.

Definition chunks (cf : Conf) : list string := chunkOf (calls cf) <$> writes cf.
Definition messages (cf : Conf) : list string := messageOf (calls cf) <$> sent cf.

Definition headers (path : string) (t1 t2 : Z) (n1 n2 : nat) : list string :=
  [cut n1 (fileLine t1 "========== Server Started =========="); cut n2 (fileLine t2 ("Log file: " ++ path))].

Section Invariant.
Variable opened : option string.
Variable t1 t2 : Z.
Variable n1 n2 : nat.

(** Where the lines of the events are *)
Definition logged (cf : Conf) : Prop :=
  match opened with
  | Some path => logFile (log cf) = headers path t1 t2 n1 n2 ++ chunks cf
  | None => logFile (log cf) = [] /\ chunks cf `sublist_of` stderr (log cf)
  end.

Definition bounded (s : LogState) : Prop :=
  length (logMessageChan s) <= logChanCap /\ length (pendingLogs s) <= 2 * maxBatchSize /\ length (logLines s) <= maxLogLines.

(** What the view shows and what still waits for it *)
Definition displays (s : LogState) (msgs : list string) : Prop :=
  exists shown, shows shown (logLines s) /\ shown.*2 ++ pendingLogs s ++ logMessageChan s `sublist_of` msgs.

Record log_ok (cf : Conf) : Prop := {
  lo_writer : logWriter (log cf) = Some (if opened then theFile else theStderr);
  lo_logged : logged cf;
  lo_once : NoDup (writes cf).*1;
  lo_writes : forall i, i ∈ (writes cf).*1 <-> exists c, calls cf !! i = Some c /\ callPc c <> AtWrite;
  lo_bounded : bounded (log cf);
  lo_sent_once : NoDup (sent cf);
  lo_sent : forall i, i ∈ sent cf -> exists c, calls cf !! i = Some c /\ callPc c = Returned /\ isQueryEvent (callMessage c) = false;
  lo_shown : displays (log cf) (messages cf) }.

(** A step of the UI touches neither the log nor the record. *)
Lemma ui_ok f cf :
  (forall s, logWriter (f s) = logWriter s /\ logFile (f s) = logFile s /\ stderr (f s) = stderr s) ->
  (forall s, bounded s -> bounded (f s)) ->
  (forall s msgs, bounded s -> displays s msgs -> displays (f s) msgs) ->
  log_ok cf -> log_ok (onLog f cf).
Proof.
  intros Hk Hb Hd [Hw Hl Ho Hws Hbd Hso Hs Hsh]. destruct (Hk (log cf)) as (E1 & E2 & E3).
  constructor; unfold logged, chunks, messages, onLog in *; cbn [log calls writes sent]; rewrite ?E1, ?E2, ?E3; auto.
Qed.

Lemma receive_bounded s : bounded s -> bounded (receiveLog s).
Proof.
  unfold bounded, receiveLog. intros (Hc & Hp & Hl). destruct (logMessageChan s) as [|msg rest] eqn:Ec; [by rewrite Ec|].
  cbn [logMessageChan pendingLogs logLines length] in *. split_and!; [lia| |done].
  destruct (Nat.ltb_spec (maxBatchSize * 2) (length (pendingLogs s ++ [msg]))); [|lia].
  pose proof (lastN_length maxBatchSize (pendingLogs s ++ [msg])). lia.
Qed.

Lemma receive_displays s msgs : displays s msgs -> displays (receiveLog s) msgs.
Proof.
  intros (sh & Hsh & Hsub). unfold displays, receiveLog. destruct (logMessageChan s) as [|msg rest] eqn:Ec; [exists sh; by rewrite Ec|].
  exists sh. cbn [logMessageChan pendingLogs logLines]. split; [done|]. rewrite <-Hsub.
  replace (pendingLogs s ++ msg :: rest) with ((pendingLogs s ++ [msg]) ++ rest) by (by rewrite <-app_assoc).
  apply sublist_app; [done|]. apply sublist_app; [|done]. case_match; [apply lastN_sublist|done].
Qed.

Lemma tick_bounded nows s : bounded s -> bounded (batchTick nows s).
Proof.
  intros Hb. unfold batchTick. destruct (pendingLogs s) as [|p ps] eqn:Ep; [done|]. destruct Hb as (Hc & Hp & Hl).
  pose proof (fun msgs => write_batch_length nows msgs 0 (logLines s) Hl) as Hw.
  set (batch := if _ <? _ then _ else _). specialize (Hw batch). destruct (foldl _ _ batch) as [i lines].
  split_and!; simpl; [done|lia|done].
Qed.

Lemma tick_displays nows s msgs : displays s msgs -> displays (batchTick nows s) msgs.
Proof.
  intros (sh & Hsh & Hsub). unfold batchTick. destruct (pendingLogs s) as [|p ps] eqn:Ep; [exists sh; by rewrite Ep|].
  set (batch := if _ <? _ then _ else _).
  assert (Hm : batch `sublist_of` p :: ps) by (unfold batch; case_match; [apply lastN_sublist|done]).
  destruct (write_batch nows batch 0 (logLines s) sh Hsh) as (sh2 & H2 & H3).
  destruct (foldl _ _ batch) as [i lines]. exists sh2. cbn [logMessageChan pendingLogs logLines snd] in *.
  split; [done|]. by rewrite <-Hsub, H3, <-app_assoc, Hm.
Qed.

(** A call in flight changes neither its time nor its message, and new calls
    come after the old ones. *)
Lemma same_text cs i c pc : cs !! i = Some c ->
  (forall w, chunkOf (<[i := goTo pc c]> cs) w = chunkOf cs w) /\ (forall j, messageOf (<[i := goTo pc c]> cs) j = messageOf cs j).
Proof.
  intros Hi. assert (Hlt := lookup_lt_Some _ _ _ Hi). split; intros j; unfold chunkOf, messageOf.
  - destruct (decide (i = j.1)) as [<-|]; [by rewrite list_lookup_insert_eq, Hi|by rewrite list_lookup_insert_ne].
  - destruct (decide (i = j)) as [<-|]; [by rewrite list_lookup_insert_eq, Hi|by rewrite list_lookup_insert_ne].
Qed.

Lemma fmap_same {A} (f g : A -> string) (l : list A) : (forall x, x ∈ l -> f x = g x) -> f <$> l = g <$> l.
Proof. intros H. apply list_fmap_ext. intros i x Hx. apply H. by eapply list_elem_of_lookup_2. Qed.

Lemma call_ok now msg cf : log_ok cf -> log_ok (mkConf (log cf) (calls cf ++ [logEvent now msg]) (writes cf) (sent cf)).
Proof.
  intros [Hw Hl Ho Hws Hbd Hso Hs Hsh].
  assert (Hold : forall i c, calls cf !! i = Some c -> (calls cf ++ [logEvent now msg]) !! i = Some c) by (intros; by apply lookup_app_l_Some).
  assert (Ec : chunkOf (calls cf ++ [logEvent now msg]) <$> writes cf = chunkOf (calls cf) <$> writes cf).
  { apply fmap_same. intros [i n] Hin. unfold chunkOf. cbn [fst snd].
    destruct (proj1 (Hws i)) as (c & Hc & _); [apply list_elem_of_fmap; by exists (i, n)|]. by rewrite Hc, (Hold _ _ Hc). }
  assert (Em : messageOf (calls cf ++ [logEvent now msg]) <$> sent cf = messageOf (calls cf) <$> sent cf).
  { apply fmap_same. intros i (c & Hc & _)%Hs. unfold messageOf. by rewrite Hc, (Hold _ _ Hc). }
  constructor; unfold logged, chunks, messages in *; cbn [log calls writes sent]; rewrite ?Ec, ?Em; auto.
  - intros i. rewrite Hws. split; [intros (c & Hc & Hp); eauto|]. intros (c & [Hc|[_ [_ <-]%list_lookup_singleton_Some]]%lookup_app_Some & Hp); [eauto|done].
  - intros i (c & Hc & Hp)%Hs. eauto.
Qed.

Lemma passed_insert (cs : list LogCall) (i : nat) c pc j : cs !! i = Some c -> pc <> AtWrite ->
  (exists c', <[i := goTo pc c]> cs !! j = Some c' /\ callPc c' <> AtWrite)
  <-> j = i \/ exists c', cs !! j = Some c' /\ callPc c' <> AtWrite.
Proof.
  intros Hi Hpc. assert (Hlt := lookup_lt_Some _ _ _ Hi). destruct (decide (i = j)) as [<-|Hne].
  - rewrite list_lookup_insert_eq by done. split; [by left|]. intros _. by exists (goTo pc c).
  - rewrite list_lookup_insert_ne by done. naive_solver.
Qed.

(** A call that moves on, the log changing to [s'] and [ws], [ss] being what
    it adds to the record *)
Lemma move_ok i c pc cf s' ws ss :
  log_ok cf -> calls cf !! i = Some c -> pc <> AtWrite -> callPc c <> Returned ->
  logWriter s' = logWriter (log cf) -> bounded s' ->
  let cf' := mkConf s' (<[i := goTo pc c]> (calls cf)) (writes cf ++ ws) (sent cf ++ ss) in
  logged cf' -> displays s' (messages cf') ->
  (callPc c = AtWrite /\ (exists n, ws = [(i, n)]) \/ callPc c <> AtWrite /\ ws = []) ->
  (pc = Returned /\ isQueryEvent (callMessage c) = false /\ ss = [i] \/ ss = []) ->
  log_ok cf'.
Proof.
  intros [Hw Hl Ho Hws Hbd Hso Hs Hsh] Hi Hpc Hret Ew Hb cf' Hlog Hdisp Hwcase Hscase.
  assert (Hlt := lookup_lt_Some _ _ _ Hi).
  assert (Hnot : i ∉ sent cf) by (intros (c' & Hc' & Hr & _)%Hs; simplify_eq).
  constructor; try done; cbn [cf' log calls writes sent]; [congruence|..].
  - rewrite fmap_app. destruct Hwcase as [[Hat (n & ->)]|[_ ->]]; [|cbn [fmap list_fmap]; by rewrite app_nil_r].
    apply NoDup_app. split_and!; [done| |apply NoDup_singleton]. intros j Hj ->%list_elem_of_singleton.
    apply Hws in Hj as (c' & Hc' & Hne). cbn in Hc'. by simplify_eq.
  - intros j. rewrite passed_insert by done. rewrite <-Hws, fmap_app, elem_of_app.
    destruct Hwcase as [[Hat (n & ->)]|[Hat ->]]; simpl.
    + rewrite list_elem_of_singleton. tauto.
    + split; [intros [?|Hj%not_elem_of_nil]; [by right|done]|]. intros [->|?]; [|by left]. left. apply Hws. eauto.
  - destruct Hscase as [(_ & _ & ->)| ->]; [|by rewrite app_nil_r].
    apply NoDup_app. split_and!; [done| |apply NoDup_singleton]. by intros j Hj ->%list_elem_of_singleton.
  - intros j [Hj|Hj]%elem_of_app.
    + destruct (Hs j Hj) as (c' & Hc' & Hr). exists c'. rewrite list_lookup_insert_ne; [done|congruence].
    + destruct Hscase as [(-> & Hq & ->)| ->]; [|by apply not_elem_of_nil in Hj].
      apply list_elem_of_singleton in Hj as ->. exists (goTo Returned c). by rewrite list_lookup_insert_eq.
Qed.

Lemma go_ok i n cf : log_ok cf -> log_ok (callStep i n cf).
Proof.
  intros Hok. pose proof Hok as [Hw Hl Ho Hws Hbd Hso Hs Hsh]. unfold callStep.
  destruct (calls cf !! i) as [c|] eqn:Hi; [|done].
  assert (Hsame := fun pc => same_text (calls cf) i c pc Hi).
  assert (Hc : forall pc, chunkOf (<[i := goTo pc c]> (calls cf)) <$> writes cf = chunks cf) by (intros pc; by apply fmap_same; intros; apply Hsame).
  assert (Hm : forall pc, messageOf (<[i := goTo pc c]> (calls cf)) <$> sent cf = messages cf) by (intros pc; by apply fmap_same; intros; apply Hsame).
  unfold logEventStep. destruct (callPc c) eqn:Hpc; cbn [andb];
    repeat (rewrite bool_decide_eq_true_2 by done || rewrite bool_decide_eq_false_2 by done); cbn [andb].
  - rewrite Hw. pose proof (move_ok i c AtStderr cf (writeTo (if opened then theFile else theStderr) (cut n (callLine c)) (log cf)) [(i, n)] []) as H.
    rewrite app_nil_r in H. apply H; try (done || congruence); [by destruct opened|by destruct opened| | |eauto|by right].
    + unfold logged, chunks in *. cbn [log calls writes]. rewrite fmap_app, Hc. cbn [fmap list_fmap].
      rewrite (proj1 (Hsame AtStderr)). unfold chunkOf. cbn [fst snd]. rewrite Hi.
      destruct opened; cbn [writeTo logFile stderr]; [by rewrite Hl, <-app_assoc|]. destruct Hl as [-> Hl]. split; [done|]. by apply sublist_app.
    + unfold messages. cbn [calls sent]. rewrite Hm. by destruct opened.
  - pose proof (move_ok i c AtQueue cf (if runningTUI (log cf) then log cf else writeTo theStderr (cut n (callLine c)) (log cf)) [] []) as H.
    rewrite !app_nil_r in H. apply H; try (done || congruence); [by destruct runningTUI|by destruct runningTUI| | |right; split; congruence|by right].
    + unfold logged, chunks in *. cbn [log calls writes]. rewrite Hc.
      destruct opened; [by destruct runningTUI|]. destruct Hl as [Hf Hl]. destruct runningTUI; [done|]. split; [done|].
      cbn [stderr writeTo]. by apply sublist_inserts_r.
    + unfold messages. cbn [calls sent]. rewrite Hm. by destruct runningTUI.
  - destruct (queues c (log cf)) eqn:Hq.
    + pose proof (move_ok i c Returned cf (sendLog (callMessage c) (log cf)) [] [i]) as H.
      rewrite app_nil_r in H. unfold queues in Hq. apply andb_true_iff in Hq as [[_ Hqe%negb_true_iff]%andb_true_iff Hlt%Nat.ltb_lt].
      apply H; try (done || congruence); [|unfold logged, chunks in *; cbn [log calls writes]; by rewrite Hc| |right; split; congruence|by left].
      * destruct Hbd as (? & ? & ?). split_and!; [|done|done]. cbn [logMessageChan sendLog]. rewrite length_app. simpl. lia.
      * unfold messages. cbn [calls sent]. rewrite fmap_app, Hm. cbn [fmap list_fmap]. rewrite (proj2 (Hsame Returned)).
        unfold messageOf at 1. rewrite Hi. destruct Hsh as (sh & Hsh & Hsub). exists sh. split; [done|].
        cbn [logMessageChan pendingLogs sendLog]. rewrite !app_assoc. apply sublist_app; [|done]. by rewrite <-app_assoc.
    + pose proof (move_ok i c Returned cf (log cf) [] []) as H. rewrite !app_nil_r in H.
      apply H; try (done || congruence); [unfold logged, chunks in *; cbn [log calls writes]; by rewrite Hc|unfold messages; cbn [calls sent]; by rewrite Hm|right; split; congruence|by right].
  - rewrite list_insert_id by done. by destruct cf.
Qed.

Lemma log_step_ok cf cf' : log_step cf cf' -> log_ok cf -> log_ok cf'.
Proof.
  destruct 1.
  - by apply call_ok.
  - by apply go_ok.
  - apply ui_ok; [|apply receive_bounded|intros s msgs _; apply receive_displays]. intros s. unfold receiveLog. by case_match.
  - apply ui_ok; [|apply tick_bounded|intros s msgs _; apply tick_displays]. intros s. unfold batchTick. case_match; [done|]. by case_match.
  - apply ui_ok; [intros s|intros s Hb|intros s msgs _ Hd]; unfold requestDashboardUpdate; by destruct (runningTUI s).
  - by apply ui_ok.
Qed.

End Invariant.

Lemma log_run_ok tui opened warning t1 t2 n1 n2 cf :
  rtc log_step (launch tui opened warning t1 t2 n1 n2) cf -> log_ok opened t1 t2 n1 n2 cf.
Proof.
  intros H. assert (H0 : log_ok opened t1 t2 n1 n2 (launch tui opened warning t1 t2 n1 n2)).
  { destruct opened, tui; (constructor; [done|first [reflexivity|split; [done|apply sublist_nil_l]]|apply NoDup_nil_2| |split_and!; simpl; lia|apply NoDup_nil_2| |by exists []]);
      intros i; cbn; by (intros ?%not_elem_of_nil || (split; [intros ?%not_elem_of_nil|intros (? & ? & _)])). }
  revert H0. induction H as [|cf1 cf2 cf3 Hs _ IH]; [done|]. intros H0. by eapply IH, log_step_ok.
Qed.

(** C11: the event log is complete and the UI stays bounded.  In any
    interleaving of the steps of the calls of [logEvent], the receives, the
    batches and the redraws, and whatever writes fail, the log file holds its
    two header lines and then what each call wrote, in the order of the
    writes; a call has written once it is past its first step and never
    writes twice.  Without a file the same lines go to the standard error.
    The channel, the pending batch and the view never exceed 1000, 100 and
    100 entries.  What the view shows, followed by what still waits, is a
    subsequence of the messages put into the channel, in the order they were
    put there; each comes from one call that is no query and had written its
    line before.  (The order of the writes and that of the channel may
    differ: [orders_may_differ].) *)
Theorem log_complete_and_bounded tui opened warning t1 t2 n1 n2 cf :
  rtc log_step (launch tui opened warning t1 t2 n1 n2) cf ->
  let s := log cf in
  match opened with
  | Some path => logFile s = headers path t1 t2 n1 n2 ++ (chunkOf (calls cf) <$> writes cf)
  | None => logFile s = [] /\ chunkOf (calls cf) <$> writes cf `sublist_of` stderr s
  end /\
  NoDup (writes cf).*1 /\
  (forall i c, calls cf !! i = Some c -> i ∈ (writes cf).*1 <-> callPc c <> AtWrite) /\
  length (logMessageChan s) <= 1000 /\ length (pendingLogs s) <= 100 /\ length (logLines s) <= 100 /\
  NoDup (sent cf) /\
  (forall i, i ∈ sent cf -> i ∈ (writes cf).*1 /\ exists c, calls cf !! i = Some c /\ isQueryEvent (callMessage c) = false) /\
  exists shown, logLines s = (fun tm => viewLine tm.1 tm.2) <$> shown /\
    shown.*2 ++ pendingLogs s ++ logMessageChan s `sublist_of` messageOf (calls cf) <$> sent cf.
Proof.
  intros [Hw Hl Ho Hws (Hb1 & Hb2 & Hb3) Hso Hs Hsh]%log_run_ok. split_and!; try done.
  - intros i c Hc. rewrite Hws. split; [intros (c' & Hc' & ?); by simplify_eq|eauto].
  - intros i (c & Hc & Hr & Hq)%Hs. split; [apply Hws; exists c; by rewrite Hr|eauto].
Qed.

(** *** A quiet server shows everything *)

Fixpoint receiveAll (n : nat) (s : LogState) : LogState :=
  match n with O => s | S n => receiveAll n (receiveLog s) end.

Lemma receiveAll_spec n s : length (pendingLogs s) + length (logMessageChan s) <= 2 * maxBatchSize ->
  n = length (logMessageChan s) ->
  pendingLogs (receiveAll n s) = pendingLogs s ++ logMessageChan s /\ logLines (receiveAll n s) = logLines s /\
  logMessageChan (receiveAll n s) = [].
Proof.
  revert s. induction n as [|n IH]; intros s Hl Hn.
  { cbn [receiveAll]. destruct (logMessageChan s); [by rewrite app_nil_r|done]. }
  cbn [receiveAll]. unfold receiveLog. destruct (logMessageChan s) as [|msg rest] eqn:Ec; [done|]. cbn [length] in *.
  destruct (Nat.ltb_spec (maxBatchSize * 2) (length (pendingLogs s ++ [msg]))) as [Hlt|Hge];
    [rewrite length_app in Hlt; cbn [length] in Hlt; lia|].
  set (s' := mkLogState _ _ _ _ rest (pendingLogs s ++ [msg]) _ _).
  destruct (IH s') as (H1 & H2 & H3);
    [unfold s'; cbn [pendingLogs logMessageChan]; rewrite length_app; cbn [length]; lia|unfold s'; cbn [logMessageChan]; lia|].
  rewrite H1, H2, H3. simpl. by rewrite <-app_assoc.
Qed.

Lemma write_batch_lastN (nows : nat -> Z) msgs i lines : length lines <= maxLogLines ->
  exists stamps, length stamps = length msgs /\
  (foldl (fun '(i, lines) msg => (S i, writeToLogView (nows i) lines msg)) (i, lines) msgs).2
  = lastN maxLogLines (lines ++ zip_with viewLine stamps msgs).
Proof.
  revert i lines. induction msgs as [|msg msgs IH]; intros i lines Hl; simpl.
  - exists []. split; [done|]. rewrite app_nil_r. symmetry. by apply lastN_all.
  - destruct (IH (S i) (writeToLogView (nows i) lines msg)) as (st & Hst & E); [by apply writeToLogView_length|].
    exists (nows i :: st). split; [simpl; lia|]. rewrite E. simpl.
    replace (lines ++ viewLine (nows i) msg :: zip_with viewLine st msgs)
      with ((lines ++ [viewLine (nows i) msg]) ++ zip_with viewLine st msgs) by (by rewrite <-app_assoc).
    unfold writeToLogView. case_match eqn:Hlt; [|done]. apply Nat.ltb_lt in Hlt. rewrite lastN_app; [done|lia].
Qed.

(** On a server that logs at most 50 displayable messages between two
    batches nothing is lost on the screen: once the coordinator has received
    what waits and its ticker fires, every waiting message is in the view, in
    order, after the lines that were there. *)
Theorem quiet_batch_shown tui opened warning t1 t2 n1 n2 cf nows :
  rtc log_step (launch tui opened warning t1 t2 n1 n2) cf ->
  let s := log cf in
  length (pendingLogs s) + length (logMessageChan s) <= maxBatchSize ->
  let waiting := pendingLogs s ++ logMessageChan s in
  let s' := batchTick nows (receiveAll (length (logMessageChan s)) s) in
  pendingLogs s' = [] /\ logMessageChan s' = [] /\
  exists stamps, length stamps = length waiting /\
    logLines s' = lastN maxLogLines (logLines s ++ zip_with viewLine stamps waiting).
Proof.
  intros Hrun s Hq waiting s'. apply log_run_ok in Hrun as [_ _ _ _ (_ & _ & Hl) _ _ _]. fold s in Hl.
  destruct (receiveAll_spec (length (logMessageChan s)) s ltac:(lia) eq_refl) as (H1 & H2 & H3).
  assert (Hw : length waiting <= maxBatchSize) by (unfold waiting; rewrite length_app; lia). fold waiting in H1.
  unfold s', batchTick. destruct (write_batch_lastN nows waiting 0 (logLines s) Hl) as (st & Hst & E).
  destruct (pendingLogs (receiveAll _ s)) as [|p ps] eqn:Ep.
  - split_and!; [done|done|]. exists []. rewrite <-H1. split; [done|]. simpl. rewrite app_nil_r, H2. symmetry. by apply lastN_all.
  - rewrite H1, (proj2 (Nat.ltb_ge _ _) Hw), H2. destruct (foldl _ _ waiting) as [j lines]. simpl in E. simpl. eauto.
Qed.

(** ** The dashboard *)

Lemma listTasks_spec f sel order labels ft ts :
  let vis := List.filter (fun te => passesFilter f te.1) order in
  listTasks f sel order labels ft ts
  = (labels ++ ((fun te => taskLabel te.1 te.2) <$> vis),
     default ""%string (head (List.filter (fun t => negb (String.eqb t "")) (ft :: vis.*1))),
     if existsb (fun te => String.eqb te.1 sel) vis then sel else ts).
Proof.
  revert labels ft ts. induction order as [|[t es] order IH]; intros labels ft ts; simpl.
  - rewrite app_nil_r. by destruct (String.eqb_spec ft "") as [->|].
  - destruct (passesFilter f t); simpl; [|apply IH]. rewrite IH. rewrite <-app_assoc. simpl. f_equal; [f_equal|].
    + destruct (String.eqb_spec ft "") as [->|Hft]; simpl; [done|]. by rewrite (proj2 (String.eqb_neq ft "") Hft).
    + destruct (String.eqb_spec t sel) as [->|]; simpl; [by case_match|done].
Qed.

(** The dashboard is consistent with the registry it redraws from.  It
    lists exactly the tasks that pass the filter, each with its number of
    services; a selected task that is still listed stays selected, otherwise
    the first listed task is; and the details shown are the services of the
    selected task, or nothing when no task is listed. *)
Theorem redraw_consistent f order sel :
  NoDup order.*1 -> ""%string ∉ order.*1 ->
  let vis := List.filter (fun te => passesFilter f te.1) order in
  let d := redraw f order sel in
  taskList d = (fun te => taskLabel te.1 te.2) <$> vis /\
  currentSelectedTask d = (if bool_decide (sel ∈ vis.*1) then sel else default "" (head vis.*1))%string /\
  match vis with
  | [] => details d = None
  | _ => exists es, (currentSelectedTask d, es) ∈ vis /\ details d = Some es
  end.
Proof.
  intros Hnd Hne vis d. unfold d, redraw. rewrite listTasks_spec. fold vis.
  assert (Hsub : vis `sublist_of` order) by apply filter_sublist.
  assert (Hvis : forall t, t ∈ vis.*1 -> t <> ""%string).
  { intros t Ht ->. apply Hne. eapply elem_of_sublist; [exact Ht|]. by apply fmap_sublist. }
  assert (Hent : forall t es, (t, es) ∈ vis -> entriesOf t order = Some es).
  { intros t es Hin. assert (Ho : (t, es) ∈ order) by (by eapply elem_of_sublist). clear - Ho Hnd.
    induction order as [|[u us] order IH]; [by apply not_elem_of_nil in Ho|]. simpl in *. apply NoDup_cons in Hnd as [Hu Hnd].
    apply elem_of_cons in Ho as [[= -> ->]|Ho]; [by rewrite String.eqb_refl|].
    destruct (String.eqb_spec u t) as [->|]; [|auto]. destruct Hu. apply list_elem_of_fmap. by exists (t, es). }
  assert (Hex : existsb (fun te => String.eqb te.1 sel) vis = bool_decide (sel ∈ vis.*1)).
  { apply eq_true_iff_eq. rewrite existsb_exists, bool_decide_eq_true, list_elem_of_fmap. split.
    - intros (te & Hin & He%String.eqb_eq). exists te. split; [done|]. by apply list_elem_of_In.
    - intros (te & -> & Hin%list_elem_of_In). exists te. split; [done|apply String.eqb_refl]. }
  assert (Hhead : default "" (head (List.filter (fun t => negb (String.eqb t "")) (""%string :: vis.*1))) = default ""%string (head vis.*1)).
  { simpl. destruct vis as [|[t es] v]; [done|]. simpl. specialize (Hvis t ltac:(left)).
    by rewrite (proj2 (String.eqb_neq t "") Hvis). }
  rewrite Hex, Hhead. clear Hex Hhead. case_bool_decide as Hsel.
  - rewrite (proj2 (String.eqb_neq sel "") (Hvis _ Hsel)). cbn [taskList currentSelectedTask details].
    rewrite (proj2 (String.eqb_neq sel "") (Hvis _ Hsel)). split_and!; [done|done|].
    apply list_elem_of_fmap in Hsel as ([t es] & -> & Hin). destruct vis; [by apply not_elem_of_nil in Hin|]. eauto.
  - cbn [String.eqb taskList currentSelectedTask details]. split_and!; [done|done|].
    destruct vis as [|[t es] v]; [done|]. simpl. rewrite (proj2 (String.eqb_neq t "") (Hvis t ltac:(left))).
    exists es. split; [left|]. apply Hent. left.
Qed.

End Log.

(** ** Witnesses *)

Definition demo_stamp (now : Z) : string := pretty now.

(** A step of a configuration, as a function *)
Inductive demoMove := mCall (now : Z) (msg : string) | mGo (i n : nat) | mReceive.

Definition demoStep (cf : Conf) (m : demoMove) : Conf :=
  match m with
  | mCall now msg => mkConf (log cf) (calls cf ++ [logEvent now msg]) (writes cf) (sent cf)
  | mGo i n => callStep demo_stamp i n cf
  | mReceive => onLog receiveLog cf
  end.

Lemma demo_steps ms cf : rtc (log_step demo_stamp demo_stamp) cf (foldl demoStep cf ms).
Proof.
  revert cf. induction ms as [|m ms IH]; intros cf; simpl; [done|]. eapply rtc_l; [|apply IH].
  destruct m; [apply log_call|apply log_go|apply log_receive].
Qed.

Definition demo_launch : Conf := launch demo_stamp true (Some "logs/s.log"%string) "" 0 0 99 99.

(** Two calls: the second overtakes the first between its write and its send.
    A third is a query, whose write is cut short. *)
Definition demo_conf : Conf := foldl demoStep demo_launch
  [mCall 1 "REGISTER a"; mCall 2 "REGISTER b"; mGo 0 99; mGo 1 99; mGo 1 0; mGo 1 0; mReceive; mGo 0 0; mGo 0 0;
   mCall 3 "QUERY a"; mGo 2 5; mGo 2 0; mGo 2 0].

Lemma log_complete_and_bounded_witness :
  logFile (log demo_conf)
  = ["[0] ========== Server Started ==========" ++ str1 10; "[0] Log file: logs/s.log" ++ str1 10;
     "[1] REGISTER a" ++ str1 10; "[2] REGISTER b" ++ str1 10; "[3] Q"]%string.
Proof.
  etransitivity; [exact (proj1 (log_complete_and_bounded demo_stamp demo_stamp true (Some "logs/s.log"%string) "" 0 0 99 99 demo_conf (demo_steps _ _)))|].
  vm_compute. reflexivity.
Defined.

(** The file has the first call first, the channel the second. *)
Example orders_may_differ :
  (writes demo_conf).*1 = [0; 1; 2] /\ sent demo_conf = [1; 0] /\
  pendingLogs (log demo_conf) ++ logMessageChan (log demo_conf) = ["REGISTER b"; "REGISTER a"]%string.
Proof. vm_compute. done. Qed.

Lemma quiet_batch_shown_witness :
  exists stamps, length stamps = 2 /\
    logLines (batchTick demo_stamp (fun _ => 9%Z) (receiveAll 1 (log demo_conf)))
    = lastN maxLogLines ([] ++ zip_with (viewLine demo_stamp) stamps ["REGISTER b"; "REGISTER a"]%string).
Proof.
  refine (proj2 (proj2 (quiet_batch_shown demo_stamp demo_stamp true (Some "logs/s.log"%string) "" 0 0 99 99 demo_conf (fun _ => 9%Z) (demo_steps _ _) _))).
  vm_compute. lia.
Defined.

Lemma redraw_consistent_witness :
  let order := [("echo", [mkEntry "h:1" 0 0 1]); ("sum", [])]%string in
  let d := redraw "S" order "echo" in
  currentSelectedTask d = "sum"%string /\ details d = Some [].
Proof.
  intros order d. destruct (redraw_consistent "S" order "echo") as (_ & H1 & _).
  - vm_compute. repeat constructor; set_solver.
  - vm_compute. set_solver.
  - split; [transitivity "sum"%string; [etransitivity; [exact H1|]|]|]; vm_compute; reflexivity.
Defined.
