(* ===== verification/ProxyCmd.v ===== *)
(** * cmd/client_proxy/main.go: the client proxy command

    Its options, from flags or from the answers at the prompts, and the
    goroutines of the process as steps of one state: the proxy, the handler
    of signals, [shutdown] under its [sync.Once], the watcher and the keys of
    the dashboard, and [main] itself.  The process is modelled from the moment
    its node runs: the handler of signals is there a little earlier, and a
    signal that arrives while [main] still creates or starts the node is
    outside of the model. *)

From Stdlib Require Import Ascii String.
From S2P Require Import Prelude.
From stdpp Require Import list relations.
From S2P Require Import GoStrings NetIP GoURL GoScan GoJSON GoAny GoFlag Ring.
Local Open Scope Z_scope.

#[local] Arguments String.append : simpl nomatch.

(** ** Options *)

(** [dht.ReplicationFactor] and [dht.ServiceHeartbeatTimeout] *)
Definition defaultK : Z := Z.of_nat (ReplicationFactor (DHTConfig := default_config)).
Definition defaultHeartbeat : Z := ServiceHeartbeatTimeout (DHTConfig := default_config).

Record FlagVals := mkFlagVals {
  p2pFlag : bool; p2pPortFlag : string; bootstrapFlag : string; disableFlag : bool; kClosestFlag : Z;
  heartbeatFlag : Z; simpleUIFlag : bool; tcpFlag : bool; backgroundFlag : bool }.

Inductive PFlag := FP2P | FPort | FBootstrap | FDisable | FKClosest | FHeartbeat | FSimpleUI | FTcp | FBackground.

Definition declaredFlags : list (string * PFlag) :=
  [("p2p", FP2P); ("p2p-port", FPort); ("bootstrap", FBootstrap); ("disable-bootstrap-peer-discovery", FDisable);
   ("k-closest", FKClosest); ("p2p-heartbeat-timeout", FHeartbeat); ("simple-ui", FSimpleUI); ("tcp", FTcp);
   ("background", FBackground)]%string.

Definition defaultFlags : FlagVals := mkFlagVals false "6000" "" false defaultK defaultHeartbeat false false false.

Definition isBoolP (f : PFlag) : bool :=
  match f with FP2P | FDisable | FSimpleUI | FTcp | FBackground => true | FPort | FBootstrap | FKClosest | FHeartbeat => false end.

Definition setP (f : PFlag) (value : string) (v : FlagVals) : option FlagVals :=
  let '(mkFlagVals a b c d e g h i j) := v in
  match f with
  | FP2P => (fun x => mkFlagVals x b c d e g h i j) <$> ParseBool value
  | FPort => Some (mkFlagVals a value c d e g h i j)
  | FBootstrap => Some (mkFlagVals a b value d e g h i j)
  | FDisable => (fun x => mkFlagVals a b c x e g h i j) <$> ParseBool value
  | FKClosest => (fun x => mkFlagVals a b c d x g h i j) <$> ParseInt true value
  | FHeartbeat => (fun x => mkFlagVals a b c d e x h i j) <$> ParseDuration value
  | FSimpleUI => (fun x => mkFlagVals a b c d e g x i j) <$> ParseBool value
  | FTcp => (fun x => mkFlagVals a b c d e g h x j) <$> ParseBool value
  | FBackground => (fun x => mkFlagVals a b c d e g h i x) <$> ParseBool value
  end.

(** A number of digits only is a port. *)
Definition normalizePortInput (input : string) : string :=
  let input := TrimSpace input in
  if String.eqb input "" then input
  else if all_bytes is_digit input then (":" ++ input)%string else input.

(** [strings.Split(s, ",")], every part trimmed *)
Definition commaParts (s : string) : list string := TrimSpace <$> splitByte "," "" s.

(** *** The prompts: the answer, trimmed, and the unread input *)

Definition answer (inp : string) : string * string := let '(s, inp) := readString inp in (TrimSpace s, inp).

Definition validNode (n : string) : bool :=
  match SplitHostPort n with
  | Some (host, port) => negb (String.eqb host "") && negb (String.eqb port "")
  | None => false
  end.

(** Asks until every node given is valid; an empty answer, or the end of the
    input, gives none.  [None] is an exhausted fuel. *)
Fixpoint bootstrapLoop (fuel : nat) (inp : string) : option (list string * string) :=
  match fuel with
  | O => None
  | S fuel =>
      let '(bootstrapInput, inp) := answer inp in
      if String.eqb bootstrapInput "" then Some ([], inp)
      else
        let nodes := List.filter (fun n => negb (String.eqb n "")) (commaParts bootstrapInput) in
        let out := List.filter validNode nodes in
        let bad := List.filter (fun n => negb (validNode n)) nodes in
        match bad, out with
        | [], _ :: _ => Some (out, inp)
        | _, _ => bootstrapLoop fuel inp
        end
  end.

Definition askBootstrapNodes (inp : string) : list string * string :=
  default ([], ""%string) (bootstrapLoop (S (String.length inp)) inp).

Record Options := mkOptions {
  mode : string; transport : string; p2pPort : string; bootstrapNodes : list string; background : bool;
  kClosest : Z; simplifiedUI : bool; p2pHeartbeatTimeout : Z }.

(** The options and the variable [disableBootstrapPeerDiscovery] *)
Definition Asked : Type := Options * bool.

Definition askMode (input : string) : string :=
  if String.eqb (ToLower input) "2" || String.eqb (ToLower input) "p2p" then "p2p" else "centralized".

Definition askTransportP (input : string) : string :=
  if String.eqb (ToLower input) "2" || String.eqb (ToLower input) "tcp" then "tcp" else "udp".

(** The interactive part, after the flags *)
Definition askInteractive (inp : string) (k timeout : Z) (simple : bool) (transport : string) : Options :=
  let '(input, inp) := answer inp in
  let mode := askMode input in
  if String.eqb mode "p2p" then
    let '(portInput, inp) := answer inp in
    let p2pPort := if String.eqb portInput "" then ":6000"%string else normalizePortInput portInput in
    let '(nodes, inp) := askBootstrapNodes inp in
    let '(simpleInput, _) := answer inp in
    let simpleInput := ToLower simpleInput in
    mkOptions mode transport p2pPort nodes false k
      (String.eqb simpleInput "" || String.eqb simpleInput "y" || String.eqb simpleInput "yes") timeout
  else
    let '(transportInput, _) := answer inp in
    mkOptions mode (askTransportP transportInput) ":6000" [] false k simple timeout.

Definition askModeOptions (args : list string) (stdinIsTerminal : bool) (stdin : string) : result FlagError Asked :=
  match parseArgs isBoolP setP declaredFlags args defaultFlags with
  | Err e => Err e
  | Ok v =>
      let kClosest := if 0 <? kClosestFlag v then kClosestFlag v else defaultK in
      let timeout := if 0 <? heartbeatFlag v then heartbeatFlag v else defaultHeartbeat in
      Ok (if p2pFlag v then
            mkOptions "p2p" "udp" (normalizePortInput (p2pPortFlag v))
              (if String.eqb (bootstrapFlag v) "" then [] else commaParts (bootstrapFlag v))
              (backgroundFlag v) kClosest (simpleUIFlag v) timeout
          else
            let transport := if tcpFlag v then "tcp"%string else "udp"%string in
            if negb stdinIsTerminal || backgroundFlag v then
              mkOptions "centralized" transport ":6000" [] (backgroundFlag v) kClosest (simpleUIFlag v) timeout
            else askInteractive stdin kClosest timeout (simpleUIFlag v) transport, disableFlag v)
  end.

(** The variables of package [dht] that [main] sets in peer-to-peer mode *)
Definition p2pConfig (o : Options) (disable : bool) : DHTConfig := {|
  ReplicationFactor := Z.to_nat (kClosest o); ServiceHeartbeatTimeout := p2pHeartbeatTimeout o;
  EnableBootstrapPeerDiscovery := negb disable |}.

(** ** What the options are worth *)

Lemma bootstrapLoop_ends fuel inp : (String.length inp < fuel)%nat ->
  exists nodes rest, bootstrapLoop fuel inp = Some (nodes, rest) /\ Forall (fun n => validNode n = true) nodes.
Proof.
  revert inp. induction fuel as [|fuel IH]; intros inp Hf; [lia|]. cbn [bootstrapLoop]. unfold answer.
  pose proof (readString_shorter inp) as Hs. destruct (readString inp) as [s rest] eqn:Er. cbn [snd] in Hs.
  destruct (String.eqb_spec (TrimSpace s) "") as [_|Hne]; [by eexists _, _|].
  assert (Hrest : (String.length rest < fuel)%nat).
  { assert (inp <> ""%string) as Hi by (intros ->; injection Er as <- <-; done). specialize (Hs Hi). lia. }
  set (nodes := List.filter (fun n => negb (String.eqb n "")) _). destruct (List.filter (fun n => negb (validNode n)) nodes); [|by apply IH].
  destruct (List.filter validNode nodes) as [|n out] eqn:Eo; [by apply IH|]. eexists _, _. split; [done|].
  apply Forall_forall. intros x Hx. rewrite <-Eo in Hx. by apply list_elem_of_In, filter_In in Hx as [_ Hx].
Qed.

(** Numbers of the flags are 64-bit. *)
Definition vals_ok (v : FlagVals) : Prop := in_int64 (kClosestFlag v) /\ in_int64 (heartbeatFlag v).
Definition keeps_vals_ok : relation FlagVals := fun v v' => vals_ok v -> vals_ok v'.
#[export] Instance keeps_vals_ok_pre : PreOrder keeps_vals_ok.
Proof. split; [by intros v H|intros a b c H1 H2 H]. by apply H2, H1. Qed.

Lemma setP_ok f x v v' : setP f x v = Some v' -> vals_ok v -> vals_ok v'.
Proof.
  destruct v as [a b c d e g h i j]. unfold setP. intros E [Hk Ht]. destruct f; [| | | | | | | |];
    try (destruct (ParseBool x); [|done]; injection E as <-; done); try (injection E as <-; done).
  - destruct (ParseInt true x) eqn:Ex; [|done]. injection E as <-. split; [by eapply ParseInt_range|done].
  - destruct (ParseDuration x) eqn:Ex; [|done]. injection E as <-. split; [done|by eapply ParseDuration_range].
Qed.

Lemma askBootstrapNodes_valid inp : Forall (fun n => validNode n = true) (askBootstrapNodes inp).1.
Proof.
  unfold askBootstrapNodes. destruct (bootstrapLoop_ends (S (String.length inp)) inp ltac:(lia)) as (nodes & rest & -> & Hn). done.
Qed.

Lemma askMode_known input : askMode input ∈ ["centralized"; "p2p"]%string.
Proof. unfold askMode. destruct (_ || _); set_solver. Qed.

Lemma askTransportP_known input : askTransportP input ∈ ["udp"; "tcp"]%string.
Proof. unfold askTransportP. destruct (_ || _); set_solver. Qed.

Lemma askInteractive_spec inp k timeout simple tr : tr ∈ ["udp"; "tcp"]%string ->
  let o := askInteractive inp k timeout simple tr in
  mode o ∈ ["centralized"; "p2p"]%string /\ transport o ∈ ["udp"; "tcp"]%string /\ kClosest o = k /\ p2pHeartbeatTimeout o = timeout /\
  Forall (fun n => validNode n = true) (bootstrapNodes o) /\ background o = false.
Proof.
  intros Htr. unfold askInteractive. destruct (answer inp) as [input inp1]. pose proof (askMode_known input) as Hm.
  destruct (String.eqb (askMode input) "p2p").
  - destruct (answer inp1) as [port inp2]. pose proof (askBootstrapNodes_valid inp2) as Hn. destruct (askBootstrapNodes inp2) as [nodes inp3].
    destruct (answer inp3). by split_and!.
  - destruct (answer inp1) as [t inp2]. split_and!; try done. apply askTransportP_known.
Qed.

(** Whatever the command line and the answers, the proxy starts from
    usable options or exits on its flags.  The questions end; the mode and
    the transport are known ones; the replication factor and the heartbeat
    timeout are positive 64-bit numbers; bootstrap nodes typed at the prompt
    all have a host and a port; and peer-to-peer mode is chosen only by its
    flag or by a user at a terminal. *)
Theorem proxy_options_usable args stdinIsTerminal stdin o disable :
  askModeOptions args stdinIsTerminal stdin = Ok (o, disable) ->
  exists v, parseArgs isBoolP setP declaredFlags args defaultFlags = Ok v /\ disable = disableFlag v /\
  mode o ∈ ["centralized"; "p2p"]%string /\ transport o ∈ ["udp"; "tcp"]%string /\
  0 < kClosest o <= int64_max /\ 0 < p2pHeartbeatTimeout o <= int64_max /\
  (p2pFlag v = false -> Forall (fun n => validNode n = true) (bootstrapNodes o)) /\
  (mode o = "p2p"%string -> p2pFlag v = true \/ stdinIsTerminal = true /\ background o = false).
Proof.
  unfold askModeOptions. destruct (parseArgs isBoolP setP declaredFlags args defaultFlags) as [v|] eqn:Ep; [|done].
  assert (Hv : vals_ok v).
  { refine (parseArgs_steps isBoolP setP declaredFlags keeps_vals_ok args defaultFlags v _ Ep _); [|by vm_compute].
    intros s n val f x w w' _ _ _ Hset. exact (setP_ok f x w w' Hset). }
  set (k := if 0 <? kClosestFlag v then _ else _). set (t := if 0 <? heartbeatFlag v then _ else _).
  assert (Hk : 0 < k <= int64_max).
  { unfold k. destruct (Z.ltb_spec 0 (kClosestFlag v)); [split; [done|apply Hv]|]. by vm_compute. }
  assert (Ht : 0 < t <= int64_max).
  { unfold t. destruct (Z.ltb_spec 0 (heartbeatFlag v)); [split; [done|apply Hv]|]. by vm_compute. }
  clearbody k t. intros E. exists v. split; [done|]. destruct (p2pFlag v).
  - injection E as <- <-. cbn [mode transport kClosest p2pHeartbeatTimeout]. split_and!; try done; try lia; try set_solver; by left.
  - set (tr := if tcpFlag v then "tcp"%string else "udp"%string) in E.
    assert (Htr : tr ∈ ["udp"; "tcp"]%string) by (unfold tr; destruct (tcpFlag v); set_solver).
    destruct (negb stdinIsTerminal || backgroundFlag v) eqn:Ei.
    + injection E as <- <-. cbn [mode transport kClosest p2pHeartbeatTimeout bootstrapNodes]. split_and!; try done; try lia; try set_solver.
    + apply orb_false_iff in Ei as [Ei%negb_false_iff _]. destruct (askInteractive_spec stdin k t (simpleUIFlag v) tr Htr) as (H1 & H2 & H3 & H4 & H5 & H6).
      injection E as <- <-. rewrite H3, H4. split_and!; try done; try lia. intros _. right. done.
Qed.

Lemma proxy_options_usable_witness :
  exists v, parseArgs isBoolP setP declaredFlags ["-k-closest=-1"]%string defaultFlags = Ok v /\ false = disableFlag v /\
  "p2p"%string ∈ ["centralized"; "p2p"]%string /\ "udp"%string ∈ ["udp"; "tcp"]%string /\
  0 < 3 <= int64_max /\ 0 < 60 * 10 ^ 9 <= int64_max /\
  (p2pFlag v = false -> Forall (fun n => validNode n = true) ["10.0.0.1:6000"; "10.0.0.2:6000"]%string) /\
  ("p2p"%string = "p2p"%string -> p2pFlag v = true \/ true = true /\ false = false).
Proof.
  exact (proxy_options_usable ["-k-closest=-1"]%string true
    (line "2" ++ line "" ++ line "nonsense" ++ line "10.0.0.1:6000, 10.0.0.2:6000" ++ line "n")%string
    (mkOptions "p2p" "udp" ":6000" ["10.0.0.1:6000"; "10.0.0.2:6000"]%string false 3 false (60 * 10 ^ 9)) false eq_refl).
Defined.

(** ** The commands of the interactive loop *)

Inductive Command := Say (text : string) | Quit.

Definition command (mode : string) (stats : Z * Z * Z) (input : string) : Command :=
  let p2p := String.eqb mode "p2p" in
  let line := ToLower (TrimSpace input) in
  if String.eqb line "" || String.eqb line "help" then
    Say (if p2p then "commands: help, stats, dht, quit" else "commands: help, stats, quit")
  else if String.eqb line "stats" then
    let '(regs, queries, errs) := stats in
    Say ("stats: registers=" ++ lit_of_int regs ++ " queries=" ++ lit_of_int queries ++ " errors=" ++ lit_of_int errs)%string
  else if String.eqb line "dht" then
    Say (if p2p then "DHT information available via client package" else "DHT mode not enabled")
  else if String.eqb line "quit" || String.eqb line "exit" || String.eqb line "q" then Quit
  else Say "unknown command; type 'help'".

(** ** The process *)

(** Where [main] is: in the loop over the commands, waiting for the proxy in
    the background, in the run of the dashboard, in [shutdown] on its way
    out, or out. *)
Inductive MainAt := AtLoop | AtWait | AtDashboard | Stopping (code : Z) | Exited (code : Z).

(** [shutdownOnce]: not called, its body running, over *)
Inductive Once := Fresh | Body | Over.

(** The goroutine of the dashboard that waits for the proxy *)
Inductive Watcher := Watching | WatcherStopping (err : option string) | WatcherDone.

Record Proc := mkProc {
  hasRegistry : bool;                       (** [dhtRegistry != nil] *)
  cancelled : bool;                         (** [ctx] *)
  proxyResult : option (option string);     (** the error, if any, the proxy returned *)
  signalled : bool;
  once : Once;
  registryStopped : bool;
  watcher : Watcher;
  keysPressed : nat;                        (** goroutines of keys that quit *)
  dashStopped : bool;
  dashErr : option string;
  runFailed : bool;                         (** the terminal failed under [app.Run] *)
  mainAt : MainAt }.

Definition withOnce (o : Once) (p : Proc) : Proc :=
  mkProc (hasRegistry p) (match o with Fresh => cancelled p | _ => true end) (proxyResult p) (signalled p) o
    (match o with Over => hasRegistry p | _ => registryStopped p end) (watcher p) (keysPressed p) (dashStopped p) (dashErr p) (runFailed p) (mainAt p).

(** A call of [shutdown]: the first runs the body, which starts by
    cancelling the context; others wait for its end. *)
Definition shutdown (p : Proc) : Proc := match once p with Fresh => withOnce Body p | _ => p end.

Definition setMain (m : MainAt) (p : Proc) : Proc :=
  mkProc (hasRegistry p) (cancelled p) (proxyResult p) (signalled p) (once p) (registryStopped p) (watcher p) (keysPressed p)
    (dashStopped p) (dashErr p) (runFailed p) m.
Definition setProxy (r : option string) (p : Proc) : Proc :=
  mkProc (hasRegistry p) (cancelled p) (Some r) (signalled p) (once p) (registryStopped p) (watcher p) (keysPressed p)
    (dashStopped p) (dashErr p) (runFailed p) (mainAt p).
Definition setSignalled (p : Proc) : Proc :=
  mkProc (hasRegistry p) (cancelled p) (proxyResult p) true (once p) (registryStopped p) (watcher p) (keysPressed p)
    (dashStopped p) (dashErr p) (runFailed p) (mainAt p).
Definition setWatcher (w : Watcher) (err : option string) (p : Proc) : Proc :=
  mkProc (hasRegistry p) (cancelled p) (proxyResult p) (signalled p) (once p) (registryStopped p) w (keysPressed p)
    (dashStopped p) err (runFailed p) (mainAt p).
Definition setKeys (n : nat) (p : Proc) : Proc :=
  mkProc (hasRegistry p) (cancelled p) (proxyResult p) (signalled p) (once p) (registryStopped p) (watcher p) n
    (dashStopped p) (dashErr p) (runFailed p) (mainAt p).
Definition setFailed (p : Proc) : Proc :=
  mkProc (hasRegistry p) (cancelled p) (proxyResult p) (signalled p) (once p) (registryStopped p) (watcher p) (keysPressed p)
    true (dashErr p) true (mainAt p).

(** [d.stop(err)], under its own [sync.Once] *)
Definition stop (err : option string) (p : Proc) : Proc :=
  if dashStopped p then p
  else mkProc (hasRegistry p) (cancelled p) (proxyResult p) (signalled p) (once p) (registryStopped p) (watcher p) (keysPressed p)
         true (match err with Some _ => err | None => dashErr p end) (runFailed p) (mainAt p).

(** What a user types at the loop: a command, or the end of the input *)
Inductive step (mode : string) : option (option string) -> Proc -> Proc -> Prop :=
| proxy_returns r p : proxyResult p = None -> step mode None p (setProxy r p)
| signal p : signalled p = false -> step mode None p (shutdown (setSignalled p))
| body_ends p : once p = Body -> step mode None p (withOnce Over p)      (** the proxy is gone, or two seconds have passed *)
| loop_says input text stats p : mainAt p = AtLoop -> command mode stats input = Say text -> step mode (Some (Some input)) p p
| loop_quits input stats p : mainAt p = AtLoop -> command mode stats input = Quit ->
    step mode (Some (Some input)) p (shutdown (setMain (Stopping 0) p))
| loop_eof p : mainAt p = AtLoop -> step mode (Some None) p (shutdown (setMain (Stopping 0) p))
| main_exits code p : mainAt p = Stopping code -> once p = Over -> step mode None p (setMain (Exited code) p)
| background_exits r p : mainAt p = AtWait -> proxyResult p = Some r ->
    step mode None p (setMain (Exited (match r with Some _ => 1 | None => 0 end)) p)
| key_quits p : mainAt p = AtDashboard -> step mode None p (shutdown (setKeys (S (keysPressed p)) p))
| key_stops n p : keysPressed p = S n -> once p = Over -> step mode None p (stop None (setKeys n p))
| watcher_wakes r p : mainAt p = AtDashboard -> watcher p = Watching -> proxyResult p = Some r ->
    step mode None p (shutdown (setWatcher (WatcherStopping r) (match r with Some _ => r | None => dashErr p end) p))
| watcher_stops r p : watcher p = WatcherStopping r -> once p = Over -> step mode None p (stop r (setWatcher WatcherDone (dashErr p) p))
| dashboard_returns p : mainAt p = AtDashboard -> dashStopped p = true ->
    step mode None p (shutdown (setMain (Stopping (if bool_decide (is_Some (dashErr p)) then 1 else 0)) p))
| dashboard_fails p : mainAt p = AtDashboard -> step mode None p (shutdown (setMain (Stopping 1) (setFailed p))).

(** The start, without signals: [Err] is the exit code.  [created] and
    [started] say whether [NewDHTRegistry] and [Start] succeed. *)
Definition start (o : Options) (stdinIsTerminal stdoutIsTerminal created started : bool) : result Z Proc :=
  let p2p := String.eqb (mode o) "p2p" in
  if p2p && negb (created && started) then Err 1
  else
    let useDashboard := p2p && negb (background o) && stdinIsTerminal && stdoutIsTerminal in
    Ok (mkProc p2p false None false Fresh false Watching 0 false None false
          (if useDashboard then AtDashboard else if background o then AtWait else AtLoop)).

(** [listen] from the environment *)
Definition listenAddr (env : string) : string := if String.eqb env "" then ":5100" else env.

(** ** Ways out *)

Definition live (p : Proc) : Prop := forall code, mainAt p <> Exited code.

Definition pstep (mode : string) (p p' : Proc) : Prop := live p /\ exists l, step mode l p p'.
Definition silent_step (mode : string) (p p' : Proc) : Prop := live p /\ step mode None p p'.

(** An exit code other than 0 has a reason. *)
Definition code_ok (code : Z) (p : Proc) : Prop :=
  code = 0 \/ code = 1 /\ (runFailed p = true \/ exists e, proxyResult p = Some (Some e)).

Record proc_ok (reg : bool) (p : Proc) : Prop := {
  ok_registry : hasRegistry p = reg;
  ok_cancel : once p <> Fresh -> cancelled p = true;
  ok_stopped : once p = Over -> registryStopped p = reg;
  ok_err : forall e, dashErr p = Some e -> proxyResult p = Some (Some e);
  ok_watcher : forall r, watcher p = WatcherStopping r -> proxyResult p = Some r;
  ok_main : match mainAt p with
            | AtWait => False
            | Stopping code => once p <> Fresh /\ code_ok code p
            | Exited code => once p = Over /\ code_ok code p
            | _ => True
            end }.

Lemma shutdown_ok reg p : proc_ok reg (setMain AtLoop p) ->
  match mainAt p with AtWait => False | Stopping code => code_ok code p | Exited code => once p = Over /\ code_ok code p | _ => True end ->
  proc_ok reg (shutdown p).
Proof.
  intros [H1 H2 H3 H4 H5 _] Hm. cbn in *. unfold shutdown. destruct (once p) eqn:Eo.
  - split; try done. cbn. destruct (mainAt p); try done. by destruct Hm.
  - split; rewrite ?Eo; auto. by destruct (mainAt p).
  - split; rewrite ?Eo; auto. by destruct (mainAt p).
Qed.

Lemma stop_ok reg err p : proc_ok reg p -> (forall e, err = Some e -> proxyResult p = Some (Some e)) -> proc_ok reg (stop err p).
Proof.
  intros [H1 H2 H3 H4 H5 H6] He. unfold stop. destruct (dashStopped p); [by split|]. split; try done; cbn.
  intros e E. destruct err; [by apply He|by apply H4].
Qed.

Lemma step_ok mode reg l p p' : live p -> step mode l p p' -> proc_ok reg p -> proc_ok reg p'.
Proof.
  intros Hl Hs [H1 H2 H3 H4 H5 H6].
  destruct Hs as [r p Hr|p Hsig|p Ho|input text stats p Hm Hc|input stats p Hm Hc|p Hm|code p Hm Ho|r p Hm Hr|p Hm|n p Hk Ho|r p Hm Hw Hr|r p Hw Ho|p Hm Hd|p Hm].
  - split; try done; cbn; try (intros; exfalso; naive_solver). destruct (mainAt p) as [| | |c|c] eqn:Em; try done.
    + destruct H6 as [? [?|[? [?|[e He]]]]]; (split; [done|]); [by left|right; split; [done|by left]|congruence].
    + by destruct (Hl c Em).
  - apply shutdown_ok; [by split|]. cbn. destruct (mainAt p); try done. by destruct H6.
  - split; cbn; try done. destruct (mainAt p); try done; by destruct H6.
  - by split.
  - apply shutdown_ok; [by split|]. by left.
  - apply shutdown_ok; [by split|]. by left.
  - split; cbn; try done. rewrite Hm in H6. by destruct H6.
  - by rewrite Hm in H6.
  - apply shutdown_ok; [by split|]. cbn. by rewrite Hm.
  - apply stop_ok; [|done]. by split.
  - apply shutdown_ok; [|cbn; by rewrite Hm]. split; try done; cbn; [|intros r' [= <-]; done].
    intros e E. destruct r; [by rewrite <-E|by apply H4].
  - apply stop_ok; [by split|]. cbn. intros e ->. by apply H5.
  - apply shutdown_ok; [by split|]. cbn. destruct (dashErr p) as [e|] eqn:Ee; [right|by left]. split; [done|]. right. exists e. by apply H4.
  - apply shutdown_ok; [by split|]. right. by split; [|left].
Qed.

(** A [main] on its way out gets out. *)
Lemma stopping_exits mode p code : mainAt p = Stopping code -> once p <> Fresh ->
  exists p', rtc (silent_step mode) p p' /\ mainAt p' = Exited code.
Proof.
  intros Hm Ho. assert (Hl : live p) by (intros c; congruence). destruct (once p) eqn:Eo; [done| |].
  - exists (setMain (Exited code) (withOnce Over p)). split; [|done]. eapply rtc_l; [split; [done|by apply body_ends]|].
    eapply rtc_l; [|done]. split; [by intros c; cbn; congruence|]. by apply (main_exits mode code).
  - exists (setMain (Exited code) p). split; [|done]. eapply rtc_l; [|done]. split; [done|by apply (main_exits mode code)].
Qed.

(** C12: a foreground proxy exits cleanly.  However signals, keys, commands,
    the end of the input, the failure of the proxy or of the terminal and the
    two-second limit interleave, when [main] has left, the context of the
    proxy is cancelled and the node of a peer-to-peer proxy is stopped; the
    exit code is 0, or 1 and then the proxy failed or the terminal did.  And
    a [main] that has started to leave can always finish. *)
Theorem foreground_exit_clean o tin tout created started p0 p :
  start o tin tout created started = Ok p0 -> background o = false -> rtc (pstep (mode o)) p0 p ->
  (forall code, mainAt p = Exited code ->
     cancelled p = true /\ registryStopped p = String.eqb (mode o) "p2p" /\ code_ok code p) /\
  (forall code, mainAt p = Stopping code -> exists p', rtc (silent_step (mode o)) p p' /\ mainAt p' = Exited code).
Proof.
  intros Hs Hb Hr. set (reg := String.eqb (mode o) "p2p").
  assert (H0 : proc_ok reg p0).
  { unfold start in Hs. fold reg in Hs. rewrite Hb in Hs. destruct (reg && _); [done|]. injection Hs as <-. split; try done. cbn. by destruct (_ && tout). }
  assert (Hp : proc_ok reg p).
  { clear Hs. induction Hr as [|x y z [Hl [l Hxy]] _ IH]; [done|]. apply IH. by eapply step_ok. }
  destruct Hp as [H1 H2 H3 H4 H5 H6]. split.
  - intros code Hm. rewrite Hm in H6. destruct H6 as [Ho Hc]. split_and!; [apply H2; congruence|by apply H3|done].
  - intros code Hm. rewrite Hm in H6. destruct H6 as [Ho _]. by apply stopping_exits.
Qed.

(** Takes a silent step of a concrete process. *)
Tactic Notation "take" uconstr(rule) :=
  eapply rtc_l; [split; [let c := fresh in let E := fresh in intros c E; vm_compute in E; discriminate E
                        |exists None; eapply rule; reflexivity]|].

(** A run of a peer-to-peer proxy at a terminal: the socket fails, the
    dashboard reports it and the process exits with code 1. *)
Definition demo_options : Options := mkOptions "p2p" "udp" ":6000" [] false 3 true (60 * 10 ^ 9).
Definition demo_start : Proc := mkProc true false None false Fresh false Watching 0 false None false AtDashboard.
Definition demo_end : Proc :=
  mkProc true true (Some (Some "bind"%string)) false Over true WatcherDone 0 true (Some "bind"%string) false (Exited 1).

Lemma foreground_exit_clean_witness :
  (forall code, mainAt demo_end = Exited code ->
     cancelled demo_end = true /\ registryStopped demo_end = String.eqb (mode demo_options) "p2p" /\ code_ok code demo_end) /\
  (forall code, mainAt demo_end = Stopping code ->
     exists p', rtc (silent_step (mode demo_options)) demo_end p' /\ mainAt p' = Exited code).
Proof.
  apply (foreground_exit_clean demo_options true true true true demo_start demo_end eq_refl eq_refl).
  take (proxy_returns _ (Some "bind"%string)).
  take watcher_wakes.
  take body_ends.
  take watcher_stops.
  take dashboard_returns.
  take main_exits. apply rtc_refl.
Defined.

(** Without input the loop never ends: neither a signal nor the end of the
    proxy makes the process exit. *)
Lemma loop_needs_input mode p p' : mainAt p = AtLoop -> rtc (silent_step mode) p p' -> mainAt p' = AtLoop.
Proof.
  intros Hm Hr. induction Hr as [|x y z [_ Hxy] _ IH]; [done|]. apply IH.
  assert (Hk : forall q, mainAt (shutdown q) = mainAt q) by (intros q; unfold shutdown; by destruct (once q)).
  assert (Hst : forall e q, mainAt (stop e q) = mainAt q) by (intros e q; unfold stop; by destruct (dashStopped q)).
  remember None as l eqn:El. clear IH. destruct Hxy as [r p Hr|p Hsig|p Ho|input text stats p Hm' Hc|input stats p Hm' Hc|p Hm'|code p Hm' Ho|r p Hm' Hr|p Hm'|n p Hk' Ho|r p Hm' Hw Hr|r p Hw Ho|p Hm' Hd|p Hm'];
    try discriminate El; try (rewrite Hm' in Hm; discriminate Hm); rewrite ?Hk, ?Hst; exact Hm.
Qed.

(** In the background a signal may end the process before the node is
    stopped: [main] waits for the proxy only. *)
Lemma background_may_not_stop :
  let o := mkOptions "p2p" "udp" ":6000" [] true 3 true (60 * 10 ^ 9) in
  exists p0 p, start o false false true true = Ok p0 /\ rtc (pstep (mode o)) p0 p /\
    mainAt p = Exited 0 /\ signalled p = true /\ registryStopped p = false.
Proof.
  eexists _, _. split; [reflexivity|]. split.
  - eapply rtc_l; [split; [intros c; discriminate|exists None; by eapply signal]|].
    take (proxy_returns _ None).
    take background_exits. apply rtc_refl.
  - done.
Qed.
