(* ===== verification/P2PUI.v ===== *)
(** * cmd/client_proxy/p2p_ui.go: the dashboard of a peer-to-peer proxy

    The dashboard is the writer of every logger of the process.  It cuts what
    is written into lines, keeps the last ones, in simplified mode after
    rewriting them, and draws tables of the peers and tasks of the node.  A
    table is the list of its rows, a text view the list of its lines. *)

From Stdlib Require Import Ascii String.
From S2P Require Import Prelude.
From stdpp Require Import list sorting relations pretty.
From S2P Require Import GoStrings NetIP Firewall GoURL GoTime GoJSON GoAny Registry Memory Transport Client Proxy Ring DHTNet DHTReg.
Local Open Scope string_scope.

#[local] Arguments String.append : simpl nomatch.

(** ** Log lines *)

(** [strings.ReplaceAll(s, "\r\n", "\n")] *)
Fixpoint ReplaceCRLF (s : string) : string :=
  match s with
  | String a (String b s' as rest) =>
      if Ascii.eqb a CR && Ascii.eqb b LF then String LF (ReplaceCRLF s') else String a (ReplaceCRLF rest)
  | _ => s
  end.

(** [strings.Split(s, "\n")] *)
Definition SplitLines (s : string) : list string := splitByte LF "" s.

(** [time.Parse("2006/01/02 15:04:05", s)] succeeds. *)
Definition isStamp (s : string) : bool :=
  match
    ('(y, s) ← getdigits 4 0 s; s ← skipByte "/" s;
     '(m, s) ← getnum true s; s ← skipByte "/" s;
     '(d, s) ← getnum true s; s ← skipByte " " s;
     '(hh, s) ← getnum false s; s ← skipByte ":" s;
     '(mi, s) ← getnum true s; s ← skipByte ":" s;
     '(ss, s) ← getnum true s;
     let '(_, s) := parseFrac s in
     Some (y, m, d, hh, mi, ss, s))
  with
  | Some (y, m, d, hh, mi, ss, rest) =>
      String.eqb rest "" &&
      negb ((m <=? 0) || (12 <? m) || (d <? 1) || (daysIn m y <? d) || (24 <=? hh) || (60 <=? mi) || (60 <=? ss))%Z
  | None => false
  end.

(** The prefix of a logger and its time are cut off. *)
Definition trimPrefixTag (line : string) : string :=
  if HasPrefix line "[" then
    match Index_sub line "] " with
    | Some idx => TrimSpace (str_drop (idx + 2) line)
    | None => line
    end
  else line.

Definition trimStamp (line : string) : string :=
  if (20 <=? String.length line)%nat && isStamp (str_take 19 line) then TrimSpace (str_drop 20 line) else line.

Definition trimLogEnvelope (line : string) : string :=
  let line := TrimSpace line in
  if String.eqb line "" then "" else trimStamp (trimPrefixTag line).

Definition trimSourceSuffix (s : string) : string :=
  match Index_sub s " (from " with
  | Some idx => TrimSpace (str_take idx s)
  | None => TrimSpace s
  end.

Definition shortenStoreMessage (msg : string) : string :=
  match Index_sub msg ": " with
  | Some idx => TrimSpace (str_drop (idx + 2) msg)
  | None => msg
  end.

(** The cases of the switch, in their order: when one applies, and the text *)
Definition starts (p : string) (f : string -> string) : (string -> bool) * (string -> string) :=
  (fun msg => HasPrefix msg p, fun msg => f (TrimPrefix msg p)).
Definition startsWhole (p : string) (f : string -> string) : (string -> bool) * (string -> string) :=
  (fun msg => HasPrefix msg p, f).
Definition startsAndHas (p sub : string) (f : string -> string) : (string -> bool) * (string -> string) :=
  (fun msg => HasPrefix msg p && Contains msg sub, f).

Definition cases : list ((string -> bool) * (string -> string)) :=
  [ starts "P2P REGISTER " (fun rest => "REGISTER request: " ++ trimSourceSuffix rest);
    starts "P2P QUERY " (fun rest => "QUERY request: " ++ trimSourceSuffix rest);
    starts "registering " (fun rest => "DHT store started: " ++ rest);
    starts "querying all for " (fun rest => "DHT query(all): " ++ rest);
    starts "querying " (fun rest => "DHT query: " ++ rest);
    starts "DHT listening on " (fun _ => "DHT node online");
    starts "joining via bootstrap node " (fun rest => "Bootstrapping via " ++ rest);
    starts "join error with " (fun rest => "Bootstrap failed: " ++ rest);
    startsAndHas "received " " peers from " (fun msg => "Peer list updated: " ++ msg);
    startsWhole "joined network, " (fun msg => "Network join complete: " ++ msg);
    startsWhole "stored locally" (fun msg => "Stored locally: " ++ shortenStoreMessage msg);
    startsWhole "stored on " (fun msg => "Stored on peer: " ++ shortenStoreMessage msg);
    starts "accepted STORE from " (fun rest => "Store received: " ++ rest);
    startsAndHas "stored " "(in k-closest)" (fun msg => "Stored (receiver): " ++ shortenStoreMessage msg);
    startsAndHas "stored " "(ring size " (fun msg => "Stored (receiver): " ++ shortenStoreMessage msg);
    starts "store complete: " (fun rest => "Pool update done: " ++ rest);
    starts "found locally: " (fun rest => "Query result(local): " ++ rest);
    starts "found on " (fun rest => "Query result(peer): " ++ rest);
    starts "not found on any k-closest node: " (fun rest => "Query miss: " ++ rest);
    starts "queuing closer node " (fun _ => "Retrying with closer peer");
    starts "removed unreachable peer " (fun rest => "Peer dropped: " ++ rest);
    starts "cleanup removed " (fun rest => "Cleanup: " ++ rest);
    starts "proxy listening on " (fun rest => "Proxy online: " ++ rest);
    starts "proxy stopped" (fun _ => "Proxy stopped") ].

Fixpoint switch (cs : list ((string -> bool) * (string -> string))) (msg : string) : string :=
  match cs with
  | [] => ""
  | (applies, text) :: cs => if applies msg then text msg else switch cs msg
  end.

Definition simplifyLogLine (line : string) : string :=
  let msg := trimLogEnvelope line in
  if String.eqb msg "" then "" else switch cases msg.

(** ** The state of the dashboard *)

Record Feed := mkFeed { simplified : bool; logLines : list string; partialLog : string }.

Definition maxLogLines : nat := 250.

Definition newFeed (simplified : bool) : Feed := mkFeed simplified [] "".

(** The line of the feed for a line of text, if any *)
Definition shownLine (simplified : bool) (line : string) : option string :=
  let line := TrimSpace line in
  if String.eqb line "" then None
  else if simplified then
    let line := simplifyLogLine line in
    if String.eqb line "" then None else Some line
  else Some line.

Definition Write (p : string) (d : Feed) : nat * Feed :=
  let text := partialLog d ++ ReplaceCRLF p in
  let parts := SplitLines text in
  let lines := (logLines d ++ omap (shownLine (simplified d)) (removelast parts))%list in
  let lines := if (maxLogLines <? length lines)%nat then lastN maxLogLines lines else lines in
  (String.length p, mkFeed (simplified d) lines (List.last parts "")).

Definition clearLogs (d : Feed) : Feed := mkFeed (simplified d) [] "".

Definition renderLogs (d : Feed) : list string :=
  match logLines d with
  | [] => [if simplified d then "Waiting for DHT events..." else "Waiting for log messages..."]
  | lines => lines
  end.

(** ** Tables *)

(** [sort.Strings] *)
Definition sortStrings (l : list string) : list string := merge_sort String.le l.

Definition headerCell (text : string) : string := " " ++ text ++ " ".
Definition plainCell (text : string) : string := " " ++ text ++ " ".

Definition renderPeers (peers : list string) : list (list string) :=
  [headerCell "#"; headerCell "Address"] ::
  match peers with
  | [] => [[plainCell "-"; plainCell "No peers discovered yet"]]
  | _ => imap (fun i peer => [plainCell (pretty (i + 1)%nat); plainCell peer]) peers
  end.

Definition taskCells (simplified : bool) (stored : gmap string (list string)) (task : string) : list string :=
  let addrs := sortStrings (default [] (stored !! task)) in
  if simplified then [plainCell task; plainCell (pretty (length addrs))]
  else [plainCell task; plainCell (String.concat ", " addrs); plainCell (pretty (length addrs))].

Definition renderTasks (simplified : bool) (taskNames : list string) (stored : gmap string (list string)) : list (list string) :=
  (if simplified then [headerCell "Task"; headerCell "Pool size"]
   else [headerCell "Task"; headerCell "Addresses"; headerCell "Pool size"]) ::
  match taskNames with
  | [] => [[plainCell "No tasks stored on this node"; plainCell "0"] ++ (if simplified then [] else [plainCell "0"])]%list
  | _ => taskCells simplified stored <$> taskNames
  end.

(** ** A frame *)

(** What [newP2PDashboard] is given *)
Record Settings := mkSettings { proxyListen : string; dhtListen : string; bootstrapNodes : list string; kClosest : Z }.

(** The three counters of the proxy or of the registry *)
Definition Counts : Type := Z * Z * Z.

Record Screen := mkScreen {
  summaryView : string; peersTable : list (list string); tasksTable : list (list string); logView : list string; footerView : string }.

Definition bootstrapText (nodes : list string) : string :=
  match nodes with [] => "none" | _ => String.concat ", " (sortStrings nodes) end.

Definition summary (simplified : bool) (uptime : string) (cfg : Settings) (snap : SnapshotT) (client dht : Counts) : string :=
  let '(clientRegs, clientQueries, clientErrs) := client in
  let '(dhtRegs, dhtQueries, dhtErrs) := dht in
  if simplified then
    "[green::b]DHT VIEW[white:-:-]    [yellow]Uptime:[white] " ++ uptime ++ "    [yellow]Replication (k):[white] " ++ pretty (kClosest cfg) ++ str1 10 ++
    "[yellow]Proxy:[white] " ++ proxyListen cfg ++ "    [yellow]DHT node:[white] " ++ snapAddress snap ++ str1 10 ++
    "[yellow]Peers:[white] " ++ pretty (length (snapPeers snap)) ++ "    [yellow]Tasks on this node:[white] " ++ pretty (snapStorageSize snap)
      ++ "    [yellow]Bootstraps:[white] " ++ bootstrapText (bootstrapNodes cfg) ++ str1 10 ++
    "[yellow]Operations:[white] reg=" ++ pretty clientRegs ++ " query=" ++ pretty clientQueries ++ " err=" ++ pretty clientErrs
      ++ "    [yellow]DHT ops:[white] reg=" ++ pretty dhtRegs ++ " query=" ++ pretty dhtQueries ++ " err=" ++ pretty dhtErrs
  else
    "[red::b]DHT VIEW[white:-:-]    [yellow]Uptime:[white] " ++ uptime ++ "    [yellow]Replication (k):[white] " ++ pretty (kClosest cfg) ++ str1 10 ++
    "[yellow]Proxy listen:[white] " ++ proxyListen cfg ++ "    [yellow]DHT listen:[white] " ++ snapAddress snap ++ str1 10 ++
    "[yellow]Node ID:[white] " ++ snapNodeID snap ++ "    [yellow]Ring size:[white] " ++ pretty (snapRingSize snap)
      ++ "    [yellow]Peers:[white] " ++ pretty (length (snapPeers snap)) ++ str1 10 ++
    "[yellow]Local storage:[white] " ++ pretty (snapStorageSize snap) ++ " task(s)    [yellow]Bootstraps:[white] " ++ bootstrapText (bootstrapNodes cfg) ++ str1 10 ++
    "[yellow]Proxy stats:[white] registers=" ++ pretty clientRegs ++ " queries=" ++ pretty clientQueries ++ " errors=" ++ pretty clientErrs
      ++ "    [yellow]DHT stats:[white] registers=" ++ pretty dhtRegs ++ " queries=" ++ pretty dhtQueries ++ " errors=" ++ pretty dhtErrs.

Definition footer (simplified : bool) : string :=
  if simplified
  then "[green::b]UI MODE: SIMPLIFIED[white:-:-]    [yellow]q[white] quit    [yellow]c[white] clear events    [yellow]r[white] refresh"
  else "[red::b]UI MODE: STANDARD[white:-:-]    [yellow]q[white] quit    [yellow]c[white] clear logs    [yellow]r[white] refresh".

(** [range] is the order in which the map of the stored tasks is ranged
    over; in simplified mode the peers table is left as it is. *)
Definition render (uptime : string) (cfg : Settings) (snap : SnapshotT) (client dht : Counts) (range : list string)
    (d : Feed) (old : Screen) : Screen :=
  mkScreen (summary (simplified d) uptime cfg snap client dht)
           (if simplified d then peersTable old else renderPeers (sortStrings (snapPeers snap)))
           (renderTasks (simplified d) (sortStrings range) (snapTasks snap))
           (renderLogs d) (footer (simplified d)).

(** ** Trimming *)

(** No encoding of a space is a proper prefix of another. *)
Definition prefix_free (ps : list string) : bool :=
  forallb (fun p => forallb (fun q => String.eqb p q || negb (HasPrefix q p)) ps) ps.

Lemma prefix_free_eq ps p q r : prefix_free ps = true -> p ∈ ps -> q ∈ ps -> q = p ++ r -> q = p.
Proof.
  intros Hf Hp Hq ->. unfold prefix_free in Hf. rewrite forallb_forall in Hf. specialize (Hf p (proj1 (list_elem_of_In _ _) Hp)).
  rewrite forallb_forall in Hf. specialize (Hf _ (proj1 (list_elem_of_In _ _) Hq)). apply orb_true_iff in Hf as [E%String.eqb_eq|E]; [done|].
  apply negb_true_iff in E. exfalso. apply not_true_iff_false in E. apply E, HasPrefix_true. by exists r.
Qed.

Lemma app_eq_split (a b c d : string) : a ++ b = c ++ d ->
  (exists x, c = a ++ x /\ b = x ++ d) \/ (exists x, a = c ++ x /\ d = x ++ b).
Proof.
  revert c. induction a as [|x a IH]; intros c E; [left; by exists c|]. destruct c as [|y c]; [right; by exists (String x a)|].
  injection E as <- E. destruct (IH c E) as [(z & -> & ->)|(z & -> & ->)]; [left|right]; by exists z.
Qed.

Lemma app_eq_self (p x : string) : p = p ++ x -> x = "".
Proof. induction p as [|c p IH]; intros E; [done|]. injection E as E. auto. Qed.

Lemma strip_any_app ps s r t : prefix_free ps = true -> strip_any ps s = Some r -> strip_any ps (s ++ t) = Some (r ++ t).
Proof.
  intros Hf Hs. apply strip_any_Some in Hs as (p & Hp & ->). destruct (strip_any ps ((p ++ r) ++ t)) as [r'|] eqn:E.
  - apply strip_any_Some in E as (q & Hq & E). rewrite str_app_assoc in E.
    assert (q = p) as ->.
    { apply app_eq_split in E as [(x & Ex & _)|(x & Ex & _)]; [by eapply prefix_free_eq|symmetry; by eapply prefix_free_eq]. }
    apply app_eq_split in E as [(x & ->%app_eq_self & ->)|(x & ->%app_eq_self & ->)]; done.
  - exfalso. rewrite strip_any_None in E. apply (E p (r ++ t) Hp). by rewrite str_app_assoc.
Qed.

Lemma strip_all_fuel ps n m s : nonempty_all ps -> (String.length s <= n)%nat -> (String.length s <= m)%nat ->
  strip_all ps n s = strip_all ps m s.
Proof.
  intros Hne. revert m s. induction n as [|n IH]; intros m s Hn Hm.
  - destruct s; [|cbn in Hn; lia]. symmetry. apply strip_all_None, strip_any_None. intros p r Hp E. unfold nonempty_all in Hne.
    rewrite Forall_forall in Hne. by destruct p; [apply (Hne _ Hp)|].
  - destruct (strip_any ps s) as [r|] eqn:E; [|by rewrite !strip_all_None].
    apply strip_any_Some in E as Hp. destruct Hp as (p & Hp & ->). unfold nonempty_all in Hne. rewrite Forall_forall in Hne.
    assert (p <> "") as Hpn by auto. destruct p as [|c p]; [done|]. destruct m as [|m]; [cbn in Hm; lia|].
    cbn [strip_all]. rewrite E. cbn [String.append String.length] in Hn, Hm. rewrite str_length_app in Hn, Hm. apply IH; lia.
Qed.

Lemma trim_left_step s r : strip_any space_encodings s = Some r -> trim_left s = trim_left r.
Proof.
  intros E. apply strip_any_Some in E as Hp. destruct Hp as (p & Hp & Es). pose proof space_encodings_nonempty as Hne.
  unfold trim_left. rewrite (strip_all_fuel _ _ (S (String.length s)) s) by (done || lia). cbn [strip_all]. rewrite E.
  apply strip_all_fuel; [done| |lia]. rewrite Es, str_length_app. lia.
Qed.

Lemma spaces_prefix_free : prefix_free space_encodings = true.
Proof. by vm_compute. Qed.

(** A carriage return occurs in no other encoding, and a blank in none. *)
Lemma spaces_last p s : p ∈ space_encodings -> p = s ++ String CR "" -> s = "".
Proof.
  intros Hp ->. assert (H : forallb (fun p => String.eqb p (String CR "") || negb (HasSuffix p (String CR ""))) space_encodings = true) by (by vm_compute).
  rewrite forallb_forall in H. specialize (H _ (proj1 (list_elem_of_In _ _) Hp)). apply orb_true_iff in H as [E%String.eqb_eq|E].
  - destruct s as [|c s]; [done|]. injection E as _ E. by destruct s.
  - apply negb_true_iff, not_true_iff_false in E. exfalso. apply E. unfold HasSuffix. rewrite str_rev_app. apply HasPrefix_true. by exists (str_rev s).
Qed.

Lemma trim_left_CR s : trim_left (s ++ String CR "") = if String.eqb (trim_left s) "" then "" else trim_left s ++ String CR "".
Proof.
  induction s as [s IH] using (well_founded_induction (well_founded_ltof _ String.length)).
  destruct (strip_any space_encodings s) as [r|] eqn:E.
  - rewrite (trim_left_step s r E), (trim_left_step _ _ (strip_any_app _ _ _ (String CR "") spaces_prefix_free E)). apply IH.
    apply strip_any_Some in E as (p & Hp & ->). unfold ltof. rewrite str_length_app. destruct p; [|cbn; lia].
    pose proof space_encodings_nonempty as Hne. unfold nonempty_all in Hne. rewrite Forall_forall in Hne. by destruct (Hne _ Hp).
  - rewrite (trim_left_id s E). destruct s as [|c s]; [done|]. cbn [String.eqb]. apply trim_left_id, strip_any_None.
    intros p r Hp Ep. rewrite strip_any_None in E. apply app_eq_split in Ep as [(x & -> & Ex)|(x & Ex & _)]; [|by eapply E].
    destruct x as [|a x]; [by apply (E _ "" Hp); rewrite !str_app_nil_r|]. injection Ex as <- Ex. destruct x; [|done].
    by pose proof (spaces_last _ (String c s) Hp eq_refl).
Qed.

Lemma TrimSpace_CR s : TrimSpace (s ++ String CR "") = TrimSpace s.
Proof.
  unfold TrimSpace. rewrite trim_left_CR. destruct (String.eqb_spec (trim_left s) "") as [->|_]; [done|].
  unfold trim_right. rewrite str_rev_app, str_length_app, Nat.add_comm. change (str_rev (String CR "")) with (String CR "").
  cbn [String.length Nat.add strip_all].
  change (strip_any (str_rev <$> space_encodings) (String CR "" ++ str_rev (trim_left s))) with (Some (str_rev (trim_left s))). done.
Qed.

(** ** Lines *)

(** The complete lines of a text that continues [cur], and what follows the
    last of them *)
Fixpoint scan (cur s : string) : list string * string :=
  match s with
  | EmptyString => ([], cur)
  | String c s =>
      if Ascii.eqb c LF then let '(ls, rest) := scan "" s in (cur :: ls, rest)
      else scan (cur ++ String c "") s
  end.

Lemma splitByte_scan rcur s : splitByte LF rcur s = ((scan (str_rev rcur) s).1 ++ [(scan (str_rev rcur) s).2])%list.
Proof.
  revert rcur. induction s as [|c s IH]; intros rcur; [done|]. cbn [splitByte scan]. destruct (Ascii.eqb c LF).
  - rewrite IH. change (str_rev "") with "". by destruct (scan "" s).
  - rewrite IH. change (String c rcur) with (String c "" ++ rcur). by rewrite str_rev_app.
Qed.

Lemma SplitLines_scan s : removelast (SplitLines s) = (scan "" s).1 /\ List.last (SplitLines s) "" = (scan "" s).2.
Proof. unfold SplitLines. rewrite splitByte_scan. by rewrite removelast_last, last_last. Qed.

Lemma scan_app cur a b : scan cur (a ++ b) = let '(l1, p1) := scan cur a in let '(l2, p2) := scan p1 b in (l1 ++ l2, p2)%list.
Proof.
  revert cur. induction a as [|c a IH]; intros cur; [cbn; by destruct (scan cur b)|]. cbn [String.append scan]. destruct (Ascii.eqb c LF); [|apply IH].
  rewrite IH. destruct (scan "" a) as [l1 p1]. by destruct (scan p1 b).
Qed.

Lemma scan_partial cur s : has_byte cur LF = false -> has_byte (scan cur s).2 LF = false.
Proof.
  assert (Happ : forall x c, has_byte x LF = false -> Ascii.eqb c LF = false -> has_byte (x ++ String c "") LF = false).
  { intros x c. unfold has_byte. induction x as [|y x IH]; cbn [String.append IndexByte]; intros Hx Hc; [by rewrite Hc|].
    destruct (Ascii.eqb y LF); [done|]. destruct (IndexByte x LF); [done|]. specialize (IH eq_refl Hc). by destruct (IndexByte _ LF). }
  revert cur. induction s as [|c s IH]; intros cur Hc; [done|]. cbn [scan]. destruct (Ascii.eqb c LF) eqn:E.
  - specialize (IH "" eq_refl). by destruct (scan "" s).
  - apply IH, Happ; done.
Qed.

Lemma scan_unbroken cur s : has_byte s LF = false -> scan cur s = ([], cur ++ s).
Proof.
  revert cur. induction s as [|c s IH]; intros cur; [by rewrite str_app_nil_r|]. unfold has_byte. cbn [IndexByte scan].
  destruct (Ascii.eqb c LF); [done|]. intros Hs. rewrite IH by (unfold has_byte; by destruct (IndexByte s LF)). by rewrite str_app_assoc.
Qed.

(** Removing carriage returns before newlines only changes what trimming
    removes. *)
Definition same_trimmed (a b : string) : Prop := TrimSpace a = TrimSpace b.

Lemma ReplaceCRLF_cons2 a b s : ReplaceCRLF (String a (String b s)) =
  if Ascii.eqb a CR && Ascii.eqb b LF then String LF (ReplaceCRLF s) else String a (ReplaceCRLF (String b s)).
Proof. done. Qed.

Lemma scan_ReplaceCRLF cur s :
  Forall2 same_trimmed (scan cur (ReplaceCRLF s)).1 (scan cur s).1 /\ (scan cur (ReplaceCRLF s)).2 = (scan cur s).2.
Proof.
  revert cur. induction s as [s IH] using (well_founded_induction (well_founded_ltof _ String.length)). intros cur.
  assert (Hrefl : forall l, Forall2 same_trimmed l l) by (intros l; induction l; by constructor).
  assert (Hgo : forall c rest, s = String c rest -> let r := ReplaceCRLF rest in
    Forall2 same_trimmed (scan cur (String c r)).1 (scan cur s).1 /\ (scan cur (String c r)).2 = (scan cur s).2).
  { intros c rest -> r. cbn [scan]. destruct (Ascii.eqb c LF); [|apply IH; unfold ltof; cbn; lia].
    destruct (IH rest ltac:(unfold ltof; cbn; lia) "") as [H1 H2]. unfold r. destruct (scan "" (ReplaceCRLF rest)), (scan "" rest). cbn in *.
    split; [by constructor|done]. }
  destruct s as [|a [|b s']]; [done| |].
  - split; [apply Hrefl|done].
  - rewrite ReplaceCRLF_cons2. destruct (Ascii.eqb_spec a CR) as [->|]; cbn [andb]; [|by apply Hgo].
    destruct (Ascii.eqb_spec b LF) as [->|]; [|by apply Hgo].
    destruct (IH s' ltac:(unfold ltof; cbn; lia) "") as [H1 H2]. cbn [scan].
    change (Ascii.eqb LF LF) with true. change (Ascii.eqb CR LF) with false. cbv iota.
    destruct (scan "" (ReplaceCRLF s')), (scan "" s'). cbn in *. split; [|done]. constructor; [|done]. symmetry. apply TrimSpace_CR.
Qed.

Lemma shownLine_trimmed simplified a b : same_trimmed a b -> shownLine simplified a = shownLine simplified b.
Proof. unfold same_trimmed, shownLine. by intros ->. Qed.

Lemma shownLines_trimmed simplified l k : Forall2 same_trimmed l k -> omap (shownLine simplified) l = omap (shownLine simplified) k.
Proof. induction 1 as [|a b l k Hab _ IH]; [done|]. cbn [omap list_omap]. by rewrite (shownLine_trimmed _ a b), IH. Qed.

Lemma lastN_lastN {A} n (l k : list A) : lastN n (lastN n l ++ k)%list = lastN n (l ++ k)%list.
Proof. destruct (Nat.le_ge_cases n (length l)) as [H|H]; [by apply lastN_app|by rewrite (lastN_all n l)]. Qed.

(** One write adds the lines it completes. *)
Lemma Write_lines p d : has_byte (partialLog d) LF = false -> let '(ls, rest) := scan (partialLog d) p in
  (Write p d).2 = mkFeed (simplified d) (lastN maxLogLines (logLines d ++ omap (shownLine (simplified d)) ls)%list) rest.
Proof.
  intros Hp. unfold Write. cbn [snd]. destruct (SplitLines_scan (partialLog d ++ ReplaceCRLF p)) as [-> ->].
  rewrite scan_app, (scan_unbroken "" (partialLog d)) by done. cbn [String.append]. destruct (scan_ReplaceCRLF (partialLog d) p) as [H1 H2].
  destruct (scan (partialLog d) (ReplaceCRLF p)) as [l1 p1], (scan (partialLog d) p) as [l2 p2]. cbn [fst snd app] in *. subst p2.
  rewrite (shownLines_trimmed _ _ _ H1). f_equal. case_match eqn:E; [done|]. apply Nat.ltb_ge in E. by rewrite lastN_all.
Qed.

(** C13: the feed of the dashboard depends only on the bytes written to it.
    However the loggers' output is cut into writes (in the middle of a line,
    of a rune or of a line end), the feed holds the last 250 lines that a
    single pass over the whole text would show, and the text after the last
    newline waits for its end. *)
Theorem feed_of_stream s chunks :
  let d := foldl (fun d p => (Write p d).2) (newFeed s) chunks in
  let stream := String.concat "" chunks in
  logLines d = lastN maxLogLines (omap (shownLine s) (removelast (SplitLines stream))) /\
  partialLog d = List.last (SplitLines stream) "".
Proof.
  cbv zeta. set (stream := String.concat "" chunks). destruct (SplitLines_scan stream) as [-> ->].
  assert (Hcat : stream = foldr String.append "" chunks).
  { unfold stream. clear. induction chunks as [|c [|c' cs] IH]; [done|cbn; by rewrite str_app_nil_r|].
    change (String.concat "" (c :: c' :: cs)) with (c ++ "" ++ String.concat "" (c' :: cs)). by rewrite IH. }
  rewrite Hcat. clear Hcat stream.
  cut (forall d l p, simplified d = s -> logLines d = lastN maxLogLines (omap (shownLine s) l) -> partialLog d = p -> has_byte p LF = false ->
    let d' := foldl (fun d p => (Write p d).2) d chunks in
    let '(ls, rest) := scan p (foldr String.append "" chunks) in
    logLines d' = lastN maxLogLines (omap (shownLine s) (l ++ ls)%list) /\ partialLog d' = rest).
  { intros H. specialize (H (newFeed s) [] "" eq_refl eq_refl eq_refl eq_refl). by destruct (scan "" _). }
  induction chunks as [|c cs IH]; intros d l p Hs Hl Hp Hn; [cbn; by rewrite app_nil_r|].
  cbn [foldl foldr]. rewrite scan_app. pose proof (Write_lines c d) as Hw. rewrite Hp in Hw. specialize (Hw Hn).
  pose proof (scan_partial p c Hn) as Hn'. destruct (scan p c) as [l1 p1]. cbn [snd] in Hn'. rewrite Hw, Hs, Hl, lastN_lastN.
  rewrite <-omap_app. specialize (IH (mkFeed s (lastN maxLogLines (omap (shownLine s) (l ++ l1)%list)) p1) (l ++ l1)%list p1 eq_refl eq_refl eq_refl Hn').
  cbv zeta in IH. destruct (scan p1 _) as [l2 p2]. by rewrite app_assoc.
Qed.

(** ** What the loggers write

    [log.LstdFlags] prints the prefix, the local date and time, and the
    message with a newline; [secs] are the seconds of the local clock. *)

Definition stamp (secs : Z) : string :=
  let d := dateOfDays (secs / 86400)%Z in
  let s := (secs mod 86400)%Z in
  digitsOf 4 (year d) ++ "/" ++ digitsOf 2 (month d) ++ "/" ++ digitsOf 2 (day d) ++ " " ++
  digitsOf 2 (s / 3600)%Z ++ ":" ++ digitsOf 2 (s / 60 mod 60)%Z ++ ":" ++ digitsOf 2 (s mod 60)%Z.

Definition logLine (prefix : string) (secs : Z) (msg : string) : string := prefix ++ stamp secs ++ " " ++ msg ++ String LF "".

(** The prefixes of the loggers of the client, the node, its registry, and
    of the standard logger *)
Definition prefixes : list string := ["[client-proxy] "; "[dht] "; "[dht-registry] "; ""].

Definition printable_year (secs : Z) : Prop := (0 <= year (dateOfDays (secs / 86400)) <= 9999)%Z.

Lemma digitsOf_length n z : String.length (digitsOf n z) = n.
Proof. revert z. induction n as [|n IH]; intros z; [done|]. cbn [digitsOf]. rewrite str_length_app, IH. cbn. lia. Qed.

Lemma stamp_length secs : String.length (stamp secs) = 19%nat.
Proof. unfold stamp. by rewrite !str_length_app, !digitsOf_length. Qed.

Lemma isStamp_stamp secs : printable_year secs -> isStamp (stamp secs) = true.
Proof.
  intros Hy. unfold printable_year, stamp, isStamp in *. destruct (date_days (secs / 86400)) as (_ & Hm & Hd).
  destruct (dateOfDays (secs / 86400)) as [y m d]. cbn [year month day] in *.
  assert (Hs : (0 <= secs mod 86400 < 86400)%Z) by (apply Z.mod_pos_bound; lia). set (s := (secs mod 86400)%Z) in *.
  assert (Hh : (0 <= s / 3600 < 24)%Z) by (split; [apply Z.div_pos|apply Z.div_lt_upper_bound]; lia).
  pose proof (Z.mod_pos_bound (s / 60) 60 ltac:(lia)) as Hmi. pose proof (Z.mod_pos_bound s 60 ltac:(lia)) as Hss.
  assert (Hd31 : (daysIn m y <= 31)%Z) by (unfold daysIn; repeat case_match; lia).
  change 4%nat with (4 + 0)%nat at 1. rewrite getdigits_print by (cbn; lia). cbn [getdigits mbind option_bind]. rewrite Z.add_0_l.
  rewrite skipByte_same. cbn [mbind option_bind]. rewrite getnum_print by lia. cbn [mbind option_bind]. rewrite skipByte_same.
  cbn [mbind option_bind]. rewrite getnum_print by lia. cbn [mbind option_bind]. rewrite skipByte_same.
  cbn [mbind option_bind]. rewrite getnum_print by lia. cbn [mbind option_bind]. rewrite skipByte_same.
  cbn [mbind option_bind]. rewrite getnum_print by lia. cbn [mbind option_bind]. rewrite skipByte_same.
  cbn [mbind option_bind]. rewrite <-(str_app_nil_r (digitsOf 2 (s mod 60))), getnum_print by lia. cbn -[Z.leb Z.ltb].
  rewrite negb_true_iff, !orb_false_iff. split_and!; try (apply Z.leb_gt; lia); apply Z.ltb_ge; lia.
Qed.

(** A message that is not blank and has no space at its ends *)
Definition trimmed (m : string) : Prop := TrimSpace m = m /\ m <> "".

Lemma trimmed_right m : trimmed m -> strip_any (str_rev <$> space_encodings) (str_rev m) = None.
Proof.
  intros [E _]. unfold TrimSpace, trim_right in E. set (t := trim_left m) in E.
  destruct (strip_all_spec (str_rev <$> space_encodings) (String.length t) (str_rev t) space_encodings_rev_nonempty) as [Hr _].
  { by rewrite str_rev_length. }
  apply (f_equal str_rev) in E. rewrite str_rev_involutive in E. by rewrite <-E.
Qed.

(** No encoding of a space but the blank itself contains one. *)
Lemma spaces_blank p x y : p ∈ str_rev <$> space_encodings -> p = x ++ String " " y -> x = "".
Proof.
  intros Hp ->. assert (H : forallb (fun p => String.eqb p " " || negb (Contains p " ")) (str_rev <$> space_encodings) = true) by (by vm_compute).
  rewrite forallb_forall in H. specialize (H _ (proj1 (list_elem_of_In _ _) Hp)). apply orb_true_iff in H as [E%String.eqb_eq|E].
  - destruct x as [|c x]; [done|]. injection E as _ E. by destruct x.
  - apply negb_true_iff, not_true_iff_false in E. exfalso. apply E. clear. induction x as [|c x IH]; [done|]. cbn [String.append Contains].
    by rewrite IH, orb_true_r.
Qed.

(** Text before a blank does not change the end of what follows it. *)
Lemma TrimSpace_before a m : strip_any space_encodings (a ++ String " " m) = None -> trimmed m ->
  TrimSpace (a ++ String " " m) = a ++ String " " m.
Proof.
  intros Ha Hm. unfold TrimSpace. rewrite trim_left_id by done. unfold trim_right.
  rewrite strip_all_None; [by rewrite str_rev_involutive|]. change (String " " m) with (String " " "" ++ m).
  rewrite !str_rev_app, str_app_assoc. change (str_rev (String " " "")) with " ". apply strip_any_None. intros p r Hp E.
  pose proof (trimmed_right m Hm) as Hr. rewrite strip_any_None in Hr.
  apply app_eq_split in E as [(x & Ep & Ex)|(x & Ex & _)]; [|by apply (Hr p x)].
  destruct x as [|c x]; [apply (Hr p "" Hp); rewrite Ep, !str_app_nil_r; reflexivity|]. injection Ex as <- _. apply (spaces_blank p (str_rev m) x Hp) in Ep.
  destruct Hm as [_ Hm]. apply Hm. by rewrite <-(str_rev_involutive m), Ep.
Qed.

Lemma stamp_head secs : exists c s, stamp secs = String c s /\ is_Some (dec_val c).
Proof.
  unfold stamp. destruct (digitsOf_head 3 (year (dateOfDays (secs / 86400)%Z))) as (c & s & -> & Hc). cbn [String.append]. eauto.
Qed.

Lemma take_prefix_length n a b : String.length a = n -> str_take n (a ++ b) = a.
Proof. intros <-. induction a as [|c a IH]; [by destruct b|]. cbn. by rewrite IH. Qed.

Lemma drop_prefix_length n a b : String.length a = n -> str_drop n (a ++ b) = b.
Proof. intros <-. induction a as [|c a IH]; [by destruct b|]. cbn. apply IH. Qed.

Lemma trimStamp_stamp secs m : printable_year secs -> trimmed m -> trimStamp (stamp secs ++ String " " m) = m.
Proof.
  intros Hy [Hm Hne]. unfold trimStamp. rewrite (take_prefix_length 19) by apply stamp_length. rewrite isStamp_stamp by exact Hy.
  rewrite str_length_app, stamp_length. cbn [String.length]. rewrite (proj2 (Nat.leb_le _ _)) by lia. cbn [andb].
  change (String " " m) with (" " ++ m). rewrite <-str_app_assoc, drop_prefix_length; [done|]. by rewrite str_length_app, stamp_length.
Qed.

(** The envelope of a line is exactly what a logger puts around a message. *)
Lemma trimLogEnvelope_line prefix secs m : prefix ∈ prefixes -> printable_year secs -> trimmed m ->
  trimLogEnvelope (prefix ++ stamp secs ++ String " " m) = m.
Proof.
  intros Hp Hy Hm. destruct (stamp_head secs) as (c & s & Es & Hc).
  assert (Hs : TrimSpace (stamp secs ++ String " " m) = stamp secs ++ String " " m).
  { apply TrimSpace_before; [|done]. rewrite Es. by apply digit_no_space. }
  assert (Hnb : Ascii.eqb "[" c = false).
  { destruct Hc as [x Hx]. by destruct c as [[] [] [] [] [] [] [] []]. }
  assert (Hall : TrimSpace (prefix ++ stamp secs ++ String " " m) = prefix ++ stamp secs ++ String " " m).
  { rewrite <-str_app_assoc. apply TrimSpace_before; [|done]. unfold prefixes in Hp. rewrite !elem_of_cons in Hp.
    destruct Hp as [->|[->|[->|[->|Hp]]]]; [reflexivity..| |by apply elem_of_nil in Hp].
    cbn [String.append]. rewrite Es. by apply digit_no_space. }
  unfold trimLogEnvelope. rewrite Hall.
  assert (String.eqb (prefix ++ stamp secs ++ String " " m) "" = false) as -> by (rewrite Es; by destruct prefix).
  assert (trimPrefixTag (prefix ++ stamp secs ++ String " " m) = stamp secs ++ String " " m) as ->; [|by apply trimStamp_stamp].
  unfold prefixes in Hp. rewrite !elem_of_cons in Hp. destruct Hp as [->|[->|[->|[->|Hp]]]]; [exact Hs..| |by apply elem_of_nil in Hp].
  unfold trimPrefixTag, HasPrefix. cbn [String.append]. rewrite Es. cbn [String.append strip_prefix]. by rewrite Hnb.
Qed.

Lemma has_byte_app a b c : has_byte (a ++ b) c = has_byte a c || has_byte b c.
Proof.
  unfold has_byte. induction a as [|x a IH]; [done|]. cbn [String.append IndexByte]. destruct (Ascii.eqb x c); [done|].
  destruct (IndexByte (a ++ b) c), (IndexByte a c), (IndexByte b c); done.
Qed.

Lemma digits_unbroken n z : has_byte (digitsOf n z) LF = false.
Proof.
  revert z. induction n as [|n IH]; intros z; [done|]. cbn [digitsOf]. rewrite has_byte_app, IH. cbn [orb]. unfold has_byte. cbn [IndexByte].
  destruct (Ascii.eqb_spec (dec_digit (z mod 10)) LF) as [E|]; [|done]. pose proof (dec_val_mod z) as Hd. by rewrite E in Hd.
Qed.

Lemma stamp_unbroken secs : has_byte (stamp secs) LF = false.
Proof. unfold stamp. by rewrite !has_byte_app, !digits_unbroken. Qed.

(** What the feed gets for a message of a logger *)
Definition shownMessage (simplified : bool) (prefix : string) (secs : Z) (m : string) : list string :=
  if simplified then (if String.eqb (switch cases m) "" then [] else [switch cases m])
  else [prefix ++ stamp secs ++ " " ++ m].

(** What the loggers of the process report reaches the screen.  A message
    of one line, logged by any of the four loggers at any time of the years 0
    to 9999, adds its one line to the feed: as it was printed, or in
    simplified mode as the rewriting of the bare message, with the prefix,
    the date and the time removed exactly; a message no rule knows is left
    out.  The feed keeps the last 250 lines. *)
Theorem logged_event_shown d prefix secs m : partialLog d = "" -> prefix ∈ prefixes -> printable_year secs ->
  trimmed m -> has_byte m LF = false ->
  (Write (logLine prefix secs m) d).2 =
  mkFeed (simplified d) (lastN maxLogLines (logLines d ++ shownMessage (simplified d) prefix secs m)%list) "".
Proof.
  intros Hd Hp Hy Hm Hn. set (ln := prefix ++ stamp secs ++ String " " m).
  assert (Hln : has_byte ln LF = false).
  { unfold ln. change (String " " m) with (" " ++ m). rewrite !has_byte_app, stamp_unbroken, Hn. unfold prefixes in Hp. rewrite !elem_of_cons in Hp.
    destruct Hp as [->|[->|[->|[->|Hp]]]]; [done..|by apply elem_of_nil in Hp]. }
  assert (Ht : TrimSpace ln = ln).
  { unfold ln. rewrite <-str_app_assoc. apply TrimSpace_before; [|done]. destruct (stamp_head secs) as (c & s & Es & Hc). unfold prefixes in Hp.
    rewrite !elem_of_cons in Hp. destruct Hp as [->|[->|[->|[->|Hp]]]]; [reflexivity..| |by apply elem_of_nil in Hp].
    cbn [String.append]. rewrite Es. by apply digit_no_space. }
  assert (Hne : String.eqb ln "" = false) by (unfold ln; destruct (stamp_head secs) as (c & s & -> & _); by destruct prefix).
  pose proof (Write_lines (logLine prefix secs m) d) as Hw. rewrite Hd in Hw. specialize (Hw eq_refl).
  replace (logLine prefix secs m) with (ln ++ String LF "") in * by (unfold ln, logLine; by rewrite !str_app_assoc).
  rewrite scan_app, scan_unbroken in Hw by done. cbn [scan String.append] in Hw. change (Ascii.eqb LF LF) with true in Hw. cbv iota in Hw.
  rewrite Hw. do 2 f_equal. cbn [omap list_omap app]. f_equal. unfold shownLine. rewrite Ht, Hne. unfold shownMessage.
  destruct (simplified d); [|done]. unfold simplifyLogLine, ln. rewrite trimLogEnvelope_line by done.
  destruct Hm as [_ Hm]. rewrite (proj2 (String.eqb_neq _ _) Hm). by destruct (String.eqb (switch cases m) "").
Qed.

Lemma logged_event_shown_witness :
  (Write (logLine "[client-proxy] " 1709208000 "P2P REGISTER a -> 10.0.0.1:80 (from udp)") (newFeed true)).2 =
  mkFeed true ["REGISTER request: a -> 10.0.0.1:80"] "".
Proof.
  rewrite (logged_event_shown (newFeed true) "[client-proxy] " 1709208000 "P2P REGISTER a -> 10.0.0.1:80 (from udp)").
  - reflexivity.
  - reflexivity.
  - left.
  - vm_compute. split; discriminate.
  - split; [vm_compute; reflexivity|discriminate].
  - reflexivity.
Defined.

(** ** Frames *)

Lemma sortStrings_perm l k : l ≡ₚ k -> sortStrings l = sortStrings k.
Proof.
  intros Hp. unfold sortStrings. apply (StronglySorted_unique String.le).
  - apply (StronglySorted_merge_sort _).
  - apply (StronglySorted_merge_sort _).
  - by rewrite !merge_sort_Permutation.
Qed.

(** A frame does not depend on the order in which maps are ranged over or
    peers listed. *)
Lemma frame_deterministic uptime cfg snap peers cl dh range range' d old :
  range ≡ₚ range' -> peers ≡ₚ snapPeers snap ->
  render uptime cfg (mkSnapshot (snapNodeID snap) (snapAddress snap) (snapRingSize snap) (snapStorageSize snap) peers (snapTasks snap)) cl dh range d old =
  render uptime cfg snap cl dh range' d old.
Proof.
  intros Hr Hp. unfold render, summary. cbn [snapNodeID snapAddress snapRingSize snapStorageSize snapPeers snapTasks].
  by rewrite (sortStrings_perm _ _ Hr), (sortStrings_perm _ _ Hp), (Permutation_length Hp).
Qed.
